(* ===== verification/_CoqProject ===== *)
-Q . S2P
Prelude.v
Os.v
Libc.v
CError.v
Scenario.v
Strlcpy.v
Parse.v
ParseSpec.v
Matchnet.v
Queue.v
Posix.v
SystemV.v
Kernel.v
Fifo.v
PosixSpec.v
SystemVSpec.v
SystemVFifo.v
Engine.v
Command.v
Pf.v
Npf.v
Nftables.v
Getopt.v
Banipd.v
BanipdSpec.v
Options.v
Capsicum.v
Service.v
Cli.v
Vmod.v
Apache.v
