(* ===== verification/Prelude.v ===== *)
(** * banip: a verification development

    banip bans IP addresses.  Clients (a command line tool, a Varnish module, an
    Apache module, a PHP script) send an address or a network as text over a
    local message queue; the daemon [banipd] owns the queue, receives the text,
    parses it and hands the network to an engine, which makes the packet filter
    of the system drop it.  This library models the C sources under [src/] and
    proves what makes them correct, and where they are not, what goes wrong.

    ** How the program is modelled

    A program is a term of the monad [M S A] of [Os.v]: state passing over [S],
    an outcome (a value, [exit], a failed assertion, or undefined behaviour) and
    the trace of the calls made so far.  Calls to the system are the constructors
    of [sys]; what a call answers, and [errno] after it, is given by an
    environment ([Env]) that may depend on the whole history of calls.  Theorems
    quantify over the environment, so they cover every behaviour of the kernel,
    of other processes and of the allocator; documented behaviour a theorem needs
    is a named class over the environment:

    - [MallocOk], [StrdupOk]: [malloc] and [strdup] succeed (the code writes into
      their results without a check);
    - [GaiOk], [GaiSockOk], [GaiNumeric]: a successful [getaddrinfo] gives at least one
      result, with socket addresses of the size of their family, and it accepts the
      numeric addresses that [inet_pton] accepts, with their family;
    - [MqKernel], [SvKernel], [FileKernel]: POSIX queues, System V queues and keys,
      and files that hold an integer, as the manual pages describe them.  Their state
      is computed from the history of calls: a queue exists because it was created, a
      descriptor reaches a queue because [mq_open] gave it for that name, a file holds
      what was written and flushed;
    - [MqMessages], [SvMessages], [StatOk], [StatIs]: the limits of the system on the
      size of messages, unsigned sizes, and System V messages that are terminated;
    - [ReplyBound], [NetlinkRecv]: finitely many answers to a netlink request, none of
      them empty.

    [Scenario.v] and [Kernel.v] have concrete environments that satisfy them, on which
    the witnesses run.  All processes of an example share one history, so descriptors
    and streams are numbered for the whole system.

    Undefined behaviour is an outcome, not an omission: dereferencing NULL,
    freeing what was not allocated, leaving an object's bounds, formatting NULL
    with [%s].  Memory is modelled where the code's behaviour depends on it: the
    message buffers, the [humanrepr] and [filename] arrays, the bytes of the
    address union and of socket addresses, the one [char *error] variable of the
    running program, the aliasing of [char **error] (NULL or that variable).
    Integers are [Z] with their wrap-around written out; an LP64 machine is
    assumed, the byte order is a parameter ([Endian]), as are [__FreeBSD__]
    ([Platform]) and named npf tables ([NpfNamed]).

    ** Files

    - [Prelude.v]: characters, C strings, arrays, tactics.
    - [Os.v]: calls, environments, outcomes, the monad, [wp] and its rules.
    - [Libc.v]: [strtoul], [inet_pton] for both families, [printf] conversions.
    - [CError.v]: [queues/error.c], [queues/error.h]; how traces grow.
    - [Scenario.v]: the environment on which every call succeeds.
    - [Strlcpy.v]: [missing/strlcpy.c].
    - [Parse.v], [ParseSpec.v]: [parse.c], [parse.h]: [parse_ulong], [parse_addr].
    - [Matchnet.v]: the address matching of [parse.c] that stands under [#if 0].
    - [Queue.v]: [queues/queue.h], as the class [QueueOps]; [QueueContract] is what
      its users rely on before a queue is open, [ReceiveContract] what a reader
      relies on, [OwnerContract] what the daemon, which makes, opens, reads and
      closes a queue, relies on.
    - [Fifo.v]: the abstract queue, the interface [FifoQueue] of its
      implementations, and the simulation proved against that interface.
    - [Kernel.v]: the message queues and files of the kernel, from the history of
      calls, and an environment that implements them.
    - [Posix.v], [PosixSpec.v]: [queues/posix.c], an instance of all of these.
    - [SystemV.v], [SystemVSpec.v], [SystemVFifo.v]: [queues/systemv.c], an
      instance of all of these.
    - [Engine.v]: [err.h], [engine.h], [engine.c].
    - [Command.v]: [command.c] and the engines of [dummy.c], [ipset.c],
      [iptables.c].
    - [Pf.v], [Npf.v], [Nftables.v]: the engines of [pf.c], [npf.c], [nftables.c].
    - [Getopt.v]: [getopt_long] as documented: options and other arguments may be
      mixed unless [POSIXLY_CORRECT] is set.
    - [Banipd.v], [BanipdSpec.v]: [banipd.c].  The daemon is verified against
      [OwnerContract] and [EngineContract]; both queues and the engines dummy, pf
      and npf discharge them.
    - [Options.v]: the option tables of [banipd.c].
    - [Capsicum.v]: [queues/capsicum.c], [queues/capsicum.h].
    - [Service.v]: a client, a queue and the daemon together.
    - [Cli.v]: [banip-cli.c] and [pftest.c].
    - [Vmod.v]: [clients/varnish4/vmod_msgsend.c].
    - [Apache.v]: [clients/apache24/mod_banip.c].

    Definitions keep the names of the C functions, with the name of the file in
    front where two files define the same function ([posix_open] and
    [systemv_open] are both [queue_open]).  A long function is split at its
    natural joints, and the pieces are composed in the order of the source.

    ** What the theorems show

    Below, a clean message is one without a slash or with a prefix that is a number
    strictly between 0 and [ULONG_MAX]; on other messages [parse_addr] can leave an
    error pending or run into undefined behaviour, as theorems of their own show.

    - The service: for every interleaving of clients that send clean messages and the
      daemon with pf, on either queue, the packet filter is asked for exactly the
      networks of the messages taken, address and prefix, in order, and no address
      waits longer than the messages before it.
    - The daemon: no undefined behaviour for any command line, any answers but a failed
      [malloc] or [strdup], and any messages up to the first one that is not clean,
      with queues and engines that keep their contracts; the loop stays ready through
      failures, which it logs, and log rotations; before it is entered the rights of
      the superuser are given up for those of [nobody] or [daemon]; a signal undoes
      everything in order, on every answer; every way of writing an option is read
      back.
    - Addresses: a successful [parse_addr] denotes the network of the text, with
      the host bits cleared for both families and byte orders; whatever it leaves
      is a well-formed [addr_t]; the printable form is bounded and has no character
      a shell interprets; every outcome on messages with and without prefix; exactly
      which messages are handled safely; matching compares exactly the bits of the
      prefix.
    - Queues: once opened by an owner and a client, both queues refine a FIFO of
      strings (of ten messages for POSIX, of eight for System V); who creates and
      removes a queue; owner and clients of a System V queue meet at one kernel queue.
    - Engines: pf adds the network before it kills exactly the states of that
      network; the commands of ipset contain nothing else of the message than its
      address; nftables returns when the kernel answers finitely often, but bans a
      constant and takes an acknowledgement for a failure; the registry of engines.
    - Clients: what is sent, what is reported, and the exit status; for Apache, from
      the directives of one server's configuration, through [post_config], to the
      decision on a request.
    - Errors: theorems that pin down wrong behaviour, among them the prefix that is
      not a number (accepted, and fatal at the next error), sizes that cannot be
      set, the ipset and iptables engines, inverted results in the Apache module.

    ** Bounds and fuel

    The loops over lists and strings are structural.  The loop of [parse_addr] that
    fills whole words of the mask has fuel 9: the prefix is a [uint8_t], so it ends
    after at most eight rounds, and [mask_words_ok] shows that the fuel is enough
    for every prefix that is let through.  The loop of [nftables.c] over the
    kernel's answers has its fuel as an argument: [nftables_handle_terminates]
    shows that any amount above the number of answers gives the same result.  The endless
    loop of [banipd] is the step [serve], its iteration [serve_n] for any number of rounds, and the relation
    [loop_step] with signals between rounds.

    ** What is not modelled

    Signals that arrive inside a round rather than between two rounds; the memory
    of the process beyond the objects named above (leaks are not tracked, but for
    the sockets of nftables); the bytes of log lines and of time stamps beyond what
    the calls show; builds with [DEBUG]; the record [nftables_engine], whose
    initialiser puts every function into the wrong field, so that the registry
    takes that engine as a parameter; the PHP example, the tests and the build
    files.  Code under [#if 0] is modelled where it is a function of its own
    ([Matchnet.v], [Capsicum.v]); the fragments inside other functions are left
    out, as in the build, and the [CAP_] macros are the constant [true] there.
    Per-directory rules and virtual hosts of Apache are left out of the theorem on its
    configuration: httpd merges their configurations, and the merge functions read a
    pointer that was never set.  Lengths of strings are taken as unbounded where the
    code keeps them in an [int] ([posix_send]).  libmnl and libnftnl are calls; regular expressions and tables of the Apache
    runtime are parameters of [Apache.v]. *)
From Stdlib Require Import ZArith Lia Ascii.
From stdpp Require Export base list strings pretty numbers.
#[local] Set Default Goal Selector "!".

Open Scope Z_scope.

(** ** Scope and hint databases of the development *)

Declare Scope banip_scope.
Delimit Scope banip_scope with banip.

Create HintDb banip.

(** ** Characters and C strings

    A [string] is the contents of a NUL-terminated C string, without its
    terminator; a [list ascii] is a raw array of [char]. *)

Definition NUL : ascii := Ascii.zero.

Definition code (c : ascii) : Z := Z.of_N (N_of_ascii c).

(** [between a c b] is [a <= c && c <= b] on characters. *)
Definition between (a c b : ascii) : bool := (code a <=? code c) && (code c <=? code b).

Definition is_digit (c : ascii) : bool := between "0" c "9".

(** [isspace] of the C locale: space and the control characters 9 to 13. *)
Definition is_space (c : ascii) : bool :=
  (code c =? 32) || ((9 <=? code c) && (code c <=? 13)).

Definition digit_val (c : ascii) : Z := code c - 48.

Definition strlen (s : string) : Z := Z.of_nat (String.length s).

(** Every character of [s] satisfies [P]. *)
Fixpoint str_all (P : ascii -> bool) (s : string) : bool :=
  match s with
  | EmptyString => true
  | String c s => P c && str_all P s
  end.

(** [strchr(s, c)], as the part before the first [c] and the part after it. *)
Fixpoint strchr_split (c : ascii) (s : string) : option (string * string) :=
  match s with
  | EmptyString => None
  | String d s =>
      if Ascii.eqb c d then Some (EmptyString, s)
      else match strchr_split c s with
           | Some (l, r) => Some (String d l, r)
           | None => None
           end
  end.

Definition chars (s : string) : list ascii := String.list_ascii_of_string s.

Definition of_chars (l : list ascii) : string := String.string_of_list_ascii l.

(** [s] between double quotes, for the messages that show a name. *)
Definition dquote (s : string) : string := String "034" (s +:+ String "034" "").

(** [nul_prefix l] reads a C string from the array [l]: [None] when no NUL
    terminates it inside the array. *)
Fixpoint nul_prefix (l : list ascii) : option string :=
  match l with
  | [] => None
  | c :: l => if Ascii.eqb c NUL then Some EmptyString
              else String c <$> nul_prefix l
  end.

(** [overwrite n src dst] stores [src] into [dst] from offset [n] on. *)
Definition overwrite {A} (n : nat) (src dst : list A) : list A :=
  take n dst ++ src ++ drop (n + length src) dst.

(** ** Lemmas on strings *)

Lemma str_all_app P s t : str_all P (s +:+ t) = str_all P s && str_all P t.
Proof. induction s as [|c s IH]; simpl; [done|]. by rewrite IH, andb_assoc. Qed.

Lemma str_all_impl (P Q : ascii -> bool) s :
  (forall c, P c = true -> Q c = true) -> str_all P s = true -> str_all Q s = true.
Proof.
  intros HPQ. induction s as [|c s IH]; simpl; [done|].
  rewrite !andb_true_iff. intros [Hc Hs]. auto.
Qed.

Lemma str_all_chars P s : str_all P s = forallb P (chars s).
Proof. unfold chars. induction s as [|c s IH]; simpl; [done|]. by rewrite IH. Qed.

Lemma strlen_nonneg s : 0 <= strlen s.
Proof. unfold strlen. lia. Qed.

Lemma strlen_cons c s : strlen (String c s) = 1 + strlen s.
Proof. unfold strlen. simpl. lia. Qed.

Lemma length_append s t : String.length (s +:+ t) = (String.length s + String.length t)%nat.
Proof. induction s as [|c s IH]; simpl; [done|]. by rewrite IH. Qed.

Lemma strlen_app s t : strlen (s +:+ t) = strlen s + strlen t.
Proof. unfold strlen. rewrite length_append. lia. Qed.

Lemma append_nil_r s : s +:+ "" = s.
Proof. induction s as [|c s IH]; [done|]. exact (f_equal (String c) IH). Qed.

Lemma append_assoc s t u : (s +:+ t) +:+ u = s +:+ (t +:+ u).
Proof. induction s as [|c s IH]; [done|]. exact (f_equal (String c) IH). Qed.

Lemma length_chars s : length (chars s) = String.length s.
Proof. unfold chars. induction s as [|c s IH]; simpl; [done|]. by rewrite IH. Qed.

Lemma chars_app s t : chars (s +:+ t) = chars s ++ chars t.
Proof. unfold chars. induction s as [|c s IH]; simpl; [done|]. by rewrite IH. Qed.

Lemma chars_of_chars l : chars (of_chars l) = l.
Proof. apply String.list_ascii_of_string_of_list_ascii. Qed.

Lemma of_chars_chars s : of_chars (chars s) = s.
Proof. apply String.string_of_list_ascii_of_string. Qed.

Lemma strchr_split_Some c s l r :
  strchr_split c s = Some (l, r) ->
  s = l +:+ String c r /\ str_all (fun d => negb (Ascii.eqb c d)) l = true.
Proof.
  revert l r. induction s as [|d s IH]; simpl; intros l r H; [done|].
  destruct (Ascii.eqb_spec c d) as [->|Hne]; simplify_eq/=; [done|].
  destruct (strchr_split c s) as [[l' r']|] eqn:E; simplify_eq/=.
  destruct (IH _ _ eq_refl) as [-> Hl]. split; [done|].
  by rewrite Hl, andb_true_r, negb_true_iff, Ascii.eqb_neq.
Qed.

Lemma strchr_split_None c s :
  strchr_split c s = None <-> str_all (fun d => negb (Ascii.eqb c d)) s = true.
Proof.
  induction s as [|d s IH]; simpl; [done|].
  destruct (Ascii.eqb c d); simpl; [done|].
  rewrite <- IH. destruct (strchr_split c s) as [[l r]|]; split; congruence.
Qed.

Lemma strchr_split_app c l r :
  str_all (fun d => negb (Ascii.eqb c d)) l = true ->
  strchr_split c (l +:+ String c r) = Some (l, r).
Proof.
  induction l as [|d l IH]; simpl.
  - by rewrite Ascii.eqb_refl.
  - rewrite andb_true_iff, negb_true_iff. intros [-> Hl]. by rewrite IH.
Qed.

(** A string without NUL written with its terminator is read back. *)
Lemma nul_prefix_chars s l :
  str_all (fun c => negb (Ascii.eqb c NUL)) s = true ->
  nul_prefix (chars s ++ NUL :: l) = Some s.
Proof.
  unfold chars. induction s as [|c s IH]; simpl; [done|].
  rewrite andb_true_iff, negb_true_iff. intros [-> Hs]. by rewrite IH.
Qed.

Lemma nul_prefix_nul_free l s :
  nul_prefix l = Some s -> str_all (fun c => negb (Ascii.eqb c NUL)) s = true.
Proof.
  revert s. induction l as [|c l IH]; simpl; intros s H; [done|].
  destruct (Ascii.eqb c NUL) eqn:E; simplify_eq/=; [done|].
  destruct (nul_prefix l) as [t|]; simplify_eq/=. rewrite E. simpl. auto.
Qed.

Lemma nul_prefix_length l s :
  nul_prefix l = Some s -> (String.length s < length l)%nat.
Proof.
  revert s. induction l as [|c l IH]; simpl; intros s H; [done|].
  destruct (Ascii.eqb c NUL); simplify_eq/=; [lia|].
  destruct (nul_prefix l) as [t|]; simplify_eq/=. specialize (IH _ eq_refl). lia.
Qed.

(** An array that holds a NUL somewhere holds a C string. *)
Lemma nul_prefix_is_Some l : NUL ∈ l -> is_Some (nul_prefix l).
Proof.
  induction l as [|c l IH]; simpl; intros H; [by apply not_elem_of_nil in H|].
  destruct (Ascii.eqb_spec c NUL) as [|Hne]; [by eexists|].
  apply elem_of_cons in H as [Heq|H]; [congruence|].
  destruct (IH H) as [s ->]. by eexists.
Qed.

(** Reading stops at the first NUL. *)
Lemma nul_prefix_terminated l rest : nul_prefix (l ++ NUL :: rest) = nul_prefix (l ++ [NUL]).
Proof.
  induction l as [|c l IH]; simpl; [done|]. by destruct (Ascii.eqb c NUL); [|rewrite IH].
Qed.

Lemma nul_prefix_more l rest s : nul_prefix l = Some s -> nul_prefix (l ++ rest) = Some s.
Proof.
  revert s. induction l as [|c l IH]; simpl; intros s H; [done|].
  destruct (Ascii.eqb c NUL); [done|]. destruct (nul_prefix l) as [t|]; [|done]. by rewrite (IH t).
Qed.

Lemma nul_prefix_app s l :
  str_all (fun c => negb (Ascii.eqb c NUL)) s = true ->
  nul_prefix (chars s ++ l) = (fun t => s +:+ t) <$> nul_prefix l.
Proof.
  unfold chars. induction s as [|c s IH]; simpl.
  - intros _. by destruct (nul_prefix l).
  - rewrite andb_true_iff, negb_true_iff. intros [-> Hs]. rewrite IH by done.
    by destruct (nul_prefix l).
Qed.

Lemma str_all_take P n s :
  str_all P s = true -> str_all P (of_chars (take n (chars s))) = true.
Proof.
  rewrite !str_all_chars, chars_of_chars. intros Hs.
  rewrite <- (take_drop n (chars s)), forallb_app in Hs. by apply andb_true_iff in Hs as [? _].
Qed.

(** ** Lemmas on arrays *)

Lemma length_overwrite {A} n (src dst : list A) :
  (n + length src <= length dst)%nat -> length (overwrite n src dst) = length dst.
Proof. intros H. unfold overwrite. rewrite !length_app, length_take, length_drop. lia. Qed.

Lemma overwrite_0 {A} (src dst : list A) :
  overwrite 0 src dst = src ++ drop (length src) dst.
Proof. reflexivity. Qed.

Lemma overwrite_nil {A} n (dst : list A) : overwrite n [] dst = dst.
Proof. unfold overwrite. simpl. rewrite Nat.add_0_r. apply take_drop. Qed.

Lemma overwrite_cons {A} n c (l dst : list A) :
  (n < length dst)%nat -> overwrite (S n) l (<[n := c]> dst) = overwrite n (c :: l) dst.
Proof.
  intros Hn. unfold overwrite. rewrite insert_take_drop by done.
  assert (Hlen : length (take n dst) = n) by (rewrite length_take; lia).
  rewrite take_app_ge, drop_app_ge by lia. rewrite Hlen.
  replace (S n - n)%nat with 1%nat by lia.
  replace (S n + length l - n)%nat with (S (length l)) by lia.
  simpl. rewrite <- app_assoc. simpl. rewrite drop_drop.
  do 4 f_equal. lia.
Qed.

Lemma overwrite_snoc {A} n (c : A) (l dst : list A) :
  (n + length l < length dst)%nat ->
  <[(n + length l)%nat := c]> (overwrite n l dst) = overwrite n (l ++ [c]) dst.
Proof.
  revert n dst. induction l as [|d l IH]; intros n dst H; simpl in *.
  - rewrite overwrite_nil, Nat.add_0_r, <- (overwrite_cons n c []) by lia.
    by rewrite overwrite_nil.
  - rewrite <- !(overwrite_cons n d) by lia. rewrite <- IH by (rewrite length_insert; lia).
    f_equal. lia.
Qed.

#[export] Hint Resolve strlen_nonneg : banip.

(** ** Tactics *)

(** Splits every [match]/[if] of the goal or of a hypothesis, cleaning up. *)
Ltac split_cases :=
  repeat (case_match; simplify_eq/=; try done).

(** Turns boolean hypotheses into propositions. *)
Ltac bools :=
  repeat match goal with
  | H : _ && _ = true |- _ => apply andb_true_iff in H; destruct H
  | H : _ || _ = false |- _ => apply orb_false_iff in H; destruct H
  | H : negb _ = true |- _ => apply negb_true_iff in H
  | H : negb _ = false |- _ => apply negb_false_iff in H
  | H : (_ <=? _) = true |- _ => apply Z.leb_le in H
  | H : (_ <=? _) = false |- _ => apply Z.leb_gt in H
  | H : (_ <? _) = true |- _ => apply Z.ltb_lt in H
  | H : (_ <? _) = false |- _ => apply Z.ltb_ge in H
  | H : (_ =? _) = true |- _ => apply Z.eqb_eq in H
  | H : (_ =? _) = false |- _ => apply Z.eqb_neq in H
  end.

(** Eliminates the answers that carry no information. *)
Ltac units := repeat match goal with u : unit |- _ => destruct u end.

(** Opens all existential hypotheses. *)
Ltac destruct_exists := repeat match goal with H : exists _, _ |- _ => destruct H end.
