(* ===== verification/Os.v ===== *)
(** * The operating-system boundary

    The programs of banip are single-threaded C processes.  What they do not
    compute themselves (allocation, message queues, files, ioctls, name
    resolution, shell commands) is a call [sys A] whose answer is chosen by an
    environment: a function of the whole history of earlier calls and answers.
    Every theorem of the development quantifies over that function, so it
    covers every kernel and every interleaving with other processes; documented
    behaviour of a call, where a theorem needs it, is a named hypothesis on the
    environment.

    Programs are terms of the monad [M S A]: state passing over [S], an
    outcome (a value, [exit(3)], or undefined behaviour) and the trace of calls
    made so far, most recent first. *)
From Stdlib Require Import ZArith Lia Ascii.
From S2P Require Import Prelude.
#[local] Set Default Goal Selector "!".

(** ** Data exchanged with the system *)

(** Address families: the two the program names, and any other number. *)
Inductive family := AF_INET | AF_INET6 | AF_OTHER (n : Z).

#[export] Instance family_eq_dec : EqDecision family.
Proof. solve_decision. Defined.

(** One result of [getaddrinfo]: its family and the bytes of its [sockaddr]. *)
Record addrinfo := AddrInfo { ai_family : family; ai_addr : option (list Z) }.

Record mq_attr := MqAttr { mq_maxmsg : Z; mq_msgsize : Z }.

#[export] Instance mq_attr_eq_dec : EqDecision mq_attr.
Proof. solve_decision. Defined.

(** [struct pfr_addr], the entry given to [DIOCRADDADDRS]. *)
Record pfr_addr := PfrAddr { pfra_u : list Z; pfra_af : family; pfra_net : Z }.

(** The part of [struct pfioc_state_kill] the program fills in. *)
Record pfioc_state_kill :=
  Psk { psk_af : family; psk_src_addr : list Z; psk_src_mask : list Z }.

(** The part of [npf_ioctl_table_t] the program fills in; the table is named or
    numbered. *)
Record npf_ioctl_table :=
  Nct { nct_table : string + Z; nct_mask : Z; nct_alen : Z; nct_addr : list Z }.

(** ** Calls *)

Inductive sys : Set -> Type :=
(* allocation: [None] is NULL; an allocated block has arbitrary contents *)
| Malloc (n : Z) : sys (option (list ascii))
| Calloc (n : Z) : sys bool
| Strdup (s : string) : sys bool
(* contents of an uninitialised array or integer variable of automatic storage *)
| Uninit (n : Z) : sys (list ascii)
| UninitInt : sys Z
(* text *)
| Strerror (e : Z) : sys string
| Gai_strerror (e : Z) : sys string
| Stderr (line : string) : sys unit
| Stdout (line : string) : sys unit
| Log (line : string) : sys unit
(* the local time as [strftime] formats it *)
| Now : sys string
(* [time(3)] *)
| Time : sys Z
(* POSIX message queues *)
| Mq_open (name : string) (oflag : Z) (mode : Z) (attr : mq_attr) : sys Z
| Mq_getattr (d : Z) : sys (option mq_attr)
| Mq_receive (d : Z) (size : Z) : sys (option (list ascii))
| Mq_send (d : Z) (msg : list ascii) : sys Z
| Mq_close (d : Z) : sys Z
| Mq_unlink (name : string) : sys Z
(* System V message queues *)
| Ftok (path : string) (id : Z) : sys Z
| Msgget (key : Z) (flags : Z) : sys Z
| Msgctl_stat (qid : Z) : sys (option Z)
| Msgctl_rmid (qid : Z) : sys Z
(* the type and the text of a message *)
| Msgrcv (qid : Z) (size : Z) : sys (option (Z * list ascii))
| Msgsnd (qid : Z) (mtype : Z) (text : list ascii) : sys Z
(* files *)
| Umask (mask : Z) : sys Z
| Fopen (path mode : string) : sys (option Z)
| Freopen (path mode : string) (fp : Z) : sys (option Z)
| Fwrite_int (fp : Z) (v : Z) : sys Z
| Fread_int (fp : Z) : sys (option Z)
| Fprintf (fp : Z) (text : string) : sys unit
| Fflush (fp : Z) : sys unit
| Fclose (fp : Z) : sys unit
| Unlink (path : string) : sys Z
| Open (path : string) (flags : Z) : sys Z
| Close (fd : Z) : sys Z
(* firewalls *)
| Ioctl_DIOCRADDADDRS (fd : Z) (table : string) (addr : pfr_addr) : sys Z
| Ioctl_DIOCKILLSTATES (fd : Z) (psk : pfioc_state_kill) : sys Z
| Ioctl_NPF_TABLE (fd : Z) (nct : npf_ioctl_table) : sys Z
| System (cmd : string) : sys Z
(* libmnl and libnftnl: objects are numbered, 0 is NULL; receiving gives the
   result and the bytes then in the buffer, building the payload the length the
   header has afterwards *)
| Mnl_socket_open (bus : Z) : sys Z
| Mnl_socket_bind (nl groups pid : Z) : sys Z
| Mnl_socket_get_portid (nl : Z) : sys Z
| Mnl_socket_sendto (nl nlh len : Z) : sys Z
| Mnl_socket_recvfrom (nl size : Z) : sys (Z * list ascii)
| Mnl_cb_run (buf : list ascii) (seq portid : Z) : sys Z
| Mnl_socket_close (nl : Z) : sys Z
| Nft_set_alloc : sys Z
| Nft_set_attr_set (set attr : Z) (value : string) : sys unit
| Nft_set_elem_alloc : sys Z
| Nft_set_elem_attr_set (e attr : Z) (value : list Z) : sys unit
| Nft_set_elem_add (set e : Z) : sys unit
| Nft_set_nlmsg_build_hdr (cmd family flags seq : Z) : sys Z
| Nft_set_elems_nlmsg_build_payload (nlh set : Z) : sys Z
| Nft_set_elem_free (e : Z) : sys unit
| Nft_set_free (set : Z) : sys unit
(* capability mode *)
| Cap_ioctls_limit (fd : Z) (cmds : list Z) : sys Z
| Cap_rights_limit (fd : Z) (rights : list Z) : sys Z
| Cap_enter : sys Z
(* name resolution: an error code, or the results in order *)
| Getaddrinfo (node : string) (numeric : bool) : sys (Z + list addrinfo)
(* process *)
| Daemon (noclose : bool) : sys Z
| Getpid : sys Z
| Getuid : sys Z
| Getgrnam (name : string) : sys (option Z)
| Getpwnam (name : string) : sys (option Z)
| Setgid (gid : Z) : sys Z
| Setgroups (gid : Z) : sys Z
| Setuid (uid : Z) : sys Z
| Sigaction (signo : Z) : sys unit
| Signal_dfl (signo : Z) : sys unit
| Kill_self (signo : Z) : sys unit.

(** An event: a call and the answer it got. *)
Inductive event := | Ev {A : Set} (c : sys A) (r : A).

Abbreviation trace := (list event).

(** The environment: the answer to a call after a history, and the value of
    [errno] after the call. *)
Class Env := env_call : forall A : Set, trace -> sys A -> A * Z.

(** ** Outcomes *)

(** Ways a C program leaves the language's guarantees. *)
Inductive ub :=
| NullDeref        (* a NULL pointer is dereferenced *)
| InvalidFree      (* [free] of a pointer that [malloc] did not return *)
| OutOfBounds      (* an access outside an object *)
| NullFormat       (* a NULL argument for [%s] *)
| BadFormat.       (* a conversion without an argument for it *)

#[export] Instance ub_eq_dec : EqDecision ub.
Proof. solve_decision. Defined.

Inductive outcome (A : Type) :=
| Ok (a : A)
| Exit (status : Z)
| Panic            (* a failed assertion *)
| Undef (u : ub).
Arguments Ok {A} a.
Arguments Exit {A} status.
Arguments Panic {A}.
Arguments Undef {A} u.

(** ** The monad *)

Definition M (S A : Type) : Type := S -> trace -> outcome A * S * trace.

#[export] Instance M_ret {S} : MRet (M S) := fun A a s tr => (Ok a, s, tr).

#[export] Instance M_bind {S} : MBind (M S) := fun A B f m s tr =>
  match m s tr with
  | (Ok a, s', tr') => f a s' tr'
  | (Exit n, s', tr') => (Exit n, s', tr')
  | (Panic, s', tr') => (Panic, s', tr')
  | (Undef u, s', tr') => (Undef u, s', tr')
  end.

Definition get {S} : M S S := fun s tr => (Ok s, s, tr).
Definition put {S} (s : S) : M S unit := fun _ tr => (Ok tt, s, tr).
Definition gets {S A} (f : S -> A) : M S A := fun s tr => (Ok (f s), s, tr).
Definition modify {S} (f : S -> S) : M S unit := fun s tr => (Ok tt, f s, tr).
Definition undef {S A} (u : ub) : M S A := fun s tr => (Undef u, s, tr).
Definition exit_ {S A} (n : Z) : M S A := fun s tr => (Exit n, s, tr).
Definition panic {S A} : M S A := fun s tr => (Panic, s, tr).

(** [zoom getp setp m] runs [m] on a part of the state. *)
Definition zoom {S P A} (getp : S -> P) (setp : P -> S -> S) (m : M P A) : M S A :=
  fun s tr =>
    match m (getp s) tr with (o, p, tr') => (o, setp p s, tr') end.

(** The memory every component touches: [errno] and the [char *error] variable
    of the running program. *)
Record proc := Proc { p_errno : Z; p_error : option string }.

#[export] Instance proc_eq_dec : EqDecision proc.
Proof. solve_decision. Defined.

Definition set_errno (e : Z) (p : proc) : proc := Proc e (p_error p).
Definition set_error (e : option string) (p : proc) : proc := Proc (p_errno p) e.

Section Calls.
Context `{EV : !Env}.

(** One call: the environment answers, [errno] is updated, the event logged. *)
Definition syscall {A : Set} (c : sys A) : M proc A := fun p tr =>
  let '(r, e) := env_call A tr c in (Ok r, set_errno e p, Ev c r :: tr).

End Calls.

(** ** Running programs *)

Section Run.
Context {S : Type}.
Implicit Types (s : S) (tr : trace).

Lemma bind_ret {A B} (a : A) (k : A -> M S B) s tr : (mret a ≫= k) s tr = k a s tr.
Proof. done. Qed.

Lemma bind_gets {A B} (f : S -> A) (k : A -> M S B) s tr : (gets f ≫= k) s tr = k (f s) s tr.
Proof. done. Qed.

Lemma bind_modify {B} (f : S -> S) (k : unit -> M S B) s tr :
  (modify f ≫= k) s tr = k tt (f s) tr.
Proof. done. Qed.

Lemma bind_Ok {A B} (m : M S A) (k : A -> M S B) s tr a s' tr' :
  m s tr = (Ok a, s', tr') -> (m ≫= k) s tr = k a s' tr'.
Proof. intros E. unfold mbind, M_bind. by rewrite E. Qed.

Lemma bind_Undef {A B} (m : M S A) (k : A -> M S B) s tr u s' tr' :
  m s tr = (Undef u, s', tr') -> (m ≫= k) s tr = (Undef u, s', tr').
Proof. intros E. unfold mbind, M_bind. by rewrite E. Qed.

Lemma bind_assoc {A B C} (m : M S A) (f : A -> M S B) (k : B -> M S C) s tr :
  ((m ≫= f) ≫= k) s tr = (m ≫= fun a => f a ≫= k) s tr.
Proof. unfold mbind, M_bind. by destruct (m s tr) as [[[a|n| |u] s'] tr']. Qed.
End Run.

Lemma bind_syscall `{EV : !Env} {A : Set} {B} (c : sys A) (k : A -> M proc B) p tr r e :
  env_call A tr c = (r, e) ->
  (syscall c ≫= k) p tr = k r (set_errno e p) (Ev c r :: tr).
Proof. intros E. unfold mbind, M_bind, syscall. by rewrite E. Qed.

(** ** Reasoning about programs

    [wp m Q s tr]: running [m] from [s] after history [tr] ends in an outcome,
    state and trace that satisfy [Q].  Programs are total functions, so this is
    total correctness. *)

Definition wp {S A} (m : M S A) (Q : outcome A -> S -> trace -> Prop) (s : S) (tr : trace)
  : Prop :=
  match m s tr with (o, s', tr') => Q o s' tr' end.

Section Wp.
Context {S : Type}.
Implicit Types (s : S) (tr : trace).

Lemma wp_ret {A} (a : A) Q s tr : Q (Ok a) s tr -> wp (mret a) Q s tr.
Proof. done. Qed.

Lemma wp_bind {A B} (m : M S A) (f : A -> M S B) Q s tr :
  wp m (fun o s' tr' => match o with
                        | Ok a => wp (f a) Q s' tr'
                        | Exit n => Q (Exit n) s' tr'
                        | Panic => Q Panic s' tr'
                        | Undef u => Q (Undef u) s' tr'
                        end) s tr ->
  wp (m ≫= f) Q s tr.
Proof.
  unfold wp, mbind, M_bind. destruct (m s tr) as [[[a|n| |u] s'] tr']; done.
Qed.

Lemma wp_gets {A} (f : S -> A) Q s tr : Q (Ok (f s)) s tr -> wp (gets f) Q s tr.
Proof. done. Qed.

Lemma wp_modify (f : S -> S) Q s tr : Q (Ok tt) (f s) tr -> wp (modify f) Q s tr.
Proof. done. Qed.

Lemma wp_undef {A} u (Q : outcome A -> S -> trace -> Prop) s tr :
  Q (Undef u) s tr -> wp (undef u) Q s tr.
Proof. done. Qed.

Lemma wp_exit {A} n (Q : outcome A -> S -> trace -> Prop) s tr :
  Q (Exit n) s tr -> wp (exit_ n) Q s tr.
Proof. done. Qed.

Lemma wp_panic {A} (Q : outcome A -> S -> trace -> Prop) s tr :
  Q Panic s tr -> wp panic Q s tr.
Proof. done. Qed.

Lemma wp_zoom {P A} (getp : S -> P) setp (m : M P A) Q s tr :
  wp m (fun o p tr' => Q o (setp p s) tr') (getp s) tr ->
  wp (zoom getp setp m) Q s tr.
Proof. unfold wp, zoom. destruct (m (getp s) tr) as [[o p] tr']; done. Qed.

Lemma wp_mono {A} (m : M S A) (Q R : outcome A -> S -> trace -> Prop) s tr :
  (forall o s' tr', Q o s' tr' -> R o s' tr') -> wp m Q s tr -> wp m R s tr.
Proof. unfold wp. destruct (m s tr) as [[o s'] tr']; auto. Qed.

Lemma wp_and {A} (m : M S A) (Q R : outcome A -> S -> trace -> Prop) s tr :
  wp m Q s tr -> wp m R s tr -> wp m (fun o s' tr' => Q o s' tr' /\ R o s' tr') s tr.
Proof. unfold wp. destruct (m s tr) as [[o s'] tr']; auto. Qed.

(** The result of a run satisfies what [wp] establishes. *)
Lemma wp_run {A} (m : M S A) Q s tr o s' tr' :
  wp m Q s tr -> m s tr = (o, s', tr') -> Q o s' tr'.
Proof. unfold wp. intros H E. by rewrite E in H. Qed.

Lemma wp_result {A} (m : M S A) (R : outcome A * S * trace -> Prop) s tr :
  wp m (fun o s' tr' => R (o, s', tr')) s tr -> R (m s tr).
Proof. unfold wp. destruct (m s tr) as [[o s'] tr']; auto. Qed.

Lemma run_wp {A} (m : M S A) (Q : outcome A -> S -> trace -> Prop) s tr :
  (forall o s' tr', m s tr = (o, s', tr') -> Q o s' tr') -> wp m Q s tr.
Proof. unfold wp. destruct (m s tr) as [[o s'] tr']; auto. Qed.
End Wp.

(** The answer to a call is whatever the environment says. *)
Lemma wp_syscall `{EV : !Env} {A : Set} (c : sys A) Q p tr :
  (forall r e, env_call A tr c = (r, e) -> Q (Ok r) (set_errno e p) (Ev c r :: tr)) ->
  wp (syscall c) Q p tr.
Proof. intros HQ. unfold wp, syscall. destruct (env_call A tr c) eqn:E. by apply HQ. Qed.

(** One step of symbolic execution of the program at the head of a [wp] goal. *)
Ltac wp_step :=
  lazymatch goal with
  | |- wp (_ ≫= _) _ _ _ => apply wp_bind
  | |- wp (mret _) _ _ _ => apply wp_ret
  | |- wp (gets _) _ _ _ => apply wp_gets
  | |- wp (modify _) _ _ _ => apply wp_modify
  | |- wp (undef _) _ _ _ => apply wp_undef
  | |- wp (exit_ _) _ _ _ => apply wp_exit
  | |- wp panic _ _ _ => apply wp_panic
  | |- wp (zoom _ _ _) _ _ _ => apply wp_zoom
  | |- wp (syscall _) _ _ _ =>
      let r := fresh "r" in let e := fresh "e" in let H := fresh "Hcall" in
      apply wp_syscall; intros r e H
  | |- wp (if ?b then _ else _) _ _ _ => tryif is_var b then destruct b else destruct b eqn:?
  | |- wp (match ?x with _ => _ end) _ _ _ => tryif is_var x then destruct x else destruct x eqn:?
  end; cbv beta iota; simpl.

Ltac wp_steps := repeat wp_step.
