(* ===== verification/Libc.v ===== *)
(** * The C library functions the program computes with

    Executable definitions of [strtoul] in base 10, [inet_pton] and the
    conversions of [printf] that occur in the sources, with the lemmas the
    components need about them.  [unsigned long] has 64 bits (LP64, the ABI of
    the supported systems). *)
From Stdlib Require Import ZArith Lia Ascii.
From S2P Require Import Prelude.
#[local] Set Default Goal Selector "!".

(** ** strtoul *)

Definition ULONG_MAX : Z := 2 ^ 64 - 1.
Definition ERANGE : Z := 34.

Fixpoint skip_space (s : string) : string :=
  match s with
  | String c s' => if is_space c then skip_space s' else s
  | EmptyString => s
  end.

(** The optional sign: whether it is a minus, and what follows it. *)
Definition take_sign (s : string) : bool * string :=
  match s with
  | String c s' =>
      if Ascii.eqb c "-" then (true, s')
      else if Ascii.eqb c "+" then (false, s') else (false, s)
  | EmptyString => (false, s)
  end.

(** The longest prefix of decimal digits, and the rest. *)
Fixpoint span_digits (s : string) : string * string :=
  match s with
  | String c s' =>
      if is_digit c then let '(ds, r) := span_digits s' in (String c ds, r)
      else (EmptyString, s)
  | EmptyString => (EmptyString, s)
  end.

Fixpoint dec_val (acc : Z) (ds : string) : Z :=
  match ds with
  | EmptyString => acc
  | String c ds => dec_val (10 * acc + digit_val c) ds
  end.

(** Result of [strtoul(s, &endptr, 10)]: the value, whether [endptr != s], the
    string at [endptr], and whether [errno] becomes [ERANGE]. *)
Record strtoul_result := StrtoulResult
  { su_val : Z; su_moved : bool; su_end : string; su_erange : bool }.

Definition strtoul (s : string) : strtoul_result :=
  let '(neg, u) := take_sign (skip_space s) in
  let '(ds, rest) := span_digits u in
  match ds with
  | EmptyString => StrtoulResult 0 false s false
  | _ =>
      let v := dec_val 0 ds in
      if ULONG_MAX <? v then StrtoulResult ULONG_MAX true rest true
      else StrtoulResult (if neg then (- v) mod 2 ^ 64 else v) true rest false
  end.

(** ** inet_pton *)

(** [AF_INET]: four decimal octets without leading zeros, separated by dots.
    [done] are the octets already stored, [cur] the one being read. *)
Fixpoint pton4 (s : string) (done : list Z) (cur : option Z) : option (list Z) :=
  match s with
  | EmptyString =>
      match cur with
      | Some v => if Nat.eqb (length done) 3 then Some (done ++ [v]) else None
      | None => None
      end
  | String c s =>
      if is_digit c then
        match cur with
        | None => pton4 s done (Some (digit_val c))
        | Some v =>
            if v =? 0 then None
            else if 255 <? 10 * v + digit_val c then None
            else pton4 s done (Some (10 * v + digit_val c))
        end
      else if Ascii.eqb c "." then
        match cur with
        | Some v => if Nat.eqb (length done) 3 then None else pton4 s (done ++ [v]) None
        | None => None
        end
      else None
  end.

Definition inet_pton4 (s : string) : option (list Z) := pton4 s [] None.

Definition hex_digit (c : ascii) : option Z :=
  if is_digit c then Some (digit_val c)
  else if between "a" c "f" then Some (code c - 87)
  else if between "A" c "F" then Some (code c - 55)
  else None.

Definition word16 (v : Z) : list Z := [v / 256; v mod 256].

(** The end of [AF_INET6] parsing: the bytes after the double colon move to the
    end of the address and the gap is zero-filled. *)
Definition pton6_finish (tp : list Z) (colonp : option nat) : option (list Z) :=
  match colonp with
  | Some k =>
      if Nat.leb 16 (length tp) then None
      else Some (take k tp ++ replicate (16 - length tp) 0 ++ drop k tp)
  | None => if Nat.eqb (length tp) 16 then Some tp else None
  end.

(** The main loop: [curtok] is the string at the start of the current group,
    [tp] the bytes stored so far, [colonp] the position of the double colon,
    [seen] and [v] the digits and value of the current group. *)
Fixpoint pton6 (s curtok : string) (tp : list Z) (colonp : option nat)
    (seen : nat) (v : Z) : option (list Z) :=
  match s with
  | EmptyString =>
      match seen with
      | O => pton6_finish tp colonp
      | _ => if Nat.ltb 14 (length tp) then None
             else pton6_finish (tp ++ word16 v) colonp
      end
  | String c s' =>
      match hex_digit c with
      | Some d =>
          if Nat.eqb seen 4 then None
          else pton6 s' curtok tp colonp (S seen) (16 * v + d)
      | None =>
          if Ascii.eqb c ":" then
            match seen with
            | O => match colonp with
                   | Some _ => None
                   | None => pton6 s' s' tp (Some (length tp)) 0 0
                   end
            | _ => match s' with
                   | EmptyString => None
                   | _ => if Nat.ltb 14 (length tp) then None
                          else pton6 s' s' (tp ++ word16 v) colonp 0 0
                   end
            end
          else if Ascii.eqb c "." then
            if Nat.ltb 12 (length tp) then None
            else match inet_pton4 curtok with
                 | Some q => pton6_finish (tp ++ q) colonp
                 | None => None
                 end
          else None
      end
  end.

Definition inet_pton6 (s : string) : option (list Z) :=
  match s with
  | EmptyString => None
  | String c s' =>
      if Ascii.eqb c ":" then
        match s' with
        | String c' _ => if Ascii.eqb c' ":" then pton6 s' s' [] None 0 0 else None
        | EmptyString => None
        end
      else pton6 s s [] None 0 0
  end.

(** ** printf *)

Inductive fmt_arg := FStr (s : option string) | FChr (c : ascii) | FInt (n : Z).

Inductive fmt_result := FmtOk (s : string) | FmtNull | FmtBad.

Definition fmt_cons (p : string) (r : fmt_result) : fmt_result :=
  match r with FmtOk s => FmtOk (p +:+ s) | r => r end.

(** The conversions used by the sources: [%s], [%c], [%d] and [%%].  A
    conversion without a matching argument is [FmtBad], a NULL string [FmtNull]. *)
Fixpoint format (f : string) (args : list fmt_arg) : fmt_result :=
  match f with
  | EmptyString => FmtOk EmptyString
  | String "%" (String k f') =>
      if Ascii.eqb k "%" then fmt_cons "%" (format f' args)
      else match args with
           | FStr (Some s) :: args => if Ascii.eqb k "s" then fmt_cons s (format f' args) else FmtBad
           | FStr None :: _ => if Ascii.eqb k "s" then FmtNull else FmtBad
           | FChr c :: args => if Ascii.eqb k "c" then fmt_cons (String c "") (format f' args) else FmtBad
           | FInt n :: args => if Ascii.eqb k "d" then fmt_cons (pretty n) (format f' args) else FmtBad
           | [] => FmtBad
           end
  | String "%" EmptyString => FmtBad
  | String c f' => fmt_cons (String c "") (format f' args)
  end.

Example strtoul_ex : strtoul " +24x" = StrtoulResult 24 true "x" false.
Proof. vm_compute. reflexivity. Qed.
Example pton4_ex : inet_pton4 "192.168.1.10" = Some [192; 168; 1; 10].
Proof. vm_compute. reflexivity. Qed.
Example pton4_ex0 : inet_pton4 "192.168.01.10" = None.
Proof. vm_compute. reflexivity. Qed.
Example pton6_ex : inet_pton6 "2001:db8::ff00:42:8329"
  = Some [32;1;13;184;0;0;0;0;0;0;255;0;0;66;131;41].
Proof. vm_compute. reflexivity. Qed.
Example pton6_ex4 : inet_pton6 "::ffff:1.2.3.4" = Some [0;0;0;0;0;0;0;0;0;0;255;255;1;2;3;4].
Proof. vm_compute. reflexivity. Qed.
Example pton6_ex1 : (inet_pton6 "::", inet_pton6 ":", inet_pton6 "1:::2", inet_pton6 "1:2:3:4:5:6:7:8:",
   inet_pton6 "1::") = (Some (replicate 16 0), None, None, None, Some (0 :: 1 :: replicate 14 0)).
Proof. vm_compute. reflexivity. Qed.

(** ** Facts about [inet_pton] *)

Definition is_byte (b : Z) : Prop := 0 <= b < 256.

Lemma code_range c : 0 <= code c < 256.
Proof.
  unfold code. split; [lia|].
  change 256 with (Z.of_N 256). apply N2Z.inj_lt, N_ascii_bounded.
Qed.

(** Evaluates the codes of the literal characters. *)
Ltac char_codes :=
  repeat match goal with
  | H : context [code (Ascii ?a ?b ?c ?d ?e ?f ?g ?h)] |- _ =>
      let x := constr:(code (Ascii a b c d e f g h)) in
      let y := eval vm_compute in x in change x with y in H
  end.

Lemma digit_val_range c : is_digit c = true -> 0 <= digit_val c <= 9.
Proof. unfold is_digit, between, digit_val. intros. bools. char_codes. lia. Qed.

Lemma hex_digit_range c d : hex_digit c = Some d -> 0 <= d <= 15.
Proof.
  unfold hex_digit. intros H.
  destruct (is_digit c) eqn:E1; simplify_eq; [apply digit_val_range in E1; lia|].
  destruct (between "a" c "f") eqn:E2; simplify_eq.
  { unfold between in E2. bools. char_codes. lia. }
  destruct (between "A" c "F") eqn:E3; simplify_eq.
  unfold between in E3. bools. char_codes. lia.
Qed.

(** The characters an address may contain. *)
Definition addr4_char (c : ascii) : bool := is_digit c || Ascii.eqb c ".".
Definition addr_char (c : ascii) : bool :=
  is_digit c || between "a" c "f" || between "A" c "F" || Ascii.eqb c "." || Ascii.eqb c ":".

Lemma addr4_char_addr c : addr4_char c = true -> addr_char c = true.
Proof.
  unfold addr4_char, addr_char. intros [->| ->]%orb_true_iff; [done|].
  by rewrite !orb_true_r.
Qed.

(** Digits that can still be written in the current octet: none after a zero,
    three in an empty octet. *)
Definition room4 (cur : option Z) : Z :=
  match cur with
  | None => 3
  | Some v => if v =? 0 then 0 else if v <=? 9 then 2 else if v <=? 99 then 1 else 0
  end.

Lemma room4_nonneg cur : 0 <= room4 cur.
Proof. destruct cur as [v|]; simpl; repeat case_match; lia. Qed.

Lemma pton4_spec s done cur q :
  pton4 s done cur = Some q ->
  Forall is_byte done -> (forall v, cur = Some v -> is_byte v) ->
  (length done <= 3)%nat ->
  length q = 4%nat /\ Forall is_byte q /\ str_all addr4_char s = true
  /\ strlen s <= room4 cur + 4 * (3 - Z.of_nat (length done)).
Proof.
  revert done cur. induction s as [|c s IH]; simpl; intros done cur H Hd Hc Hl.
  - destruct cur as [v|]; [|done].
    destruct (Nat.eqb_spec (length done) 3) as [E|]; simplify_eq.
    rewrite length_app, Forall_app, Forall_singleton.
    pose proof (room4_nonneg (Some v)). change (strlen "") with 0.
    split; [cbn [length]; lia|]. split; [by auto|]. split; [done|lia].
  - rewrite strlen_cons. destruct (is_digit c) eqn:Ed.
    + pose proof (digit_val_range c Ed) as Hr. unfold addr4_char. rewrite Ed. simpl.
      destruct cur as [v|].
      * destruct (Z.eqb_spec v 0) as [|Hv]; [done|].
        destruct (Z.ltb_spec 255 (10 * v + digit_val c)); [done|].
        pose proof (Hc v eq_refl) as Hb. unfold is_byte in Hb.
        destruct (IH _ _ H Hd) as (?&?&?&Hs); [|done|].
        { intros w [= <-]. unfold is_byte. lia. }
        repeat split; auto. unfold room4 in *. repeat case_match; bools; lia.
      * destruct (IH _ _ H Hd) as (?&?&?&Hs); [|done|].
        { intros w [= <-]. unfold is_byte. lia. }
        repeat split; auto. unfold room4 in *. repeat case_match; bools; lia.
    + unfold addr4_char. rewrite Ed. simpl.
      destruct (Ascii.eqb c "."); [|done]. destruct cur as [v|]; [|done].
      destruct (Nat.eqb_spec (length done) 3); [done|].
      destruct (IH _ _ H) as (?&?&?&Hs); [| |rewrite length_app; simpl; lia|].
      { rewrite Forall_app, Forall_singleton. auto. }
      { done. }
      repeat split; auto. rewrite length_app in Hs. unfold room4 at 1 in Hs.
      pose proof (room4_nonneg (Some v)). cbn [length] in Hs. lia.
Qed.

Lemma inet_pton4_spec s q :
  inet_pton4 s = Some q ->
  length q = 4%nat /\ Forall is_byte q /\ str_all addr_char s = true /\ strlen s <= 15.
Proof.
  intros H. apply pton4_spec in H as (?&?&Hs&?); [|done|done|simpl; lia].
  split; [done|]. split; [done|]. split; [|simpl in *; lia].
  eapply str_all_impl; [apply addr4_char_addr|done].
Qed.

Lemma hex_digit_char c d : hex_digit c = Some d -> addr_char c = true.
Proof.
  unfold hex_digit, addr_char.
  destruct (is_digit c), (between "a" c "f"), (between "A" c "F"); done.
Qed.

(** The value of a group with [seen] digits. *)
Definition group_ok (seen : nat) (v : Z) : Prop := 0 <= v < 16 ^ Z.of_nat seen.

Lemma group_ok_snoc seen v d :
  group_ok seen v -> 0 <= d <= 15 -> group_ok (S seen) (16 * v + d).
Proof. unfold group_ok. rewrite Nat2Z.inj_succ, Z.pow_succ_r by lia. lia. Qed.

Lemma word16_bytes seen v : (seen <= 4)%nat -> group_ok seen v -> Forall is_byte (word16 v).
Proof.
  unfold group_ok, word16, is_byte. intros Hs Hv.
  assert (16 ^ Z.of_nat seen <= 16 ^ 4) by (apply Z.pow_le_mono_r; lia).
  change (16 ^ 4) with 65536 in *.
  repeat constructor; try apply Z.mod_pos_bound; try apply Z.div_pos; try lia.
  apply Z.div_lt_upper_bound; lia.
Qed.

Lemma pton6_finish_spec tp colonp q :
  pton6_finish tp colonp = Some q -> Forall is_byte tp ->
  (forall k, colonp = Some k -> (k <= length tp)%nat) ->
  length q = 16%nat /\ Forall is_byte q
  /\ (length tp <= match colonp with Some _ => 15 | None => 16 end)%nat.
Proof.
  unfold pton6_finish. intros H Ht Hk. destruct colonp as [k|].
  - specialize (Hk k eq_refl). destruct (Nat.leb_spec 16 (length tp)); simplify_eq.
    split; [rewrite !length_app, length_take, length_drop, length_replicate; lia|].
    split; [|lia]. rewrite !Forall_app. split_and!.
    + by apply Forall_take.
    + apply Forall_replicate. unfold is_byte. lia.
    + by apply Forall_drop.
  - destruct (Nat.eqb_spec (length tp) 16); simplify_eq. repeat split; auto; lia.
Qed.

(** Twice the number of characters that can still follow: five characters for
    each two bytes not yet stored, five more while no double colon has been seen
    (an IPv4 tail is 15 characters long for two groups). *)
Definition room6 (tp : list Z) (colonp : option nat) (seen : nat) : Z :=
  5 * (16 - Z.of_nat (length tp)) - 2 * Z.of_nat seen
  + match colonp with Some _ => 0 | None => 10 end.

Lemma pton6_spec s curtok tp colonp seen v q :
  pton6 s curtok tp colonp seen v = Some q ->
  Forall is_byte tp -> group_ok seen v -> (seen <= 4)%nat ->
  Nat.Even (length tp) ->
  (forall k, colonp = Some k -> (k <= length tp)%nat) ->
  (exists pre, curtok = pre +:+ s /\ String.length pre = seen) ->
  length q = 16%nat /\ Forall is_byte q /\ str_all addr_char s = true
  /\ 2 * strlen s <= room6 tp colonp seen.
Proof.
  revert curtok tp colonp seen v. induction s as [|c s IH];
    cbn [pton6]; intros curtok tp colonp seen v H Htp Hv Hseen [m Hm] Hk (pre&->&Hpre).
  - change (strlen "") with 0. unfold room6.
    destruct seen as [|seen'].
    + apply pton6_finish_spec in H as (?&?&Hl); auto.
      split_and!; auto. destruct colonp; cbv beta iota in *; lia.
    + destruct (Nat.ltb_spec 14 (length tp)); [done|].
      apply pton6_finish_spec in H as (?&?&_); first last.
      { intros k ->. specialize (Hk k eq_refl). rewrite length_app. lia. }
      { apply Forall_app. split; [done|]. by eapply word16_bytes. }
      split_and!; auto. destruct colonp; cbv beta iota in *; lia.
  - rewrite strlen_cons. cbn [str_all].
    destruct (hex_digit c) as [d|] eqn:Ed.
    { destruct (Nat.eqb_spec seen 4); [done|].
      apply IH in H as (?&?&Hs&Hl); auto; first last.
      { exists (pre +:+ String c ""). rewrite append_assoc, length_append. simpl. split; [done|lia]. }
      { by exists m. } { lia. } { eapply group_ok_snoc; eauto using hex_digit_range. }
      rewrite Hs, (hex_digit_char _ _ Ed). split_and!; auto. unfold room6 in *. destruct colonp; cbv beta iota in *; lia. }
    destruct (Ascii.eqb_spec c ":") as [->|_].
    { destruct seen as [|seen'].
      - destruct colonp as [|]; [done|].
        apply IH in H as (?&?&Hs&Hl); [|done|done|lia|by exists m|by intros k [= <-]|by exists ""].
        rewrite Hs. split_and!; auto. unfold room6 in *. lia.
      - destruct s as [|c' s']; [done|]. destruct (Nat.ltb_spec 14 (length tp)); [done|].
        apply IH in H as (?&?&Hs&Hl); [| | | | | |by exists ""]; first last.
        { intros k ->. specialize (Hk k eq_refl). rewrite length_app. lia. }
        { exists (S m). rewrite length_app. simpl. lia. } { lia. } { done. }
        { apply Forall_app. split; [done|]. by eapply word16_bytes. }
        rewrite Hs. split_and!; auto. unfold room6 in *. rewrite length_app in Hl.
        cbn [length word16] in Hl. destruct colonp; cbv beta iota in *; lia. }
    destruct (Ascii.eqb_spec c ".") as [->|_]; [|done].
    destruct (Nat.ltb_spec 12 (length tp)); [done|].
    destruct (inet_pton4 (pre +:+ String "." s)) as [q4|] eqn:E4; [|done].
    apply inet_pton4_spec in E4 as (Hl4&Hq4&Hc4&Hs4).
    rewrite str_all_app in Hc4. cbn [str_all] in Hc4. apply andb_true_iff in Hc4 as [_ Hc4].
    rewrite strlen_app, strlen_cons in Hs4. unfold strlen at 1 in Hs4.
    apply pton6_finish_spec in H as (?&?&Hl); first last.
    { intros k ->. specialize (Hk k eq_refl). rewrite length_app. lia. }
    { by apply Forall_app. }
    rewrite length_app in Hl. split_and!; auto. unfold room6. destruct colonp; cbv beta iota in *; lia.
Qed.

Lemma inet_pton6_spec s q :
  inet_pton6 s = Some q ->
  length q = 16%nat /\ Forall is_byte q /\ str_all addr_char s = true /\ strlen s <= 45.
Proof.
  assert (Hmain : forall t r, pton6 t t [] None 0 0 = Some r ->
            length r = 16%nat /\ Forall is_byte r /\ str_all addr_char t = true /\ strlen t <= 45).
  { intros t r H.
    apply pton6_spec in H as (?&?&?&Hs); [|done|done|lia|by exists 0%nat|done|by exists ""].
    split_and!; auto. unfold room6 in Hs. simpl in Hs. lia. }
  unfold inet_pton6. destruct s as [|c s]; [done|].
  destruct (Ascii.eqb_spec c ":") as [->|_]; [|apply Hmain].
  destruct s as [|c' s]; [done|]. destruct (Ascii.eqb_spec c' ":") as [->|_]; [|done].
  intros H. cbn in H.
  apply pton6_spec in H as (?&?&Hs&Hl);
    [|done|done|lia|by exists 0%nat|by intros k [= <-]|by exists ""].
  split_and!; auto. rewrite !strlen_cons. unfold room6 in Hl. simpl in Hl. lia.
Qed.
