(* ===== verification/CError.v ===== *)
(** * Error messages: [queues/error.c] and [queues/error.h]

    A function that can fail takes a [char **error].  It is NULL or the address
    of the one [char *error] variable of the running program, which [proc]
    holds.  A build without [DEBUG] is modelled. *)
From Stdlib Require Import ZArith Lia Ascii.
From S2P Require Import Prelude Os.
#[local] Set Default Goal Selector "!".

(** A [char **error] argument. *)
Inductive errp := ErrNull | ErrVar.

Section Error.
Context `{EV : !Env}.

(** The message is already formatted.  A second message while the first is
    still there calls [free(error)], on the address of the variable itself. *)
Definition _error_set (error : errp) (msg : string) : M proc unit :=
  match error with
  | ErrNull => mret tt
  | ErrVar =>
      old ← gets p_error;
      match old with
      | Some prev =>
          syscall (Stderr ("Warning: overwrite attempt of a previous error: " +:+ prev));;
          undef InvalidFree
      | None =>
          block ← syscall (Malloc (strlen msg + 1));
          match block with
          | None => undef NullDeref
          | Some _ => modify (set_error (Some msg))
          end
      end
  end.

Definition error_free (error : errp) : M proc unit :=
  match error with
  | ErrNull => panic
  | ErrVar => modify (set_error None)
  end.

Definition set_generic_error (error : errp) (msg : string) : M proc unit :=
  _error_set error msg.

(** [set_system_error] appends the text of the current [errno]. *)
Definition set_system_error (error : errp) (msg : string) : M proc unit :=
  e ← gets p_errno;
  text ← syscall (Strerror e);
  _error_set error (msg +:+ ": " +:+ text).

Definition set_malloc_error (error : errp) (size : Z) : M proc unit :=
  set_generic_error error ("malloc(3) failed to allocate " +:+ pretty size +:+ " bytes").

Definition set_buffer_overflow_error (error : errp) (src_name src dst_name : string)
    (dst_cap : Z) : M proc unit :=
  set_generic_error error
    ("buffer overflow: " +:+ src_name +:+ " (" +:+ dquote src +:+ ") doesn't fit into " +:+ dst_name +:+ " (" +:+ pretty (strlen src + 1) +:+ " > " +:+ pretty dst_cap +:+ ")").
End Error.

Arguments _error_set : simpl never.
Arguments set_system_error : simpl never.

(** [malloc] succeeds: what the error paths rely on, since they format the
    message into the new block without a check. *)
Class MallocOk `{EV : !Env} : Prop :=
  malloc_ok : forall tr n, exists block e,
    env_call _ tr (Malloc n) = (Some block, e).

(** [strdup] succeeds: what [parse_addr] relies on, since it writes into the copy
    without a check. *)
Class StrdupOk `{EV : !Env} : Prop :=
  strdup_ok : forall tr s, exists e, env_call _ tr (Strdup s) = (true, e).

(** A successful [getaddrinfo] gives at least one result. *)
Class GaiOk `{EV : !Env} : Prop :=
  gai_ok : forall tr node numeric e, env_call _ tr (Getaddrinfo node numeric) <> (inr [], e).

(** How a trace grows: [tr'] extends [tr] by calls that all satisfy [P]. *)
Inductive grows (P : forall A : Set, sys A -> Prop) (tr : trace) : trace -> Prop :=
| grows_refl : grows P tr tr
| grows_ev {A : Set} (c : sys A) (r : A) tr' :
    P A c -> grows P tr tr' -> grows P tr (Ev c r :: tr').

Lemma grows_trans P tr1 tr2 tr3 : grows P tr1 tr2 -> grows P tr2 tr3 -> grows P tr1 tr3.
Proof. intros H12. induction 1; auto using grows. Qed.

Lemma grows_impl (P Q : forall A : Set, sys A -> Prop) tr tr' :
  (forall A c, P A c -> Q A c) -> grows P tr tr' -> grows Q tr tr'.
Proof. intros HPQ. induction 1; constructor; auto. Qed.

#[export] Hint Constructors grows : banip.

(** The calls that only report: they change neither files, queues nor firewalls. *)
Definition reporting (A : Set) (c : sys A) : Prop :=
  match c with
  | Malloc _ | Strerror _ | Gai_strerror _ | Stderr _ => True
  | _ => False
  end.

Section Facts.
Context `{EV : !Env}.
Implicit Types (p : proc) (tr : trace).

(** With the variable empty and memory available, the message is stored. *)
Lemma wp_error_set `{!MallocOk} msg (Q : outcome unit -> proc -> trace -> Prop) p tr :
  p_error p = None ->
  (forall e tr', grows reporting tr tr' -> Q (Ok tt) (Proc e (Some msg)) tr') ->
  wp (_error_set ErrVar msg) Q p tr.
Proof.
  intros Hp HQ. unfold _error_set. repeat wp_step.
  - by rewrite Hp in Heqo.
  - apply HQ. repeat constructor.
  - destruct (malloc_ok tr (strlen msg + 1)) as (b & e' & Hm). rewrite Hm in Hcall. congruence.
Qed.

Lemma error_set_run `{!MallocOk} msg p tr :
  p_error p = None ->
  exists e tr', _error_set ErrVar msg p tr = (Ok tt, Proc e (Some msg), tr')
                /\ grows reporting tr tr'.
Proof.
  intros Hp. apply (wp_result _ (fun res => exists e tr',
    res = (Ok tt, Proc e (Some msg), tr') /\ grows reporting tr tr')).
  apply wp_error_set; eauto.
Qed.

Lemma wp_system_error `{!MallocOk} msg (Q : outcome unit -> proc -> trace -> Prop) p tr :
  p_error p = None ->
  (forall e text tr', grows reporting tr tr' ->
    Q (Ok tt) (Proc e (Some (msg +:+ ": " +:+ text))) tr') ->
  wp (set_system_error ErrVar msg) Q p tr.
Proof.
  intros Hp HQ. unfold set_system_error. wp_step. wp_step. wp_step. wp_step.
  apply wp_error_set; [done|]. intros e' tr' Hg. apply HQ.
  eapply grows_trans; [|done]. repeat constructor.
Qed.

(** The usual error branch: report, then return [a]. *)
Lemma wp_report_generic `{!MallocOk} {A} msg (a : A) Q p tr :
  p_error p = None ->
  (forall p' tr', p_error p' = Some msg -> grows reporting tr tr' -> Q (Ok a) p' tr') ->
  wp (_error_set ErrVar msg ≫= fun _ => mret a) Q p tr.
Proof. intros Hp HQ. apply wp_bind, wp_error_set; [done|]. intros. apply wp_ret. by apply HQ. Qed.

Lemma wp_report_system `{!MallocOk} {A} msg (a : A) Q p tr :
  p_error p = None ->
  (forall p' tr', is_Some (p_error p') -> grows reporting tr tr' -> Q (Ok a) p' tr') ->
  wp (set_system_error ErrVar msg ≫= fun _ => mret a) Q p tr.
Proof.
  intros Hp HQ. apply wp_bind, wp_system_error; [done|]. intros. apply wp_ret.
  apply HQ; [by eexists|done].
Qed.

(** In any case only reporting calls are made, and [exit] is not called. *)
Lemma wp_error_set_any error msg (Q : outcome unit -> proc -> trace -> Prop) p tr :
  (forall o p' tr', grows reporting tr tr' -> (o = Ok tt \/ exists u, o = Undef u) ->
    Q o p' tr') ->
  wp (_error_set error msg) Q p tr.
Proof.
  intros HQ. unfold _error_set. destruct error; [apply HQ; auto; constructor|].
  wp_steps; apply HQ; eauto; repeat constructor.
Qed.

Lemma wp_system_error_any error msg (Q : outcome unit -> proc -> trace -> Prop) p tr :
  (forall o p' tr', grows reporting tr tr' -> (o = Ok tt \/ exists u, o = Undef u) ->
    Q o p' tr') ->
  wp (set_system_error error msg) Q p tr.
Proof.
  intros HQ. unfold set_system_error. wp_step. wp_step. wp_step. wp_step.
  apply wp_error_set_any. intros o p' tr' Hg Ho. apply HQ; [|done].
  eapply grows_trans; [|done]. repeat constructor.
Qed.

(** A message over an earlier one never returns. *)
Lemma wp_error_set_twice msg old (Q : outcome unit -> proc -> trace -> Prop) p tr :
  p_error p = Some old ->
  (forall e, Q (Undef InvalidFree) (set_errno e p)
     (Ev (Stderr ("Warning: overwrite attempt of a previous error: " +:+ old)) tt :: tr)) ->
  wp (_error_set ErrVar msg) Q p tr.
Proof.
  intros Hp HQ. unfold _error_set. wp_step. wp_step. rewrite Hp. repeat wp_step.
  destruct r. apply HQ.
Qed.

(** With a NULL pointer nothing happens. *)
Lemma wp_error_set_null msg (Q : outcome unit -> proc -> trace -> Prop) p tr :
  Q (Ok tt) p tr -> wp (_error_set ErrNull msg) Q p tr.
Proof. done. Qed.
End Facts.

(** ** The file creation mask

    Both queue implementations change it while they create a queue. *)

(** The file creation mask set last. *)
Fixpoint umask_of (tr : trace) : option Z :=
  match tr with
  | [] => None
  | Ev c _ :: tr => match c with Umask m => Some m | _ => umask_of tr end
  end.

(** Calls that do not set the mask. *)
Definition no_umask (A : Set) (c : sys A) : Prop :=
  match c with Umask _ => False | _ => True end.

Lemma umask_of_grows tr tr' : grows no_umask tr tr' -> umask_of tr' = umask_of tr.
Proof. induction 1 as [|A c r tr' Hc _ IH]; [done|]. by destruct c. Qed.

Lemma reporting_no_umask A c : reporting A c -> no_umask A c.
Proof. by destruct c. Qed.

Lemma umask_of_reporting tr tr' : grows reporting tr tr' -> umask_of tr' = umask_of tr.
Proof. intros Hg. eapply umask_of_grows, grows_impl; [apply reporting_no_umask|done]. Qed.

Section Umask.
Context `{EV : !Env}.

(** After the umask is restored, reporting leaves it alone. *)
Lemma wp_report_umask {A} error msg (a : A) m p tr :
  umask_of tr = m ->
  wp (set_system_error error msg ≫= fun _ => mret a) (fun _ _ tr' => umask_of tr' = m) p tr.
Proof.
  intros Hm. apply wp_bind, wp_system_error_any. intros o p' tr' Hg Ho.
  apply umask_of_reporting in Hg. destruct Ho as [->|[u ->]]; [apply wp_ret|]; congruence.
Qed.

Lemma wp_report_generic_umask {A} error msg (a : A) m p tr :
  umask_of tr = m ->
  wp (_error_set error msg ≫= fun _ => mret a) (fun _ _ tr' => umask_of tr' = m) p tr.
Proof.
  intros Hm. apply wp_bind, wp_error_set_any. intros o p' tr' Hg Ho.
  apply umask_of_reporting in Hg. destruct Ho as [->|[u ->]]; [apply wp_ret|]; congruence.
Qed.
End Umask.
