(* ===== verification/Scenario.v ===== *)
(** * A concrete environment

    A system on which every call succeeds, with numeric name resolution computed
    by [inet_pton].  It instantiates the environment in the examples and
    witnesses of the development; [override] replaces chosen answers. *)
From Stdlib Require Import ZArith Lia Ascii.
From S2P Require Import Prelude Os Libc CError.
#[local] Set Default Goal Selector "!".

(** The bytes of the [sockaddr] of an address. *)
Definition sockaddr_bytes (f : family) (q : list Z) : list Z :=
  match f with
  | AF_INET => [16; 2; 0; 0] ++ q ++ replicate 8 0
  | _ => [28; 28; 0; 0; 0; 0; 0; 0] ++ q ++ replicate 4 0
  end.

Definition resolve (node : string) : Z + list addrinfo :=
  match inet_pton4 node, inet_pton6 node with
  | Some q, _ => inr [AddrInfo AF_INET (Some (sockaddr_bytes AF_INET q))]
  | None, Some q => inr [AddrInfo AF_INET6 (Some (sockaddr_bytes AF_INET6 q))]
  | None, None => inl 8
  end.

Definition default_answer (A : Set) (c : sys A) : A :=
  match c in sys A return A with
  | Malloc n => Some (replicate (Z.to_nat n) "?"%char)
  | Calloc _ => true
  | Strdup _ => true
  | Uninit n => replicate (Z.to_nat n) "?"%char
  | UninitInt => 12345
  | Strerror _ => "error"
  | Gai_strerror _ => "Name does not resolve"
  | Stderr _ | Stdout _ | Log _ => tt
  | Now => "2015-01-01 00:00:00"
  | Time => 1420070400
  | Mq_open _ _ _ _ => 3
  | Mq_getattr _ => Some (MqAttr 10 1024)
  | Mq_receive _ _ => Some (chars "1.2.3.4")
  | Mq_send _ _ | Mq_close _ | Mq_unlink _ => 0
  | Ftok _ _ => 77
  | Msgget _ _ => 5
  | Msgctl_stat _ => Some 2048
  | Msgctl_rmid _ => 0
  | Msgrcv _ _ => Some (1, chars "1.2.3.4" ++ [NUL])
  | Msgsnd _ _ _ => 0
  | Umask _ => 18
  | Fopen _ _ => Some 4
  | Freopen _ _ fp => Some fp
  | Fwrite_int _ _ => 1
  | Fread_int _ => Some 98
  | Fprintf _ _ | Fflush _ | Fclose _ => tt
  | Unlink _ => 0
  | Open _ _ => 6
  | Close _ => 0
  | Ioctl_DIOCRADDADDRS _ _ _ | Ioctl_DIOCKILLSTATES _ _ | Ioctl_NPF_TABLE _ _ => 0
  | System _ => 0
  | Mnl_socket_open _ => 20
  | Mnl_socket_bind _ _ _ => 0
  | Mnl_socket_get_portid _ => 4242
  | Mnl_socket_sendto _ _ len => len
  | Mnl_socket_recvfrom _ _ => (0, [])
  | Mnl_cb_run _ _ _ => 1
  | Mnl_socket_close _ => 0
  | Nft_set_alloc => 21
  | Nft_set_attr_set _ _ _ => tt
  | Nft_set_elem_alloc => 22
  | Nft_set_elem_attr_set _ _ _ | Nft_set_elem_add _ _ => tt
  | Nft_set_nlmsg_build_hdr _ _ _ _ => 23
  | Nft_set_elems_nlmsg_build_payload _ _ => 64
  | Nft_set_elem_free _ | Nft_set_free _ => tt
  | Cap_ioctls_limit _ _ | Cap_rights_limit _ _ | Cap_enter => 0
  | Getaddrinfo node _ => resolve node
  | Daemon _ => 0
  | Getpid => 4242
  | Getuid => 0
  | Getgrnam _ => Some 80
  | Getpwnam _ => Some 65534
  | Setgid _ | Setgroups _ | Setuid _ => 0
  | Sigaction _ | Signal_dfl _ | Kill_self _ => tt
  end.

(** All calls succeed and [errno] stays 0. *)
Definition env_default : Env := fun A _ c => (default_answer A c, 0).

(** Some answers replaced, as a function of the history. *)
Definition override (f : forall A : Set, trace -> sys A -> option (A * Z)) : Env :=
  fun A tr c => match f A tr c with Some r => r | None => env_default A tr c end.

#[export] Instance env_default_malloc : MallocOk (EV := env_default).
Proof. intros tr n. by do 2 eexists. Qed.

#[export] Instance env_default_strdup : StrdupOk (EV := env_default).
Proof. intros tr s. by eexists. Qed.

#[export] Instance env_default_gai : GaiOk (EV := env_default).
Proof.
  intros tr node numeric e H. unfold env_call, env_default, default_answer, resolve in H.
  destruct (inet_pton4 node), (inet_pton6 node); discriminate H.
Qed.
