(* ===== verification/Strlcpy.v ===== *)
(** * [missing/strlcpy.c]

    The fallback [strlcpy], on arrays of characters: pointers into [src] and
    [dst] are indices, an access outside an array makes the result [None]. *)
From Stdlib Require Import ZArith Lia Ascii.
From S2P Require Import Prelude.
#[local] Set Default Goal Selector "!".

(** The copying loop [while (--n != 0)], entered with [n >= 1]: the final [n],
    the index in [src], [dst], and the index in [dst]. *)
Fixpoint strlcpy_copy (n : nat) (src : list ascii) (si : nat) (dst : list ascii) (di : nat)
  : option (nat * nat * list ascii * nat) :=
  match n with
  | O => None
  | S n' =>
      match n' with
      | O => Some (O, si, dst, di)
      | S _ =>
          match src !! si with
          | None => None
          | Some c =>
              if Nat.ltb di (length dst) then
                let dst' := <[di := c]> dst in
                if Ascii.eqb c NUL then Some (n', S si, dst', S di)
                else strlcpy_copy n' src (S si) dst' (S di)
              else None
          end
      end
  end.

(** [while ( *s++ );] from the rest [l] of [src]: how many characters it reads. *)
Fixpoint strlcpy_scan (l : list ascii) : option nat :=
  match l with
  | [] => None
  | c :: l => if Ascii.eqb c NUL then Some 1%nat else S <$> strlcpy_scan l
  end.

Definition strlcpy (dst src : list ascii) (siz : nat) : option (Z * list ascii) :=
  match (match siz with
         | O => Some (O, O, dst, O)
         | _ => strlcpy_copy siz src 0 dst 0
         end) with
  | None => None
  | Some (n, si, dst, di) =>
      match n with
      | O =>
          match (match siz with
                 | O => Some dst
                 | _ => if Nat.ltb di (length dst) then Some (<[di := NUL]> dst) else None
                 end) with
          | None => None
          | Some dst =>
              match strlcpy_scan (drop si src) with
              | None => None
              | Some k => Some (Z.of_nat (si + k) - 1, dst)
              end
          end
      | _ => Some (Z.of_nat si - 1, dst)
      end
  end.

Example strlcpy_fits :
  strlcpy (replicate 6 "x"%char) (chars "abc" ++ [NUL]) 6
  = Some (3, chars "abc" ++ [NUL] ++ chars "xx").
Proof. reflexivity. Qed.
Example strlcpy_truncates :
  strlcpy (replicate 3 "x"%char) (chars "abcdef" ++ [NUL]) 3 = Some (6, chars "ab" ++ [NUL]).
Proof. reflexivity. Qed.

(** ** Correctness *)

Lemma strlcpy_scan_spec l tl :
  forallb (fun c => negb (Ascii.eqb c NUL)) l = true ->
  strlcpy_scan (l ++ NUL :: tl) = Some (S (length l)).
Proof.
  induction l as [|c l IH]; simpl; [done|].
  rewrite andb_true_iff, negb_true_iff. intros [-> Hl]. by rewrite IH.
Qed.

(** The copying loop on a source that reads [s] from index [si] on: either the
    terminator is copied, or [n] characters are. *)
Lemma strlcpy_copy_spec n s tl pre dst di :
  str_all (fun c => negb (Ascii.eqb c NUL)) s = true ->
  (di + n <= length dst)%nat ->
  strlcpy_copy (S n) (pre ++ chars s ++ NUL :: tl) (length pre) dst di =
  if Nat.ltb (String.length s) n
  then Some ((n - String.length s)%nat, (length pre + S (String.length s))%nat,
             overwrite di (chars s ++ [NUL]) dst, (di + S (String.length s))%nat)
  else Some (O, (length pre + n)%nat, overwrite di (take n (chars s)) dst, (di + n)%nat).
Proof.
  revert s pre dst di. induction n as [|n IH]; intros s pre dst di Hs Hn.
  - replace (Nat.ltb (String.length s) 0) with false by (symmetry; apply Nat.ltb_ge; lia).
    rewrite take_0, overwrite_nil, !Nat.add_0_r. done.
  - remember (S n) as n1. cbn [strlcpy_copy]. subst n1.
    rewrite lookup_app_r, Nat.sub_diag by lia.
    destruct s as [|c s]; cbn [chars String.list_ascii_of_string app lookup list_lookup].
    + destruct (Nat.ltb_spec di (length dst)) as [_|]; [|lia].
      cbn -[overwrite]. rewrite <- overwrite_cons, overwrite_nil by lia.
      f_equal. rewrite !pair_eq. split_and!; auto; lia.
    + simpl in Hs. apply andb_true_iff in Hs as [Hc Hs]. apply negb_true_iff in Hc. rewrite Hc.
      destruct (Nat.ltb_spec di (length dst)) as [_|]; [|lia].
      specialize (IH s (pre ++ [c]) (<[di:=c]> dst) (S di) Hs).
      rewrite length_app, length_insert in IH. cbn [length] in IH.
      rewrite <- app_assoc in IH. cbn [app] in IH. rewrite Nat.add_1_r in IH.
      fold (chars s). rewrite IH by lia. cbn [String.length chars String.list_ascii_of_string].
      change (Nat.ltb (S (String.length s)) (S n)) with (Nat.ltb (String.length s) n).
      destruct (Nat.ltb_spec (String.length s) n); cbn [take app];
        rewrite <- overwrite_cons by lia; f_equal; rewrite !pair_eq; split_and!; auto; lia.
Qed.

(** What [strlcpy] stores: as much of [s] as fits in [siz - 1] characters, and a
    terminator; nothing when [siz] is zero. *)
Definition strlcpy_result (dst : list ascii) (s : string) (siz : nat) : list ascii :=
  match siz with
  | O => dst
  | S n => overwrite 0 (take n (chars s) ++ [NUL]) dst
  end.

Lemma strlcpy_correct dst s tl siz :
  str_all (fun c => negb (Ascii.eqb c NUL)) s = true ->
  (siz <= length dst)%nat ->
  strlcpy dst (chars s ++ NUL :: tl) siz = Some (strlen s, strlcpy_result dst s siz).
Proof.
  intros Hs Hsiz. pose proof Hs as Hl. rewrite str_all_chars in Hl.
  unfold strlcpy, strlcpy_result, strlen. destruct siz as [|n].
  - rewrite drop_0, strlcpy_scan_spec, length_chars by done. do 2 f_equal. lia.
  - pose proof (strlcpy_copy_spec n s tl [] dst 0 Hs) as Hcopy.
    cbn [app length] in Hcopy. rewrite Hcopy by lia. clear Hcopy.
    destruct (Nat.ltb_spec (String.length s) n) as [Hlt|Hge]; cbn [Nat.add].
    { destruct (n - String.length s)%nat eqn:E; [lia|].
      rewrite take_ge by (rewrite length_chars; lia). do 2 f_equal. lia. }
    assert (Hlen : length (take n (chars s)) = n) by (rewrite length_take, length_chars; lia).
    rewrite length_overwrite by lia.
    destruct (Nat.ltb_spec n (length dst)); [|lia].
    pose proof (overwrite_snoc 0 NUL (take n (chars s)) dst) as Hsnoc.
    rewrite Nat.add_0_l, Hlen in Hsnoc. rewrite Hsnoc by lia.
    rewrite drop_app_le by (rewrite length_chars; lia).
    rewrite <- (take_drop n (chars s)), forallb_app in Hl. apply andb_true_iff in Hl as [_ Hl].
    rewrite strlcpy_scan_spec, length_drop, length_chars by done. do 2 f_equal. lia.
Qed.

(** The stored array reads back as the first [siz - 1] characters of [s]. *)
Lemma strlcpy_result_reads dst s siz :
  str_all (fun c => negb (Ascii.eqb c NUL)) s = true ->
  (0 < siz <= length dst)%nat ->
  nul_prefix (strlcpy_result dst s siz) = Some (of_chars (take (siz - 1) (chars s))).
Proof.
  intros Hs Hsiz. destruct siz as [|n]; [lia|]. simpl. rewrite Nat.sub_0_r.
  unfold overwrite. rewrite take_0, <- app_assoc. cbn [app].
  rewrite <- (chars_of_chars (take n (chars s))) at 1. apply nul_prefix_chars.
  rewrite str_all_chars, chars_of_chars. rewrite str_all_chars in Hs.
  rewrite <- (take_drop n (chars s)), forallb_app in Hs. by apply andb_true_iff in Hs as [? _].
Qed.

Lemma strlcpy_result_length dst s siz :
  (siz <= length dst)%nat -> length (strlcpy_result dst s siz) = length dst.
Proof.
  intros H. destruct siz as [|n]; [done|]. apply length_overwrite.
  rewrite length_app, length_take. simpl. lia.
Qed.

Lemma strlcpy_result_rest dst s siz :
  (siz <= length dst)%nat -> drop siz (strlcpy_result dst s siz) = drop siz dst.
Proof.
  intros H. destruct siz as [|n]; [done|]. simpl. unfold overwrite. rewrite take_0. cbn [app].
  assert (Hl : (length (take n (chars s) ++ [NUL]) <= S n)%nat)
    by (rewrite length_app, length_take; simpl; lia).
  rewrite drop_app_ge by done. rewrite drop_drop. f_equal. lia.
Qed.

(** C28: [strlcpy] into an array of at least [siz] characters never reads past the
    terminator of the source nor writes outside [siz] characters; it returns the
    length of the source, leaves [dst] alone when [siz] is zero, and otherwise
    stores the longest prefix that leaves room for the terminator it always
    writes; so the copy is the whole source exactly when the result is smaller
    than [siz]. *)
Theorem strlcpy_contract dst s tl siz :
  str_all (fun c => negb (Ascii.eqb c NUL)) s = true ->
  (siz <= length dst)%nat ->
  exists dst',
    strlcpy dst (chars s ++ NUL :: tl) siz = Some (strlen s, dst')
    /\ length dst' = length dst /\ drop siz dst' = drop siz dst
    /\ ((0 < siz)%nat -> nul_prefix dst' = Some (of_chars (take (siz - 1) (chars s))))
    /\ ((0 < siz)%nat -> nul_prefix dst' = Some s <-> strlen s < Z.of_nat siz).
Proof.
  intros Hs Hsiz. exists (strlcpy_result dst s siz).
  split; [by apply strlcpy_correct|]. split; [by apply strlcpy_result_length|].
  split; [by apply strlcpy_result_rest|]. split; [intros; by apply strlcpy_result_reads|].
  intros Hpos. rewrite strlcpy_result_reads by done. unfold strlen. split.
  - intros [= Heq]. apply (f_equal String.length) in Heq.
    rewrite <- length_chars, chars_of_chars, length_take, length_chars in Heq. lia.
  - intros Hlt. rewrite take_ge by (rewrite length_chars; lia).
    f_equal. apply String.string_of_list_ascii_of_string.
Qed.

Lemma strlcpy_contract_witness :
  exists dst',
    strlcpy (replicate 3 "x"%char) (chars "abcdef" ++ NUL :: []) 3 = Some (strlen "abcdef", dst')
    /\ length dst' = length (replicate 3 "x"%char)
    /\ drop 3 dst' = drop 3 (replicate 3 "x"%char)
    /\ ((0 < 3)%nat -> nul_prefix dst' = Some (of_chars (take (3 - 1) (chars "abcdef"))))
    /\ ((0 < 3)%nat -> nul_prefix dst' = Some "abcdef" <-> strlen "abcdef" < Z.of_nat 3).
Proof. apply strlcpy_contract; [reflexivity|simpl; lia]. Defined.
