(* ===== verification/Parse.v ===== *)
(** * Addresses and numbers: [parse.c] and [parse.h]

    [parse_ulong] reads the numeric options and the prefix of a CIDR address;
    [parse_addr] turns one message of the queue into an [addr_t], whose bytes
    are cleared outside the network part.  The byte order of the host is a
    parameter.  The functions under [#if 0] are in a file of their own. *)
From Stdlib Require Import ZArith Lia Ascii.
From S2P Require Import Prelude Os Libc CError Strlcpy.
#[local] Set Default Goal Selector "!".

(** ** Data *)

(** The byte order of the host. *)
Class Endian := little_endian : bool.

Definition INET6_ADDRSTRLEN : nat := 46.
Definition HUMANREPR_SIZE : nat := INET6_ADDRSTRLEN + 1.

(** [addr_t]; [sa] is the 16 bytes of the union. *)
Record addr_t := Addr
  { sa : list Z; fa : family; sa_size : Z; netmask : Z; humanrepr : list ascii }.

Definition addr_zero : addr_t :=
  Addr (replicate 16 0) (AF_OTHER 0) 0 0 (replicate HUMANREPR_SIZE NUL).

Definition set_sa (v : list Z) (a : addr_t) : addr_t :=
  Addr v (fa a) (sa_size a) (netmask a) (humanrepr a).
Definition set_sa_size (v : Z) (a : addr_t) : addr_t :=
  Addr (sa a) (fa a) v (netmask a) (humanrepr a).
Definition set_family (f : family) (mask : Z) (a : addr_t) : addr_t :=
  Addr (sa a) f (sa_size a) mask (humanrepr a).
Definition set_humanrepr (h : list ascii) (a : addr_t) : addr_t :=
  Addr (sa a) (fa a) (sa_size a) (netmask a) h.

(** ** 32-bit words in memory *)

Section Words.
Context `{EN : !Endian}.

(** The value of a [uint32_t] whose bytes in memory are [a; b; c; d]. *)
Definition word_of (a b c d : Z) : Z :=
  if little_endian then a + 256 * (b + 256 * (c + 256 * d))
  else d + 256 * (c + 256 * (b + 256 * a)).

Definition bytes_of (w : Z) : list Z :=
  let le := [w mod 256; w / 256 mod 256; w / 65536 mod 256; w / 16777216 mod 256] in
  if little_endian then le else reverse le.

Fixpoint words_of (bs : list Z) : list Z :=
  match bs with
  | a :: b :: c :: d :: bs => word_of a b c d :: words_of bs
  | _ => []
  end.

Definition bswap32 (w : Z) : Z :=
  Z.lor (Z.shiftl (Z.land w 255) 24)
    (Z.lor (Z.shiftl (Z.land (Z.shiftr w 8) 255) 16)
      (Z.lor (Z.shiftl (Z.land (Z.shiftr w 16) 255) 8)
             (Z.land (Z.shiftr w 24) 255))).

Definition htonl (w : Z) : Z := if little_endian then bswap32 w else w.

(** ** The mask of [parse_addr] *)

(** [for (b = addr->netmask; b >= 32; b -= 32) m[j++] = 0xFFFFFFFF;] at most
    eight rounds, as [netmask] is a [uint8_t]; [None] is a store outside [m]. *)
Fixpoint fill_words (fuel : nat) (b : Z) (j : nat) (m : list Z) : option (Z * nat * list Z) :=
  match fuel with
  | O => None
  | S fuel =>
      if 32 <=? b then
        if Nat.ltb j (length m) then fill_words fuel (b - 32) (S j) (<[j := 4294967295]> m)
        else None
      else Some (b, j, m)
  end.

(** [for (i = 31; i > 31 - b; --i) m[j] |= (1 << i);], [n] rounds from bit [i] down.
    [1 << 31] on [int], which ISO C leaves undefined, is the word with the top bit, as
    gcc and clang document. *)
Fixpoint set_bits (n : nat) (i : Z) (w : Z) : Z :=
  match n with
  | O => w
  | S n => set_bits n (i - 1) (Z.lor w (Z.shiftl 1 i))
  end.

Definition mask_words (netmask : Z) : option (list Z) :=
  match fill_words 9 netmask 0 [0; 0; 0; 0] with
  | None => None
  | Some (b, j, m) =>
      if b =? 0 then Some m
      else match m !! j with
           | None => None
           | Some w => Some (<[j := htonl (set_bits (Z.to_nat b) 31 w)]> m)
           end
  end.

(** [for (i = 0; i < 4; i++) a[i] &= m[i];] on the bytes of the union. *)
Definition and_words (bs : list Z) (m : list Z) : list Z :=
  mjoin (bytes_of <$> zip_with Z.land (words_of bs) m).
End Words.

(** ** parse_ulong *)

Section Parse.
Context `{EV : !Env} `{EN : !Endian}.

(** The value stored in [*val] comes back with the flag. *)
Definition parse_ulong (str : string) (error : errp) : M proc (bool * Z) :=
  let r := strtoul str in
  let val := su_val r in
  (if su_erange r then modify (set_errno ERANGE) else mret tt);;
  errno ← gets p_errno;
  if (errno =? ERANGE) && (val =? ULONG_MAX) || negb (errno =? 0) && (val =? 0) then
    set_generic_error error ("overflow or underflow for '" +:+ str +:+ "'");;
    mret (false, val)
  else if negb (su_moved r) then
    set_generic_error error "number expected, no digit found";;
    mret (false, val)
  else match su_end r with
  | String c _ =>
      set_generic_error error
        ("number expected, non digit found " +:+ String c (" in " +:+ str));;
      mret (false, val)
  | EmptyString =>
      if val <=? 0 then
        set_generic_error error ("number should be greater than 0, got " +:+ pretty val);;
        mret (false, val)
      else mret (true, val)
  end.

(** ** parse_addr *)

(** Clearing of the host part, and the copy into [humanrepr]. *)
Definition parse_addr_finish (buffer : string) (addr : addr_t) (error : errp)
  : M proc (bool * addr_t) :=
  match mask_words (netmask addr) with
  | None => undef OutOfBounds
  | Some m =>
      let addr := set_sa (and_words (sa addr) m) addr in
      match strlcpy (humanrepr addr) (chars buffer ++ [NUL]) HUMANREPR_SIZE with
      | None => undef OutOfBounds
      | Some (n, h) =>
          let addr := set_humanrepr h addr in
          if Z.of_nat HUMANREPR_SIZE <=? n then
            set_generic_error error "buffer overflow";;
            mret (false, addr)
          else mret (true, addr)
      end
  end.

(** [inet_pton] into the union: a success stores the first bytes. *)
Definition store_v4 (q : list Z) (addr : addr_t) : addr_t :=
  set_sa_size 4 (set_sa (overwrite 0 q (sa addr)) addr).
Definition store_v6 (q : list Z) (addr : addr_t) : addr_t :=
  set_sa_size 16 (set_sa (overwrite 0 q (sa addr)) addr).

(** The part before the slash, once the prefix is read. *)
Definition parse_addr_host (buffer : string) (prefix : Z) (error : errp)
  : M proc (bool * addr_t) :=
  let addr := addr_zero in
  ret ← syscall (Getaddrinfo buffer true);
  match ret with
  | inl code =>
      text ← syscall (Gai_strerror code);
      set_generic_error error ("getaddrinfo failed: " +:+ text);;
      mret (false, addr)
  | inr [] => undef NullDeref
  | inr (res :: _) =>
      if bool_decide (ai_family res = AF_INET) && (32 <? prefix) then
        set_generic_error error "prefix too long for AF_INET";;
        mret (false, addr)
      else if bool_decide (ai_family res = AF_INET6) && (128 <? prefix) then
        set_generic_error error "prefix too long for AF_INET6";;
        mret (false, addr)
      else
        match ai_family res, inet_pton4 buffer, inet_pton6 buffer with
        | AF_INET, Some q, _ =>
            parse_addr_finish buffer
              (set_family AF_INET (prefix mod 256) (store_v4 q addr)) error
        | AF_INET6, _, Some q =>
            parse_addr_finish buffer
              (set_family AF_INET6 (prefix mod 256) (store_v6 q addr)) error
        | _, _, _ =>
            set_generic_error error ("valid address expected, got: " +:+ buffer);;
            mret (false, addr)
        end
  end.

(** The string has a slash: [buffer] is the part before it, [suffix] after.
    Whether [parse_ulong] succeeds is not looked at. *)
Definition parse_addr_cidr (string buffer suffix : string) (error : errp)
  : M proc (bool * addr_t) :=
  copied ← syscall (Strdup string);
  if negb copied then undef NullDeref else
  '(_, prefix) ← parse_ulong suffix error;
  parse_addr_host buffer prefix error.

Definition parse_addr (string : string) (error : errp) : M proc (bool * addr_t) :=
  match strchr_split "/" string with
  | Some (buffer, suffix) => parse_addr_cidr string buffer suffix error
  | None =>
      let addr := addr_zero in
      match inet_pton4 string, inet_pton6 string with
      | Some q, _ =>
          parse_addr_finish string (set_family AF_INET 32 (store_v4 q addr)) error
      | None, Some q =>
          parse_addr_finish string (set_family AF_INET6 64 (store_v6 q addr)) error
      | None, None =>
          set_generic_error error ("valid address expected, got: " +:+ string);;
          mret (false, addr)
      end
  end.
End Parse.

(** ** The network part of an address *)

(** Bit [i] of an address in network order, bit 0 the most significant. *)
Definition netbit (bs : list Z) (i : nat) : bool :=
  Z.testbit (bs !!! (i / 8)%nat) (7 - Z.of_nat (i mod 8)).

(** Byte [k] of the mask of a prefix of [n] bits. *)
Definition netmask_byte (n : Z) (k : nat) : Z :=
  256 - 2 ^ (8 - Z.max 0 (Z.min 8 (n - 8 * Z.of_nat k))).

Definition netmask_bytes (n : Z) : list Z := netmask_byte n <$> seq 0 16.

Section WordFacts.
Context `{EN : !Endian}.

Lemma land_byte_step a b x y :
  is_byte a -> is_byte b ->
  Z.land (a + 256 * x) (b + 256 * y) = Z.land a b + 256 * Z.land x y.
Proof.
  intros Ha Hb. unfold is_byte in *.
  assert (Hlo : forall c z, 0 <= c < 256 -> (c + 256 * z) mod 256 = c).
  { intros c z Hc. rewrite Z.mul_comm, Z.mod_add by lia. apply Z.mod_small. lia. }
  assert (Hhi : forall c z, 0 <= c < 256 -> (c + 256 * z) / 256 = z).
  { intros c z Hc. rewrite Z.mul_comm, Z.div_add by lia. rewrite Z.div_small; lia. }
  rewrite (Z.div_mod (Z.land (a + 256 * x) (b + 256 * y)) 256) at 1 by lia.
  change 256 with (2 ^ 8) at 1 2 4. rewrite <- Z.shiftr_div_pow2, Z.shiftr_land by lia.
  rewrite !Z.shiftr_div_pow2 by lia. change (2 ^ 8) with 256. rewrite !Hhi by lia.
  change 256 with (2 ^ 8) at 4. rewrite <- Z.land_ones by lia.
  replace (Z.land (Z.land (a + 256 * x) (b + 256 * y)) (Z.ones 8))
    with (Z.land (Z.land (a + 256 * x) (Z.ones 8)) (Z.land (b + 256 * y) (Z.ones 8))).
  - rewrite !Z.land_ones by lia. change (2 ^ 8) with 256. rewrite !Hlo by lia. lia.
  - apply Z.bits_inj. intros i. rewrite !Z.land_spec.
    destruct (Z.testbit (a + 256 * x) i), (Z.testbit (b + 256 * y) i), (Z.testbit (Z.ones 8) i); done.
Qed.

Lemma land_is_byte a b : is_byte a -> is_byte b -> is_byte (Z.land a b).
Proof.
  unfold is_byte. intros Ha Hb. split; [apply Z.land_nonneg; lia|].
  rewrite <- (Z.mod_small b 256) by lia. change 256 with (2 ^ 8).
  rewrite <- (Z.land_ones b 8), Z.land_assoc, Z.land_ones by lia.
  apply Z.mod_pos_bound. lia.
Qed.

Lemma land_bytes bs ms :
  Forall is_byte bs -> Forall is_byte ms -> Forall is_byte (zip_with Z.land bs ms).
Proof.
  intros Fb. revert ms. induction Fb as [|b bs Hb _ IH]; intros ms Fm; [constructor|].
  destruct Fm as [|m ms Hm Fm]; constructor; auto using land_is_byte.
Qed.

Lemma bytes_of_word_of a b c d :
  is_byte a -> is_byte b -> is_byte c -> is_byte d ->
  bytes_of (word_of a b c d) = [a; b; c; d].
Proof.
  unfold is_byte, bytes_of, word_of. intros Ha Hb Hc Hd.
  assert (Hlo : forall x y, 0 <= x < 256 -> (x + 256 * y) mod 256 = x).
  { intros x y Hx. rewrite Z.mul_comm, Z.mod_add by lia. apply Z.mod_small. lia. }
  assert (Hhi : forall x y, 0 <= x < 256 -> (x + 256 * y) / 256 = y).
  { intros x y Hx. rewrite Z.mul_comm, Z.div_add by lia. rewrite Z.div_small; lia. }
  change 65536 with (256 * 256). change 16777216 with (256 * (256 * 256)).
  destruct little_endian; rewrite <- !Z.div_div by lia; rewrite !Hhi, !Hlo by lia;
    rewrite Z.mod_small by lia; done.
Qed.

Lemma word_land a b c d a' b' c' d' :
  Forall is_byte [a; b; c; d] -> Forall is_byte [a'; b'; c'; d'] ->
  bytes_of (Z.land (word_of a b c d) (word_of a' b' c' d'))
  = [Z.land a a'; Z.land b b'; Z.land c c'; Z.land d d'].
Proof.
  rewrite !Forall_cons_iff. intros (Ha&Hb&Hc&Hd&_) (Ha'&Hb'&Hc'&Hd'&_).
  rewrite <- bytes_of_word_of by auto using land_is_byte. f_equal.
  unfold word_of. destruct little_endian; rewrite !land_byte_step by done; done.
Qed.

(** Masking the words in memory masks the bytes, whatever the byte order. *)
Lemma and_words_bytes k bs ms :
  length bs = (4 * k)%nat -> length ms = (4 * k)%nat ->
  Forall is_byte bs -> Forall is_byte ms ->
  and_words bs (words_of ms) = zip_with Z.land bs ms.
Proof.
  unfold and_words. revert bs ms. induction k as [|k IH]; intros bs ms Hb Hm Fb Fm.
  - destruct bs; [done|simpl in Hb; lia].
  - destruct bs as [|a [|b [|c [|d bs]]]]; simpl in Hb; try lia.
    destruct ms as [|a' [|b' [|c' [|d' ms]]]]; simpl in Hm; try lia.
    rewrite !Forall_cons_iff in Fb, Fm. destruct Fb as (?&?&?&?&?), Fm as (?&?&?&?&?).
    cbn [words_of zip_with fmap list_fmap mjoin list_join].
    rewrite word_land by (rewrite !Forall_cons_iff; auto). cbn [app]. do 4 f_equal.
    apply IH; auto; lia.
Qed.

(** The loops of [parse_addr] build the mask of the prefix. *)
Lemma mask_words_ok n :
  0 <= n <= 128 -> mask_words n = Some (words_of (netmask_bytes n)).
Proof.
  intros Hn.
  assert (Hall : forallb (fun k => bool_decide (mask_words (Z.of_nat k)
                   = Some (words_of (netmask_bytes (Z.of_nat k))))) (seq 0 129) = true).
  { destruct little_endian eqn:E; unfold little_endian in E; subst; vm_compute; reflexivity. }
  rewrite forallb_forall in Hall.
  specialize (Hall (Z.to_nat n)). rewrite Z2Nat.id in Hall by lia.
  eapply bool_decide_eq_true_1, Hall, in_seq. lia.
Qed.
End WordFacts.

Lemma netmask_byte_range n k : is_byte (netmask_byte n k).
Proof.
  unfold is_byte, netmask_byte.
  set (c := 8 - Z.max 0 (Z.min 8 (n - 8 * Z.of_nat k))).
  assert (0 <= c <= 8) by lia.
  assert (2 ^ 0 <= 2 ^ c) by (apply Z.pow_le_mono_r; lia).
  assert (2 ^ c <= 2 ^ 8) by (apply Z.pow_le_mono_r; lia). lia.
Qed.

Lemma netmask_bytes_ok n : length (netmask_bytes n) = 16%nat /\ Forall is_byte (netmask_bytes n).
Proof.
  split; [done|]. apply Forall_fmap, Forall_true. intros k. apply netmask_byte_range.
Qed.

Lemma netbit_netmask n i :
  0 <= n <= 128 -> (i < 128)%nat ->
  netbit (netmask_bytes n) i = (Z.of_nat i <? n).
Proof.
  intros Hn Hi.
  assert (Hall : forallb (fun k => forallb (fun i =>
            Bool.eqb (netbit (netmask_bytes (Z.of_nat k)) i) (Z.of_nat i <? Z.of_nat k))
            (seq 0 128)) (seq 0 129) = true) by (vm_compute; reflexivity).
  rewrite forallb_forall in Hall. specialize (Hall (Z.to_nat n)).
  rewrite forallb_forall in Hall. rewrite Z2Nat.id in Hall by lia.
  eapply eqb_prop, Hall; apply in_seq; lia.
Qed.

Lemma netbit_land_gen bs ms i :
  length ms = length bs -> (i < 8 * length bs)%nat ->
  netbit (zip_with Z.land bs ms) i = netbit bs i && netbit ms i.
Proof.
  intros Hm Hi. unfold netbit.
  assert (i / 8 < length bs)%nat as Hk by (apply Nat.Div0.div_lt_upper_bound; lia).
  destruct (lookup_lt_is_Some_2 bs (i / 8)) as [x Hx]; [lia|].
  destruct (lookup_lt_is_Some_2 ms (i / 8)) as [y Hy]; [lia|].
  rewrite (list_lookup_total_correct bs _ _ Hx), (list_lookup_total_correct ms _ _ Hy).
  rewrite (list_lookup_total_correct _ _ (Z.land x y)); [apply Z.land_spec|].
  by rewrite lookup_zip_with, Hx, Hy.
Qed.

Lemma netbit_land bs ms i :
  length bs = 16%nat -> length ms = 16%nat -> (i < 128)%nat ->
  netbit (zip_with Z.land bs ms) i = netbit bs i && netbit ms i.
Proof. intros Hb Hm Hi. apply netbit_land_gen; lia. Qed.

(** ** What [parse_ulong] accepts *)

(** The numbers [strtoul] reads to the end of the string: white space, an
    optional sign, digits whose value fits; a minus sign negates modulo 2^64. *)
Definition ulong_text (s : string) (v : Z) : Prop :=
  exists ws sign ds,
    s = ws +:+ sign +:+ ds /\ str_all is_space ws = true
    /\ (sign = "" \/ sign = "+" \/ sign = "-")
    /\ ds <> "" /\ str_all is_digit ds = true /\ dec_val 0 ds <= ULONG_MAX
    /\ v = (if decide (sign = "-") then (- dec_val 0 ds) mod 2 ^ 64 else dec_val 0 ds).

Lemma skip_space_app ws t :
  str_all is_space ws = true ->
  match t with String c _ => is_space c = false | EmptyString => True end ->
  skip_space (ws +:+ t) = t.
Proof.
  intros Hws Ht. induction ws as [|c ws IH]; simpl in *.
  - destruct t as [|c t]; [done|]. simpl. by rewrite Ht.
  - apply andb_true_iff in Hws as [-> Hws]. auto.
Qed.

Lemma skip_space_spec s :
  exists ws, s = ws +:+ skip_space s /\ str_all is_space ws = true.
Proof.
  induction s as [|c s (ws & Hs & Hws)]; simpl; [by exists ""|].
  destruct (is_space c) eqn:E; [|by exists ""].
  exists (String c ws). simpl. rewrite E, Hws. split; [|done]. exact (f_equal (String c) Hs).
Qed.

Lemma span_digits_spec s ds r :
  span_digits s = (ds, r) -> s = ds +:+ r /\ str_all is_digit ds = true.
Proof.
  revert ds r. induction s as [|c s IH]; simpl; intros ds r H; [by simplify_eq|].
  destruct (is_digit c) eqn:E; [|by simplify_eq].
  destruct (span_digits s) as [ds' r'] eqn:Es. simplify_eq/=.
  destruct (IH _ _ eq_refl) as [-> Hd]. by rewrite E, Hd.
Qed.

Lemma span_digits_all ds : str_all is_digit ds = true -> span_digits ds = (ds, "").
Proof.
  induction ds as [|c ds IH]; simpl; [done|].
  rewrite andb_true_iff. intros [-> Hd]. by rewrite IH.
Qed.

Lemma digit_not_space_sign c :
  is_digit c = true -> is_space c = false /\ Ascii.eqb c "-" = false /\ Ascii.eqb c "+" = false.
Proof.
  intros H.
  assert (Hall : forallb (fun n => let c := ascii_of_nat n in
     implb (is_digit c) (negb (is_space c) && negb (Ascii.eqb c "-") && negb (Ascii.eqb c "+")))
     (seq 0 256) = true) by (vm_compute; reflexivity).
  rewrite forallb_forall in Hall. specialize (Hall (nat_of_ascii c)).
  cbv beta zeta in Hall. rewrite ascii_nat_embedding, H in Hall.
  assert (Hin : In (nat_of_ascii c) (seq 0 256)).
  { apply in_seq. pose proof (nat_ascii_bounded c). lia. }
  specialize (Hall Hin). simpl in Hall. bools. done.
Qed.

Lemma take_sign_spec s :
  exists sign, s = sign +:+ (take_sign s).2 /\ (sign = "" \/ sign = "+" \/ sign = "-")
    /\ (take_sign s).1 = bool_decide (sign = "-").
Proof.
  unfold take_sign. destruct s as [|c s]; [by exists ""; auto|].
  destruct (Ascii.eqb_spec c "-") as [->|]; [by exists "-"; auto|].
  destruct (Ascii.eqb_spec c "+") as [->|]; [by exists "+"; auto|].
  by exists ""; auto.
Qed.

(** [strtoul] reads the whole string without overflow exactly on [ulong_text]. *)
Lemma strtoul_full s v :
  (su_val (strtoul s) = v /\ su_moved (strtoul s) = true
   /\ su_end (strtoul s) = "" /\ su_erange (strtoul s) = false) <-> ulong_text s v.
Proof.
  split.
  - unfold strtoul. intros H.
    destruct (skip_space_spec s) as (ws & Hs & Hws).
    destruct (take_sign_spec (skip_space s)) as (sign & Ht & Hsign & Hneg).
    destruct (take_sign (skip_space s)) as [neg u]. simpl in Ht, Hneg.
    destruct (span_digits u) as [ds r] eqn:Eu. apply span_digits_spec in Eu as [-> Hd].
    destruct ds as [|c ds]; [by destruct H as (_ & ? & _)|].
    destruct (Z.ltb_spec ULONG_MAX (dec_val 0 (String c ds))); simpl in H;
      [by destruct H as (_ & _ & _ & ?)|].
    destruct H as (<- & _ & -> & _). rewrite append_nil_r in Ht.
    exists ws, sign, (String c ds). rewrite <- Ht. split_and!; auto.
    subst neg. by repeat case_bool_decide; case_decide.
  - intros (ws & sign & ds & -> & Hws & Hsign & Hne & Hd & Hmax & ->).
    destruct ds as [|c ds]; [done|].
    pose proof Hd as Hd'. simpl in Hd'. apply andb_true_iff in Hd' as [Hc _].
    destruct (digit_not_space_sign c Hc) as (Hsp & Hm & Hp).
    unfold strtoul. rewrite skip_space_app; [|done|by destruct Hsign as [->|[->| ->]]].
    assert (take_sign (sign +:+ String c ds) = (bool_decide (sign = "-"), String c ds)) as ->.
    { destruct Hsign as [->|[->| ->]]; simpl; [by rewrite Hm, Hp|done|done]. }
    rewrite span_digits_all by done.
    destruct (Z.ltb_spec ULONG_MAX (dec_val 0 (String c ds))); [lia|]. simpl.
    split_and!; auto. by repeat case_bool_decide; case_decide.
Qed.

(** The value [parse_ulong] accepts, for a given [errno] on entry. *)
Definition ulong_value (errno : Z) (s : string) : option Z :=
  let r := strtoul s in
  if su_moved r && String.eqb (su_end r) "" && negb (su_erange r) && negb (su_val r =? 0)
     && negb ((errno =? ERANGE) && (su_val r =? ULONG_MAX))
  then Some (su_val r) else None.

Lemma dec_val_nonneg ds acc : 0 <= acc -> str_all is_digit ds = true -> 0 <= dec_val acc ds.
Proof.
  revert acc. induction ds as [|c ds IH]; simpl; intros acc Ha Hd; [done|].
  apply andb_true_iff in Hd as [Hc Hd]. apply digit_val_range in Hc. apply IH; [lia|done].
Qed.

Lemma ulong_text_range s v : ulong_text s v -> 0 <= v <= ULONG_MAX.
Proof.
  intros (ws & sign & ds & _ & _ & _ & _ & Hd & Hmax & ->).
  assert (0 <= dec_val 0 ds) by (by apply dec_val_nonneg).
  case_decide; [|lia]. unfold ULONG_MAX.
  pose proof (Z.mod_pos_bound (- dec_val 0 ds) (2 ^ 64)). lia.
Qed.

Lemma strtoul_range s : 0 <= su_val (strtoul s) <= ULONG_MAX.
Proof.
  unfold strtoul. destruct (take_sign (skip_space s)) as [neg u].
  destruct (span_digits u) as [ds r] eqn:E. apply span_digits_spec in E as [_ Hd].
  destruct ds as [|c ds]; [simpl; unfold ULONG_MAX; lia|].
  destruct (Z.ltb_spec ULONG_MAX (dec_val 0 (String c ds))); cbn [su_val]; [unfold ULONG_MAX; lia|].
  assert (0 <= dec_val 0 (String c ds)) by (by apply dec_val_nonneg).
  destruct neg; [|lia]. unfold ULONG_MAX.
  pose proof (Z.mod_pos_bound (- dec_val 0 (String c ds)) (2 ^ 64)). lia.
Qed.

Lemma ulong_value_Some errno s v :
  ulong_value errno s = Some v <->
  ulong_text s v /\ v <> 0 /\ ~ (errno = ERANGE /\ v = ULONG_MAX).
Proof.
  rewrite <- strtoul_full. unfold ulong_value.
  destruct (su_moved (strtoul s)), (String.eqb_spec (su_end (strtoul s)) ""),
    (su_erange (strtoul s)), (Z.eqb_spec (su_val (strtoul s)) 0), (Z.eqb_spec errno ERANGE),
    (Z.eqb_spec (su_val (strtoul s)) ULONG_MAX); simpl; split;
    first [intros [= <-]; split_and!; auto; try tauto; intros []; congruence
          |intros ((<- & ? & ? & ?) & ? & ?); try done; try tauto].
Qed.

Section UlongFacts.
Context `{EV : !Env}.

(** An accepted number is returned, without any effect. *)
Lemma parse_ulong_accept s v error p tr :
  ulong_value (p_errno p) s = Some v ->
  parse_ulong s error p tr = (Ok (true, v), p, tr).
Proof.
  intros Hu. apply ulong_value_Some in Hu as (Hs & Hv & He).
  pose proof (ulong_text_range _ _ Hs) as Hr.
  apply strtoul_full in Hs as (Ev & Em & Ee & Er).
  unfold parse_ulong. rewrite Ev, Em, Ee, Er. unfold mbind, M_bind, gets, mret, M_ret. cbv beta iota zeta.
  assert (((p_errno p =? ERANGE) && (v =? ULONG_MAX) || negb (p_errno p =? 0) && (v =? 0)) = false)
    as ->.
  { apply orb_false_iff. split; [|by rewrite (proj2 (Z.eqb_neq v 0)), andb_false_r by done].
    destruct (Z.eqb_spec (p_errno p) ERANGE), (Z.eqb_spec v ULONG_MAX); tauto. }
  simpl. destruct (Z.leb_spec v 0); [lia|]. done.
Qed.

(** Anything else is an error, reported once; [*val] is what [strtoul] gave. *)
Lemma parse_ulong_reject s error p tr :
  ulong_value (p_errno p) s = None ->
  exists msg e, parse_ulong s error p tr
    = (_error_set error msg ≫= fun _ => mret (false, su_val (strtoul s))) (set_errno e p) tr.
Proof.
  intros Hu. unfold ulong_value in Hu. unfold parse_ulong, set_generic_error.
  pose proof (strtoul_range s) as Hr.
  set (e := if su_erange (strtoul s) then ERANGE else p_errno p).
  assert (forall (k : unit -> M proc (bool * Z)),
     ((if su_erange (strtoul s) then modify (set_errno ERANGE) else mret tt) ≫= k) p tr
     = k tt (set_errno e p) tr) as Hk.
  { intros k. unfold e. destruct (su_erange (strtoul s)); [done|]. by destruct p. }
  rewrite Hk, bind_gets.
  change (p_errno (set_errno e p)) with e.
  destruct ((e =? ERANGE) && (su_val (strtoul s) =? ULONG_MAX)
            || negb (e =? 0) && (su_val (strtoul s) =? 0)) eqn:E1; [by do 2 eexists|].
  destruct (su_moved (strtoul s)) eqn:E2; simpl negb; cbv iota; [|by do 2 eexists].
  destruct (su_end (strtoul s)) as [|c r] eqn:E3; [|by do 2 eexists].
  destruct (Z.leb_spec (su_val (strtoul s)) 0) as [|Hpos]; [by do 2 eexists|].
  exfalso. apply orb_false_iff in E1 as [E1 _]. subst e.
  destruct (su_erange (strtoul s)) eqn:E4.
  - rewrite Z.eqb_refl in E1. simpl in E1. apply Z.eqb_neq in E1.
    unfold strtoul in E1, E4. repeat (case_match; simplify_eq/=).
  - simpl in Hu. rewrite (proj2 (Z.eqb_neq _ 0)) in Hu by lia.
    rewrite E1 in Hu. done.
Qed.
End UlongFacts.
