(* ===== verification/ParseSpec.v ===== *)
(** * Correctness of [parse_addr] and [parse_ulong]

    The result of a successful parse is the network the text denotes
    ([is_network]); every branch of both functions is described, the error
    paths included. *)
From Stdlib Require Import ZArith Lia Ascii.
From S2P Require Import Prelude Os Libc CError Scenario Strlcpy Parse.
#[local] Set Default Goal Selector "!".

(** The part of a message [parse_addr] takes as the address. *)
Definition host_part (s : string) : string :=
  match strchr_split "/" s with Some (b, _) => b | None => s end.

(** The bytes [inet_pton] stores, in the zeroed union. *)
Definition padded (q : list Z) : list Z := overwrite 0 q (replicate 16 0).

(** The [addr_t] of the network of [q] with a prefix of [n] bits. *)
Definition addr_of (f : family) (n : Z) (q : list Z) (buffer : string) : addr_t :=
  Addr (zip_with Z.land (padded q) (netmask_bytes n)) f (Z.of_nat (length q)) n
    (strlcpy_result (replicate HUMANREPR_SIZE NUL) buffer HUMANREPR_SIZE).

(** [buffer] denotes the network [a]. *)
Inductive is_network (buffer : string) : addr_t -> Prop :=
| is_network4 q n :
    inet_pton4 buffer = Some q -> 0 <= n <= 32 ->
    is_network buffer (addr_of AF_INET n q buffer)
| is_network6 q n :
    inet_pton6 buffer = Some q -> 0 <= n <= 128 ->
    is_network buffer (addr_of AF_INET6 n q buffer).

(** What [inet_pton] of either family guarantees. *)
Definition pton_ok (buffer : string) (q : list Z) : Prop :=
  (length q <= 16)%nat /\ Forall is_byte q /\ str_all addr_char buffer = true /\ strlen buffer <= 45.

Lemma pton4_ok b q : inet_pton4 b = Some q -> pton_ok b q /\ length q = 4%nat.
Proof. intros (?&?&?&?)%inet_pton4_spec. unfold pton_ok. split_and!; auto; lia. Qed.

Lemma pton6_ok b q : inet_pton6 b = Some q -> pton_ok b q /\ length q = 16%nat.
Proof. intros (?&?&?&?)%inet_pton6_spec. unfold pton_ok. split_and!; auto; lia. Qed.

Lemma addr_char_not_nul s :
  str_all addr_char s = true -> str_all (fun c => negb (Ascii.eqb c NUL)) s = true.
Proof.
  apply str_all_impl. intros c Hc. apply negb_true_iff, Ascii.eqb_neq. by intros ->.
Qed.

Lemma padded_ok b q : pton_ok b q -> length (padded q) = 16%nat /\ Forall is_byte (padded q).
Proof.
  intros (Hl & Hq & _). unfold padded. split.
  - rewrite length_overwrite; [by rewrite length_replicate|]. rewrite length_replicate. lia.
  - unfold overwrite. rewrite take_0. cbn [app]. apply Forall_app. split; [done|].
    apply Forall_drop, Forall_replicate. unfold is_byte. lia.
Qed.

(** The printable form of a network is its text. *)
Lemma network_humanrepr buffer a :
  is_network buffer a ->
  nul_prefix (humanrepr a) = Some buffer
  /\ str_all addr_char buffer = true /\ strlen buffer <= 45.
Proof.
  intros Hnet.
  assert (exists f n q, a = addr_of f n q buffer /\ pton_ok buffer q)
    as (f & n & q & -> & Hok).
  { inversion Hnet as [q n Hq Hn|q n Hq Hn];
      [destruct (pton4_ok _ _ Hq)|destruct (pton6_ok _ _ Hq)]; eauto 6. }
  destruct Hok as (_ & _ & Hc & Hl). split; [|by auto]. cbn [humanrepr addr_of].
  rewrite strlcpy_result_reads; [|by apply addr_char_not_nul|rewrite length_replicate; unfold HUMANREPR_SIZE, INET6_ADDRSTRLEN; lia].
  rewrite take_ge.
  - f_equal. apply String.string_of_list_ascii_of_string.
  - rewrite length_chars. unfold strlen in Hl. unfold HUMANREPR_SIZE, INET6_ADDRSTRLEN. lia.
Qed.

Section Finish.
Context `{EV : !Env} `{EN : !Endian}.

(** Once the bytes are stored, [parse_addr] succeeds without any effect. *)
Lemma parse_addr_finish_ok f n q buffer error p tr :
  pton_ok buffer q -> 0 <= n <= 128 ->
  parse_addr_finish buffer
    (set_family f n (set_sa_size (Z.of_nat (length q)) (set_sa (padded q) addr_zero))) error p tr
  = (Ok (true, addr_of f n q buffer), p, tr).
Proof.
  intros Hq Hn. destruct (padded_ok _ _ Hq) as [Hpl Hpb].
  destruct Hq as (Hl & Hb & Hc & Hlen).
  destruct (netmask_bytes_ok n) as [Hml Hmb].
  unfold parse_addr_finish. cbn [netmask set_family]. rewrite mask_words_ok by done.
  rewrite strlcpy_correct by (auto using addr_char_not_nul).
  destruct (Z.leb_spec (Z.of_nat HUMANREPR_SIZE) (strlen buffer)) as [Hbig|_].
  { unfold HUMANREPR_SIZE, INET6_ADDRSTRLEN in Hbig. lia. }
  unfold addr_of. cbn [sa set_sa set_sa_size set_family].
  by rewrite (and_words_bytes 4).
Qed.

Lemma store_v4_padded q :
  length q = 4%nat -> store_v4 q addr_zero = set_sa_size (Z.of_nat (length q)) (set_sa (padded q) addr_zero).
Proof. by intros ->. Qed.

Lemma store_v6_padded q :
  length q = 16%nat -> store_v6 q addr_zero = set_sa_size (Z.of_nat (length q)) (set_sa (padded q) addr_zero).
Proof. by intros ->. Qed.

Lemma finish_v4 n q buffer error p tr :
  inet_pton4 buffer = Some q -> 0 <= n <= 128 ->
  parse_addr_finish buffer (set_family AF_INET n (store_v4 q addr_zero)) error p tr
  = (Ok (true, addr_of AF_INET n q buffer), p, tr).
Proof.
  intros [Hq Hl]%pton4_ok Hn. rewrite store_v4_padded by done. by apply parse_addr_finish_ok.
Qed.

Lemma finish_v6 n q buffer error p tr :
  inet_pton6 buffer = Some q -> 0 <= n <= 128 ->
  parse_addr_finish buffer (set_family AF_INET6 n (store_v6 q addr_zero)) error p tr
  = (Ok (true, addr_of AF_INET6 n q buffer), p, tr).
Proof.
  intros [Hq Hl]%pton6_ok Hn. rewrite store_v6_padded by done. by apply parse_addr_finish_ok.
Qed.
End Finish.

Section Soundness.
Context `{EV : !Env} `{EN : !Endian}.
Implicit Types (p : proc) (tr : trace).

(** Results that may be banned are networks of [buffer]; a failure leaves the
    object cleared. *)
Definition sound (buffer : string) (o : outcome (bool * addr_t)) : Prop :=
  match o with Ok (true, a) => is_network buffer a | Ok (false, a) => a = addr_zero | _ => True end.

Lemma wp_error_then {A} error msg (a : A) (Q : outcome A -> Prop) p tr :
  Q (Ok a) -> (forall u, Q (Undef u)) ->
  wp (_error_set error msg ≫= fun _ => mret a) (fun o _ _ => Q o) p tr.
Proof.
  intros HQ HU. unfold _error_set. destruct error; [done|].
  apply wp_bind. wp_steps; auto.
Qed.

Lemma wp_host_sound buffer prefix error p tr :
  0 <= prefix ->
  wp (parse_addr_host buffer prefix error) (fun o _ _ => sound buffer o) p tr.
Proof.
  intros Hpre. unfold parse_addr_host, set_generic_error. wp_step. wp_step. wp_step.
  { wp_step. wp_step. by apply wp_error_then. }
  wp_step; [done|]. destruct a as [fam sock]. simpl.
  destruct (bool_decide (fam = AF_INET) && (32 <? prefix)) eqn:E4; [by apply wp_error_then|].
  destruct (bool_decide (fam = AF_INET6) && (128 <? prefix)) eqn:E6; [by apply wp_error_then|].
  destruct fam as [| |m]; [| |by apply wp_error_then].
  - rewrite bool_decide_eq_true_2 in E4 by done. simpl in E4. bools.
    destruct (inet_pton4 buffer) as [q|] eqn:Eq; [|by apply wp_error_then].
    unfold wp. rewrite Z.mod_small, finish_v4 by (done || lia). by constructor.
  - rewrite bool_decide_eq_true_2 in E6 by done. simpl in E6. bools.
    destruct (inet_pton6 buffer) as [q|] eqn:Eq.
    + destruct (inet_pton4 buffer);
        unfold wp; rewrite Z.mod_small, finish_v6 by (done || lia); by constructor.
    + destruct (inet_pton4 buffer); by apply wp_error_then.
Qed.

Lemma wp_parse_addr_sound s error p tr :
  wp (parse_addr s error) (fun o _ _ => sound (host_part s) o) p tr.
Proof.
  unfold parse_addr, host_part. destruct (strchr_split "/" s) as [[buffer suffix]|].
  - unfold parse_addr_cidr. wp_step. wp_step. wp_step; [done|]. wp_step.
    apply run_wp. intros o p' tr' Hrun.
    assert (match o with Ok (_, v) => 0 <= v | _ => True end) as Hv.
    { destruct (ulong_value (p_errno (set_errno e p)) suffix) as [v|] eqn:E.
      - rewrite (parse_ulong_accept _ v) in Hrun by done. simplify_eq.
        apply ulong_value_Some in E as [?%ulong_text_range _]. lia.
      - edestruct parse_ulong_reject as (msg & e' & Hr); [exact E|]. rewrite Hr in Hrun.
        pose proof (strtoul_range suffix).
        refine (wp_run _ (fun o _ _ => match o with Ok (_, v) => 0 <= v | _ => True end)
                  _ _ _ _ _ _ Hrun).
        apply (wp_error_then _ _ _ (fun o => match o with Ok (_, v) => 0 <= v | _ => True end));
          [lia|done]. }
    destruct o as [[b v]|n| |u]; [|done..]. by apply wp_host_sound.
  - destruct (inet_pton4 s) as [q|] eqn:E4.
    { unfold wp. rewrite finish_v4 by (done || lia). by constructor. }
    destruct (inet_pton6 s) as [q|] eqn:E6.
    { unfold wp. rewrite finish_v6 by (done || lia). by constructor. }
    by apply wp_error_then.
Qed.

(** C5: a successful [parse_addr] yields the network denoted by the part of
    the message before the slash: its family, its size, a prefix in range,
    the address bytes masked to the prefix, and the printable form. *)
Theorem parse_addr_sound s error p tr a p' tr' :
  parse_addr s error p tr = (Ok (true, a), p', tr') -> is_network (host_part s) a.
Proof.
  intros Hrun. apply (wp_run _ _ _ _ _ _ _ (wp_parse_addr_sound s error p tr) Hrun).
Qed.

(** C6: the bytes a successful [parse_addr] stores are those of [inet_pton] on
    the network bits and zero on the host bits, for both byte orders and both
    families: the mask built word by word with [htonl] is the prefix mask. *)
Theorem parse_addr_host_bits s error p tr a p' tr' i :
  parse_addr s error p tr = (Ok (true, a), p', tr') -> (i < 128)%nat ->
  exists q,
    (fa a = AF_INET /\ inet_pton4 (host_part s) = Some q
     \/ fa a = AF_INET6 /\ inet_pton6 (host_part s) = Some q)
    /\ netbit (sa a) i = netbit (padded q) i && (Z.of_nat i <? netmask a).
Proof.
  intros Hrun Hi.
  pose proof (wp_run _ _ _ _ _ _ _ (wp_parse_addr_sound s error p tr) Hrun) as Hnet.
  inversion Hnet as [q n Hq Hn|q n Hq Hn]; subst a; exists q; (split; [by auto|]);
    [destruct (pton4_ok _ _ Hq) as [Hok _]|destruct (pton6_ok _ _ Hq) as [Hok _]];
    cbn [sa netmask addr_of]; destruct (padded_ok _ _ Hok) as [? _];
    rewrite netbit_land, netbit_netmask by (done || lia); done.
Qed.

(** C14: the [humanrepr] of a successful parse is NUL-terminated inside its
    array, reads back as the address text of the message, is at most 45
    characters long and only contains hexadecimal digits, dots and colons, so
    no character a shell interprets reaches the commands built from it. *)
Theorem parse_addr_humanrepr s error p tr a p' tr' :
  parse_addr s error p tr = (Ok (true, a), p', tr') ->
  nul_prefix (humanrepr a) = Some (host_part s)
  /\ str_all addr_char (host_part s) = true /\ strlen (host_part s) <= 45.
Proof.
  intros Hrun.
  pose proof (wp_run _ _ _ _ _ _ _ (wp_parse_addr_sound s error p tr) Hrun) as Hnet.
  by apply network_humanrepr.
Qed.

(** The type of an [addr_t]: the widths of its fields, a size that is the one of
    its family, and a string in its array. *)
Definition addr_wf (a : addr_t) : Prop :=
  length (sa a) = 16%nat /\ Forall is_byte (sa a) /\ 0 <= netmask a < 256
  /\ length (humanrepr a) = HUMANREPR_SIZE /\ is_Some (nul_prefix (humanrepr a))
  /\ match fa a with
     | AF_INET => sa_size a = 4 /\ netmask a <= 32
     | AF_INET6 => sa_size a = 16 /\ netmask a <= 128
     | AF_OTHER n => n = 0 /\ a = addr_zero
     end.

Lemma masked_ok b q n :
  pton_ok b q ->
  length (zip_with Z.land (padded q) (netmask_bytes n)) = 16%nat
  /\ Forall is_byte (zip_with Z.land (padded q) (netmask_bytes n)).
Proof.
  intros Hq. destruct (padded_ok _ _ Hq) as [Hl Hb], (netmask_bytes_ok n) as [Hml Hmb].
  split; [by rewrite length_zip_with, Hl, Hml|]. by apply land_bytes.
Qed.

Lemma network_wf buffer a : is_network buffer a -> addr_wf a.
Proof.
  intros Hnet. destruct (network_humanrepr _ _ Hnet) as [Hh _].
  assert (Hlen : length (humanrepr a) = HUMANREPR_SIZE).
  { inversion Hnet; cbn [humanrepr addr_of]; rewrite strlcpy_result_length; by rewrite length_replicate. }
  inversion Hnet as [q n Hq Hn|q n Hq Hn]; subst a; cbn [addr_of humanrepr] in *;
    [destruct (pton4_ok _ _ Hq) as [Hok Hql]|destruct (pton6_ok _ _ Hq) as [Hok Hql]];
    destruct (masked_ok _ _ n Hok) as [Hl Hb]; unfold addr_wf;
    cbn [addr_of sa fa sa_size netmask humanrepr]; rewrite Hql;
    split_and!; try done; try lia; by eexists.
Qed.

Lemma addr_zero_wf : addr_wf addr_zero.
Proof. split_and!; try done; repeat constructor; unfold is_byte; lia. Qed.

(** C11: whatever the message and the answers of the system, an [addr_t] that
    [parse_addr] leaves has its type: 16 bytes, an 8-bit prefix that is in range
    for the family, the size of the family, and a NUL-terminated text in an array
    of 47; after a failure it is all zero. *)
Theorem parse_addr_typed s error p tr b a p' tr' :
  parse_addr s error p tr = (Ok (b, a), p', tr') -> addr_wf a /\ (b = false -> a = addr_zero).
Proof.
  intros Hrun. pose proof (wp_run _ _ _ _ _ _ _ (wp_parse_addr_sound s error p tr) Hrun) as Hs.
  destruct b; simpl in Hs; [split; [by eapply network_wf|done]|]. subst a. split; [apply addr_zero_wf|done].
Qed.
End Soundness.

Section Complete.
Context `{EV : !Env} `{EN : !Endian} `{!MallocOk}.
Implicit Types (p : proc) (tr : trace).

(** [m] fails with [msg]: it returns [false], the message is stored, and only
    reporting calls are made. *)
Definition fails_with {A} (m : M proc (bool * A)) (a : A) (msg : string) p tr : Prop :=
  exists e tr', m p tr = (Ok (false, a), Proc e (Some msg), tr') /\ grows reporting tr tr'.

Lemma error_then_fails {A} (a : A) msg p tr :
  p_error p = None ->
  fails_with (_error_set ErrVar msg ≫= fun _ => mret (false, a)) a msg p tr.
Proof.
  intros Hp. destruct (error_set_run msg p tr Hp) as (e & tr' & Hrun & Hg).
  exists e, tr'. by rewrite (bind_Ok _ _ _ _ _ _ _ Hrun).
Qed.

(** The outcome on a message without a slash. *)
Definition plain_outcome (s : string) p tr : Prop :=
  match inet_pton4 s, inet_pton6 s with
  | Some q, _ => parse_addr s ErrVar p tr = (Ok (true, addr_of AF_INET 32 q s), p, tr)
  | None, Some q => parse_addr s ErrVar p tr = (Ok (true, addr_of AF_INET6 64 q s), p, tr)
  | None, None =>
      fails_with (parse_addr s ErrVar) addr_zero ("valid address expected, got: " +:+ s) p tr
  end.

Lemma plain_cases s p tr :
  strchr_split "/" s = None -> p_error p = None -> plain_outcome s p tr.
Proof.
  intros Hs Hp. unfold plain_outcome, fails_with, parse_addr. rewrite Hs.
  destruct (inet_pton4 s) as [q|] eqn:E4; [by apply finish_v4; [|lia]|].
  destruct (inet_pton6 s) as [q|] eqn:E6; [by apply finish_v6; [|lia]|].
  by apply error_then_fails.
Qed.

(** C21: [parse_addr] on a message without a slash: an IPv4 address is a /32
    network, an IPv6 address a /64 network (IPv4 is tried first), and any
    other text is refused with one error message; nothing else changes. *)
Theorem parse_addr_plain s p tr :
  strchr_split "/" s = None -> p_error p = None -> plain_outcome s p tr.
Proof. apply plain_cases. Qed.

(** *** Messages with a slash *)

(** What [getaddrinfo] finds when it is called: the copy of the message, and an
    error exactly when [parse_ulong] refused the suffix, which nobody looks at.
    [e] is the [errno] that [strdup] left. *)
Definition prefix_read (s suffix : string) tr (e : Z) p1 tr1 : Prop :=
  match ulong_value e suffix with
  | Some _ => p1 = Proc e None /\ tr1 = Ev (Strdup s) true :: tr
  | None => is_Some (p_error p1) /\ grows reporting (Ev (Strdup s) true :: tr) tr1
  end.

(** The result on [buffer] with the prefix [n], when [getaddrinfo] is called in [p1]
    and [tr1], answers [ans] and leaves [errno] at [e'].  A failure stores its
    message, but over an earlier one it frees the address of the variable. *)
Definition host_outcome (res : outcome (bool * addr_t) * proc * trace) (buffer : string) (n : Z)
    p1 tr1 (ans : Z + list addrinfo) (e' : Z) : Prop :=
  let tr2 := Ev (Getaddrinfo buffer true) ans :: tr1 in
  let success f q := res = (Ok (true, addr_of f n q buffer), set_errno e' p1, tr2) in
  let failure msg :=
    match p_error p1 with
    | None => exists e3 tr3, res = (Ok (false, addr_zero), Proc e3 (Some msg), tr3)
                             /\ grows reporting tr2 tr3
    | Some _ => res.1.1 = Undef InvalidFree
    end in
  match ans with
  | inl code => exists text, failure ("getaddrinfo failed: " +:+ text)
  | inr [] => res.1.1 = Undef NullDeref
  | inr (res :: _) =>
      match ai_family res with
      | AF_INET =>
          if 32 <? n then failure "prefix too long for AF_INET"
          else match inet_pton4 buffer with
               | Some q => success AF_INET q
               | None => failure ("valid address expected, got: " +:+ buffer)
               end
      | AF_INET6 =>
          if 128 <? n then failure "prefix too long for AF_INET6"
          else match inet_pton6 buffer with
               | Some q => success AF_INET6 q
               | None => failure ("valid address expected, got: " +:+ buffer)
               end
      | AF_OTHER _ => failure ("valid address expected, got: " +:+ buffer)
      end
  end.

(** The error branch, with or without an earlier error. *)
Lemma error_then_any msg p tr tr0 :
  grows reporting tr0 tr ->
  let res := (_error_set ErrVar msg ≫= fun _ => mret (false, addr_zero)) p tr in
  match p_error p with
  | None => exists e3 tr3, res = (Ok (false, addr_zero), Proc e3 (Some msg), tr3)
                           /\ grows reporting tr0 tr3
  | Some _ => res.1.1 = Undef InvalidFree
  end.
Proof.
  intros Hg0 res. destruct (p_error p) as [old|] eqn:Hp.
  - apply (wp_result _ (fun res => res.1.1 = Undef InvalidFree)).
    apply wp_bind. by eapply wp_error_set_twice.
  - destruct (error_then_fails addr_zero msg p tr Hp) as (e3 & tr3 & Hrun & Hg).
    exists e3, tr3. split; [exact Hrun|]. by eapply grows_trans.
Qed.

Lemma host_cases buffer n p1 tr1 ans e' :
  0 <= n -> env_call _ tr1 (Getaddrinfo buffer true) = (ans, e') ->
  host_outcome (parse_addr_host buffer n ErrVar p1 tr1) buffer n p1 tr1 ans e'.
Proof.
  intros Hn Hgai. unfold host_outcome. cbv zeta.
  unfold parse_addr_host. rewrite (bind_syscall _ _ _ _ _ _ Hgai).
  set (tr2 := Ev (Getaddrinfo buffer true) ans :: tr1). clear Hgai. clearbody tr2.
  change (p_error p1) with (p_error (set_errno e' p1)). set (p2 := set_errno e' p1). clearbody p2.
  assert (Hrefl : grows reporting tr2 tr2) by constructor.
  destruct ans as [gai|[|[fam sock] rest]]; [|done|].
  - destruct (env_call _ tr2 (Gai_strerror gai)) as [text e2] eqn:Et. exists text.
    rewrite (bind_syscall _ _ _ _ _ _ Et). change (p_error p2) with (p_error (set_errno e2 p2)).
    apply error_then_any. by repeat constructor.
  - cbn [ai_family]. destruct fam as [| |m].
    + rewrite bool_decide_eq_true_2, bool_decide_eq_false_2 by done. cbn [andb].
      destruct (Z.ltb_spec 32 n) as [|Hle]; [by apply error_then_any|].
      destruct (inet_pton4 buffer) as [q|] eqn:Eq; [|by apply error_then_any].
      rewrite Z.mod_small, finish_v4 by (done || lia). done.
    + rewrite bool_decide_eq_false_2, bool_decide_eq_true_2 by done. cbn [andb].
      destruct (Z.ltb_spec 128 n) as [|Hle]; [by apply error_then_any|].
      destruct (inet_pton6 buffer) as [q|] eqn:Eq, (inet_pton4 buffer);
        try (by apply error_then_any); rewrite Z.mod_small, finish_v6 by (done || lia); done.
    + rewrite !bool_decide_eq_false_2 by done. by apply error_then_any.
Qed.

(** Up to the call of [getaddrinfo]. *)
Lemma parse_addr_cidr_run s buffer suffix p tr e :
  strchr_split "/" s = Some (buffer, suffix) -> p_error p = None ->
  env_call _ tr (Strdup s) = (true, e) ->
  exists p1 tr1, prefix_read s suffix tr e p1 tr1
    /\ parse_addr s ErrVar p tr = parse_addr_host buffer (su_val (strtoul suffix)) ErrVar p1 tr1.
Proof.
  intros Hs Hp Hdup. unfold parse_addr, prefix_read. rewrite Hs. unfold parse_addr_cidr.
  rewrite (bind_syscall _ _ _ _ _ _ Hdup). cbn [negb].
  assert (Hpe : set_errno e p = Proc e None) by (unfold set_errno; by rewrite Hp).
  rewrite Hpe. set (tr0 := Ev (Strdup s) true :: tr). destruct (ulong_value e suffix) as [n|] eqn:Eu.
  - exists (Proc e None), tr0. split; [done|].
    erewrite bind_Ok by exact (parse_ulong_accept suffix n ErrVar (Proc e None) tr0 Eu).
    apply ulong_value_Some in Eu as [Ht _]. apply strtoul_full in Ht as [<- _]. done.
  - destruct (parse_ulong_reject suffix ErrVar (Proc e None) tr0 Eu) as (msg & e' & Hrej).
    destruct (error_set_run msg (set_errno e' (Proc e None)) tr0 eq_refl) as (e3 & tr3 & Hrun & Hg).
    rewrite (bind_Ok _ _ _ _ _ _ _ Hrun) in Hrej. exists (Proc e3 (Some msg)), tr3.
    split; [split; [by eexists|done]|]. by erewrite bind_Ok by exact Hrej.
Qed.

Lemma cidr_cases s buffer suffix p tr dup e :
  strchr_split "/" s = Some (buffer, suffix) -> p_error p = None ->
  env_call _ tr (Strdup s) = (dup, e) ->
  if dup then
    exists p1 tr1, prefix_read s suffix tr e p1 tr1 /\
      forall ans e', env_call _ tr1 (Getaddrinfo buffer true) = (ans, e') ->
        host_outcome (parse_addr s ErrVar p tr) buffer (su_val (strtoul suffix)) p1 tr1 ans e'
  else parse_addr s ErrVar p tr = (Undef NullDeref, set_errno e p, Ev (Strdup s) false :: tr).
Proof.
  intros Hs Hp Hdup. destruct dup.
  - destruct (parse_addr_cidr_run s buffer suffix p tr e Hs Hp Hdup) as (p1 & tr1 & Hread & ->).
    exists p1, tr1. split; [done|]. intros ans e' Hgai. apply host_cases; [|done].
    apply (strtoul_range suffix).
  - unfold parse_addr, parse_addr_cidr. rewrite Hs. by rewrite (bind_syscall _ _ _ _ _ _ Hdup).
Qed.

(** C22: [parse_addr] on any message [buffer/suffix], with no error pending and
    [malloc] succeeding: every outcome.  A failed [strdup] is dereferenced.
    Otherwise the prefix is what [strtoul] returned for the suffix, and an error is
    stored exactly when [parse_ulong] refuses it; the result is then decided by the
    answer of [getaddrinfo], the bound of the family on the prefix, and
    [inet_pton].  A success keeps the error of the prefix; a failure stores its
    message, or is undefined when that error is there. *)
Theorem parse_addr_cidr_outcome s buffer suffix p tr dup e :
  strchr_split "/" s = Some (buffer, suffix) -> p_error p = None ->
  env_call _ tr (Strdup s) = (dup, e) ->
  if dup then
    exists p1 tr1, prefix_read s suffix tr e p1 tr1 /\
      forall ans e', env_call _ tr1 (Getaddrinfo buffer true) = (ans, e') ->
        host_outcome (parse_addr s ErrVar p tr) buffer (su_val (strtoul suffix)) p1 tr1 ans e'
  else parse_addr s ErrVar p tr = (Undef NullDeref, set_errno e p, Ev (Strdup s) false :: tr).
Proof. apply cidr_cases. Qed.
End Complete.

Section BadPrefix.
Context `{EV : !Env} `{EN : !Endian} `{!MallocOk} `{!StrdupOk}.
Implicit Types (p : proc) (tr : trace).

(** No value of [errno] makes [parse_ulong] accept the suffix. *)
Definition bad_suffix (suffix : string) : Prop := forall errno, ulong_value errno suffix = None.

(** With a rejected suffix the error is stored and parsing goes on with
    whatever [strtoul] returned. *)
Lemma parse_addr_cidr_bad s buffer suffix p tr :
  strchr_split "/" s = Some (buffer, suffix) -> bad_suffix suffix -> p_error p = None ->
  exists msg e tr1,
    parse_addr s ErrVar p tr
    = parse_addr_host buffer (su_val (strtoul suffix)) ErrVar (Proc e (Some msg)) tr1
    /\ grows reporting (Ev (Strdup s) true :: tr) tr1.
Proof.
  intros Hs Hbad Hp. destruct (strdup_ok tr s) as [e Hdup].
  destruct (parse_addr_cidr_run s buffer suffix p tr e Hs Hp Hdup) as (p1 & tr1 & Hread & ->).
  unfold prefix_read in Hread. rewrite Hbad in Hread. destruct Hread as [[msg Hmsg] Hg].
  exists msg, (p_errno p1), tr1. split; [|done]. destruct p1. simpl in *. by rewrite Hmsg.
Qed.

(** C36: a message [a.b.c.d/suffix] whose suffix is no number is not refused:
    [parse_addr] returns [true] for the network whose prefix is what [strtoul]
    returned (0 when there are no digits: every IPv4 address), and the stored
    error message is left behind. *)
Theorem parse_addr_bad_prefix_accepted s buffer suffix q p tr res rest :
  strchr_split "/" s = Some (buffer, suffix) -> bad_suffix suffix -> p_error p = None ->
  inet_pton4 buffer = Some q -> su_val (strtoul suffix) <= 32 ->
  ai_family res = AF_INET ->
  (forall tr', fst (env_call _ tr' (Getaddrinfo buffer true)) = inr (res :: rest)) ->
  exists msg e tr',
    parse_addr s ErrVar p tr
    = (Ok (true, addr_of AF_INET (su_val (strtoul suffix)) q buffer), Proc e (Some msg), tr').
Proof.
  intros Hs Hbad Hp Hq Hv Hfam Hgai.
  destruct (parse_addr_cidr_bad s buffer suffix p tr Hs Hbad Hp) as (msg & e & tr1 & -> & _).
  specialize (Hgai tr1). destruct (env_call _ tr1 (Getaddrinfo buffer true)) as [ans e'] eqn:E.
  simpl in Hgai. subst ans. unfold parse_addr_host. rewrite (bind_syscall _ _ _ _ _ _ E).
  pose proof (strtoul_range suffix). rewrite Hfam, bool_decide_eq_true_2, bool_decide_eq_false_2 by done.
  cbn [andb]. destruct (Z.ltb_spec 32 (su_val (strtoul suffix))); [lia|].
  rewrite Hq, Z.mod_small, finish_v4 by (done || lia). by do 3 eexists.
Qed.

(** A message whose suffix is no number and whose host part [getaddrinfo]
    refuses makes [parse_addr] store a second error message over the first,
    which frees the address of the caller's variable: undefined behaviour,
    reachable from any sender of the queue. *)
Theorem parse_addr_double_error s buffer suffix p tr code :
  strchr_split "/" s = Some (buffer, suffix) -> bad_suffix suffix -> p_error p = None ->
  (forall tr', fst (env_call _ tr' (Getaddrinfo buffer true)) = inl code) ->
  (parse_addr s ErrVar p tr).1.1 = Undef InvalidFree.
Proof.
  intros Hs Hbad Hp Hgai.
  destruct (parse_addr_cidr_bad s buffer suffix p tr Hs Hbad Hp) as (msg & e & tr1 & -> & _).
  specialize (Hgai tr1). destruct (env_call _ tr1 (Getaddrinfo buffer true)) as [ans e'] eqn:E.
  simpl in Hgai. subst ans. unfold parse_addr_host. rewrite (bind_syscall _ _ _ _ _ _ E).
  apply (wp_result _ (fun res => res.1.1 = Undef InvalidFree)).
  wp_step. wp_step. wp_step. by eapply wp_error_set_twice.
Qed.
End BadPrefix.

(** ** Safety of well-formed messages *)

(** Messages the code handles cleanly, whatever [errno] is: without a slash, or
    with a suffix that is a number strictly between 0 and [ULONG_MAX]. *)
Definition clean_message (s : string) : Prop :=
  match strchr_split "/" s with
  | None => True
  | Some (_, suffix) => exists n, ulong_text suffix n /\ 0 < n < ULONG_MAX
  end.

#[export] Instance clean_message_dec s : Decision (clean_message s).
Proof.
  unfold clean_message. destruct (strchr_split "/" s) as [[buffer suffix]|]; [|left; done].
  set (r := strtoul suffix).
  refine (cast_if (decide ((su_moved r = true /\ su_end r = "" /\ su_erange r = false)
                           /\ 0 < su_val r < ULONG_MAX))).
  - destruct_and!. exists (su_val r). split; [|done]. by apply strtoul_full.
  - intros (v & Ht & Hv). apply strtoul_full in Ht as (Hval & ? & ? & ?). fold r in Hval.
    subst v. tauto.
Defined.

(** Messages whose suffix [parse_ulong] accepts when [parse_addr] starts after the
    history [tr]: it looks at the [errno] that [strdup] leaves. *)
Definition safe_message `{EV : !Env} (s : string) (tr : trace) : Prop :=
  match strchr_split "/" s with
  | None => True
  | Some (_, suffix) => is_Some (ulong_value (env_call _ tr (Strdup s)).2 suffix)
  end.

Lemma clean_safe `{EV : !Env} s tr : clean_message s -> safe_message s tr.
Proof.
  unfold clean_message, safe_message. destruct (strchr_split "/" s) as [[buffer suffix]|]; [|done].
  intros (n & Ht & Hn). exists n. apply ulong_value_Some. split_and!; [done|lia|lia].
Qed.

(** The calls [parse_addr] makes. *)
Definition parsing (A : Set) (c : sys A) : Prop :=
  match c with
  | Strdup _ | Getaddrinfo _ _ => True
  | c => reporting A c
  end.

Lemma reporting_parsing A c : reporting A c -> parsing A c.
Proof. by destruct c. Qed.

Section Safety.
Context `{EV : !Env} `{EN : !Endian} `{!MallocOk} `{!StrdupOk} `{!GaiOk}.
Implicit Types (p : proc) (tr : trace).

(** The contract of [parse_addr]: it returns, the error variable is set exactly
    on failure, and only parsing calls were made. *)
Definition parse_contract (s : string) p tr : Prop :=
  exists b a p' tr',
    parse_addr s ErrVar p tr = (Ok (b, a), p', tr')
    /\ (if b then p_error p' = None /\ is_network (host_part s) a else is_Some (p_error p'))
    /\ grows parsing tr tr'.

(** What [host_outcome] says, without the case analysis: with no error pending the
    function returns and reports, with one it never keeps the contract. *)
Lemma host_outcome_cases res buffer n p1 tr1 ans e' :
  ans <> inr [] -> host_outcome res buffer n p1 tr1 ans e' ->
  match p_error p1 with
  | None => exists b a p' tr', res = (Ok (b, a), p', tr')
      /\ (if b then p_error p' = None else is_Some (p_error p'))
      /\ grows reporting (Ev (Getaddrinfo buffer true) ans :: tr1) tr'
  | Some _ => res.1.1 = Undef InvalidFree \/ exists a p' tr', res = (Ok (true, a), p', tr')
      /\ is_Some (p_error p')
  end.
Proof.
  intros Hans Hout. unfold host_outcome in Hout. cbv zeta in Hout.
  destruct (p_error p1) as [old|] eqn:Hp.
  - repeat case_match; try done; destruct_exists; try (by left); right; do 3 eexists; (split; [done|]);
      simpl; rewrite Hp; by eexists.
  - repeat case_match; try done; destruct_exists; destruct_and?; do 4 eexists; (split; [done|]);
      simpl; (split; [by first [rewrite Hp | eexists]|]); first [done | constructor].
Qed.

Lemma host_contract s buffer suffix p tr :
  strchr_split "/" s = Some (buffer, suffix) -> p_error p = None ->
  parse_contract s p tr <-> is_Some (ulong_value (env_call _ tr (Strdup s)).2 suffix).
Proof.
  intros Hs Hp. destruct (strdup_ok tr s) as [e Hdup]. rewrite Hdup. cbn [snd].
  destruct (cidr_cases s buffer suffix p tr true e Hs Hp Hdup) as (p1 & tr1 & Hread & Hout).
  destruct (env_call _ tr1 (Getaddrinfo buffer true)) as [ans e'] eqn:Hgai.
  specialize (Hout ans e' eq_refl).
  assert (Hne : ans <> inr []) by (intros ->; by destruct (gai_ok _ _ _ _ Hgai)).
  apply host_outcome_cases in Hout; [|done]. unfold prefix_read in Hread.
  destruct (ulong_value e suffix) as [v|].
  - destruct Hread as [-> ->]. simpl in Hout. destruct Hout as (b & a & p' & tr' & Hrun & Hb & Hg).
    split; [done|]. intros _. exists b, a, p', tr'. split; [done|]. split.
    + destruct b; [|done]. split; [done|].
      apply (wp_run _ _ _ _ _ _ _ (wp_parse_addr_sound s ErrVar p tr) Hrun).
    + eapply grows_trans; [|by eapply grows_impl; [apply reporting_parsing|done]]. repeat constructor.
  - destruct Hread as [[old Hold] _]. rewrite Hold in Hout.
    split; [|by intros [? ?]]. intros (b & a & p' & tr' & Hrun & Hb & _).
    destruct Hout as [Hu|(a' & p'' & tr'' & Hrun' & [m Hm])]; [by rewrite Hrun in Hu|].
    rewrite Hrun in Hrun'. simplify_eq. destruct Hb. congruence.
Qed.

Lemma parse_contract_iff s p tr : p_error p = None -> parse_contract s p tr <-> safe_message s tr.
Proof.
  intros Hp. unfold safe_message. destruct (strchr_split "/" s) as [[buffer suffix]|] eqn:Hs.
  { by apply (host_contract s buffer). }
  split; [done|]. intros _. unfold parse_contract.
  pose proof (plain_cases s p tr Hs Hp) as Hc. unfold plain_outcome in Hc.
  assert (Hsound : forall a p' tr', parse_addr s ErrVar p tr = (Ok (true, a), p', tr') ->
    is_network (host_part s) a)
    by (intros a p' tr' Hrun; apply (wp_run _ _ _ _ _ _ _ (wp_parse_addr_sound s ErrVar p tr) Hrun)).
  destruct (inet_pton4 s); [|destruct (inet_pton6 s)].
  - do 4 eexists. split; [exact Hc|]. split; [split; [done|by eapply Hsound]|constructor].
  - do 4 eexists. split; [exact Hc|]. split; [split; [done|by eapply Hsound]|constructor].
  - destruct Hc as (e & tr' & Hrun & Hg). do 4 eexists. split; [exact Hrun|]. split; [by eexists|].
    eapply grows_impl; [apply reporting_parsing|done].
Qed.

Lemma parse_addr_clean s p tr :
  clean_message s -> p_error p = None -> parse_contract s p tr.
Proof. intros Hs Hp. by apply parse_contract_iff, clean_safe. Qed.

(** C10: the messages [parse_addr] handles safely are exactly those without a slash
    and those whose suffix [parse_ulong] accepts.  With no error pending, and on a
    system where [malloc] and [strdup] succeed and [getaddrinfo] gives a result when
    it succeeds: on such a message, and on no other, [parse_addr] returns, sets the
    error variable exactly when it returns [false], returns [true] only with a
    network of the text, and makes no calls but [strdup], [getaddrinfo] and those
    that report.  Suffixes that are numbers strictly between 0 and [ULONG_MAX] are
    accepted whatever [errno] is; 0 is not accepted. *)
Theorem parse_addr_safe s p tr :
  p_error p = None ->
  (parse_contract s p tr <-> safe_message s tr) /\ (clean_message s -> safe_message s tr).
Proof. intros Hp. split; [by apply parse_contract_iff|apply clean_safe]. Qed.
End Safety.

(** ** The network of a message *)

(** What a clean message asks for: the network of its address and prefix; without
    a prefix one IPv4 address or the /64 of an IPv6 address; nothing when it is no
    address or the prefix is too long. *)
Definition network_of (m : string) : option addr_t :=
  match strchr_split "/" m with
  | None =>
      match inet_pton4 m, inet_pton6 m with
      | Some q, _ => Some (addr_of AF_INET 32 q m)
      | None, Some q => Some (addr_of AF_INET6 64 q m)
      | None, None => None
      end
  | Some (buffer, suffix) =>
      let n := su_val (strtoul suffix) in
      match inet_pton4 buffer, inet_pton6 buffer with
      | Some q, _ => if n <=? 32 then Some (addr_of AF_INET n q buffer) else None
      | None, Some q => if n <=? 128 then Some (addr_of AF_INET6 n q buffer) else None
      | None, None => None
      end
  end.

(** With [AI_NUMERICHOST], [getaddrinfo] accepts the numeric addresses [inet_pton]
    accepts, and gives them their family. *)
Class GaiNumeric `{EV : !Env} : Prop := {
  gai_numeric4 tr node q : inet_pton4 node = Some q -> exists res rest e,
    env_call _ tr (Getaddrinfo node true) = (inr (res :: rest), e) /\ ai_family res = AF_INET;
  gai_numeric6 tr node q : inet_pton4 node = None -> inet_pton6 node = Some q -> exists res rest e,
    env_call _ tr (Getaddrinfo node true) = (inr (res :: rest), e) /\ ai_family res = AF_INET6
}.

Section NetworkOf.
Context `{EV : !Env} `{EN : !Endian} `{!MallocOk} `{!StrdupOk} `{!GaiOk} `{!GaiNumeric}.
Implicit Types (p : proc) (tr : trace).

(** [parse_addr] computes [network_of] on clean messages. *)
Lemma parse_addr_network s p tr :
  clean_message s -> p_error p = None ->
  exists b a p' tr', parse_addr s ErrVar p tr = (Ok (b, a), p', tr')
    /\ network_of s = (if b then Some a else None)
    /\ (if b then p_error p' = None else is_Some (p_error p')) /\ grows parsing tr tr'.
Proof.
  intros Hclean Hp. destruct (parse_addr_clean s p tr Hclean Hp) as (b & a & p' & tr' & Hrun & Hb & Hg).
  exists b, a, p', tr'. split; [done|]. split; [|split; [by destruct b; [destruct Hb|]|done]].
  unfold network_of. destruct (strchr_split "/" s) as [[buffer suffix]|] eqn:Hs; cbv zeta.
  - destruct (strdup_ok tr s) as [e Hdup].
    destruct (cidr_cases s buffer suffix p tr true e Hs Hp Hdup) as (p1 & tr1 & Hread & Hout).
    assert (p_error p1 = None) as Hp1.
    { pose proof (clean_safe s tr Hclean) as Hsafe. unfold safe_message in Hsafe.
      rewrite Hs, Hdup in Hsafe. destruct Hsafe as [v Hv]. cbn [snd] in Hv. unfold prefix_read in Hread.
      rewrite Hv in Hread. by destruct Hread as [-> _]. }
    unfold host_outcome in Hout. rewrite Hp1, Hrun in Hout. cbv zeta in Hout.
    set (n := su_val (strtoul suffix)) in *.
    destruct (inet_pton4 buffer) as [q|] eqn:E4; [|destruct (inet_pton6 buffer) as [q|] eqn:E6].
    + destruct (gai_numeric4 tr1 buffer q E4) as (res & rest & e' & Hgai & Hfam).
      specialize (Hout _ _ Hgai). cbv beta iota in Hout. rewrite Hfam, Z.ltb_antisym in Hout. destruct (n <=? 32); cbn [negb] in Hout.
      * by simplify_eq.
      * destruct_exists; destruct_and?; by simplify_eq.
    + destruct (gai_numeric6 tr1 buffer q E4 E6) as (res & rest & e' & Hgai & Hfam).
      specialize (Hout _ _ Hgai). cbv beta iota in Hout. rewrite Hfam, Z.ltb_antisym in Hout. destruct (n <=? 128); cbn [negb] in Hout.
      * by simplify_eq.
      * destruct_exists; destruct_and?; by simplify_eq.
    + destruct (env_call _ tr1 (Getaddrinfo buffer true)) as [ans e'] eqn:Hgai.
      specialize (Hout _ _ eq_refl). repeat case_match; try done; destruct_exists; destruct_and?; by simplify_eq.
  - pose proof (plain_cases s p tr Hs Hp) as Hc. unfold plain_outcome, fails_with in Hc.
    destruct (inet_pton4 s); [rewrite Hc in Hrun; by simplify_eq|].
    destruct (inet_pton6 s); [rewrite Hc in Hrun; by simplify_eq|].
    destruct Hc as (e & tr1 & Hc & _). rewrite Hc in Hrun. by simplify_eq.
Qed.
End NetworkOf.

(** ** Numbers *)

Section Numbers.
Context `{EV : !Env}.

(** [parse_ulong] returns [true] exactly on white space, an optional sign
    and decimal digits up to the end of the string, with a value that fits in
    64 bits and is not zero; a minus sign wraps modulo 2^64; a stale
    [errno = ERANGE] additionally rules out [ULONG_MAX].  It then stores that
    value and has no effect. *)
Theorem parse_ulong_accepts s v error p tr :
  parse_ulong s error p tr = (Ok (true, v), p, tr) <->
  ulong_text s v /\ v <> 0 /\ ~ (p_errno p = ERANGE /\ v = ULONG_MAX).
Proof.
  rewrite <- ulong_value_Some. split; [|apply parse_ulong_accept]. intros Hrun.
  destruct (ulong_value (p_errno p) s) as [w|] eqn:Eu.
  - rewrite (parse_ulong_accept _ _ _ _ _ Eu) in Hrun. congruence.
  - destruct (parse_ulong_reject s error p tr Eu) as (msg & e & Hrej).
    rewrite Hrej in Hrun.
    pose proof (wp_error_then error msg (false, su_val (strtoul s))
      (fun o => match o with Ok (b, _) => b = false | _ => True end) (set_errno e p) tr) as Hwp.
    eapply wp_run in Hrun; [|by apply Hwp]. done.
Qed.
End Numbers.

(** ** Round trip of dotted addresses *)

Definition dotted (a b c d : Z) : string :=
  pretty a +:+ "." +:+ pretty b +:+ "." +:+ pretty c +:+ "." +:+ pretty d.

Lemma dec_val_ge ds acc : 0 <= acc -> str_all is_digit ds = true -> acc <= dec_val acc ds.
Proof.
  revert acc. induction ds as [|c ds IH]; simpl; intros acc Ha Hd; [lia|].
  apply andb_true_iff in Hd as [Hc Hd]. apply digit_val_range in Hc.
  specialize (IH (10 * acc + digit_val c)). specialize (IH ltac:(lia) Hd). lia.
Qed.

Lemma pton4_digits ds v done rest :
  str_all is_digit ds = true -> 0 < v -> dec_val v ds <= 255 ->
  pton4 (ds +:+ rest) done (Some v) = pton4 rest done (Some (dec_val v ds)).
Proof.
  revert v. induction ds as [|c ds IH]; simpl; intros v Hd Hv Hle; [done|].
  apply andb_true_iff in Hd as [Hc Hd]. rewrite Hc. apply digit_val_range in Hc.
  pose proof (dec_val_ge ds (10 * v + digit_val c) ltac:(lia) Hd).
  rewrite (proj2 (Z.eqb_neq v 0)) by lia. rewrite (proj2 (Z.ltb_ge 255 _)) by lia.
  apply IH; [done|lia|done].
Qed.

(** The decimal form of a small number: digits, no leading zero, that value. *)
Definition decimal_ok (n : Z) : bool :=
  match pretty n with
  | EmptyString => false
  | String c ds =>
      is_digit c && str_all is_digit ds && ((0 <? digit_val c) || String.eqb ds "")
      && (dec_val (digit_val c) ds =? n)
  end.

Lemma decimal_byte n : is_byte n -> decimal_ok n = true.
Proof.
  intros Hn. assert (Hall : forallb decimal_ok (seqZ 0 256) = true) by (vm_compute; reflexivity).
  rewrite forallb_forall in Hall. apply Hall, list_elem_of_In, elem_of_seqZ.
  unfold is_byte in Hn. lia.
Qed.

Lemma pton4_octet n done rest :
  is_byte n -> pton4 (pretty n +:+ rest) done None = pton4 rest done (Some n).
Proof.
  intros Hn. pose proof (decimal_byte n Hn) as Hd. unfold decimal_ok in Hd.
  destruct (pretty n) as [|c ds]; [done|].
  rewrite !andb_true_iff, orb_true_iff, Z.eqb_eq in Hd. destruct Hd as [[[Hc Hds] Hv] Hval].
  subst n. simpl. rewrite Hc. destruct Hv as [Hv|Hv].
  - bools. apply pton4_digits; auto. unfold is_byte in Hn. lia.
  - apply String.eqb_eq in Hv as ->. done.
Qed.

Lemma inet_pton4_dotted a b c d :
  is_byte a -> is_byte b -> is_byte c -> is_byte d ->
  inet_pton4 (dotted a b c d) = Some [a; b; c; d].
Proof.
  intros Ha Hb Hc Hd. unfold inet_pton4, dotted.
  assert (Hdot : forall v done rest, (length done < 3)%nat ->
    pton4 ("." +:+ rest) done (Some v) = pton4 rest (done ++ [v]) None).
  { intros v done rest Hl. simpl. by destruct (Nat.eqb_spec (length done) 3); [lia|]. }
  rewrite <- (append_nil_r (pretty d)).
  rewrite pton4_octet, Hdot, pton4_octet, Hdot, pton4_octet, Hdot, pton4_octet by (done || simpl; lia).
  done.
Qed.

Lemma addr_char_not_slash s :
  str_all addr_char s = true -> strchr_split "/" s = None.
Proof.
  intros H. apply strchr_split_None. revert H. apply str_all_impl. intros c Hc.
  apply negb_true_iff, Ascii.eqb_neq. by intros <-.
Qed.

Lemma land_255 a : is_byte a -> Z.land a 255 = a.
Proof.
  intros Ha. change 255 with (Z.ones 8). rewrite Z.land_ones by lia. by apply Z.mod_small.
Qed.

(** C35: the decimal dotted form of four bytes parses to exactly these bytes: a
    /32 IPv4 network whose address is unchanged. *)
Theorem parse_addr_dotted `{EV : !Env} `{EN : !Endian} a b c d error p tr :
  is_byte a -> is_byte b -> is_byte c -> is_byte d ->
  exists addr,
    parse_addr (dotted a b c d) error p tr = (Ok (true, addr), p, tr)
    /\ fa addr = AF_INET /\ netmask addr = 32 /\ sa_size addr = 4
    /\ sa addr = [a; b; c; d] ++ replicate 12 0.
Proof.
  intros Ha Hb Hc Hd. pose proof (inet_pton4_dotted a b c d Ha Hb Hc Hd) as Hq.
  exists (addr_of AF_INET 32 [a; b; c; d] (dotted a b c d)). split_and!; try done.
  - unfold parse_addr. destruct (pton4_ok _ _ Hq) as [(_ & _ & Hs & _) _].
    rewrite addr_char_not_slash, Hq by done. apply finish_v4; [done|lia].
  - cbn -[Z.land]. rewrite !land_255 by done. done.
Qed.

(** ** Witnesses: the theorems at concrete messages *)

Definition host_le : Endian := true.
Definition proc0 : proc := Proc 0 None.

Lemma parse_addr_typed_witness :
  exists a p' tr',
    parse_addr (EV := env_default) (EN := host_le) "2001:db8::1/300" ErrVar proc0 [] = (Ok (false, a), p', tr')
    /\ addr_wf a /\ (false = false -> a = addr_zero).
Proof.
  eexists _, _, _. split; [vm_compute; reflexivity|].
  eapply (parse_addr_typed (EV := env_default) (EN := host_le) "2001:db8::1/300" ErrVar proc0 []).
  vm_compute; reflexivity.
Defined.

Lemma parse_addr_sound_witness :
  is_network (host_part "10.1.2.3/8") (addr_of AF_INET 8 [10; 1; 2; 3] "10.1.2.3").
Proof.
  eapply (parse_addr_sound (EV := env_default) (EN := host_le) "10.1.2.3/8" ErrVar proc0 []).
  vm_compute. reflexivity.
Defined.

Lemma parse_addr_host_bits_witness :
  exists q,
    (AF_INET6 = AF_INET /\ inet_pton4 (host_part "2001:db8::ff00:42:8329") = Some q
     \/ AF_INET6 = AF_INET6 /\ inet_pton6 (host_part "2001:db8::ff00:42:8329") = Some q)
    /\ netbit (sa (addr_of AF_INET6 64 [32;1;13;184;0;0;0;0;0;0;255;0;0;66;131;41]
                     "2001:db8::ff00:42:8329")) 80
       = netbit (padded q) 80 && (Z.of_nat 80 <? 64).
Proof.
  refine (parse_addr_host_bits (EV := env_default) (EN := host_le)
    "2001:db8::ff00:42:8329" ErrVar proc0 []
    (addr_of AF_INET6 64 [32;1;13;184;0;0;0;0;0;0;255;0;0;66;131;41] "2001:db8::ff00:42:8329")
    proc0 [] 80 _ _).
  - vm_compute. reflexivity.
  - lia.
Defined.

Lemma parse_addr_humanrepr_witness :
  nul_prefix (humanrepr (addr_of AF_INET 32 [1; 2; 3; 4] "1.2.3.4")) = Some (host_part "1.2.3.4")
  /\ str_all addr_char (host_part "1.2.3.4") = true /\ strlen (host_part "1.2.3.4") <= 45.
Proof.
  refine (parse_addr_humanrepr (EV := env_default) (EN := host_le) "1.2.3.4" ErrVar proc0 []
            _ proc0 [] _).
  vm_compute. reflexivity.
Defined.

Lemma parse_addr_plain_witness :
  plain_outcome (EV := env_default) (EN := host_le) "not an address" proc0 [].
Proof.
  apply (parse_addr_plain (EV := env_default) (EN := host_le)); [reflexivity|reflexivity].
Defined.

Lemma ulong_text_8 : ulong_text "8" 8.
Proof.
  exists "", "", "8". repeat split; auto; discriminate.
Qed.

(** The suffix is refused, so the error is there when [getaddrinfo] refuses the host. *)
Lemma parse_addr_cidr_outcome_witness :
  exists p1 tr1, prefix_read "foo/0" "0" [] 0 p1 tr1 /\
    forall ans e', env_default _ tr1 (Getaddrinfo "foo" true) = (ans, e') ->
      host_outcome (parse_addr (EV := env_default) (EN := host_le) "foo/0" ErrVar proc0 [])
        "foo" 0 p1 tr1 ans e'.
Proof.
  exact (parse_addr_cidr_outcome (EV := env_default) (EN := host_le) "foo/0" "foo" "0" proc0 []
           true 0 eq_refl eq_refl eq_refl).
Defined.

Lemma bad_suffix_x : bad_suffix "x".
Proof. intros errno. reflexivity. Qed.

Lemma parse_addr_bad_prefix_accepted_witness :
  exists msg e tr',
    parse_addr (EV := env_default) (EN := host_le) "1.2.3.4/x" ErrVar proc0 []
    = (Ok (true, addr_of AF_INET 0 [1; 2; 3; 4] "1.2.3.4"), Proc e (Some msg), tr').
Proof.
  apply (parse_addr_bad_prefix_accepted (EV := env_default) (EN := host_le)
           "1.2.3.4/x" "1.2.3.4" "x" [1; 2; 3; 4] proc0 []
           (AddrInfo AF_INET (Some (sockaddr_bytes AF_INET [1; 2; 3; 4]))) []);
    try reflexivity; [exact bad_suffix_x|vm_compute; discriminate].
Defined.

Lemma parse_addr_double_error_witness :
  (parse_addr (EV := env_default) (EN := host_le) "foo/x" ErrVar proc0 []).1.1 = Undef InvalidFree.
Proof.
  apply (parse_addr_double_error (EV := env_default) (EN := host_le) "foo/x" "foo" "x" proc0 [] 8);
    try reflexivity. exact bad_suffix_x.
Defined.

Lemma parse_addr_safe_witness :
  parse_contract (EV := env_default) (EN := host_le) "10.1.2.3/8" proc0 []
  /\ ~ parse_contract (EV := env_default) (EN := host_le) "foo/0" proc0 [].
Proof.
  split.
  - apply (parse_addr_safe (EV := env_default) (EN := host_le) "10.1.2.3/8" proc0 [] eq_refl).
    by eexists.
  - intros H.
    apply (parse_addr_safe (EV := env_default) (EN := host_le) "foo/0" proc0 [] eq_refl) in H.
    by destruct H.
Defined.

#[export] Instance env_default_gai_numeric : GaiNumeric (EV := env_default).
Proof.
  split.
  - intros tr node q Hq. do 3 eexists. unfold env_call, env_default, default_answer, resolve.
    by rewrite Hq.
  - intros tr node q H4 Hq. do 3 eexists. unfold env_call, env_default, default_answer, resolve.
    by rewrite H4, Hq.
Qed.

Lemma parse_addr_dotted_witness :
  exists addr,
    parse_addr (EV := env_default) (EN := host_le) (dotted 192 168 0 255) ErrVar proc0 []
    = (Ok (true, addr), proc0, [])
    /\ fa addr = AF_INET /\ netmask addr = 32 /\ sa_size addr = 4
    /\ sa addr = [192; 168; 0; 255] ++ replicate 12 0.
Proof. apply parse_addr_dotted; unfold is_byte; lia. Defined.
