(* ===== verification/Matchnet.v ===== *)
(** * Matching an address against a network: the disabled part of [parse.c]

    [ip4_matchnet], [ip6_matchnet] and the test for the private networks stand
    under [#if 0] (they were taken over from another program and are not yet
    called).  A store outside an array and a shift by a negative amount are
    [None]. *)
From Stdlib Require Import ZArith Lia Ascii.
From S2P Require Import Prelude Os Libc CError Scenario Strlcpy Parse ParseSpec.
#[local] Set Default Goal Selector "!".

Section Matchnet.
Context `{EN : !Endian}.

(** [1U << n] *)
Definition shl1u (n : Z) : option Z :=
  if (0 <=? n) && (n <? 32) then Some (Z.shiftl 1 n mod 2 ^ 32) else None.

(** [htonl(-1 - ((1U << (32 - mask)) - 1))] *)
Definition prefix_word (mask : Z) : option Z :=
  s ← shl1u (32 - mask);
  Some (htonl ((-1 - (s - 1) mod 2 ^ 32) mod 2 ^ 32)).

(** The address is the last word of an IPv6 address. *)
Definition ip4_matchnet (ip net : list Z) (mask : Z) : option bool :=
  if mask =? 0 then Some true
  else
    m ← prefix_word mask;
    Some (Z.land (words_of ip !!! 3%nat) m =? Z.land (words_of net !!! 0%nat) m).

(** [for (i = 0; i < mask / 32; ++i) maskv6.s6_addr32[i] = -1;], [n] rounds from
    word [i] on. *)
Fixpoint ones_words (n i : nat) (m : list Z) : option (list Z) :=
  match n with
  | O => Some m
  | S n => if Nat.ltb i (length m) then ones_words n (S i) (<[i := 4294967295]> m) else None
  end.

Definition maskv6 (mask : Z) : option (list Z) :=
  m ← ones_words (Z.to_nat (mask / 32)) 0 [0; 0; 0; 0];
  if negb (mask mod 32 =? 0) then
    w ← prefix_word (mask mod 32);
    if Nat.ltb (Z.to_nat (mask / 32)) (length m) then Some (<[Z.to_nat (mask / 32) := w]> m) else None
  else Some m.

(** [for (i = 3; i >= 0; i--)]: the words below [n], from the last. *)
Fixpoint same_words (n : nat) (ip net m : list Z) : bool :=
  match n with
  | O => true
  | S i =>
      if negb (Z.land (ip !!! i) (m !!! i) =? Z.land (net !!! i) (m !!! i)) then false
      else same_words i ip net m
  end.

Definition ip6_matchnet (ip net : list Z) (mask : Z) : option bool :=
  m ← maskv6 mask;
  Some (same_words 4 (words_of ip) (words_of net) m).

Definition priva : list Z := bytes_of (htonl 167772160).
Definition privb : list Z := bytes_of (htonl 2886729728).
Definition privc : list Z := bytes_of (htonl 3232235520).

(** The three tests that set [flagtmp]. *)
Definition flagtmp (ip : list Z) : option bool :=
  flag ← ip4_matchnet ip priva 8;
  flag ← if negb flag then ip4_matchnet ip privb 12 else Some flag;
  if negb flag then ip4_matchnet ip privc 16 else Some flag.

End Matchnet.

Section MatchnetSpec.
Context `{EN : !Endian}.

(** ** Masks *)

Lemma prefix_word_ok n :
  1 <= n <= 32 -> prefix_word n = Some (words_of (take 4 (netmask_bytes n)) !!! 0%nat).
Proof.
  intros Hn.
  assert (Hall : forallb (fun k => bool_decide (prefix_word (Z.of_nat k)
            = Some (words_of (take 4 (netmask_bytes (Z.of_nat k))) !!! 0%nat))) (seq 1 32) = true).
  { destruct little_endian eqn:E; unfold little_endian in E; subst; vm_compute; reflexivity. }
  rewrite forallb_forall in Hall. specialize (Hall (Z.to_nat n)). rewrite Z2Nat.id in Hall by lia.
  eapply bool_decide_eq_true_1, Hall, in_seq. lia.
Qed.

Lemma maskv6_cases n :
  0 <= n <= 255 ->
  maskv6 n = if n <=? 128 then Some (words_of (netmask_bytes n)) else None.
Proof.
  intros Hn.
  assert (Hall : forallb (fun k => bool_decide (maskv6 (Z.of_nat k)
            = if Z.of_nat k <=? 128 then Some (words_of (netmask_bytes (Z.of_nat k))) else None))
            (seq 0 256) = true).
  { destruct little_endian eqn:E; unfold little_endian in E; subst; vm_compute; reflexivity. }
  rewrite forallb_forall in Hall. specialize (Hall (Z.to_nat n)). rewrite Z2Nat.id in Hall by lia.
  eapply bool_decide_eq_true_1, Hall, in_seq. lia.
Qed.

(** ** Words and bits *)

Lemma words_land k bs ms :
  length bs = (4 * k)%nat -> length ms = (4 * k)%nat -> Forall is_byte bs -> Forall is_byte ms ->
  zip_with Z.land (words_of bs) (words_of ms) = words_of (zip_with Z.land bs ms).
Proof.
  revert bs ms. induction k as [|k IH]; intros bs ms Hb Hm Fb Fm.
  - by destruct bs; [|simpl in Hb; lia].
  - destruct bs as [|a [|b [|c [|d bs]]]]; simpl in Hb; try lia.
    destruct ms as [|a' [|b' [|c' [|d' ms]]]]; simpl in Hm; try lia.
    rewrite !Forall_cons_iff in Fb, Fm. destruct Fb as (?&?&?&?&?), Fm as (?&?&?&?&?).
    cbn [words_of zip_with]. f_equal; [|apply IH; auto; lia].
    unfold word_of. destruct little_endian; by rewrite !land_byte_step.
Qed.

Lemma same_words_spec n ip net m :
  same_words n ip net m = true <->
  forall i, (i < n)%nat -> Z.land (ip !!! i) (m !!! i) = Z.land (net !!! i) (m !!! i).
Proof.
  induction n as [|n IH]; simpl; [by split; [intros _ i Hi; lia|]|].
  destruct (Z.eqb_spec (Z.land (ip !!! n) (m !!! n)) (Z.land (net !!! n) (m !!! n))) as [E|E];
    cbn [negb].
  - rewrite IH. split; intros H i Hi; [|apply H; lia].
    destruct (decide (i = n)) as [->|]; [done|]. apply H. lia.
  - split; [done|]. intros H. by destruct E; apply H; lia.
Qed.

Lemma words_of_inj k bs cs :
  length bs = (4 * k)%nat -> length cs = (4 * k)%nat -> Forall is_byte bs -> Forall is_byte cs ->
  words_of bs = words_of cs -> bs = cs.
Proof.
  revert bs cs. induction k as [|k IH]; intros bs cs Hb Hc Fb Fc Hw.
  - destruct bs, cs; simpl in *; by try lia.
  - destruct bs as [|b0 [|b1 [|b2 [|b3 bs]]]]; simpl in Hb; try lia.
    destruct cs as [|c0 [|c1 [|c2 [|c3 cs]]]]; simpl in Hc; try lia.
    rewrite !Forall_cons_iff in Fb, Fc. destruct Fb as (?&?&?&?&?), Fc as (?&?&?&?&?).
    cbn [words_of] in Hw. injection Hw as Hw Hws. apply (f_equal bytes_of) in Hw.
    rewrite !bytes_of_word_of in Hw by done. injection Hw as -> -> -> ->.
    do 4 f_equal. apply IH; auto; lia.
Qed.

Lemma length_words k bs : length bs = (4 * k)%nat -> length (words_of bs) = k.
Proof.
  revert bs. induction k as [|k IH]; intros bs Hb; [by destruct bs; [|simpl in Hb; lia]|].
  destruct bs as [|b0 [|b1 [|b2 [|b3 bs]]]]; simpl in Hb; try lia. simpl. f_equal. apply IH. lia.
Qed.

(** A word that the masks leave, as a word of the masked bytes. *)
Lemma masked_word k bs ms i :
  length bs = (4 * k)%nat -> length ms = (4 * k)%nat -> Forall is_byte bs -> Forall is_byte ms ->
  (i < k)%nat ->
  Z.land (words_of bs !!! i) (words_of ms !!! i) = words_of (zip_with Z.land bs ms) !!! i.
Proof.
  intros Hb Hm Fb Fm Hi. rewrite <-(words_land k) by done.
  destruct (lookup_lt_is_Some_2 (words_of bs) i) as [x Hx]; [rewrite (length_words k); lia|].
  destruct (lookup_lt_is_Some_2 (words_of ms) i) as [y Hy]; [rewrite (length_words k); lia|].
  rewrite (list_lookup_total_correct _ _ _ Hx), (list_lookup_total_correct _ _ _ Hy).
  symmetry. apply list_lookup_total_correct. by rewrite lookup_zip_with, Hx, Hy.
Qed.

Lemma masked_words_eq k bs cs ms :
  length bs = (4 * k)%nat -> length cs = (4 * k)%nat -> length ms = (4 * k)%nat ->
  Forall is_byte bs -> Forall is_byte cs -> Forall is_byte ms ->
  (forall i, (i < k)%nat -> Z.land (words_of bs !!! i) (words_of ms !!! i)
                            = Z.land (words_of cs !!! i) (words_of ms !!! i))
  <-> zip_with Z.land bs ms = zip_with Z.land cs ms.
Proof.
  intros Hb Hc Hm Fb Fc Fm.
  assert (forall ds, length ds = (4 * k)%nat -> length (zip_with Z.land ds ms) = (4 * k)%nat) as Hl.
  { intros ds Hd. rewrite length_zip_with. lia. }
  split.
  - intros H. apply (words_of_inj k); auto using land_bytes.
    apply list_eq_same_length with k; rewrite ?(length_words k); auto.
    intros i x y Hi Hx Hy. specialize (H i Hi). rewrite !(masked_word k) in H by done.
    by rewrite (list_lookup_total_correct _ _ _ Hx), (list_lookup_total_correct _ _ _ Hy) in H.
  - intros H i Hi. rewrite !(masked_word k) by done. by rewrite H.
Qed.

(** Bytes are their bits. *)
Lemma netbit_ext bs cs :
  length bs = length cs -> Forall is_byte bs -> Forall is_byte cs ->
  (forall i, (i < 8 * length bs)%nat -> netbit bs i = netbit cs i) -> bs = cs.
Proof.
  intros Hl Fb Fc H. apply list_eq_same_length with (length bs); [done|done|].
  intros k x y Hk Hx Hy. apply Z.bits_inj'. intros j Hj.
  destruct (Z.lt_ge_cases j 8) as [Hj8|Hj8].
  - specialize (H (8 * k + (7 - Z.to_nat j))%nat ltac:(lia)). unfold netbit in H.
    rewrite Nat.mul_comm, Nat.div_add_l, (Nat.div_small (7 - Z.to_nat j)), Nat.add_0_r in H by lia.
    rewrite Nat.add_comm, Nat.Div0.mod_add, (Nat.mod_small (7 - Z.to_nat j)) in H by lia.
    rewrite (list_lookup_total_correct _ _ _ Hx), (list_lookup_total_correct _ _ _ Hy) in H.
    by replace (7 - Z.of_nat (7 - Z.to_nat j)) with j in H by lia.
  - assert (forall z, is_byte z -> Z.testbit z j = false) as Hz.
    { intros z [Hz0 Hz]. destruct (decide (z = 0)) as [->|]; [apply Z.bits_0|].
      apply Z.bits_above_log2; [lia|]. apply Z.log2_lt_pow2; [lia|].
      assert (2 ^ 8 <= 2 ^ j) by (apply Z.pow_le_mono_r; lia). lia. }
    rewrite !Hz; [done| |].
    + by eapply Forall_lookup_1 in Hy.
    + by eapply Forall_lookup_1 in Hx.
Qed.

Lemma masked_bits_eq n bs cs ms :
  length cs = length bs -> length ms = length bs ->
  Forall is_byte bs -> Forall is_byte cs -> Forall is_byte ms ->
  (forall i, (i < 8 * length bs)%nat -> netbit ms i = (Z.of_nat i <? n)) ->
  zip_with Z.land bs ms = zip_with Z.land cs ms
  <-> forall i, (i < 8 * length bs)%nat -> Z.of_nat i < n -> netbit bs i = netbit cs i.
Proof.
  intros Hc Hm Fb Fc Fm Hbits. split.
  - intros H i Hi Hn. apply (f_equal (fun l => netbit l i)) in H.
    rewrite !netbit_land_gen, Hbits, (proj2 (Z.ltb_lt _ _) Hn), !andb_true_r in H by lia. done.
  - intros H. apply netbit_ext; auto using land_bytes; rewrite !length_zip_with; [lia|].
    intros i Hi. rewrite !netbit_land_gen, Hbits by lia.
    destruct (Z.ltb_spec (Z.of_nat i) n); [|by rewrite !andb_false_r]. rewrite H by lia. done.
Qed.

(** C29: [ip6_matchnet] with a prefix of at most 128 bits tells whether the two
    addresses agree on the first [mask] bits, for both byte orders; with a longer
    prefix it stores a word outside the mask. *)
Theorem ip6_matchnet_correct ip net mask :
  length ip = 16%nat -> length net = 16%nat -> Forall is_byte ip -> Forall is_byte net ->
  0 <= mask <= 255 ->
  match ip6_matchnet ip net mask with
  | Some b => mask <= 128 /\ (b = true <->
      forall i, (i < 128)%nat -> Z.of_nat i < mask -> netbit ip i = netbit net i)
  | None => 128 < mask
  end.
Proof.
  intros Hip Hnet Fip Fnet Hmask. unfold ip6_matchnet. rewrite maskv6_cases by done.
  destruct (Z.leb_spec mask 128) as [Hle|Hgt]; [|done]. cbn [mbind option_bind]. split; [done|].
  destruct (netmask_bytes_ok mask) as [Hml Fm].
  rewrite same_words_spec, (masked_words_eq 4) by done.
  rewrite (masked_bits_eq mask); rewrite ?Hip, ?Hml; try done.
  intros i Hi. by apply netbit_netmask; lia.
Qed.

Lemma words_drop k bs : words_of (drop (4 * k) bs) = drop k (words_of bs).
Proof.
  revert bs. induction k as [|k IH]; intros bs; [done|].
  replace (4 * S k)%nat with (S (S (S (S (4 * k))))) by lia.
  destruct bs as [|b0 [|b1 [|b2 [|b3 bs]]]]; cbn [drop words_of]; rewrite ?drop_nil; done || apply IH.
Qed.

Lemma netbit_take k bs i : (i < 8 * k)%nat -> netbit (take k bs) i = netbit bs i.
Proof.
  intros Hi. unfold netbit. rewrite !list_lookup_total_alt, lookup_take_lt; [done|].
  apply Nat.Div0.div_lt_upper_bound. lia.
Qed.

(** What [ip4_matchnet] compares. *)
Lemma ip4_matchnet_bytes pre q net mask :
  length pre = 12%nat -> length q = 4%nat -> length net = 4%nat -> Forall is_byte q -> Forall is_byte net ->
  1 <= mask <= 32 ->
  exists b, ip4_matchnet (pre ++ q) net mask = Some b
    /\ (b = true <-> zip_with Z.land q (take 4 (netmask_bytes mask))
                     = zip_with Z.land net (take 4 (netmask_bytes mask))).
Proof.
  intros Hp Hq Hnet Fq Fnet Hmask. unfold ip4_matchnet.
  rewrite (proj2 (Z.eqb_neq mask 0)), prefix_word_ok by lia. cbn [mbind option_bind].
  eexists. split; [done|].
  replace (words_of (pre ++ q) !!! 3%nat) with (words_of q !!! 0%nat).
  2: { replace q with (drop (4 * 3) (pre ++ q)) at 1 by (by rewrite drop_app_length').
       rewrite words_drop, !list_lookup_total_alt, lookup_drop. done. }
  destruct (netmask_bytes_ok mask) as [Hml Fm].
  rewrite Z.eqb_eq, <-(masked_words_eq 1); try done; [|by apply Forall_take].
  split; [|intros H; apply H; lia]. intros H i Hi. by replace i with 0%nat by lia.
Qed.

(** [ip4_matchnet] with a prefix of at most 32 bits tells whether the last
    four bytes of the IPv6 address agree with the network on the first [mask]
    bits, for both byte orders; with a longer prefix it shifts by a negative
    amount. *)
Theorem ip4_matchnet_correct pre q net mask :
  length pre = 12%nat -> length q = 4%nat -> length net = 4%nat -> Forall is_byte q -> Forall is_byte net ->
  0 <= mask <= 255 ->
  match ip4_matchnet (pre ++ q) net mask with
  | Some b => mask <= 32 /\ (b = true <->
      forall i, (i < 32)%nat -> Z.of_nat i < mask -> netbit q i = netbit net i)
  | None => 32 < mask
  end.
Proof.
  intros Hp Hq Hnet Fq Fnet Hmask. destruct (decide (mask = 0)) as [->|Hne].
  { simpl. split; [lia|]. split; [|done]. intros _ i _ Hi. lia. }
  destruct (Z.le_gt_cases mask 32) as [Hle|Hgt].
  - destruct (ip4_matchnet_bytes pre q net mask) as (b & -> & ->); try done; [lia|]. split; [done|].
    destruct (netmask_bytes_ok mask) as [Hml Fm].
    rewrite (masked_bits_eq mask); rewrite ?Hq; try done; [by apply Forall_take|].
    intros i Hi. rewrite netbit_take, netbit_netmask by lia. done.
  - unfold ip4_matchnet, prefix_word, shl1u. rewrite (proj2 (Z.eqb_neq mask 0)) by lia.
    by rewrite (proj2 (Z.leb_gt 0 (32 - mask))) by lia.
Qed.

Lemma land_240 b : is_byte b -> Z.land b 240 = 16 <-> 16 <= b < 32.
Proof.
  intros Hb.
  assert (Hall : forallb (fun k => let b := Z.of_nat k in
    Bool.eqb (Z.land b 240 =? 16) ((16 <=? b) && (b <? 32))) (seq 0 256) = true) by (vm_compute; reflexivity).
  rewrite forallb_forall in Hall. specialize (Hall (Z.to_nat b)). cbv zeta in Hall.
  unfold is_byte in Hb. rewrite Z2Nat.id in Hall by lia.
  assert (Hin : In (Z.to_nat b) (seq 0 256)) by (apply in_seq; lia).
  apply Hall, eqb_prop in Hin. rewrite <-Z.eqb_eq, Hin, andb_true_iff. lia.
Qed.

Lemma private_bytes : priva = [10; 0; 0; 0] /\ privb = [172; 16; 0; 0] /\ privc = [192; 168; 0; 0].
Proof. destruct little_endian eqn:E; unfold little_endian in E; subst; by vm_compute. Qed.

(** The three tests for private addresses are defined for every address, and
    [flagtmp] ends up set exactly for 10/8, 172.16/12 and 192.168/16. *)
Theorem private_networks pre a b c d :
  length pre = 12%nat -> Forall is_byte [a; b; c; d] ->
  exists f, flagtmp (pre ++ [a; b; c; d]) = Some f
    /\ (f = true <-> a = 10 \/ a = 172 /\ 16 <= b < 32 \/ a = 192 /\ b = 168).
Proof.
  intros Hp Fq. unfold flagtmp. destruct private_bytes as (-> & -> & ->).
  assert (forall x, is_byte x -> Z.land x 0 = 0) as H0 by (intros; apply Z.land_0_r).
  pose proof Fq as Fq'. rewrite !Forall_cons_iff in Fq'. destruct Fq' as (Ha & Hb & _).
  destruct (ip4_matchnet_bytes pre [a; b; c; d] [10; 0; 0; 0] 8) as (f1 & -> & H1); try done;
    [by repeat constructor|].
  destruct (ip4_matchnet_bytes pre [a; b; c; d] [172; 16; 0; 0] 12) as (f2 & E2 & H2); try done;
    [by repeat constructor|].
  destruct (ip4_matchnet_bytes pre [a; b; c; d] [192; 168; 0; 0] 16) as (f3 & E3 & H3); try done;
    [by repeat constructor|].
  change (take 4 (netmask_bytes 8)) with [255; 0; 0; 0] in H1.
  change (take 4 (netmask_bytes 12)) with [255; 240; 0; 0] in H2.
  change (take 4 (netmask_bytes 16)) with [255; 255; 0; 0] in H3.
  cbn [zip_with] in H1, H2, H3. rewrite !Z.land_0_r, !land_255 in H1, H2, H3 by done.
  change (Z.land 10 255) with 10 in H1. change (Z.land 172 255) with 172 in H2.
  change (Z.land 16 240) with 16 in H2. change (Z.land 192 255) with 192 in H3.
  change (Z.land 168 255) with 168 in H3. pose proof (land_240 b Hb) as H240.
  assert (f1 = true <-> a = 10) as K1 by (rewrite H1; split; [by intros [=]|by intros ->]).
  assert (f2 = true <-> a = 172 /\ 16 <= b < 32) as K2.
  { rewrite H2, <-H240. split; [by intros [=]|by intros [-> ->]]. }
  assert (f3 = true <-> a = 192 /\ b = 168) as K3 by (rewrite H3; split; [by intros [=]|by intros [-> ->]]).
  cbn [mbind option_bind]. rewrite E2, E3.
  exists (f1 || f2 || f3). rewrite <-K1, <-K2, <-K3. clear.
  destruct f1, f2, f3; cbn [negb mbind option_bind orb]; (split; [done|]); intuition congruence.
Qed.
End MatchnetSpec.

Lemma ip6_matchnet_correct_witness :
  match ip6_matchnet (EN := host_le) (replicate 16 32) (replicate 15 32 ++ [33]) 127 with
  | Some b => 127 <= 128 /\ (b = true <-> forall i, (i < 128)%nat -> Z.of_nat i < 127 ->
      netbit (replicate 16 32) i = netbit (replicate 15 32 ++ [33]) i)
  | None => 128 < 127
  end.
Proof.
  apply (ip6_matchnet_correct (EN := host_le)); try reflexivity; try lia;
    repeat constructor; unfold is_byte; lia.
Defined.

Lemma ip4_matchnet_correct_witness :
  match ip4_matchnet (EN := host_le) (replicate 12 0 ++ [10; 1; 2; 3]) [10; 0; 0; 0] 8 with
  | Some b => 8 <= 32 /\ (b = true <-> forall i, (i < 32)%nat -> Z.of_nat i < 8 ->
      netbit [10; 1; 2; 3] i = netbit [10; 0; 0; 0] i)
  | None => 32 < 8
  end.
Proof.
  apply (ip4_matchnet_correct (EN := host_le)); try reflexivity; try lia;
    repeat constructor; unfold is_byte; lia.
Defined.

Lemma private_networks_witness :
  exists f, flagtmp (EN := host_le) (replicate 12 0 ++ [172; 31; 255; 1]) = Some f
    /\ (f = true <-> 172 = 10 \/ 172 = 172 /\ 16 <= 31 < 32 \/ 172 = 192 /\ 31 = 168).
Proof.
  apply (private_networks (EN := host_le)); [reflexivity|]. repeat constructor; unfold is_byte; lia.
Defined.
