(* ===== verification/Queue.v ===== *)
(** * The queue interface: [queues/queue.h]

    [banipd], [banip-cli] and the clients are written against [queue.h]; the
    build links [posix.c] or [systemv.c].  [QueueOps] is that interface, the two
    implementations are instances of it.  A [void *] queue is an
    [option queue_t] for its holder; the operations take the object itself and
    return it updated. *)
From Stdlib Require Import ZArith Lia Ascii.
From S2P Require Import Prelude Os CError.
#[local] Set Default Goal Selector "!".

(** [HAS_FLAG] of [common.h]. *)
Definition HAS_FLAG (value flag : Z) : bool := negb (Z.land value flag =? 0).

Definition QUEUE_FL_SENDER : Z := Z.shiftl 1 0.
Definition QUEUE_FL_OWNER : Z := Z.shiftl 1 1.

Inductive queue_err_t :=
| QUEUE_ERR_OK
| QUEUE_ERR_GENERAL_FAILURE
| QUEUE_ERR_NOT_SUPPORTED
| QUEUE_ERR_NOT_OWNER.

Inductive queue_attr_t :=
| QUEUE_ATTR_MAX_QUEUE_SIZE
| QUEUE_ATTR_MAX_MESSAGE_SIZE
| QUEUE_ATTR_MAX_MESSAGE_IN_QUEUE.

#[export] Instance queue_err_eq_dec : EqDecision queue_err_t.
Proof. solve_decision. Defined.
#[export] Instance queue_attr_eq_dec : EqDecision queue_attr_t.
Proof. solve_decision. Defined.

(** The operations of [queue.h].  [queue_get_attribute] gives the value stored
    in [*value], if any; [queue_receive] gives its result and the buffer of the
    caller afterwards. *)
Class QueueOps `{EV : !Env} := {
  queue_t : Type;
  queue_init : errp -> M proc (option queue_t);
  queue_set_attribute : queue_t -> queue_attr_t -> Z -> queue_err_t * queue_t;
  queue_open : queue_t -> string -> Z -> errp -> M proc (bool * queue_t);
  queue_get_attribute : queue_t -> queue_attr_t -> M proc (queue_err_t * option Z);
  queue_receive : queue_t -> list ascii -> Z -> errp -> M proc (Z * list ascii * queue_t);
  queue_send : queue_t -> string -> Z -> errp -> M proc (bool * queue_t);
  queue_close : option queue_t -> errp -> M proc (bool * option queue_t)
}.

(** The [len] first bytes at [msg]: the terminator may be read, nothing after it. *)
Definition message_bytes (msg : string) (len : Z) : option (list ascii) :=
  if (0 <=? len) && (len <=? strlen msg + 1)
  then Some (take (Z.to_nat len) (chars msg ++ [NUL])) else None.

Lemma message_bytes_all msg : message_bytes msg (strlen msg) = Some (chars msg).
Proof.
  unfold message_bytes. pose proof (strlen_nonneg msg).
  rewrite (proj2 (Z.leb_le 0 _)), (proj2 (Z.leb_le _ _)) by lia. simpl. f_equal.
  unfold strlen. rewrite Nat2Z.id, <- length_chars, take_app_length. done.
Qed.

(** What the users of the interface rely on, whichever implementation is linked:
    a new queue is [fresh]; a fresh queue refuses every attribute; closing NULL
    succeeds without any effect. *)
Class QueueContract `{EV : !Env} (Q : QueueOps) := {
  fresh : queue_t -> Prop;
  init_fresh error p tr :
    wp (queue_init error) (fun o _ _ => match o with Ok (Some q) => fresh q | _ => True end) p tr;
  fresh_refuses q a v : fresh q -> queue_set_attribute q a v = (QUEUE_ERR_NOT_OWNER, q);
  close_null error p tr : queue_close None error p tr = (Ok (true, None), p, tr)
}.

(** What a queue promises to its reader: as long as queue, buffer and size fit
    together, [queue_receive] leaves a terminated message in the buffer, or reports
    an error. *)
Class ReceiveContract `{EV : !Env} (Q : QueueOps) := {
  ready : queue_t -> list ascii -> Z -> Prop;
  receive_ok q buffer size p tr :
    ready q buffer size -> p_error p = None ->
    wp (queue_receive q buffer size ErrVar) (fun o p' _ =>
      match o with
      | Ok (n, buffer', q') =>
          ready q' buffer' size /\
          (if n =? -1 then is_Some (p_error p')
           else p_error p' = None /\ is_Some (nul_prefix buffer'))
      | _ => False
      end) p tr
}.

(** What a queue promises to its owner, who makes it, opens it for reading,
    allocates a buffer of one byte more than the message size, and closes it at
    the end: it may be read once it is opened under an acceptable name. *)
Class OwnerContract `{EV : !Env} (Q : QueueOps) `{RC : !ReceiveContract Q} := {
  name_ok : string -> Prop;
  unopened : queue_t -> Prop;
  owned : queue_t -> Prop;
  owner_init p tr : p_error p = None ->
    wp (queue_init ErrVar) (fun o p' _ => match o with
      | Ok (Some q) => unopened q /\ p_error p' = None
      | Ok None => is_Some (p_error p')
      | _ => False end) p tr;
  owner_set q a v : unopened q -> unopened (snd (queue_set_attribute q a v));
  owner_open q name p tr : unopened q -> name_ok name -> p_error p = None ->
    wp (queue_open q name QUEUE_FL_OWNER ErrVar) (fun o p' _ => match o with
      | Ok (true, q') => owned q' /\ p_error p' = None
      | Ok (false, _) => True
      | _ => False end) p tr;
  owner_size q p tr : owned q -> p_error p = None ->
    wp (queue_get_attribute q QUEUE_ATTR_MAX_MESSAGE_SIZE) (fun o p' _ => match o with
      | Ok (QUEUE_ERR_OK, Some v) => p_error p' = None /\
          let size := (v + 1) mod 2 ^ 64 in
          forall buffer, Z.of_nat (length buffer) = size -> ready q buffer size
      | Ok (_, _) => p_error p' = None
      | _ => False end) p tr;
  owner_close q p tr :
    wp (queue_close q ErrNull) (fun o p' _ => exists r, o = Ok r /\ p_error p' = p_error p) p tr
}.

(** The error branch of [queue_init]. *)
Lemma wp_report_none `{EV : !Env} {A} size p tr (P : A -> Prop) error :
  wp (set_malloc_error error size ≫= fun _ => mret None)
    (fun o (_ : proc) _ => match o with Ok (Some q) => P q | _ => True end) p tr.
Proof. apply wp_bind, wp_error_set_any. by intros o p' tr' _ [->|[u ->]]. Qed.
