(* ===== verification/Posix.v ===== *)
(** * POSIX message queues: [queues/posix.c]

    The state of a queue is [posix_queue_t]; each function of the file is a
    definition with the whole of its effects.  [CAP_RIGHTS_LIMIT] is the
    constant [true] ([capsicum.h] compiles the real one out). *)
From Stdlib Require Import ZArith Lia Ascii.
From S2P Require Import Prelude Os CError Scenario Queue.
#[local] Set Default Goal Selector "!".

(** Whether the [__FreeBSD__] parts are compiled. *)
Class Platform := on_freebsd : bool.

Definition NOT_MQD_T : Z := -1.
Definition O_RDONLY : Z := 0.
Definition O_WRONLY : Z := 1.
Definition O_CREAT : Z := 64.
Definition O_EXCL : Z := 128.
Definition ENOSYS : Z := 78.
Definition MODE_0660 : Z := 432.
Definition SIZEOF_POSIX_QUEUE : Z := 80.

Record posix_queue_t := PosixQueue
  { pq_mq : Z; pq_filename : option string; pq_attr : mq_attr }.

Definition set_mq (d : Z) (q : posix_queue_t) := PosixQueue d (pq_filename q) (pq_attr q).
Definition set_filename (f : option string) (q : posix_queue_t) := PosixQueue (pq_mq q) f (pq_attr q).
Definition set_attr (a : mq_attr) (q : posix_queue_t) := PosixQueue (pq_mq q) (pq_filename q) a.

(** A queue as [queue_init] leaves it. *)
Definition posix_fresh : posix_queue_t := PosixQueue NOT_MQD_T None (MqAttr 10 1024).

Section Posix.
Context `{EV : !Env} `{PL : !Platform}.

Definition posix_init (error : errp) : M proc (option posix_queue_t) :=
  block ← syscall (Malloc SIZEOF_POSIX_QUEUE);
  match block with
  | None => set_malloc_error error SIZEOF_POSIX_QUEUE;; mret None
  | Some _ => mret (Some posix_fresh)
  end.

Definition posix_set_attribute (q : posix_queue_t) (attr : queue_attr_t) (value : Z)
  : queue_err_t * posix_queue_t :=
  match pq_filename q with
  | None => (QUEUE_ERR_NOT_OWNER, q)
  | Some _ =>
      match attr with
      | QUEUE_ATTR_MAX_MESSAGE_SIZE =>
          (QUEUE_ERR_OK, set_attr (MqAttr (mq_maxmsg (pq_attr q)) value) q)
      | QUEUE_ATTR_MAX_MESSAGE_IN_QUEUE =>
          (QUEUE_ERR_OK, set_attr (MqAttr value (mq_msgsize (pq_attr q))) q)
      | QUEUE_ATTR_MAX_QUEUE_SIZE => (QUEUE_ERR_NOT_SUPPORTED, q)
      end
  end.

(** [queue_open] from [mq_open] on; [oldmask] is set for an owner only. *)
Definition posix_open_mq (q : posix_queue_t) (filename : string) (flags omask oldmask : Z)
    (error : errp) : M proc (bool * posix_queue_t) :=
  d ← syscall (Mq_open filename omask MODE_0660 (pq_attr q));
  let q := set_mq d q in
  if d =? NOT_MQD_T then
    let report :=
      set_system_error error ("mq_open(" +:+ dquote filename +:+ ", "
        +:+ pretty omask +:+ ", 0660, &q->attr) failed");;
      mret (false, q) in
    if HAS_FLAG flags QUEUE_FL_OWNER then
      syscall (Umask oldmask);;
      errno ← gets p_errno;
      if on_freebsd && (errno =? ENOSYS) then
        set_generic_error error
          ("please load mqueuefs kernel module by " +:+ dquote "kldload mqueuefs"
           +:+ " or recompile your kernel to include " +:+ dquote "options P1003_1B_MQUEUE");;
        mret (false, q)
      else report
    else report
  else if HAS_FLAG flags QUEUE_FL_OWNER then
    syscall (Umask oldmask);;
    mret (true, q)
  else
    attr ← syscall (Mq_getattr d);
    match attr with
    | None => set_system_error error "mq_getattr failed";; mret (false, q)
    | Some a => mret (true, set_attr a q)
    end.

Definition posix_open (q : posix_queue_t) (filename : string) (flags : Z) (error : errp)
  : M proc (bool * posix_queue_t) :=
  let omask := if HAS_FLAG flags QUEUE_FL_SENDER then O_WRONLY else O_RDONLY in
  if HAS_FLAG flags QUEUE_FL_OWNER then
    let omask := Z.lor omask (Z.lor O_CREAT O_EXCL) in
    oldmask ← syscall (Umask 0);
    copied ← syscall (Strdup filename);
    if negb copied then
      set_generic_error error ("strdup failed to copy " +:+ dquote filename);;
      mret (false, set_filename None q)
    else posix_open_mq (set_filename (Some filename) q) filename flags omask oldmask error
  else posix_open_mq q filename flags omask 0 error.

Definition posix_get_attribute (q : posix_queue_t) (attr : queue_attr_t)
  : M proc (queue_err_t * option Z) :=
  mret match attr with
       | QUEUE_ATTR_MAX_MESSAGE_SIZE => (QUEUE_ERR_OK, Some (mq_msgsize (pq_attr q)))
       | QUEUE_ATTR_MAX_MESSAGE_IN_QUEUE => (QUEUE_ERR_OK, Some (mq_maxmsg (pq_attr q)))
       | QUEUE_ATTR_MAX_QUEUE_SIZE => (QUEUE_ERR_NOT_SUPPORTED, None)
       end.

(** The message is stored in the buffer and [buffer[read]] becomes NUL. *)
Definition posix_receive (q : posix_queue_t) (buffer : list ascii) (buffer_size : Z)
    (error : errp) : M proc (Z * list ascii * posix_queue_t) :=
  got ← syscall (Mq_receive (pq_mq q) buffer_size);
  match got with
  | Some msg =>
      if Nat.ltb (length msg) (length buffer)
      then mret (Z.of_nat (length msg), overwrite 0 (msg ++ [NUL]) buffer, q)
      else undef OutOfBounds
  | None => set_system_error error "mq_receive failed";; mret (-1, buffer, q)
  end.

(** [msg_len] is an [int] in the source; it is taken for the length of the message,
    which is so for strings shorter than [2 ^ 31] bytes. *)
Definition posix_send (q : posix_queue_t) (msg : string) (msg_len : Z) (error : errp)
  : M proc (bool * posix_queue_t) :=
  let msg_len := if msg_len <? 0 then strlen msg else msg_len in
  match message_bytes msg msg_len with
  | None => undef OutOfBounds
  | Some bytes =>
      ret ← syscall (Mq_send (pq_mq q) bytes);
      if negb (ret =? 0) then
        set_system_error error ("mq_send failed to send " +:+ dquote (of_chars bytes));;
        mret (false, q)
      else mret (true, q)
  end.

Definition posix_close (p : option posix_queue_t) (error : errp)
  : M proc (bool * option posix_queue_t) :=
  let unlink q :=
    match pq_filename q with
    | Some name =>
        ret ← syscall (Mq_unlink name);
        if negb (ret =? 0) then
          set_system_error error "mq_unlink failed";; mret (false, Some q)
        else mret (true, None)
    | None => mret (true, None)
    end in
  match p with
  | None => mret (true, None)
  | Some q =>
      if negb (pq_mq q =? NOT_MQD_T) then
        ret ← syscall (Mq_close (pq_mq q));
        if negb (ret =? 0) then
          set_system_error error "mq_close failed";; mret (false, Some q)
        else unlink (set_mq NOT_MQD_T q)
      else unlink q
  end.

#[export] Instance posix_queue : QueueOps := {|
  queue_t := posix_queue_t;
  queue_init := posix_init;
  queue_set_attribute := posix_set_attribute;
  queue_open := posix_open;
  queue_get_attribute := posix_get_attribute;
  queue_receive := posix_receive;
  queue_send := posix_send;
  queue_close := posix_close
|}.
End Posix.
