(* ===== verification/SystemV.v ===== *)
(** * System V message queues: [queues/systemv.c]

    The implementation for systems without POSIX queues.  The name of the queue
    is a file that holds the [ftok] identifier.  The message buffer is a
    [struct msgbuf]: a type and a text area. *)
From Stdlib Require Import ZArith Lia Ascii.
From S2P Require Import Prelude Os CError Scenario Strlcpy Queue.
#[local] Set Default Goal Selector "!".

Definition MAXPATHLEN : Z := 1024.
Definition IPC_CREAT : Z := 512.
Definition IPC_EXCL : Z := 1024.
Definition MODE_SYSV : Z := 432.
Definition SIZEOF_SYSTEMV_QUEUE : Z := 32.
Definition SIZEOF_LONG : Z := 8.
Definition SIZEOF_POINTER : Z := 8.

(** [buffer] is the type and the text area of the emulated [struct msgbuf]. *)
Record systemv_queue_t := SystemVQueue
  { sq_qid : Z; sq_buffer : option (Z * list ascii); sq_filename : option string;
    sq_buffer_size : Z }.

Definition set_qid (d : Z) (q : systemv_queue_t) :=
  SystemVQueue d (sq_buffer q) (sq_filename q) (sq_buffer_size q).
Definition set_sq_buffer (b : option (Z * list ascii)) (q : systemv_queue_t) :=
  SystemVQueue (sq_qid q) b (sq_filename q) (sq_buffer_size q).
Definition set_sq_filename (f : option string) (q : systemv_queue_t) :=
  SystemVQueue (sq_qid q) (sq_buffer q) f (sq_buffer_size q).
Definition set_buffer_size (n : Z) (q : systemv_queue_t) :=
  SystemVQueue (sq_qid q) (sq_buffer q) (sq_filename q) n.

Definition systemv_fresh : systemv_queue_t := SystemVQueue (-1) None None 0.

(** The value of a (signed) [char] as an [int]. *)
Definition char_to_int (c : ascii) : Z := if code c <? 128 then code c else code c - 256.

Section SystemV.
Context `{EV : !Env}.

Definition systemv_init (error : errp) : M proc (option systemv_queue_t) :=
  block ← syscall (Malloc SIZEOF_SYSTEMV_QUEUE);
  match block with
  | None => set_malloc_error error SIZEOF_SYSTEMV_QUEUE;; mret None
  | Some _ => mret (Some systemv_fresh)
  end.

Definition systemv_set_attribute (q : systemv_queue_t) (attr : queue_attr_t) (value : Z)
  : queue_err_t * systemv_queue_t :=
  match sq_filename q with
  | None => (QUEUE_ERR_NOT_OWNER, q)
  | Some _ => (QUEUE_ERR_NOT_SUPPORTED, q)
  end.

(** The automatic array [filename], with what happens to be on the stack. *)
Definition filename_array : M proc (list ascii) :=
  junk ← syscall (Uninit MAXPATHLEN);
  mret (resize (Z.to_nat MAXPATHLEN) NUL junk).

(** [strlcpy(filename, name, STR_SIZE(filename))]: the array, or [None] when the
    name does not fit. *)
Definition copy_name (name : string) (filename : list ascii) : M proc (option (list ascii)) :=
  match strlcpy filename (chars name ++ [NUL]) (Z.to_nat MAXPATHLEN) with
  | None => undef OutOfBounds
  | Some (n, filename) => mret (if MAXPATHLEN <=? n then None else Some filename)
  end.

Definition overflow_error (error : errp) (name : string) : M proc unit :=
  set_buffer_overflow_error error "name" name "filename" MAXPATHLEN.

(** The array read as a C string. *)
Definition cstring (l : list ascii) : M proc string :=
  match nul_prefix l with None => undef OutOfBounds | Some s => mret s end.

(** The file part for an owner: the file is created and the identifier written. *)
Definition systemv_create_file (name : string) (error : errp) : M proc (option (string * Z)) :=
  filename ← filename_array;
  r ← match strchr_split ":" name with
      | None =>
          f ← copy_name name filename;
          mret match f with Some f => Some (f, code "b") | None => None end
      | Some (path, rest) =>
          let id := match rest with String c _ => char_to_int c | EmptyString => 0 end in
          if MAXPATHLEN <=? strlen path then mret None
          else mret (Some (overwrite 0 (chars path) filename, id))
      end;
  match r with
  | None => overflow_error error name;; mret None
  | Some (filename, id) =>
      fname ← cstring filename;
      fp ← syscall (Fopen fname "wx");
      match fp with
      | None =>
          set_system_error error ("fopen(" +:+ dquote fname +:+ ", " +:+ dquote "wx" +:+ ") failed");;
          mret None
      | Some fp =>
          n ← syscall (Fwrite_int fp id);
          if negb (n =? 1) then
            set_system_error error ("fwrite to '" +:+ fname +:+ "' failed");;
            mret None
          else
            syscall (Fflush fp);;
            syscall (Fclose fp);;
            mret (Some (fname, id))
      end
  end.

(** The file part for everybody else: the identifier is read.  The test on the
    result of [fread] is [1 != (fread(...) < sizeof(id))]. *)
Definition systemv_read_file (name : string) (error : errp) : M proc (option (string * Z)) :=
  filename ← filename_array;
  f ← copy_name name filename;
  match f with
  | None => overflow_error error name;; mret None
  | Some filename =>
      fname ← cstring filename;
      fp ← syscall (Fopen fname "r");
      match fp with
      | None =>
          set_system_error error ("fopen(" +:+ dquote fname +:+ ", " +:+ dquote "r" +:+ ") failed");;
          mret None
      | Some fp =>
          got ← syscall (Fread_int fp);
          id ← match got with Some id => mret id | None => syscall UninitInt end;
          let nread := match got with Some _ => 1 | None => 0 end in
          if negb (1 =? (if nread <? 4 then 1 else 0)) then
            set_system_error error ("fread from '" +:+ fname +:+ "' failed");;
            mret None
          else
            syscall (Fclose fp);;
            mret (Some (fname, id))
      end
  end.

(** [queue_open] once the identifier of the queue is known. *)
Definition systemv_attach (q : systemv_queue_t) (error : errp) : M proc (bool * systemv_queue_t) :=
  if sq_qid q =? -1 then
    set_system_error error "msgget failed";; mret (false, q)
  else
    stat ← syscall (Msgctl_stat (sq_qid q));
    match stat with
    | None =>
        set_system_error error ("msgctl(" +:+ pretty (sq_qid q) +:+ ", IPC_STAT, &buf) failed");;
        mret (false, q)
    | Some qbytes =>
        let q := set_buffer_size (qbytes / 8) q in
        let size := SIZEOF_LONG + SIZEOF_POINTER * sq_buffer_size q in
        block ← syscall (Malloc size);
        match block with
        | None =>
            set_malloc_error error size;; mret (false, set_sq_buffer None q)
        | Some junk =>
            let text := resize (Z.to_nat (size - SIZEOF_LONG)) NUL junk in
            mret (true, set_sq_buffer (Some (1, text)) q)
        end
    end.

Definition systemv_open (q : systemv_queue_t) (name : string) (flags : Z) (error : errp)
  : M proc (bool * systemv_queue_t) :=
  let owner := HAS_FLAG flags QUEUE_FL_OWNER in
  file ← (if owner then systemv_create_file name error else systemv_read_file name error);
  match file with
  | None => mret (false, q)
  | Some (fname, id) =>
      key ← syscall (Ftok fname id);
      if key =? -1 then
        set_generic_error error ("ftok(" +:+ dquote fname +:+ ", " +:+ pretty id +:+ ") failed");;
        mret (false, q)
      else if owner then
        copied ← syscall (Strdup fname);
        if negb copied then
          set_generic_error error ("strdup failed to copy " +:+ dquote fname);;
          mret (false, set_sq_filename None q)
        else
          let q := set_sq_filename (Some fname) q in
          oldmask ← syscall (Umask 0);
          qid ← syscall (Msgget key (Z.lor MODE_SYSV (Z.lor IPC_CREAT IPC_EXCL)));
          syscall (Umask oldmask);;
          systemv_attach (set_qid qid q) error
      else
        qid ← syscall (Msgget key MODE_SYSV);
        systemv_attach (set_qid qid q) error
  end.

Definition systemv_get_attribute (q : systemv_queue_t) (attr : queue_attr_t)
  : M proc (queue_err_t * option Z) :=
  match attr with
  | QUEUE_ATTR_MAX_QUEUE_SIZE | QUEUE_ATTR_MAX_MESSAGE_SIZE =>
      stat ← syscall (Msgctl_stat (sq_qid q));
      mret match stat with
           | None => (QUEUE_ERR_GENERAL_FAILURE, None)
           | Some qbytes => (QUEUE_ERR_OK, Some qbytes)
           end
  | QUEUE_ATTR_MAX_MESSAGE_IN_QUEUE => mret (QUEUE_ERR_NOT_SUPPORTED, None)
  end.

(** [strcpy(dst + off, s)]: out of bounds when the string does not fit. *)
Definition strcpy_into (dst : list ascii) (s : string) : M proc (list ascii) :=
  if Nat.ltb (String.length s) (length dst)
  then mret (overwrite 0 (chars s ++ [NUL]) dst) else undef OutOfBounds.

Definition systemv_receive (q : systemv_queue_t) (buffer : list ascii) (buffer_size : Z)
    (error : errp) : M proc (Z * list ascii * systemv_queue_t) :=
  got ← syscall (Msgrcv (sq_qid q) buffer_size);
  match got with
  | None => set_system_error error "msgrcv failed";; mret (-1, buffer, q)
  | Some (mtype, text) =>
      match sq_buffer q with
      | None => undef NullDeref
      | Some (_, area) =>
          if Nat.leb (length text) (length area) then
            let area := overwrite 0 text area in
            s ← cstring area;
            buffer ← strcpy_into buffer s;
            mret (Z.of_nat (length text), buffer, set_sq_buffer (Some (mtype, area)) q)
          else undef OutOfBounds
      end
  end.

Definition systemv_send (q : systemv_queue_t) (msg : string) (msg_len : Z) (error : errp)
  : M proc (bool * systemv_queue_t) :=
  match sq_buffer q with
  | None => undef NullDeref
  | Some (mtype, area) =>
      area ← strcpy_into area msg;
      let q := set_sq_buffer (Some (mtype, area)) q in
      ret ← syscall (Msgsnd (sq_qid q) mtype (take (Z.to_nat (sq_buffer_size q)) area));
      if negb (ret =? 0) then
        set_system_error error "msgsnd failed";; mret (false, q)
      else mret (true, q)
  end.

Definition systemv_close (p : option systemv_queue_t) (error : errp)
  : M proc (bool * option systemv_queue_t) :=
  let remove q name :=
    ret ← syscall (Unlink name);
    if negb (ret =? 0) then
      set_system_error error ("unlink(" +:+ dquote name +:+ ") failed");; mret (false, Some q)
    else mret (true, None) in
  match p with
  | None => mret (true, None)
  | Some q =>
      match sq_filename q with
      | None => mret (true, None)
      | Some name =>
          if negb (sq_qid q =? -1) then
            ret ← syscall (Msgctl_rmid (sq_qid q));
            if negb (ret =? 0) then
              set_system_error error ("msgctl(" +:+ pretty (sq_qid q) +:+ ", IPC_RMID, NULL) failed");;
              mret (false, Some q)
            else remove (set_qid (-1) q) name
          else remove q name
      end
  end.

#[export] Instance systemv_queue : QueueOps := {|
  queue_t := systemv_queue_t;
  queue_init := systemv_init;
  queue_set_attribute := systemv_set_attribute;
  queue_open := systemv_open;
  queue_get_attribute := systemv_get_attribute;
  queue_receive := systemv_receive;
  queue_send := systemv_send;
  queue_close := systemv_close
|}.
End SystemV.
