(* ===== verification/Kernel.v ===== *)
(** * Documented behaviour of the kernel

    What the manuals promise of message queues and of files, as hypotheses on the
    environment.  The state of a queue or of a file is not given: it is read off the
    history of calls and answers, from the call that created it on.  Nothing is
    assumed of descriptors, queues and files that the history did not open or create,
    so a program that uses a wrong one gets no promise at all.

    A history is that of the whole system, with the calls of all its processes:
    descriptors, streams and queue identifiers are numbered across processes. *)
From Stdlib Require Import ZArith Lia Ascii.
From S2P Require Import Prelude Os CError Scenario Queue Posix SystemV.
#[local] Set Default Goal Selector "!".

(** ** POSIX message queues *)

(** The name and the flags with which a descriptor is open.  Once its queue has lost
    its name nothing is known of the descriptor. *)
Fixpoint mq_on (tr : trace) (d : Z) : option (string * Z) :=
  match tr with
  | [] => None
  | Ev c r :: tr =>
      match c in sys A return A -> option (string * Z) with
      | Mq_open name oflag _ _ =>
          fun r => if (r =? d) && negb (r =? NOT_MQD_T) then Some (name, oflag) else mq_on tr d
      | Mq_close d' => fun r => if (d' =? d) && (r =? 0) then None else mq_on tr d
      | Mq_unlink name =>
          fun r => match mq_on tr d with
                   | Some (n, f) => if String.eqb n name && (r =? 0) then None else Some (n, f)
                   | None => None
                   end
      | _ => fun _ => mq_on tr d
      end r
  end.

(** Whether [d] is a descriptor of the queue [name]. *)
Definition on_queue (tr : trace) (d : Z) (name : string) : bool :=
  match mq_on tr d with Some (n, _) => String.eqb n name | None => false end.

(** The attributes and the messages of the queue [name], oldest first, since it was
    created. *)
Fixpoint mq_queue (tr : trace) (name : string) : option (mq_attr * list (list ascii)) :=
  match tr with
  | [] => None
  | Ev c r :: tr =>
      let now := mq_queue tr name in
      match c in sys A return A -> option (mq_attr * list (list ascii)) with
      | Mq_open n oflag _ attr =>
          fun r => if String.eqb n name && negb (r =? NOT_MQD_T)
                      && HAS_FLAG oflag O_CREAT && HAS_FLAG oflag O_EXCL
                   then Some (attr, []) else now
      | Mq_send d m =>
          fun r => match now with
                   | Some (attr, q) =>
                       Some (attr, if on_queue tr d name && (r =? 0) then q ++ [m] else q)
                   | None => None
                   end
      | Mq_receive d _ =>
          fun r => match now, r with
                   | Some (attr, q), Some _ => Some (attr, if on_queue tr d name then tail q else q)
                   | _, _ => now
                   end
      | Mq_unlink n => fun r => if String.eqb n name && (r =? 0) then None else now
      | _ => fun _ => now
      end r
  end.

(** The access modes: 0 to read, 1 to write, 2 for both. *)
Definition may_read (oflag : Z) : bool := (Z.land oflag 3 =? 0) || (Z.land oflag 3 =? 2).
Definition may_write (oflag : Z) : bool := (Z.land oflag 3 =? 1) || (Z.land oflag 3 =? 2).

(** [mq_open(3)], [mq_getattr(3)], [mq_send(3)], [mq_receive(3)]. *)
Class MqKernel `{EV : !Env} : Prop := {
  (* a new descriptor is not one that is open *)
  mq_open_new tr name oflag mode attr d e :
    env_call _ tr (Mq_open name oflag mode attr) = (d, e) -> d <> NOT_MQD_T -> mq_on tr d = None;
  (* the attributes are those of the creation *)
  mq_getattr_ok tr d name oflag attr q :
    mq_on tr d = Some (name, oflag) -> mq_queue tr name = Some (attr, q) ->
    exists e, env_call _ tr (Mq_getattr d) = (Some attr, e);
  (* a message that fits is accepted while there is room *)
  mq_send_ok tr d name oflag attr q m :
    mq_on tr d = Some (name, oflag) -> may_write oflag = true -> mq_queue tr name = Some (attr, q) ->
    Z.of_nat (length q) < mq_maxmsg attr -> Z.of_nat (length m) <= mq_msgsize attr ->
    exists e, env_call _ tr (Mq_send d m) = (0, e);
  (* the oldest message is delivered into a buffer of at least the message size *)
  mq_receive_ok tr d name oflag attr m q n :
    mq_on tr d = Some (name, oflag) -> may_read oflag = true -> mq_queue tr name = Some (attr, m :: q) ->
    mq_msgsize attr <= n ->
    exists e, env_call _ tr (Mq_receive d n) = (Some m, e)
}.

(** ** System V message queues *)

(** The messages of a queue, with their types, oldest first, since it was created. *)
Fixpoint sv_queue (tr : trace) (qid : Z) : option (list (Z * list ascii)) :=
  match tr with
  | [] => None
  | Ev c r :: tr =>
      let now := sv_queue tr qid in
      match c in sys A return A -> option (list (Z * list ascii)) with
      | Msgget _ flags =>
          fun r => if (r =? qid) && negb (r =? -1) && HAS_FLAG flags IPC_CREAT && HAS_FLAG flags IPC_EXCL
                   then Some [] else now
      | Msgsnd q mtype text =>
          fun r => if (q =? qid) && (r =? 0) then (fun l => l ++ [(mtype, text)]) <$> now else now
      | Msgrcv q _ =>
          fun r => match r with Some _ => if q =? qid then tail <$> now else now | None => now end
      | Msgctl_rmid q => fun r => if (q =? qid) && (r =? 0) then None else now
      | _ => fun _ => now
      end r
  end.

(** The queue that was created for a key. *)
Fixpoint sv_key (tr : trace) (key : Z) : option Z :=
  match tr with
  | [] => None
  | Ev c r :: tr =>
      match c in sys A return A -> option Z with
      | Msgget k flags =>
          fun r => if (k =? key) && negb (r =? -1) && HAS_FLAG flags IPC_CREAT && HAS_FLAG flags IPC_EXCL
                   then Some r else sv_key tr key
      | Msgctl_rmid q =>
          fun r => match sv_key tr key with
                   | Some qid => if (q =? qid) && (r =? 0) then None else Some qid
                   | None => None
                   end
      | _ => fun _ => sv_key tr key
      end r
  end.

(** The key [ftok] gave for a file and an identifier, since the file was created. *)
Fixpoint ftok_of (tr : trace) (path : string) (id : Z) : option Z :=
  match tr with
  | [] => None
  | Ev c r :: tr =>
      match c in sys A return A -> option Z with
      | Ftok p i =>
          fun r => if String.eqb p path && (i =? id) && negb (r =? -1) then Some r else ftok_of tr path id
      | Fopen p mode =>
          fun r => match r with
                   | Some _ => if String.eqb p path && negb (String.eqb mode "r") then None
                               else ftok_of tr path id
                   | None => ftok_of tr path id
                   end
      | Unlink p => fun r => if String.eqb p path && (r =? 0) then None else ftok_of tr path id
      | _ => fun _ => ftok_of tr path id
      end r
  end.

(** The bytes of text that messages take. *)
Definition text_bytes (l : list (Z * list ascii)) : Z :=
  Z.of_nat (list_sum (map (fun m => length m.2) l)).

(** [ftok(3)], [msgget(2)], [msgctl(2)], [msgsnd(2)] and [msgrcv(2)] on a system with
    room for [n] bytes in a queue ([msg_qbytes]) and messages of at most [msgmax]
    bytes ([MSGMAX]). *)
Class SvKernel (n msgmax : Z) `{EV : !Env} : Prop := {
  ftok_same tr path id key :
    ftok_of tr path id = Some key -> exists e, env_call _ tr (Ftok path id) = (key, e);
  msgget_same tr key qid flags :
    sv_key tr key = Some qid -> HAS_FLAG flags IPC_CREAT = false ->
    exists e, env_call _ tr (Msgget key flags) = (qid, e);
  stat_same tr qid l :
    sv_queue tr qid = Some l -> exists e, env_call _ tr (Msgctl_stat qid) = (Some n, e);
  (* room is counted in bytes of text and in messages *)
  msgsnd_ok tr qid l mtype text :
    sv_queue tr qid = Some l -> 0 < mtype -> Z.of_nat (length text) <= msgmax ->
    text_bytes l + Z.of_nat (length text) <= n -> Z.of_nat (length l) < n ->
    exists e, env_call _ tr (Msgsnd qid mtype text) = (0, e);
  msgrcv_ok tr qid size mtype text l :
    sv_queue tr qid = Some ((mtype, text) :: l) -> Z.of_nat (length text) <= size ->
    exists e, env_call _ tr (Msgrcv qid size) = (Some (mtype, text), e)
}.

(** ** Files that hold one integer *)

(** The file of an open stream at its start, and the mode.  Nothing is known once
    something was read or printed, or when the file was removed or is written by
    another stream. *)
Fixpoint stream_of (tr : trace) (fp : Z) : option (string * string) :=
  match tr with
  | [] => None
  | Ev c r :: tr =>
      let unless (b : bool) (path : string) :=
        match stream_of tr fp with
        | Some (p, m) => if b && String.eqb p path then None else Some (p, m)
        | None => None
        end in
      match c in sys A return A -> option (string * string) with
      | Fopen path mode =>
          fun r => match r with
                   | Some fp' => if fp' =? fp then Some (path, mode)
                                 else unless (negb (String.eqb mode "r")) path
                   | None => stream_of tr fp
                   end
      | Freopen _ _ fp' | Fread_int fp' | Fprintf fp' _ | Fclose fp' =>
          fun _ => if fp' =? fp then None else stream_of tr fp
      | Unlink path => fun r => unless (r =? 0) path
      | _ => fun _ => stream_of tr fp
      end r
  end.

(** The first integer written to a stream since it was opened. *)
Fixpoint written (tr : trace) (fp : Z) : option Z :=
  match tr with
  | [] => None
  | Ev c r :: tr =>
      match c in sys A return A -> option Z with
      | Fopen _ _ =>
          fun r => match r with
                   | Some fp' => if fp' =? fp then None else written tr fp
                   | None => written tr fp
                   end
      | Fwrite_int fp' v =>
          fun r => if (fp' =? fp) && (r =? 1)
                   then Some (match written tr fp with Some v0 => v0 | None => v end)
                   else written tr fp
      | _ => fun _ => written tr fp
      end r
  end.

(** The integer at the start of a file: what was written to it by a stream that was
    flushed or closed since. *)
Fixpoint int_file (tr : trace) (path : string) : option Z :=
  match tr with
  | [] => None
  | Ev c r :: tr =>
      let flushed fp :=
        match stream_of tr fp, written tr fp with
        | Some (p, _), Some v => if String.eqb p path then Some v else int_file tr path
        | _, _ => int_file tr path
        end in
      match c in sys A return A -> option Z with
      | Fopen p mode =>
          fun r => match r with
                   | Some _ => if String.eqb p path && negb (String.eqb mode "r") then None
                               else int_file tr path
                   | None => int_file tr path
                   end
      | Fflush fp | Fclose fp => fun _ => flushed fp
      | Unlink p => fun r => if String.eqb p path && (r =? 0) then None else int_file tr path
      | _ => fun _ => int_file tr path
      end r
  end.

(** [fread(3)]: what was written and flushed is read back. *)
Class FileKernel `{EV : !Env} : Prop :=
  fread_ok tr fp path v :
    stream_of tr fp = Some (path, "r") -> int_file tr path = Some v ->
    exists e, env_call _ tr (Fread_int fp) = (Some v, e).

(** ** Calls that do not matter *)

(** The calls that open, close, create or remove a queue, or use one. *)
Definition queue_call (A : Set) (c : sys A) : Prop :=
  match c with
  | Mq_open _ _ _ _ | Mq_close _ | Mq_unlink _ | Mq_send _ _ | Mq_receive _ _
  | Msgget _ _ | Msgctl_rmid _ | Msgsnd _ _ _ | Msgrcv _ _ => True
  | _ => False
  end.

Definition no_queue_call (A : Set) (c : sys A) : Prop := ~ queue_call A c.

Lemma reporting_no_queue A c : reporting A c -> no_queue_call A c.
Proof. unfold no_queue_call. destruct c; simpl; tauto. Qed.

Lemma mq_on_other tr tr' d : grows no_queue_call tr tr' -> mq_on tr' d = mq_on tr d.
Proof.
  induction 1 as [|A c r tr' Hc _ IH]; [done|]. destruct c; simpl; try done; by destruct Hc.
Qed.

Lemma mq_queue_other tr tr' name : grows no_queue_call tr tr' -> mq_queue tr' name = mq_queue tr name.
Proof.
  induction 1 as [|A c r tr' Hc _ IH]; [done|]. destruct c; simpl; try done; by destruct Hc.
Qed.

Lemma sv_queue_other tr tr' qid : grows no_queue_call tr tr' -> sv_queue tr' qid = sv_queue tr qid.
Proof.
  induction 1 as [|A c r tr' Hc _ IH]; [done|]. destruct c; simpl; try done; by destruct Hc.
Qed.

(** ** A kernel *)

(** The largest descriptor of a history. *)
Fixpoint max_mqd (tr : trace) : Z :=
  match tr with
  | [] => 2
  | Ev c r :: tr =>
      match c in sys A return A -> Z with
      | Mq_open _ _ _ _ => fun r => Z.max r (max_mqd tr)
      | _ => fun _ => max_mqd tr
      end r
  end.

Lemma max_mqd_ge tr : 2 <= max_mqd tr.
Proof. induction tr as [|[A c r] tr IH]; [done|]. destruct c; simpl; try done. lia. Qed.

Lemma mq_on_bound tr d o : mq_on tr d = Some o -> d <= max_mqd tr.
Proof.
  revert o. induction tr as [|[A c r] tr IH]; intros o H; [done|].
  destruct c; simpl in *; try by eapply IH.
  - destruct ((r =? d) && negb (r =? NOT_MQD_T)) eqn:E; bools; [lia|]. apply IH in H. lia.
  - destruct ((d0 =? d) && (r =? 0)); [done|]. by eapply IH.
  - destruct (mq_on tr d) as [o'|]; [|done]. by eapply IH.
Qed.

(** A system whose message queues and files behave as documented, with room for 2048
    bytes in a System V queue; every other call succeeds. *)
Definition kernel_answer (A : Set) (tr : trace) (c : sys A) : option (A * Z) :=
  match c in sys A return option (A * Z) with
  | Mq_open _ _ _ _ => Some (max_mqd tr + 1, 0)
  | Mq_getattr d =>
      Some (match mq_on tr d with
            | Some (name, _) => match mq_queue tr name with Some (a, _) => Some a | None => None end
            | None => None
            end, 0)
  | Mq_send d _ => Some (match mq_on tr d with Some _ => 0 | None => -1 end, 9)
  | Mq_receive d _ =>
      Some (match mq_on tr d with
            | Some (name, _) => match mq_queue tr name with Some (_, m :: _) => Some m | _ => None end
            | None => None
            end, 11)
  | Ftok path id => Some (match ftok_of tr path id with Some k => k | None => 77 end, 0)
  | Msgget key flags =>
      Some (if HAS_FLAG flags IPC_CREAT then 5
            else match sv_key tr key with Some qid => qid | None => -1 end, 2)
  | Msgctl_stat qid => Some (match sv_queue tr qid with Some _ => Some 2048 | None => None end, 22)
  | Msgsnd qid _ _ => Some (match sv_queue tr qid with Some _ => 0 | None => -1 end, 22)
  | Msgrcv qid _ => Some (match sv_queue tr qid with Some (m :: _) => Some m | _ => None end, 42)
  | Fread_int fp =>
      Some (match stream_of tr fp with Some (path, _) => int_file tr path | None => None end, 0)
  | _ => None
  end.

Definition env_kernel : Env := override kernel_answer.

#[export] Instance env_kernel_mq : MqKernel (EV := env_kernel).
Proof.
  split.
  - intros tr name oflag mode attr d e [= <- _] _. destruct (mq_on tr _) as [o|] eqn:E; [|done].
    apply mq_on_bound in E. lia.
  - intros tr d name oflag attr q Hon Hq. exists 0. unfold env_call, env_kernel, override, kernel_answer.
    by rewrite Hon, Hq.
  - intros tr d name oflag attr q m Hon _ _ _ _. exists 9.
    unfold env_call, env_kernel, override, kernel_answer. by rewrite Hon.
  - intros tr d name oflag attr m q n Hon _ Hq _. exists 11.
    unfold env_call, env_kernel, override, kernel_answer. by rewrite Hon, Hq.
Qed.

#[export] Instance env_kernel_sv : SvKernel 2048 8192 (EV := env_kernel).
Proof.
  split.
  - intros tr path id key Hk. exists 0. unfold env_call, env_kernel, override, kernel_answer. by rewrite Hk.
  - intros tr key qid flags Hk Hf. exists 2. unfold env_call, env_kernel, override, kernel_answer.
    by rewrite Hf, Hk.
  - intros tr qid l Hl. exists 22. unfold env_call, env_kernel, override, kernel_answer. by rewrite Hl.
  - intros tr qid l mtype text Hl _ _ _ _. exists 22.
    unfold env_call, env_kernel, override, kernel_answer. by rewrite Hl.
  - intros tr qid size mtype text l Hl _. exists 42.
    unfold env_call, env_kernel, override, kernel_answer. by rewrite Hl.
Qed.

#[export] Instance env_kernel_file : FileKernel (EV := env_kernel).
Proof.
  intros tr fp path v Hs Hv. exists 0. unfold env_call, env_kernel, override, kernel_answer.
  by rewrite Hs, Hv.
Qed.

#[export] Instance env_kernel_malloc : MallocOk (EV := env_kernel).
Proof. intros tr n. by do 2 eexists. Qed.
#[export] Instance env_kernel_strdup : StrdupOk (EV := env_kernel).
Proof. intros tr s. by eexists. Qed.
#[export] Instance env_kernel_gai : GaiOk (EV := env_kernel).
Proof. intros tr node numeric e H. exact (gai_ok (EV := env_default) tr node numeric e H). Qed.

(** ** Histories in which files and keys stay *)

(** Calls that neither touch a file nor create or remove a queue. *)
Definition calm (A : Set) (c : sys A) : Prop :=
  match c with
  | Fopen _ _ | Freopen _ _ _ | Fwrite_int _ _ | Fread_int _ | Fprintf _ _ | Fflush _ | Fclose _
  | Unlink _ | Ftok _ _ | Msgget _ _ | Msgctl_rmid _ => False
  | _ => True
  end.

(** Calls that concern neither files nor queues. *)
Definition idle (A : Set) (c : sys A) : Prop := calm A c /\ no_queue_call A c.

Lemma idle_calm tr tr' : grows idle tr tr' -> grows calm tr tr'.
Proof. apply grows_impl. by intros A c [? ?]. Qed.

Lemma idle_no_queue tr tr' : grows idle tr tr' -> grows no_queue_call tr tr'.
Proof. apply grows_impl. by intros A c [? ?]. Qed.

Lemma calm_files tr tr' : grows calm tr tr' ->
  (forall path, int_file tr' path = int_file tr path)
  /\ (forall path id, ftok_of tr' path id = ftok_of tr path id)
  /\ (forall key, sv_key tr' key = sv_key tr key).
Proof.
  induction 1 as [|A c r tr' Hc _ (IHi & IHf & IHk)]; [done|].
  split_and!; intros; destruct c; simpl in *; try done; auto.
Qed.

Lemma reporting_calm A c : reporting A c -> calm A c.
Proof. by destruct c. Qed.
