(* ===== verification/Fifo.v ===== *)
(** * The queue as a FIFO of messages

    What a queue is for: an abstract queue of strings, and the interface by which
    an implementation of [queue.h] shows that sending and receiving implement it
    ([FifoQueue]).  The simulation is proved once, against the interface. *)
From Stdlib Require Import ZArith Lia Ascii.
From S2P Require Import Prelude Os CError Queue Kernel.
#[local] Set Default Goal Selector "!".

(** The abstract queue: a list of strings, oldest first. *)
Module Fifo.
Inductive op := Send (msg : string) | Receive.
Inductive result := Sent (ok : bool) | Received (msg : string).

(** One operation; [None] when it would block: on a full or an empty queue. *)
Definition step (maxmsg : nat) (q : list string) (o : op) : option (result * list string) :=
  match o with
  | Send m => if Nat.ltb (length q) maxmsg then Some (Sent true, q ++ [m]) else None
  | Receive => match q with m :: q => Some (Received m, q) | [] => None end
  end.

Fixpoint run (maxmsg : nat) (q : list string) (ops : list op) : option (list result * list string) :=
  match ops with
  | [] => Some ([], q)
  | o :: ops =>
      match step maxmsg q o with
      | None => None
      | Some (r, q) =>
          match run maxmsg q ops with
          | None => None
          | Some (rs, q) => Some (r :: rs, q)
          end
      end
  end.
End Fifo.

(** The calls that put messages into a queue or take them out. *)
Definition messaging (A : Set) (c : sys A) : Prop :=
  match c with Mq_send _ _ | Mq_receive _ _ | Msgsnd _ _ _ | Msgrcv _ _ => True | _ => False end.

(** An implementation of the abstract queue of capacity [cap] for the messages
    [msgs]: a history represents a queue ([rep]), a sender appends to it, a
    reader takes the oldest message as a C string in its buffer, and calls that do
    not concern queues leave it as it is. *)
Class FifoQueue `{EV : !Env} (Q : QueueOps) (cap : nat) (msgs : string -> Prop) := {
  rep : trace -> list string -> Prop;
  sender : queue_t -> Prop;
  reader : queue_t -> list ascii -> Z -> Prop;
  rep_other tr tr' q : grows no_queue_call tr tr' -> rep tr q -> rep tr' q;
  fifo_send qs m q error p tr :
    sender qs -> msgs m -> rep tr q -> (length q < cap)%nat ->
    exists qs' e tr', queue_send qs m (-1) error p tr = (Ok (true, qs'), set_errno e p, tr')
      /\ sender qs' /\ rep tr' (q ++ [m]) /\ grows messaging tr tr';
  fifo_receive qr buffer size m q error p tr :
    reader qr buffer size -> msgs m -> rep tr (m :: q) ->
    exists n buffer' qr' e tr',
      queue_receive qr buffer size error p tr = (Ok (n, buffer', qr'), set_errno e p, tr')
      /\ n <> -1 /\ nul_prefix buffer' = Some m /\ reader qr' buffer' size /\ rep tr' q
      /\ grows messaging tr tr'
}.

Section Simulation.
Context `{EV : !Env} `{Q : !QueueOps} `{FQ : !FifoQueue Q cap msgs}.
Implicit Types (p : proc) (tr : trace).

(** One operation of the implementation: a client sends with [msg_len = -1],
    the daemon receives into its buffer and reads it as a C string. *)
Definition impl_step (qs qr : queue_t) (buffer : list ascii) (size : Z) (o : Fifo.op)
  : M proc (Fifo.result * queue_t * queue_t * list ascii) :=
  match o with
  | Fifo.Send m =>
      '(ok, qs) ← queue_send qs m (-1) ErrVar;
      mret (Fifo.Sent ok, qs, qr, buffer)
  | Fifo.Receive =>
      '(_, buffer, qr) ← queue_receive qr buffer size ErrVar;
      match nul_prefix buffer with
      | Some m => mret (Fifo.Received m, qs, qr, buffer)
      | None => undef OutOfBounds
      end
  end.

Fixpoint impl_run (qs qr : queue_t) (buffer : list ascii) (size : Z) (ops : list Fifo.op)
  : M proc (list Fifo.result) :=
  match ops with
  | [] => mret []
  | o :: ops =>
      '(r, qs, qr, buffer) ← impl_step qs qr buffer size o;
      rs ← impl_run qs qr buffer size ops;
      mret (r :: rs)
  end.

Definition op_ok (o : Fifo.op) : Prop :=
  match o with Fifo.Send m => msgs m | Fifo.Receive => True end.

(** Simulation of one operation. *)
Lemma impl_step_simulates qs qr buffer size q o r q' p tr :
  sender qs -> reader qr buffer size -> Forall msgs q -> op_ok o -> rep tr q ->
  Fifo.step cap q o = Some (r, q') ->
  exists qs' qr' buffer' p' tr',
    impl_step qs qr buffer size o p tr = (Ok (r, qs', qr', buffer'), p', tr')
    /\ sender qs' /\ reader qr' buffer' size /\ Forall msgs q' /\ rep tr' q'.
Proof.
  intros Hs Hr Hq Hop Hrep Hstep. destruct o as [m|]; simpl in Hstep.
  - destruct (Nat.ltb_spec (length q) cap) as [Hroom|]; simplify_eq.
    destruct (fifo_send qs m q ErrVar p tr Hs Hop Hrep Hroom) as (qs' & e & tr' & Hrun & Hs' & Hrep' & _).
    exists qs', qr, buffer, (set_errno e p), tr'. split; [simpl; by erewrite bind_Ok by exact Hrun|].
    split_and!; [done|done| |done]. apply Forall_app. auto.
  - destruct q as [|m q1]; simplify_eq. apply Forall_cons_iff in Hq as [Hm Hq].
    destruct (fifo_receive qr buffer size m q' ErrVar p tr Hr Hm Hrep)
      as (n & b' & qr' & e & tr' & Hrun & _ & Hb & Hr' & Hrep' & _).
    exists qs, qr', b', (set_errno e p), tr'. split; [|done].
    simpl. erewrite bind_Ok by exact Hrun. simpl. by rewrite Hb.
Qed.

(** On every sequence the abstract queue accepts, the implementation gives the
    same results and represents the same queue at the end. *)
Lemma impl_run_simulates ops : forall qs qr buffer size q rs q' p tr,
  sender qs -> reader qr buffer size -> Forall msgs q -> Forall op_ok ops -> rep tr q ->
  Fifo.run cap q ops = Some (rs, q') ->
  exists p' tr', impl_run qs qr buffer size ops p tr = (Ok rs, p', tr') /\ rep tr' q'.
Proof.
  induction ops as [|o ops IH]; intros qs qr buffer size q rs q' p tr Hs Hr Hq Hops Hrep Hrun;
    simpl in Hrun.
  - simplify_eq. by do 2 eexists.
  - apply Forall_cons_iff in Hops as [Ho Hops].
    destruct (Fifo.step _ q o) as [[r q1]|] eqn:Es; [|done].
    destruct (Fifo.run _ q1 ops) as [[rs1 q2]|] eqn:Er; simplify_eq.
    destruct (impl_step_simulates qs qr buffer size q o r q1 p tr)
      as (qs1 & qr1 & b1 & p1 & tr1 & H1 & Hs1 & Hr1 & Hq1 & Hrep1); auto.
    destruct (IH qs1 qr1 b1 size q1 rs1 q' p1 tr1) as (p2 & tr2 & H2 & Hrep2); auto.
    exists p2, tr2. split; [|done]. simpl.
    erewrite bind_Ok by exact H1. simpl. by erewrite bind_Ok by exact H2.
Qed.
End Simulation.
