(* ===== verification/PosixSpec.v ===== *)
(** * Correctness of the POSIX queue *)
From Stdlib Require Import ZArith Lia Ascii.
From S2P Require Import Prelude Os CError Scenario Queue Posix Kernel Fifo.
#[local] Set Default Goal Selector "!".

(** ** Observations on a history *)

(** Calls of a client: nothing is created or removed. *)
Definition client_call (A : Set) (c : sys A) : Prop :=
  match c with
  | Mq_open _ flags _ _ => Z.land flags O_CREAT = 0
  | Mq_getattr _ | Mq_send _ _ | Mq_receive _ _ | Mq_close _ => True
  | c => reporting A c
  end.

Lemma reporting_client A c : reporting A c -> client_call A c.
Proof. by destruct c. Qed.

#[export] Hint Resolve reporting_client : banip.

(** ** Opening *)

Section Open.
Context `{EV : !Env} `{PL : !Platform}.
Implicit Types (p : proc) (tr : trace).

Lemma wp_open_mq_umask q name flags omask oldmask error p tr m :
  (HAS_FLAG flags QUEUE_FL_OWNER = true -> m = Some oldmask) ->
  (HAS_FLAG flags QUEUE_FL_OWNER = false -> umask_of tr = m) ->
  wp (posix_open_mq q name flags omask oldmask error)
    (fun _ _ tr' => umask_of tr' = m) p tr.
Proof.
  intros Hown Hnot. unfold posix_open_mq, set_generic_error. wp_step. wp_step.
  destruct (HAS_FLAG flags QUEUE_FL_OWNER); destruct (r =? NOT_MQD_T).
  - rewrite Hown by done. wp_step. wp_step. wp_step. wp_step. wp_step.
    + apply wp_bind, wp_error_set_any. intros o p' tr' Hg Ho.
      apply umask_of_reporting in Hg. by destruct Ho as [->|[u ->]].
    + by apply wp_report_umask.
  - rewrite Hown by done. wp_steps. done.
  - apply wp_report_umask. by apply Hnot.
  - wp_step. wp_step. wp_step; [wp_step; by apply Hnot|].
    apply wp_report_umask. by apply Hnot.
Qed.

(** When [strdup] succeeds, [queue_open] leaves the file creation mask as
    it found it, on success and on every failure: an owner sets it to the value
    its [umask(0)] returned, anyone else does not touch it. *)
Theorem posix_open_umask `{!StrdupOk} q name flags error p tr o p' tr' :
  posix_open q name flags error p tr = (o, p', tr') ->
  umask_of tr' = if HAS_FLAG flags QUEUE_FL_OWNER
                 then Some (fst (env_call _ tr (Umask 0))) else umask_of tr.
Proof.
  intros Hrun. refine (wp_run _ (fun _ _ tr' => umask_of tr' = _) _ _ _ _ _ _ Hrun).
  unfold posix_open. destruct (HAS_FLAG flags QUEUE_FL_OWNER) eqn:Ef.
  - wp_step. wp_step. rewrite Hcall. wp_step. wp_step.
    destruct (strdup_ok (Ev (Umask 0) r :: tr) name) as [e' Hd]. rewrite Hd in Hcall0.
    injection Hcall0 as <- <-. simpl. apply wp_open_mq_umask; congruence.
  - apply wp_open_mq_umask; congruence.
Qed.

(** When [strdup] fails, [queue_open] as owner returns with the file
    creation mask still 0. *)
Theorem posix_open_umask_leak q name flags p tr old e e' :
  HAS_FLAG flags QUEUE_FL_OWNER = true -> MallocOk -> p_error p = None ->
  env_call _ tr (Umask 0) = (old, e) ->
  env_call _ (Ev (Umask 0) old :: tr) (Strdup name) = (false, e') ->
  exists p' tr', posix_open q name flags ErrVar p tr = (Ok (false, set_filename None q), p', tr')
                 /\ umask_of tr' = Some 0.
Proof.
  intros Hf HM Hp Hu Hd. unfold posix_open. rewrite Hf.
  rewrite (bind_syscall _ _ _ _ _ _ Hu), (bind_syscall _ _ _ _ _ _ Hd). cbn [negb].
  edestruct (error_set_run ("strdup failed to copy " +:+ dquote name)
    (set_errno e' (set_errno e p))) as (e3 & tr3 & Hrun & Hg); [done|].
  do 2 eexists. split; [by erewrite bind_Ok by exact Hrun|].
  by rewrite (umask_of_reporting _ _ Hg).
Qed.

(** What the owner passes to [mq_open]. *)
Definition owner_oflag (flags : Z) : Z :=
  Z.lor (if HAS_FLAG flags QUEUE_FL_SENDER then O_WRONLY else O_RDONLY) (Z.lor O_CREAT O_EXCL).

(** C24: opening as owner, on both answers of [mq_open]: the queue is created
    exclusively, with mode 0660 and the attributes of the queue object, under a
    zero umask; on success the object holds the descriptor and the name; on
    failure it holds the name and no descriptor, and one error is reported. *)
Theorem posix_open_owner q name flags p tr old e e' d e'' :
  HAS_FLAG flags QUEUE_FL_OWNER = true -> MallocOk -> p_error p = None ->
  env_call _ tr (Umask 0) = (old, e) ->
  env_call _ (Ev (Umask 0) old :: tr) (Strdup name) = (true, e') ->
  let tr1 := Ev (Strdup name) true :: Ev (Umask 0) old :: tr in
  let call := Mq_open name (owner_oflag flags) MODE_0660 (pq_attr q) in
  env_call _ tr1 call = (d, e'') ->
  let q' := PosixQueue d (Some name) (pq_attr q) in
  if d =? NOT_MQD_T then
    exists prev p' msg tr', posix_open q name flags ErrVar p tr = (Ok (false, q'), p', tr')
      /\ p_error p' = Some msg
      /\ grows reporting (Ev (Umask old) prev :: Ev call d :: tr1) tr'
  else
    exists prev e3, posix_open q name flags ErrVar p tr
      = (Ok (true, q'), Proc e3 None, Ev (Umask old) prev :: Ev call d :: tr1).
Proof.
  intros Hf HM Hp Hu Hd tr1 call Hopen q'. unfold posix_open. rewrite Hf.
  rewrite (bind_syscall _ _ _ _ _ _ Hu), (bind_syscall _ _ _ _ _ _ Hd). cbn [negb].
  unfold posix_open_mq. rewrite Hf. cbn [pq_attr set_filename].
  rewrite (bind_syscall _ _ _ _ _ _ Hopen).
  destruct (env_call _ (Ev call d :: tr1) (Umask old)) as [prev e3] eqn:Hr.
  destruct (d =? NOT_MQD_T); exists prev; rewrite (bind_syscall _ _ _ _ _ _ Hr).
  - apply (wp_result _ (fun res => exists p' msg tr', res = (Ok (false, q'), p', tr') /\
      p_error p' = Some msg /\ grows reporting (Ev (Umask old) prev :: Ev call d :: tr1) tr')).
    wp_step. wp_step. unfold set_generic_error. wp_step; apply wp_bind;
      [apply wp_error_set|apply wp_system_error]; try done; intros; apply wp_ret; eauto 8.
  - exists e3. unfold set_errno. simpl. by rewrite Hp.
Qed.
End Open.

(** ** Attributes *)

(** A sequence of [queue_set_attribute] calls: the results and the queue. *)
Fixpoint set_attributes (l : list (queue_attr_t * Z)) (q : posix_queue_t)
  : list queue_err_t * posix_queue_t :=
  match l with
  | [] => ([], q)
  | (a, v) :: l =>
      let '(r, q) := posix_set_attribute q a v in
      let '(rs, q) := set_attributes l q in (r :: rs, q)
  end.

(** Between [queue_init] and [queue_open], where the header says attributes
    have to be set, [queue_set_attribute] never has an effect: every call of any
    sequence returns [QUEUE_ERR_NOT_OWNER] and the queue keeps 10 messages of
    1024 bytes. *)
Theorem posix_set_attribute_before_open l :
  set_attributes l posix_fresh = (replicate (length l) QUEUE_ERR_NOT_OWNER, posix_fresh).
Proof. induction l as [|[a v] l IH]; simpl; [done|]. by rewrite IH. Qed.

(** On a queue that holds its name, setting an attribute and reading it back
    gives the value and leaves the other attribute alone; the size in bytes of
    the whole queue is not supported. *)
Theorem posix_attribute_roundtrip q name a v p tr :
  pq_filename q = Some name ->
  let '(r, q') := posix_set_attribute q a v in
  match a with
  | QUEUE_ATTR_MAX_QUEUE_SIZE => r = QUEUE_ERR_NOT_SUPPORTED /\ q' = q
  | QUEUE_ATTR_MAX_MESSAGE_SIZE =>
      r = QUEUE_ERR_OK
      /\ posix_get_attribute q' a p tr = (Ok (QUEUE_ERR_OK, Some v), p, tr)
      /\ posix_get_attribute q' QUEUE_ATTR_MAX_MESSAGE_IN_QUEUE p tr
         = posix_get_attribute q QUEUE_ATTR_MAX_MESSAGE_IN_QUEUE p tr
  | QUEUE_ATTR_MAX_MESSAGE_IN_QUEUE =>
      r = QUEUE_ERR_OK
      /\ posix_get_attribute q' a p tr = (Ok (QUEUE_ERR_OK, Some v), p, tr)
      /\ posix_get_attribute q' QUEUE_ATTR_MAX_MESSAGE_SIZE p tr
         = posix_get_attribute q QUEUE_ATTR_MAX_MESSAGE_SIZE p tr
  end.
Proof. intros Hq. unfold posix_set_attribute. rewrite Hq. by destruct a. Qed.

(** ** Closing *)

Section Close.
Context `{EV : !Env} `{PL : !Platform}.
Implicit Types (p : proc) (tr : trace).

(** The calls of a successful [queue_close]: the descriptor is closed if there
    is one, then the queue removed if this process created it. *)
Definition close_calls (q : posix_queue_t) : trace :=
  match pq_filename q with Some n => [Ev (Mq_unlink n) 0] | None => [] end
  ++ (if pq_mq q =? NOT_MQD_T then [] else [Ev (Mq_close (pq_mq q)) 0]).

(** What [queue_close] does to an existing queue. *)
Definition close_post (q : posix_queue_t) tr (o : outcome (bool * option posix_queue_t))
    (p' : proc) tr' : Prop :=
  match o with
  | Ok (true, r) => r = None /\ tr' = close_calls q ++ tr
  | Ok (false, Some q') =>
      is_Some (p_error p') /\ pq_filename q' = pq_filename q
      /\ (q' = q \/ q' = set_mq NOT_MQD_T q)
  | _ => False
  end.

Lemma wp_posix_close `{!MallocOk} q p tr :
  p_error p = None -> wp (posix_close (Some q) ErrVar) (close_post q tr) p tr.
Proof.
  intros Hp. unfold posix_close.
  assert (Hun : forall q1 p1 tr1, pq_filename q1 = pq_filename q ->
    p_error p1 = None -> (q1 = q \/ q1 = set_mq NOT_MQD_T q) ->
    tr1 = (if pq_mq q =? NOT_MQD_T then [] else [Ev (Mq_close (pq_mq q)) 0]) ++ tr ->
    wp (match pq_filename q1 with
        | Some name =>
            ret ← syscall (Mq_unlink name);
            if negb (ret =? 0) then
              set_system_error ErrVar "mq_unlink failed";; mret (false, Some q1)
            else mret (true, None)
        | None => mret (true, None)
        end) (close_post q tr) p1 tr1).
  { intros q1 p1 tr1 Hf Hp1 Hq1 ->. rewrite Hf. unfold close_post, close_calls.
    destruct (pq_filename q) as [name|]; [|by wp_step].
    wp_step. wp_step. wp_step.
    - apply wp_bind, wp_system_error; [done|]. intros. apply wp_ret. split; [by eexists|done].
    - bools. subst r. wp_step. done. }
  destruct (pq_mq q =? NOT_MQD_T) eqn:Ed; cbn [negb].
  - apply Hun; auto.
  - wp_step. wp_step. wp_step.
    + apply wp_bind, wp_system_error; [done|]. intros. apply wp_ret.
      unfold close_post. split; [by eexists|auto].
    + bools. subst r. apply (Hun (set_mq NOT_MQD_T q)); auto.
Qed.

(** C25: [queue_close] on an existing queue, on every answer of the system: when
    it returns [true] the pointer is NULL, the descriptor was closed if there
    was one and then the queue was removed exactly if this process holds its
    name; when it returns [false] the queue object is still there, with its
    name, and an error was reported. *)
Theorem posix_close_correct `{!MallocOk} q p tr o p' tr' :
  p_error p = None ->
  posix_close (Some q) ErrVar p tr = (o, p', tr') -> close_post q tr o p' tr'.
Proof. intros Hp Hrun. exact (wp_run _ _ _ _ _ _ _ (wp_posix_close q p tr Hp) Hrun). Qed.

(** A failed [mq_open] by an owner leaves the name and no descriptor. *)
Lemma wp_open_fails `{!StrdupOk} q name flags error p tr :
  HAS_FLAG flags QUEUE_FL_OWNER = true ->
  wp (posix_open q name flags error)
    (fun o _ _ => match o with
                  | Ok (false, q') => pq_mq q' = NOT_MQD_T /\ pq_filename q' = Some name
                  | _ => True
                  end) p tr.
Proof.
  intros Hf. unfold posix_open, posix_open_mq. rewrite Hf. wp_step. wp_step. wp_step. wp_step.
  destruct (strdup_ok (Ev (Umask 0) r :: tr) name) as [e' Hd]. rewrite Hd in Hcall0.
  injection Hcall0 as <- <-. wp_step; [done|]. wp_step. wp_step. wp_step; [|by wp_steps].
  wp_step. wp_step. wp_step. wp_step. unfold set_generic_error. bools.
  wp_step; apply wp_bind; [apply wp_error_set_any|apply wp_system_error_any];
    intros ? ? ? _ [->|[u ->]]; done.
Qed.

(** C38: a process that fails to create its queue, for instance because another
    daemon owns that name, keeps the name: the [queue_close] that the header
    asks for after a failed [queue_open] then removes the other's queue. *)
Theorem posix_failed_owner_unlinks `{!StrdupOk} q name flags p tr q' p' tr' e :
  HAS_FLAG flags QUEUE_FL_OWNER = true ->
  posix_open q name flags ErrVar p tr = (Ok (false, q'), p', tr') ->
  env_call _ tr' (Mq_unlink name) = (0, e) ->
  posix_close (Some q') ErrNull p' tr'
  = (Ok (true, None), set_errno e p', Ev (Mq_unlink name) 0 :: tr').
Proof.
  intros Hf Hrun Hun.
  destruct (wp_run _ _ _ _ _ _ _ (wp_open_fails q name flags ErrVar p tr Hf) Hrun) as [Hd Hn].
  unfold posix_close. rewrite Hd, Hn.
  replace (NOT_MQD_T =? NOT_MQD_T) with true by done. cbn [negb].
  by rewrite (bind_syscall _ _ _ _ _ _ Hun).
Qed.
End Close.

(** ** Clients leave the queue in place *)

Section Client.
Context `{EV : !Env} `{PL : !Platform}.
Implicit Types (p : proc) (tr : trace).

(** The queue objects a process without [QUEUE_FL_OWNER] can reach after the
    history [tr0], with the history then: any order of any calls. *)
Inductive client_reach (tr0 : trace) : posix_queue_t -> trace -> Prop :=
| reach_init error p p' q tr :
    posix_init error p tr0 = (Ok (Some q), p', tr) -> client_reach tr0 q tr
| reach_set q tr a v :
    client_reach tr0 q tr -> client_reach tr0 (posix_set_attribute q a v).2 tr
| reach_open q tr name flags error p b q' p' tr' :
    client_reach tr0 q tr -> HAS_FLAG flags QUEUE_FL_OWNER = false ->
    posix_open q name flags error p tr = (Ok (b, q'), p', tr') -> client_reach tr0 q' tr'
| reach_send q tr msg len error p b q' p' tr' :
    client_reach tr0 q tr ->
    posix_send q msg len error p tr = (Ok (b, q'), p', tr') -> client_reach tr0 q' tr'
| reach_receive q tr buf size error p n buf' q' p' tr' :
    client_reach tr0 q tr ->
    posix_receive q buf size error p tr = (Ok (n, buf', q'), p', tr') -> client_reach tr0 q' tr'
| reach_close q tr error p q' p' tr' :
    client_reach tr0 q tr ->
    posix_close (Some q) error p tr = (Ok (false, Some q'), p', tr') -> client_reach tr0 q' tr'.

(** No name is held, and only client calls were made. *)
Definition client_inv tr0 (q : posix_queue_t) tr : Prop :=
  pq_filename q = None /\ grows client_call tr0 tr.

(** Reporting an error and returning keeps a fact about the trace. *)
Lemma wp_report_client {A} error msg (a : A) tr0 p tr (Q : outcome A -> proc -> trace -> Prop) :
  grows client_call tr0 tr ->
  (forall o p' tr', grows client_call tr0 tr' -> (o = Ok a \/ exists u, o = Undef u) -> Q o p' tr') ->
  wp (set_system_error error msg ≫= fun _ => mret a) Q p tr.
Proof.
  intros Hg HQ. apply wp_bind, wp_system_error_any. intros o p' tr' Hg' Ho.
  assert (grows client_call tr0 tr').
  { eapply grows_trans; [done|]. eapply grows_impl; [|done]. auto with banip. }
  destruct Ho as [->|[u ->]]; [apply wp_ret|]; eauto.
Qed.

Lemma wp_client_open tr0 q name flags error p tr :
  client_inv tr0 q tr -> HAS_FLAG flags QUEUE_FL_OWNER = false ->
  wp (posix_open q name flags error)
    (fun o _ tr' => match o with Ok (_, q') => client_inv tr0 q' tr' | _ => grows client_call tr0 tr' end)
    p tr.
Proof.
  intros [Hq Hg] Hf. unfold posix_open, posix_open_mq, client_inv. rewrite Hf.
  set (om := if HAS_FLAG flags QUEUE_FL_SENDER then O_WRONLY else O_RDONLY).
  assert (Hom : Z.land om O_CREAT = 0) by (unfold om; by destruct (HAS_FLAG flags QUEUE_FL_SENDER)).
  wp_step. wp_step. wp_step.
  - apply (wp_report_client _ _ _ tr0); [by constructor|]. by intros ? ? ? ? [->|[u ->]].
  - wp_step. wp_step. wp_step; [wp_step; split; [done|by repeat constructor]|].
    apply (wp_report_client _ _ _ tr0); [by repeat constructor|]. by intros ? ? ? ? [->|[u ->]].
Qed.

Lemma wp_client_close tr0 q error p tr :
  client_inv tr0 q tr ->
  wp (posix_close (Some q) error)
    (fun o _ tr' => grows client_call tr0 tr' /\
       match o with Ok (_, Some q') => pq_filename q' = None | _ => True end) p tr.
Proof.
  intros [Hq Hg]. unfold posix_close. wp_step.
  - wp_step. wp_step. wp_step.
    + apply (wp_report_client _ _ _ tr0); [by constructor|]. by intros ? ? ? ? [->|[u ->]].
    + rewrite Hq. wp_step. split; [by constructor|done].
  - rewrite Hq. by wp_step.
Qed.

Lemma client_reach_inv tr0 q tr : client_reach tr0 q tr -> client_inv tr0 q tr.
Proof.
  induction 1 as [error p p' q tr Hrun|q tr a v _ [Hq Hg]|q tr name flags error p b q' p' tr' _ IH Hf Hrun
    |q tr msg len error p b q' p' tr' _ [Hq Hg] Hrun
    |q tr buf size error p n buf' q' p' tr' _ [Hq Hg] Hrun|q tr error p q' p' tr' _ IH Hrun].
  - revert Hrun. unfold posix_init. apply wp_run with (Q := fun o _ tr' =>
      match o with Ok (Some q) => client_inv tr0 q tr' | _ => True end).
    wp_step. wp_step. wp_step; [wp_step; split; [done|by repeat constructor]|].
    apply wp_bind, wp_error_set_any. by intros ? ? ? _ [->|[u ->]].
  - unfold posix_set_attribute. rewrite Hq. done.
  - exact (wp_run _ _ _ _ _ _ _ (wp_client_open tr0 q name flags error p tr IH Hf) Hrun).
  - revert Hrun. unfold posix_send. apply wp_run with (Q := fun o _ tr' =>
      match o with Ok (_, q) => client_inv tr0 q tr' | _ => True end).
    wp_step; [|by wp_step]. wp_step. wp_step. wp_step.
    + apply (wp_report_client _ _ _ tr0); [by repeat constructor|]. by intros ? ? ? ? [->|[u ->]].
    + wp_step. split; [done|by repeat constructor].
  - revert Hrun. unfold posix_receive. apply wp_run with (Q := fun o _ tr' =>
      match o with Ok (_, q) => client_inv tr0 q tr' | _ => True end).
    wp_step. wp_step. wp_step.
    + wp_step; [|by wp_step]. wp_step. split; [done|by repeat constructor].
    + apply (wp_report_client _ _ _ tr0); [by repeat constructor|]. by intros ? ? ? ? [->|[u ->]].
  - destruct (wp_run _ _ _ _ _ _ _ (wp_client_close tr0 q error p tr IH) Hrun). done.
Qed.

(** C26: a process that opens a queue without [QUEUE_FL_OWNER] never creates a
    queue, never removes one and never changes its umask, whatever calls of the
    interface it makes in whatever order and whatever fails, up to and
    including its [queue_close]. *)
Theorem posix_client_leaves_queue tr0 q error p tr o p' tr' :
  client_reach tr0 q tr ->
  posix_close (Some q) error p tr = (o, p', tr') -> grows client_call tr0 tr'.
Proof.
  intros Hreach Hrun. apply client_reach_inv in Hreach.
  by destruct (wp_run _ _ _ _ _ _ _ (wp_client_close tr0 q error p tr Hreach) Hrun).
Qed.
End Client.

(** ** A FIFO of messages *)

(** Messages without NUL that fit. *)
Definition sendable (attr : mq_attr) (m : string) : Prop :=
  str_all (fun c => negb (Ascii.eqb c NUL)) m = true /\ strlen m <= mq_msgsize attr.

(** After a history the queue [name] holds [q]; [ds] is open on it for writing and
    [dr] for reading. *)
Definition mq_rep (name : string) (attr : mq_attr) (ds dr : Z) (tr : trace) (q : list string) : Prop :=
  mq_queue tr name = Some (attr, chars <$> q)
  /\ (exists f, mq_on tr ds = Some (name, f) /\ may_write f = true)
  /\ (exists f, mq_on tr dr = Some (name, f) /\ may_read f = true).

Section Refinement.
Context `{EV : !Env} `{PL : !Platform} `{MK : !MqKernel}.
Context (name : string) (attr : mq_attr) (ds dr : Z).
Implicit Types (p : proc) (tr : trace).

Lemma posix_send_ok q m l error p tr :
  pq_mq q = ds -> mq_rep name attr ds dr tr l -> sendable attr m ->
  Z.of_nat (length l) < mq_maxmsg attr ->
  exists e, posix_send q m (-1) error p tr
      = (Ok (true, q), set_errno e p, Ev (Mq_send ds (chars m)) 0 :: tr)
    /\ mq_rep name attr ds dr (Ev (Mq_send ds (chars m)) 0 :: tr) (l ++ [m]).
Proof.
  intros Hd (Hq & (f & Hon & Hf) & Hr) [_ Hlen] Hroom. unfold posix_send. cbn [Z.ltb Z.compare].
  rewrite message_bytes_all, Hd.
  destruct (mq_send_ok tr ds name f attr _ (chars m) Hon Hf Hq) as [e Hs].
  { by rewrite length_fmap. }
  { by rewrite length_chars. }
  exists e. split; [by rewrite (bind_syscall _ _ _ _ _ _ Hs)|].
  split; [|split; [by eexists|done]]. cbn [mq_queue]. unfold on_queue.
  by rewrite Hq, Hon, String.eqb_refl, fmap_app.
Qed.

Lemma posix_receive_ok q m l buffer size error p tr :
  pq_mq q = dr -> mq_rep name attr ds dr tr (m :: l) -> sendable attr m ->
  mq_msgsize attr <= size -> mq_msgsize attr < Z.of_nat (length buffer) ->
  exists e, posix_receive q buffer size error p tr
      = (Ok (strlen m, overwrite 0 (chars m ++ [NUL]) buffer, q), set_errno e p,
         Ev (Mq_receive dr size) (Some (chars m)) :: tr)
    /\ mq_rep name attr ds dr (Ev (Mq_receive dr size) (Some (chars m)) :: tr) l.
Proof.
  intros Hd (Hq & Hs & (f & Hon & Hf)) [_ Hlen] Hsize Hbuf. unfold posix_receive. rewrite Hd.
  destruct (mq_receive_ok tr dr name f attr (chars m) (fmap (M := list) chars l) size Hon Hf Hq Hsize) as [e Hr].
  exists e. rewrite (bind_syscall _ _ _ _ _ _ Hr). unfold strlen in *. rewrite length_chars.
  destruct (Nat.ltb_spec (String.length m) (length buffer)); [|lia]. split; [done|].
  split; [|split; [done|by eexists]]. cbn [mq_queue]. unfold on_queue.
  by rewrite Hq, Hon, String.eqb_refl.
Qed.

#[export] Program Instance posix_fifo
  : FifoQueue posix_queue (Z.to_nat (mq_maxmsg attr)) (sendable attr) :=
  {| rep := mq_rep name attr ds dr; sender := fun q => pq_mq q = ds;
     reader := fun q buffer size =>
       pq_mq q = dr /\ mq_msgsize attr <= size /\ mq_msgsize attr < Z.of_nat (length buffer) |}.
Next Obligation.
  intros tr tr' q Hg Hrep. unfold mq_rep in *. by rewrite (mq_queue_other _ _ _ Hg), !(mq_on_other _ _ _ Hg).
Qed.
Next Obligation.
  intros qs m q error p tr Hd Hm Hrep Hroom. simpl in *.
  destruct (posix_send_ok qs m q error p tr Hd Hrep Hm) as (e & Hs & Hrep'); [lia|].
  do 3 eexists. split; [exact Hs|]. split; [done|]. split; [done|]. by repeat constructor.
Qed.
Next Obligation.
  intros qr buffer size m q error p tr (Hd & Hsize & Hbuf) Hm Hrep. simpl in *.
  destruct (posix_receive_ok qr m q buffer size error p tr Hd Hrep Hm Hsize Hbuf) as (e & Hr & Hrep').
  do 5 eexists. split; [exact Hr|]. split; [pose proof (strlen_nonneg m); lia|].
  split; [rewrite overwrite_0, <-app_assoc; apply nul_prefix_chars, Hm|].
  split; [split; [done|split; [done|]]|].
  - rewrite length_overwrite; [done|]. rewrite length_app, length_chars. simpl.
    destruct Hm as [_ Hm]. unfold strlen in Hm. lia.
  - split; [done|]. by repeat constructor.
Qed.
End Refinement.

(** *** From the opening on *)

Section Opened.
Context `{EV : !Env} `{PL : !Platform} `{MK : !MqKernel}.
Implicit Types (p : proc) (tr : trace).

(** An owner that opens creates the empty queue and may read from it. *)
Lemma wp_owner_creates q name error p tr :
  wp (posix_open q name QUEUE_FL_OWNER error) (fun o _ tr' => match o with
    | Ok (true, q') => mq_queue tr' name = Some (pq_attr q, [])
                       /\ exists f, mq_on tr' (pq_mq q') = Some (name, f) /\ may_read f = true
    | _ => True end) p tr.
Proof.
  unfold posix_open, posix_open_mq. change (HAS_FLAG QUEUE_FL_OWNER QUEUE_FL_OWNER) with true.
  change (HAS_FLAG QUEUE_FL_OWNER QUEUE_FL_SENDER) with false. cbv iota zeta. unfold set_generic_error.
  wp_step. wp_step. wp_step. wp_step. wp_step.
  { apply wp_bind, wp_error_set_any. by intros ? ? ? _ [->|[? ->]]. }
  wp_step. wp_step. wp_step.
  { wp_step. wp_step. wp_step. wp_step.
    wp_step; apply wp_bind; [apply wp_error_set_any|apply wp_system_error_any];
      by intros ? ? ? _ [->|[? ->]]. }
  wp_step. wp_step. wp_step. rewrite String.eqb_refl, Z.eqb_refl.
  match goal with H : (?d =? NOT_MQD_T) = false |- _ => rewrite H end. cbn. split; [done|]. by eexists.
Qed.

(** A client that opens an existing queue may write to it; what others have open is
    not touched. *)
Lemma wp_client_joins q name error attr l p tr :
  mq_queue tr name = Some (attr, l) ->
  wp (posix_open q name QUEUE_FL_SENDER error) (fun o _ tr' => match o with
    | Ok (true, q') => mq_queue tr' name = Some (attr, l) /\ pq_attr q' = attr
        /\ (exists f, mq_on tr' (pq_mq q') = Some (name, f) /\ may_write f = true)
        /\ forall d x, mq_on tr d = Some x -> mq_on tr' d = Some x
    | _ => True end) p tr.
Proof.
  intros Hq. unfold posix_open, posix_open_mq.
  change (HAS_FLAG QUEUE_FL_SENDER QUEUE_FL_OWNER) with false.
  change (HAS_FLAG QUEUE_FL_SENDER QUEUE_FL_SENDER) with true. cbv iota zeta.
  apply wp_bind, wp_syscall. intros d e Hopen. cbv beta iota. destruct (d =? NOT_MQD_T) eqn:Ed.
  { apply wp_bind, wp_system_error_any. by intros ? ? ? _ [->|[? ->]]. }
  set (tr1 := Ev (Mq_open name O_WRONLY MODE_0660 (pq_attr q)) d :: tr).
  assert (Hq1 : mq_queue tr1 name = Some (attr, l)).
  { unfold tr1. cbn [mq_queue]. change (HAS_FLAG O_WRONLY O_CREAT) with false. by rewrite andb_false_r. }
  assert (Hon : mq_on tr1 d = Some (name, O_WRONLY)).
  { unfold tr1. cbn [mq_on]. by rewrite Z.eqb_refl, Ed. }
  apply wp_bind, wp_syscall. intros a e' Hattr. cbv beta iota.
  destruct (mq_getattr_ok tr1 d name O_WRONLY attr l Hon Hq1) as [e2 Hget]. rewrite Hget in Hattr.
  injection Hattr as <- _. apply wp_ret. split; [done|]. split; [done|]. split; [by eexists|].
  intros d' x Hx. unfold tr1. cbn [mq_on]. destruct (Z.eqb_spec d d') as [<-|]; [|done].
  apply Z.eqb_neq in Ed. by rewrite (mq_open_new _ _ _ _ _ _ _ Hopen Ed) in Hx.
Qed.

Lemma opened_rep name qr qs error error' p p1 tr tr1 pc pc' tr2 tr3 :
  posix_open posix_fresh name QUEUE_FL_OWNER error p tr = (Ok (true, qr), p1, tr1) ->
  grows no_queue_call tr1 tr2 ->
  posix_open posix_fresh name QUEUE_FL_SENDER error' pc tr2 = (Ok (true, qs), pc', tr3) ->
  mq_rep name (MqAttr 10 1024) (pq_mq qs) (pq_mq qr) tr3 [].
Proof.
  intros Ho Hg Hc.
  destruct (wp_run _ _ _ _ _ _ _ (wp_owner_creates posix_fresh name error p tr) Ho) as [Hq (f & Hon & Hf)].
  rewrite <-(mq_queue_other _ _ _ Hg) in Hq. rewrite <-(mq_on_other _ _ _ Hg) in Hon.
  destruct (wp_run _ _ _ _ _ _ _ (wp_client_joins posix_fresh name error' _ _ pc tr2 Hq) Hc)
    as (Hq' & _ & Hs & Hkeep).
  split; [done|]. split; [done|]. exists f. split; [by apply Hkeep|done].
Qed.

(** C8: the POSIX queue is a FIFO of strings.  On a kernel whose message queues behave
    as documented: once the owner has opened a queue and then a client the same name,
    with no other call on queues in between, the queue is empty, and every sequence of sends by the client and
    receives by the owner that the abstract FIFO of ten messages accepts without
    blocking gives the results of the FIFO, and leaves its content in the kernel.
    Each message received is, byte for byte, the oldest one sent, terminated inside
    a buffer of more than 1024 bytes; messages have at most 1024 bytes and no NUL. *)
Theorem posix_refines_fifo name ops qs qr buffer size error error' rs q' po po' tr tr1 tr2 pc pc' tr3 p :
  posix_open posix_fresh name QUEUE_FL_OWNER error po tr = (Ok (true, qr), po', tr1) ->
  grows no_queue_call tr1 tr2 ->
  posix_open posix_fresh name QUEUE_FL_SENDER error' pc tr2 = (Ok (true, qs), pc', tr3) ->
  Forall (op_ok (msgs := sendable (MqAttr 10 1024))) ops ->
  1024 <= size -> 1024 < Z.of_nat (length buffer) ->
  Fifo.run 10 [] ops = Some (rs, q') ->
  exists p' tr', impl_run qs qr buffer size ops p tr3 = (Ok rs, p', tr')
                 /\ mq_queue tr' name = Some (MqAttr 10 1024, chars <$> q').
Proof.
  intros Ho Hg Hc Hops Hsize Hbuf Hrun.
  pose proof (opened_rep _ _ _ _ _ _ _ _ _ _ _ _ _ Ho Hg Hc) as Hrep.
  destruct (impl_run_simulates (FQ := posix_fifo name (MqAttr 10 1024) (pq_mq qs) (pq_mq qr))
    ops qs qr buffer size [] rs q' p tr3) as (p' & tr' & Hr & Hrep'); try done.
  exists p', tr'. split; [done|]. apply Hrep'.
Qed.
End Opened.

(** ** The contract of [queue.h] *)

Section Contract.
Context `{EV : !Env} `{PL : !Platform}.

#[export] Program Instance posix_contract : QueueContract posix_queue :=
  {| fresh := fun q => q = posix_fresh |}.
Next Obligation.
  intros error p tr. simpl. unfold posix_init. wp_step. wp_step. wp_step; [by wp_step|].
  apply (wp_report_none (A := posix_queue_t)).
Qed.
Next Obligation. by intros q a v ->. Qed.
Next Obligation. done. Qed.
End Contract.

(** ** The queue of a daemon *)

(** The limit of the system on the size of a message ([msgsize_max] on Linux,
    [kern.mqueue.maxmsgsize] on FreeBSD) is [n] bytes. *)
Class MqMessages `{EV : !Env} (n : Z) : Prop :=
  mq_messages : forall tr d size m e,
    env_call _ tr (Mq_receive d size) = (Some m, e) -> Z.of_nat (length m) <= n.

Section PosixSource.
Context `{EV : !Env} `{PL : !Platform}.

#[export] Program Instance posix_source `{!MallocOk} n `{!MqMessages n}
  : ReceiveContract posix_queue :=
  {| ready := fun _ buffer size => Z.of_nat (length buffer) = n + 1 /\ size = n + 1 |}.
Next Obligation.
  intros Hm n Hmsg q buffer size p tr [Hr Hsize] Hp. simpl in *. unfold posix_receive.
  wp_step. wp_step. wp_step.
  - pose proof (mq_messages _ _ _ _ _ Hcall) as Hl.
    match goal with |- wp (if Nat.ltb ?a ?b then _ else _) _ _ _ =>
      destruct (Nat.ltb_spec a b); [|lia] end.
    apply wp_ret.
    split; [split; [|done]; rewrite length_overwrite; [done|rewrite length_app; simpl; lia]|].
    match goal with |- context [Z.of_nat ?k =? -1] => destruct (Z.eqb_spec (Z.of_nat k) (-1)); [lia|] end.
    split; [done|]. rewrite overwrite_0, <- app_assoc. simpl. rewrite nul_prefix_terminated.
    apply nul_prefix_is_Some, elem_of_app. right. by left.
  - by apply wp_report_system.
Qed.
(** An owner's [queue_open]: on success the attributes are those of the object
    and no error is pending. *)
Lemma wp_posix_open_owner `{!MallocOk} name p tr :
  p_error p = None ->
  wp (posix_open posix_fresh name QUEUE_FL_OWNER ErrVar) (fun o p' _ => match o with
    | Ok (true, q) => pq_attr q = MqAttr 10 1024 /\ p_error p' = None
    | Ok (false, q) => True
    | _ => False end) p tr.
Proof.
  intros Hp. unfold posix_open. change (HAS_FLAG QUEUE_FL_OWNER QUEUE_FL_OWNER) with true. cbv iota zeta.
  wp_step. wp_step. wp_step. wp_step. wp_step.
  { apply wp_report_generic; [done|]. done. }
  unfold posix_open_mq. change (HAS_FLAG QUEUE_FL_OWNER QUEUE_FL_OWNER) with true. cbv iota zeta.
  wp_step. wp_step. wp_step; [|by wp_steps].
  wp_step. wp_step. wp_step. wp_step. unfold set_generic_error.
  wp_step; [by apply wp_report_generic|by apply wp_report_system].
Qed.

(** Closing a queue without an error pointer always returns. *)
Lemma wp_close_quiet q p tr :
  wp (posix_close q ErrNull) (fun o p' _ => exists r, o = Ok r /\ p_error p' = p_error p) p tr.
Proof.
  assert (Hq : forall msg {A} (a : A) p1 tr1, p_error p1 = p_error p ->
    wp (set_system_error ErrNull msg ≫= fun _ => mret a)
      (fun o p' _ => exists r, o = Ok r /\ p_error p' = p_error p) p1 tr1).
  { intros msg A a p1 tr1 Hp1. unfold set_system_error, _error_set. wp_steps. eauto. }
  destruct q as [q|]; [|apply wp_ret; eauto]. unfold posix_close.
  destruct (negb (pq_mq q =? NOT_MQD_T)).
  - wp_step. wp_step. wp_step; [by apply Hq|]. simpl. wp_step; [|wp_step; eauto].
    wp_step. wp_step. wp_step; [by apply Hq|wp_step; eauto].
  - wp_step; [|wp_step; eauto]. wp_step. wp_step. wp_step; [by apply Hq|wp_step; eauto].
Qed.

(** An owner's queue has the limits of a new one. *)
#[export] Program Instance posix_owner `{HM : !MallocOk} `{MM : !MqMessages 1024}
  : OwnerContract posix_queue (RC := posix_source 1024) :=
  {| name_ok := fun _ => True; unopened := fun q => q = posix_fresh;
     owned := fun q => pq_attr q = MqAttr 10 1024 |}.
Next Obligation.
  intros HM MM p tr Hp. simpl. unfold posix_init, set_malloc_error, set_generic_error. wp_step. wp_step.
  wp_step; [by wp_step|]. apply wp_report_generic; [done|]. intros p' tr' -> _. by eexists.
Qed.
Next Obligation. intros HM MM q a v Hq. simpl in *. by subst q. Qed.
Next Obligation. intros HM MM q name p tr Hq _ Hp. simpl in *. subst q. by apply wp_posix_open_owner. Qed.
Next Obligation.
  intros HM MM q p tr Hq Hp. simpl in *. unfold posix_get_attribute. wp_step. rewrite Hq. simpl.
  split; [done|]. done.
Qed.
Next Obligation. intros HM MM q p tr. apply wp_close_quiet. Qed.
End PosixSource.

(** ** Witnesses *)

Definition linux : Platform := false.

(** A system where [strdup] fails, and one where the queue name exists already. *)
Definition env_no_strdup : Env := override (fun A _ c =>
  match c in sys A return option (A * Z) with Strdup _ => Some (false, 12) | _ => None end).

Definition env_queue_exists : Env := override (fun A _ c =>
  match c in sys A return option (A * Z) with Mq_open _ _ _ _ => Some (-1, 17) | _ => None end).

#[export] Instance env_no_strdup_malloc : MallocOk (EV := env_no_strdup).
Proof. intros tr n. by do 2 eexists. Qed.
#[export] Instance env_queue_exists_strdup : StrdupOk (EV := env_queue_exists).
Proof. intros tr s. by eexists. Qed.

Lemma posix_open_umask_witness :
  umask_of [Ev (Umask 18) 18; Ev (Mq_open "/banipd" (owner_oflag 2) MODE_0660 (MqAttr 10 1024)) 3;
            Ev (Strdup "/banipd") true; Ev (Umask 0) 18]
  = if HAS_FLAG 2 QUEUE_FL_OWNER then Some (fst (env_default _ [] (Umask 0))) else umask_of [].
Proof.
  refine (posix_open_umask (EV := env_default) (PL := linux) posix_fresh "/banipd" 2 ErrVar
            (Proc 0 None) [] (Ok (true, PosixQueue 3 (Some "/banipd") (MqAttr 10 1024)))
            (Proc 0 None) _ _).
  reflexivity.
Defined.

Lemma posix_open_umask_leak_witness :
  exists p' tr',
    posix_open (EV := env_no_strdup) (PL := linux) posix_fresh "/banipd" 2 ErrVar (Proc 0 None) []
    = (Ok (false, set_filename None posix_fresh), p', tr') /\ umask_of tr' = Some 0.
Proof.
  apply (posix_open_umask_leak (EV := env_no_strdup) (PL := linux)) with (old := 18) (e := 0) (e' := 12);
    try reflexivity. apply env_no_strdup_malloc.
Defined.

Lemma posix_open_owner_witness :
  exists prev e3,
    posix_open (EV := env_default) (PL := linux) posix_fresh "/banipd" 2 ErrVar (Proc 0 None) []
    = (Ok (true, PosixQueue 3 (Some "/banipd") (MqAttr 10 1024)), Proc e3 None,
       [Ev (Umask 18) prev; Ev (Mq_open "/banipd" (owner_oflag 2) MODE_0660 (MqAttr 10 1024)) 3;
        Ev (Strdup "/banipd") true; Ev (Umask 0) 18]).
Proof.
  apply (posix_open_owner (EV := env_default) (PL := linux) posix_fresh "/banipd" 2
           (Proc 0 None) [] 18 0 0 3 0); try reflexivity. apply env_default_malloc.
Defined.

Lemma posix_attribute_roundtrip_witness :
  QUEUE_ERR_OK = QUEUE_ERR_OK
  /\ posix_get_attribute (PosixQueue 3 (Some "/q") (MqAttr 10 4096))
       QUEUE_ATTR_MAX_MESSAGE_SIZE (Proc 0 None) [] = (Ok (QUEUE_ERR_OK, Some 4096), Proc 0 None, [])
  /\ posix_get_attribute (PosixQueue 3 (Some "/q") (MqAttr 10 4096))
       QUEUE_ATTR_MAX_MESSAGE_IN_QUEUE (Proc 0 None) []
     = posix_get_attribute (PosixQueue 3 (Some "/q") (MqAttr 10 1024))
       QUEUE_ATTR_MAX_MESSAGE_IN_QUEUE (Proc 0 None) [].
Proof.
  exact (posix_attribute_roundtrip (PosixQueue 3 (Some "/q") (MqAttr 10 1024))
           "/q" QUEUE_ATTR_MAX_MESSAGE_SIZE 4096 (Proc 0 None) [] eq_refl).
Defined.

Lemma posix_close_correct_witness :
  close_post (PosixQueue 3 (Some "/q") (MqAttr 10 1024)) [] (Ok (true, None)) (Proc 0 None)
    [Ev (Mq_unlink "/q") 0; Ev (Mq_close 3) 0].
Proof.
  apply (posix_close_correct (EV := env_default) (PosixQueue 3 (Some "/q") (MqAttr 10 1024))
           (Proc 0 None) []); reflexivity.
Defined.

Lemma posix_failed_owner_unlinks_witness :
  exists q' p' tr',
    posix_open (EV := env_queue_exists) (PL := linux) posix_fresh "/banipd" 2 ErrVar (Proc 0 None) []
    = (Ok (false, q'), p', tr')
    /\ posix_close (EV := env_queue_exists) (Some q') ErrNull p' tr'
       = (Ok (true, None), set_errno 0 p', Ev (Mq_unlink "/banipd") 0 :: tr').
Proof.
  do 3 eexists. split; [vm_compute; reflexivity|].
  refine (posix_failed_owner_unlinks (EV := env_queue_exists) (PL := linux)
    posix_fresh "/banipd" 2 (Proc 0 None) [] _ _ _ 0 _ _ _); vm_compute; reflexivity.
Defined.

Lemma posix_client_leaves_queue_witness :
  grows client_call [] [Ev (Mq_close 3) 0; Ev (Mq_getattr 3) (Some (MqAttr 10 1024));
    Ev (Mq_open "/banipd" O_WRONLY MODE_0660 (MqAttr 10 1024)) 3;
    Ev (Malloc SIZEOF_POSIX_QUEUE) (Some (replicate 80 "?"%char))].
Proof.
  refine (posix_client_leaves_queue (EV := env_default) (PL := linux) []
    (PosixQueue 3 None (MqAttr 10 1024)) ErrVar (Proc 0 None)
    [Ev (Mq_getattr 3) (Some (MqAttr 10 1024));
     Ev (Mq_open "/banipd" O_WRONLY MODE_0660 (MqAttr 10 1024)) 3;
     Ev (Malloc SIZEOF_POSIX_QUEUE) (Some (replicate 80 "?"%char))]
    (Ok (true, None)) (Proc 0 None) _ _ _).
  - apply (reach_open [] posix_fresh
      [Ev (Malloc SIZEOF_POSIX_QUEUE) (Some (replicate 80 "?"%char))]
      "/banipd" QUEUE_FL_SENDER ErrVar (Proc 0 None) true _ (Proc 0 None)); [|reflexivity|reflexivity].
    by apply (reach_init [] ErrVar (Proc 0 None) (Proc 0 None)).
  - reflexivity.
Defined.

Lemma posix_refines_fifo_witness :
  exists qs qr p' tr3 tr',
    impl_run (EV := env_kernel) (Q := posix_queue (EV := env_kernel) (PL := linux)) qs qr
      (replicate 1025 NUL) 1025
      [Fifo.Send "1.2.3.4"; Fifo.Send "10.0.0.0/8"; Fifo.Receive; Fifo.Receive] (Proc 0 None) tr3
    = (Ok [Fifo.Sent true; Fifo.Sent true; Fifo.Received "1.2.3.4"; Fifo.Received "10.0.0.0/8"],
       p', tr')
    /\ mq_queue tr' "/banipd" = Some (MqAttr 10 1024, []).
Proof.
  edestruct (posix_refines_fifo (EV := env_kernel) (PL := linux) "/banipd"
    [Fifo.Send "1.2.3.4"; Fifo.Send "10.0.0.0/8"; Fifo.Receive; Fifo.Receive])
    with (error := ErrVar) (error' := ErrVar) (po := Proc 0 None) (pc := Proc 0 None) (tr := @nil event)
    as (p' & tr' & Hrun & Hq).
  - vm_compute. reflexivity.
  - constructor.
  - vm_compute. reflexivity.
  - repeat constructor; vm_compute; congruence.
  - exact (Z.le_succ_diag_r 1024).
  - instantiate (1 := replicate 1025 NUL). rewrite length_replicate. lia.
  - vm_compute. reflexivity.
  - do 5 eexists. split; [exact Hrun|exact Hq].
Defined.
