(* ===== verification/SystemVSpec.v ===== *)
(** * Correctness of the System V queue

    The rendezvous of owner and clients on one [ftok] key, delivery of messages,
    the file creation mask, closing, and the contracts the
    implementation gives to its users: [QueueContract] to every caller,
    [ReceiveContract] and [OwnerContract] to the daemon. *)
From Stdlib Require Import ZArith Lia Ascii.
From S2P Require Import Prelude Os CError Scenario Strlcpy Queue Posix SystemV Kernel.
#[local] Set Default Goal Selector "!".

(** ** The contract of [queue.h] *)

Section Contract.
Context `{EV : !Env}.

#[export] Program Instance systemv_contract : QueueContract systemv_queue :=
  {| fresh := fun q => q = systemv_fresh |}.
Next Obligation.
  intros error p tr. simpl. unfold systemv_init. wp_step. wp_step. wp_step; [by wp_step|].
  apply (wp_report_none (A := systemv_queue_t)).
Qed.
Next Obligation. by intros q a v ->. Qed.
Next Obligation. done. Qed.
End Contract.

(** ** Messages *)

(** A queue after a successful [queue_open]: the text area has eight bytes per
    unit of [buffer_size]. *)
Definition opened (q : systemv_queue_t) : Prop :=
  0 <= sq_buffer_size q /\
  exists mtype area, sq_buffer q = Some (mtype, area)
                     /\ Z.of_nat (length area) = 8 * sq_buffer_size q.

(** What [queue_send] hands to [msgsnd]: always [buffer_size] bytes. *)
Definition sent_text (q : systemv_queue_t) (msg : string) : list ascii :=
  match sq_buffer q with
  | Some (_, area) => take (Z.to_nat (sq_buffer_size q)) (overwrite 0 (chars msg ++ [NUL]) area)
  | None => []
  end.

Definition sent_type (q : systemv_queue_t) : Z :=
  match sq_buffer q with Some (t, _) => t | None => 0 end.

Section Messages.
Context `{EV : !Env}.
Implicit Types (p : proc) (tr : trace).

Lemma strcpy_into_fits dst s p tr :
  (String.length s < length dst)%nat ->
  strcpy_into dst s p tr = (Ok (overwrite 0 (chars s ++ [NUL]) dst), p, tr).
Proof.
  intros Hs. unfold strcpy_into. destruct (Nat.ltb_spec (String.length s) (length dst)); [done|lia].
Qed.

Lemma systemv_send_run q msg len error p tr e :
  opened q -> strlen msg < 8 * sq_buffer_size q ->
  env_call _ tr (Msgsnd (sq_qid q) (sent_type q) (sent_text q msg)) = (0, e) ->
  exists q', systemv_send q msg len error p tr
             = (Ok (true, q'), set_errno e p,
                Ev (Msgsnd (sq_qid q) (sent_type q) (sent_text q msg)) 0 :: tr)
             /\ opened q' /\ sq_buffer_size q' = sq_buffer_size q /\ sent_type q' = sent_type q
             /\ sq_qid q' = sq_qid q.
Proof.
  intros (Hbs & mtype & area & Hb & Hl) Hlen. unfold sent_text, sent_type, systemv_send.
  rewrite Hb. intros Hsnd. unfold strlen in *.
  erewrite bind_Ok by (apply strcpy_into_fits; lia). cbv beta zeta. simpl sq_qid. simpl sq_buffer_size.
  rewrite (bind_syscall _ _ _ _ _ _ Hsnd). cbn. eexists. split; [done|]. split; [|done].
  split; [done|]. exists mtype, (overwrite 0 (chars msg ++ [NUL]) area). split; [done|].
  rewrite length_overwrite; [done|]. rewrite length_app, length_chars. simpl. lia.
Qed.

(** The receiver stores the text at the start of its area and copies the C
    string it finds there. *)
Lemma systemv_receive_run q buffer size mtype text s error p tr e t area :
  sq_buffer q = Some (t, area) -> (length text <= length area)%nat ->
  nul_prefix (text ++ drop (length text) area) = Some s ->
  (String.length s < length buffer)%nat ->
  env_call _ tr (Msgrcv (sq_qid q) size) = (Some (mtype, text), e) ->
  systemv_receive q buffer size error p tr
  = (Ok (Z.of_nat (length text), overwrite 0 (chars s ++ [NUL]) buffer,
         set_sq_buffer (Some (mtype, text ++ drop (length text) area)) q),
     set_errno e p, Ev (Msgrcv (sq_qid q) size) (Some (mtype, text)) :: tr).
Proof.
  intros Hb Hl Hs Hlen Hrcv. unfold systemv_receive.
  rewrite (bind_syscall _ _ _ _ _ _ Hrcv), Hb.
  destruct (Nat.leb_spec (length text) (length area)); [|lia]. cbv zeta.
  rewrite overwrite_0. unfold cstring. rewrite Hs, bind_ret.
  erewrite bind_Ok by by apply strcpy_into_fits. done.
Qed.

Lemma sent_text_short q msg mtype area :
  sq_buffer q = Some (mtype, area) -> Z.of_nat (length area) = 8 * sq_buffer_size q ->
  0 <= sq_buffer_size q -> strlen msg < sq_buffer_size q ->
  exists rest, sent_text q msg = chars msg ++ NUL :: rest
               /\ Z.of_nat (length (sent_text q msg)) = sq_buffer_size q.
Proof.
  intros Hb Hl Hbs Hlen. unfold sent_text. rewrite Hb, overwrite_0. unfold strlen in Hlen.
  assert (Hc : length (chars msg ++ [NUL]) = S (String.length msg))
    by (rewrite length_app, length_chars; simpl; lia).
  rewrite take_app_ge by lia. eexists. split; [by rewrite <- app_assoc|].
  rewrite length_app, length_take, length_drop. lia.
Qed.

Lemma sent_text_long q msg mtype area :
  sq_buffer q = Some (mtype, area) -> sq_buffer_size q <= strlen msg ->
  sent_text q msg = take (Z.to_nat (sq_buffer_size q)) (chars msg).
Proof.
  intros Hb Hlen. unfold sent_text, strlen in *. rewrite Hb, overwrite_0, <- app_assoc.
  apply take_app_le. rewrite length_chars. lia.
Qed.

(** A message shorter than [buffer_size] (an eighth of the capacity of the
    queue) is delivered intact.  [queue_send] returns [true] and hands the
    kernel [buffer_size] bytes whatever the length of the message; when the
    kernel gives these bytes to a receiver opened on a queue of the same
    capacity, [queue_receive] returns [buffer_size] and leaves exactly the
    message, terminated, in a buffer that is longer than it. *)
Theorem systemv_delivers qs qr msg len buffer size error p tr e p' tr' e' :
  str_all (fun c => negb (Ascii.eqb c NUL)) msg = true ->
  opened qs -> opened qr -> sq_buffer_size qs = sq_buffer_size qr ->
  strlen msg < sq_buffer_size qs -> (String.length msg < length buffer)%nat ->
  env_call _ tr (Msgsnd (sq_qid qs) (sent_type qs) (sent_text qs msg)) = (0, e) ->
  env_call _ tr' (Msgrcv (sq_qid qr) size) = (Some (sent_type qs, sent_text qs msg), e') ->
  (exists qs' p1 tr1, systemv_send qs msg len error p tr = (Ok (true, qs'), p1, tr1) /\ opened qs')
  /\ exists buffer' qr' p1 tr1,
       systemv_receive qr buffer size error p' tr'
       = (Ok (sq_buffer_size qr, buffer', qr'), p1, tr1)
       /\ nul_prefix buffer' = Some msg /\ length buffer' = length buffer /\ opened qr'.
Proof.
  intros Hnul Hos (Hbr & tr0 & ar & Hr & Hlr) Hsz Hlen Hbuf Hsnd Hrcv.
  pose proof (strlen_nonneg msg).
  split.
  { destruct (systemv_send_run qs msg len error p tr e Hos) as (q' & Hrun & Ho & _); [lia|done|].
    by do 3 eexists. }
  destruct Hos as (Hbs & ts & as_ & Hs & Hls).
  destruct (sent_text_short qs msg ts as_ Hs Hls Hbs Hlen) as (rest & Htext & Htl).
  do 4 eexists. split; [rewrite <- Hsz, <- Htl; eapply systemv_receive_run; eauto|].
  - lia.
  - rewrite Htext, <- app_assoc. by apply nul_prefix_chars.
  - split; [rewrite overwrite_0, <- app_assoc; by apply nul_prefix_chars|].
    split; [apply length_overwrite; rewrite length_app, length_chars; simpl; lia|].
    split; [done|]. do 2 eexists. split; [done|]. rewrite length_app, length_drop. simpl. lia.
Qed.

(** A longer message that still fits the text area is cut silently: [queue_send]
    returns [true] but hands over only the first [buffer_size] bytes, without
    the terminator, and the receiver appends whatever its own area holds after
    them. *)
Theorem systemv_truncates qs qr msg len buffer size error p tr e p' tr' e' stale :
  str_all (fun c => negb (Ascii.eqb c NUL)) msg = true ->
  opened qs -> opened qr -> sq_buffer_size qs = sq_buffer_size qr ->
  sq_buffer_size qs <= strlen msg < 8 * sq_buffer_size qs ->
  (forall t area, sq_buffer qr = Some (t, area) ->
     nul_prefix (drop (Z.to_nat (sq_buffer_size qr)) area) = Some stale) ->
  sq_buffer_size qr + strlen stale < Z.of_nat (length buffer) ->
  env_call _ tr (Msgsnd (sq_qid qs) (sent_type qs) (sent_text qs msg)) = (0, e) ->
  env_call _ tr' (Msgrcv (sq_qid qr) size) = (Some (sent_type qs, sent_text qs msg), e') ->
  (exists qs' p1 tr1, systemv_send qs msg len error p tr = (Ok (true, qs'), p1, tr1))
  /\ exists buffer' qr' p1 tr1,
       systemv_receive qr buffer size error p' tr'
       = (Ok (sq_buffer_size qr, buffer', qr'), p1, tr1)
       /\ nul_prefix buffer'
          = Some (of_chars (take (Z.to_nat (sq_buffer_size qr)) (chars msg)) +:+ stale).
Proof.
  intros Hnul Hos (Hbr & tr0 & ar & Hr & Hlr) Hsz Hlen Hst Hbuf Hsnd Hrcv.
  split.
  { destruct (systemv_send_run qs msg len error p tr e Hos) as (q' & Hrun & _); [lia|done|].
    by do 3 eexists. }
  destruct Hos as (Hbs & ts & as_ & Hs & Hls).
  pose proof (sent_text_long qs msg ts as_ Hs (proj1 Hlen)) as Htext.
  set (n := Z.to_nat (sq_buffer_size qr)) in *. rewrite Hsz in Htext. fold n in Htext.
  set (pre := of_chars (take n (chars msg))).
  assert (Hpre : sent_text qs msg = chars pre) by (unfold pre; by rewrite chars_of_chars).
  assert (Hpl : String.length pre = n).
  { rewrite <- length_chars, <- Hpre, Htext, length_take, length_chars. unfold strlen in *. lia. }
  assert (Htl : Z.of_nat (length (sent_text qs msg)) = sq_buffer_size qr)
    by (rewrite Hpre, length_chars; lia).
  specialize (Hst _ _ Hr). fold n in Hst. unfold strlen in Hbuf.
  assert (Hall : str_all (fun c => negb (Ascii.eqb c NUL)) (pre +:+ stale) = true).
  { rewrite str_all_app. unfold pre. rewrite str_all_take by done.
    by rewrite (nul_prefix_nul_free _ _ Hst). }
  do 4 eexists. split; [rewrite <- Htl; eapply systemv_receive_run; eauto|].
  - lia.
  - rewrite Hpre, length_chars, Hpl, nul_prefix_app by (unfold pre; by apply str_all_take).
    by rewrite Hst.
  - rewrite length_append. lia.
  - rewrite overwrite_0, <- app_assoc. by apply nul_prefix_chars.
Qed.
End Messages.

(** ** Opening *)

(** The identifier [queue_open] writes for a name without colon. *)
Definition default_id : Z := code "b".

(** The sizes the kernel reports are unsigned. *)
Class StatOk `{EV : !Env} : Prop :=
  stat_ok : forall tr qid n e, env_call _ tr (Msgctl_stat qid) = (Some n, e) -> 0 <= n.

(** Where the owner of [name] and its clients meet: the file holds the identifier, and
    the key [ftok] makes of both is that of the queue [qid]. *)
Definition meets (name : string) (qid : Z) (tr : trace) : Prop :=
  int_file tr name = Some default_id
  /\ exists key, key <> -1 /\ ftok_of tr name default_id = Some key /\ sv_key tr key = Some qid.

Lemma meets_calm name qid tr tr' : grows calm tr tr' -> meets name qid tr -> meets name qid tr'.
Proof.
  intros Hg (Hf & key & Hk & Ht & Hq). destruct (calm_files _ _ Hg) as (Ei & Ef & Ek).
  split; [by rewrite Ei|]. exists key. by rewrite Ef, Ek.
Qed.

Section Opening.
Context `{EV : !Env}.
Implicit Types (p : proc) (tr : trace).

Lemma filename_array_run (Q : outcome (list ascii) -> proc -> trace -> Prop) p tr :
  (forall l junk e, length l = Z.to_nat MAXPATHLEN ->
     Q (Ok l) (set_errno e p) (Ev (Uninit MAXPATHLEN) junk :: tr)) ->
  wp filename_array Q p tr.
Proof.
  intros HQ. unfold filename_array. wp_step. apply wp_syscall. intros r e _.
  apply wp_ret, HQ. apply length_resize.
Qed.

Lemma wp_copy_name name filename Q p tr :
  str_all (fun c => negb (Ascii.eqb c NUL)) name = true ->
  length filename = Z.to_nat MAXPATHLEN ->
  (MAXPATHLEN <= strlen name -> Q (Ok None) p tr) ->
  (forall f, strlen name < MAXPATHLEN -> nul_prefix f = Some name -> Q (Ok (Some f)) p tr) ->
  wp (copy_name name filename) Q p tr.
Proof.
  intros Hname Hl Hno Hyes. unfold copy_name.
  rewrite (strlcpy_correct filename name []) by (done || lia).
  apply wp_ret. destruct (MAXPATHLEN <=? strlen name) eqn:E; bools; [auto|].
  apply Hyes; [done|]. rewrite strlcpy_result_reads by (done || (rewrite Hl; vm_compute; lia)).
  f_equal. rewrite take_ge; [apply of_chars_chars|].
  rewrite length_chars. unfold strlen, MAXPATHLEN in *. lia.
Qed.

Lemma wp_cstring l s Q p tr :
  nul_prefix l = Some s -> Q (Ok s) p tr -> wp (cstring l) Q p tr.
Proof. intros Hl HQ. unfold cstring. by rewrite Hl. Qed.

(** What the file part gives: the name and the identifier, or one error. *)
Definition file_post (name : string) (I : trace -> Prop) (o : outcome (option (string * Z))) p' tr'
  : Prop :=
  match o with
  | Ok (Some r) => r = (name, default_id) /\ p_error p' = None /\ I tr'
  | Ok None => is_Some (p_error p')
  | _ => False
  end.

Ltac file_error :=
  (apply wp_report_generic || apply wp_report_system); [done|]; intros; first [done | by eexists].

(** The owner leaves the identifier in the file. *)
Lemma wp_create_file `{!MallocOk} name p tr :
  str_all (fun c => negb (Ascii.eqb c NUL)) name = true -> strchr_split ":" name = None ->
  p_error p = None ->
  wp (systemv_create_file name ErrVar)
    (file_post name (fun tr' => int_file tr' name = Some default_id)) p tr.
Proof.
  intros Hname Hcolon Hp. unfold systemv_create_file, overflow_error, set_buffer_overflow_error,
    set_generic_error, file_post.
  wp_step. apply filename_array_run. intros l junk e Hl. rewrite Hcolon.
  wp_step. wp_step. apply wp_copy_name; [done..| |]; intros; wp_step.
  { file_error. }
  wp_step. eapply wp_cstring; [done|]. wp_step. wp_step. wp_step; [|file_error].
  wp_step. wp_step. wp_step; [file_error|]. bools. subst.
  wp_steps. split; [done|]. split; [done|].
  cbn [int_file stream_of written]. by rewrite !Z.eqb_refl, !String.eqb_refl.
Qed.

(** A client reads it; the file, its key and the queues stay. *)
Lemma wp_read_file `{!MallocOk} `{!FileKernel} name p tr :
  str_all (fun c => negb (Ascii.eqb c NUL)) name = true -> p_error p = None ->
  int_file tr name = Some default_id ->
  wp (systemv_read_file name ErrVar) (file_post name (fun tr' =>
    (forall qid, meets name qid tr -> meets name qid tr')
    /\ forall qid, sv_queue tr' qid = sv_queue tr qid)) p tr.
Proof.
  intros Hname Hp Hid. unfold systemv_read_file, overflow_error, set_buffer_overflow_error,
    set_generic_error, file_post.
  wp_step. apply filename_array_run. intros l junk e Hl.
  wp_step. apply wp_copy_name; [done..| |]; intros.
  { file_error. }
  wp_step. eapply wp_cstring; [done|]. wp_step. wp_step. wp_step; [|file_error].
  apply wp_bind, wp_syscall. intros got ? Hread.
  match type of Hread with env_call _ ?t (Fread_int ?f) = _ =>
    destruct (fread_ok t f name default_id) as [? Hr] end.
  { cbn [stream_of]. by rewrite Z.eqb_refl. }
  { cbn [int_file]. by rewrite String.eqb_refl. }
  rewrite Hr in Hread. injection Hread as <- _.
  wp_steps. split; [done|]. split; [done|]. split; [|done]. intros qid (_ & key & Hk & Ht & Hq).
  split; [cbn [int_file stream_of written]; by rewrite !Z.eqb_refl, !String.eqb_refl|].
  exists key. cbn [ftok_of sv_key]. by rewrite String.eqb_refl.
Qed.

(** What [systemv_attach] gives: the object for the queue, sized by what the kernel
    reports of it. *)
Definition attached (q : systemv_queue_t) tr (o : outcome (bool * systemv_queue_t)) p' tr' : Prop :=
  match o with
  | Ok (true, q') => p_error p' = None /\ sq_qid q' = sq_qid q /\ sq_qid q <> -1
      /\ sq_filename q' = sq_filename q /\ opened q' /\ sent_type q' = 1
      /\ (exists n e, env_call _ tr (Msgctl_stat (sq_qid q)) = (Some n, e) /\ sq_buffer_size q' = n / 8)
      /\ grows idle tr tr'
  | Ok (false, _) => is_Some (p_error p')
  | _ => False
  end.

Lemma wp_attach `{!MallocOk} `{!StatOk} q p tr :
  p_error p = None -> wp (systemv_attach q ErrVar) (attached q tr) p tr.
Proof.
  intros Hp. unfold systemv_attach, set_malloc_error, set_generic_error.
  wp_step; [file_error|]. bools. apply wp_bind, wp_syscall. intros [n|] e Hn; cbv beta iota; [|file_error].
  pose proof (stat_ok _ _ _ _ Hn) as Hpos. pose proof (Z.div_pos n 8 Hpos ltac:(lia)).
  wp_step. wp_step. wp_step; [|file_error]. wp_step.
  split_and!; try done.
  - split; [done|]. do 2 eexists. split; [done|]. simpl. rewrite length_resize. unfold SIZEOF_LONG, SIZEOF_POINTER. lia.
  - eauto.
  - by repeat constructor; simpl; try tauto; intros [].
Qed.

(** What an owner that opens a name gives: an empty queue to which the name leads, or
    one error. *)
Definition owner_post (name : string) (o : outcome (bool * systemv_queue_t)) p' tr' : Prop :=
  match o with
  | Ok (true, q') => p_error p' = None /\ opened q' /\ sent_type q' = 1 /\ sq_filename q' = Some name
      /\ meets name (sq_qid q') tr' /\ sv_queue tr' (sq_qid q') = Some []
      /\ exists tr1 n e, sv_queue tr1 (sq_qid q') = Some []
           /\ env_call _ tr1 (Msgctl_stat (sq_qid q')) = (Some n, e) /\ sq_buffer_size q' = n / 8
  | Ok (false, _) => is_Some (p_error p')
  | _ => False
  end.

Lemma wp_owner_opens `{!MallocOk} `{!StatOk} q name p tr :
  str_all (fun c => negb (Ascii.eqb c NUL)) name = true -> strchr_split ":" name = None ->
  p_error p = None ->
  wp (systemv_open q name QUEUE_FL_OWNER ErrVar) (owner_post name) p tr.
Proof.
  intros Hname Hcolon Hp. unfold systemv_open, set_generic_error.
  change (HAS_FLAG QUEUE_FL_OWNER QUEUE_FL_OWNER) with true. cbv iota zeta.
  apply wp_bind. eapply wp_mono; [|by apply wp_create_file].
  intros [[[f id]|]| | |] p1 tr1 Ho; try done. destruct Ho as ([= -> ->] & Hp1 & Hf).
  apply wp_bind, wp_syscall. intros key e1 _. cbv beta iota. destruct (key =? -1) eqn:Ek; [file_error|].
  wp_step. wp_step. wp_step; [file_error|]. wp_step. wp_step.
  apply wp_bind, wp_syscall. intros qid e2 _. cbv beta iota. wp_step. wp_step.
  match goal with |- wp _ _ _ ?t => set (tr2 := t) end.
  eapply wp_mono; [|by apply wp_attach].
  intros [[[|] q']|?| |?] p3 tr3 Ho; try done.
  destruct Ho as (Hp3 & Hqid & Hne & Hfn & Hop & Hty & (n & e9 & Hn & Hsz) & Hg).
  cbn [sq_qid set_qid] in *. cbn [sq_filename set_qid set_sq_filename] in Hfn.
  assert (Hsv : sv_queue tr2 qid = Some []).
  { unfold tr2. cbn [sv_queue]. by rewrite Z.eqb_refl, (proj2 (Z.eqb_neq _ _) Hne). }
  pose proof (idle_calm _ _ Hg) as Hg1.
  pose proof (idle_no_queue _ _ Hg) as Hg2.
  unfold owner_post. rewrite Hqid. split_and!; try done.
  - apply (meets_calm _ _ _ _ Hg1). split; [done|]. apply Z.eqb_neq in Ek as Ek'. exists key.
    split; [done|]. unfold tr2. cbn [ftok_of sv_key].
    by rewrite !String.eqb_refl, !Z.eqb_refl, Ek, (proj2 (Z.eqb_neq _ _) Hne).
  - by rewrite (sv_queue_other _ _ _ Hg2).
  - by exists tr2, n, e9.
Qed.

(** What a client gives that opens the name of the queue [qid]. *)
Definition client_post (name : string) (q : systemv_queue_t) (qid : Z) tr
    (o : outcome (bool * systemv_queue_t)) p' tr' : Prop :=
  match o with
  | Ok (true, q') => p_error p' = None /\ opened q' /\ sent_type q' = 1
      /\ sq_filename q' = sq_filename q /\ sq_qid q' = qid
      /\ meets name qid tr' /\ (forall i, sv_queue tr' i = sv_queue tr i)
      /\ exists tr1 n e, sv_queue tr1 qid = sv_queue tr qid
           /\ env_call _ tr1 (Msgctl_stat qid) = (Some n, e) /\ sq_buffer_size q' = n / 8
  | Ok (false, _) => is_Some (p_error p')
  | _ => False
  end.

Lemma wp_client_attaches `{!MallocOk} `{!StatOk} n msgmax `{!SvKernel n msgmax} `{!FileKernel}
    q name flags qid p tr :
  str_all (fun c => negb (Ascii.eqb c NUL)) name = true -> HAS_FLAG flags QUEUE_FL_OWNER = false ->
  p_error p = None -> meets name qid tr ->
  wp (systemv_open q name flags ErrVar) (client_post name q qid tr) p tr.
Proof.
  intros Hname Hfl Hp Hmeet. unfold systemv_open, set_generic_error. rewrite Hfl. cbv iota zeta.
  apply wp_bind. eapply wp_mono; [|by apply wp_read_file; [| |apply Hmeet]].
  intros [[[f id]|]| | |] p1 tr1 Ho; try done. destruct Ho as ([= -> ->] & Hp1 & Hkeep & Hsv).
  specialize (Hkeep _ Hmeet). pose proof Hkeep as (_ & key & Hk & Hft & Hkey).
  destruct (ftok_same tr1 name default_id key Hft) as [e1 Hcall1].
  apply wp_bind, wp_syscall. intros key' ? Hc. rewrite Hcall1 in Hc. injection Hc as <- _. cbv beta iota.
  rewrite (proj2 (Z.eqb_neq _ _) Hk). set (tr2 := Ev (Ftok name default_id) key :: tr1).
  destruct (msgget_same tr2 key qid MODE_SYSV Hkey eq_refl) as [e2 Hcall2].
  apply wp_bind, wp_syscall. intros qid' ? Hc. fold tr2 in Hc |- *. rewrite Hcall2 in Hc.
  injection Hc as <- _. cbv beta iota. set (tr3 := Ev (Msgget key MODE_SYSV) qid :: tr2).
  eapply wp_mono; [|by apply wp_attach].
  intros [[[|] q']|?| |?] p3 tr4 Ho; try done.
  destruct Ho as (Hp3 & Hqid & Hne & Hfn & Hop & Hty & (m & e9 & Hm & Hsz) & Hg).
  cbn [sq_qid set_qid sq_filename] in *.
  assert (Hsv3 : forall i, sv_queue tr3 i = sv_queue tr i).
  { intros i. unfold tr3, tr2. cbn [sv_queue]. change (HAS_FLAG MODE_SYSV IPC_CREAT) with false.
    by rewrite andb_false_r. }
  pose proof (idle_calm _ _ Hg) as Hg1.
  pose proof (idle_no_queue _ _ Hg) as Hg2.
  split_and!; try done.
  - apply (meets_calm _ _ _ _ Hg1). destruct Hkeep as (Hi & _). split; [done|]. exists key.
    split; [done|]. unfold tr3, tr2. cbn [ftok_of sv_key].
    rewrite String.eqb_refl, Z.eqb_refl, (proj2 (Z.eqb_neq _ _) Hk).
    change (HAS_FLAG MODE_SYSV IPC_CREAT) with false. by rewrite andb_false_r.
  - intros i. by rewrite (sv_queue_other _ _ _ Hg2), Hsv3.
  - by exists tr3, m, e9.
Qed.

(** C23: owner and clients of a name without colon meet at one kernel queue.  When the
    owner's [queue_open] succeeds, the queue is new and empty; a client that opens
    the same name later, as long as nobody touches files or creates or removes queues
    in between, gets the identifier of that very queue, on a kernel whose files, keys
    and queues behave as documented (what was written is read, [ftok] and [msgget]
    agree).  Either call may fail instead, with one error reported, and on no answer
    of the other calls is there undefined behaviour while [malloc] succeeds. *)
Theorem systemv_rendezvous `{!MallocOk} `{!StatOk} n msgmax `{!SvKernel n msgmax} `{!FileKernel}
    name flags po tr o po' tr1 tr2 pc o' pc' tr3 :
  str_all (fun c => negb (Ascii.eqb c NUL)) name = true -> strchr_split ":" name = None ->
  p_error po = None -> p_error pc = None -> HAS_FLAG flags QUEUE_FL_OWNER = false ->
  systemv_open systemv_fresh name QUEUE_FL_OWNER ErrVar po tr = (o, po', tr1) ->
  grows calm tr1 tr2 ->
  systemv_open systemv_fresh name flags ErrVar pc tr2 = (o', pc', tr3) ->
  owner_post name o po' tr1
  /\ forall qo, o = Ok (true, qo) ->
     match o' with
     | Ok (true, qc) => p_error pc' = None /\ opened qc /\ sq_filename qc = None
                        /\ sq_qid qc = sq_qid qo
     | Ok (false, _) => is_Some (p_error pc')
     | _ => False
     end.
Proof.
  intros Hname Hcolon Hpo Hpc Hfl Ho Hg Hc.
  pose proof (wp_run _ _ _ _ _ _ _ (wp_owner_opens systemv_fresh name po tr Hname Hcolon Hpo) Ho) as Hown.
  split; [done|]. intros qo ->. destruct Hown as (_ & _ & _ & _ & Hmeet & _).
  apply (meets_calm _ _ _ _ Hg) in Hmeet.
  pose proof (wp_run _ _ _ _ _ _ _ (wp_client_attaches n msgmax systemv_fresh name flags _ pc tr2
    Hname Hfl Hpc Hmeet) Hc) as Hcl.
  destruct o' as [[[|] qc]|?| |?]; try done. destruct Hcl as (? & ? & _ & ? & ? & _). done.
Qed.

(** The test on [fread] never fires: when the identifier cannot be read from
    the file, [queue_open] reports nothing and goes on to [ftok] with the
    indeterminate value of the variable. *)
Theorem systemv_fread_unchecked name p tr junk fp e e' e'' id e3 e4 :
  str_all (fun c => negb (Ascii.eqb c NUL)) name = true -> strlen name < MAXPATHLEN ->
  env_call _ tr (Uninit MAXPATHLEN) = (junk, e) ->
  let tr1 := Ev (Uninit MAXPATHLEN) junk :: tr in
  env_call _ tr1 (Fopen name "r") = (Some fp, e') ->
  let tr2 := Ev (Fopen name "r") (Some fp) :: tr1 in
  env_call _ tr2 (Fread_int fp) = (None, e'') ->
  let tr3 := Ev (Fread_int fp) None :: tr2 in
  env_call _ tr3 UninitInt = (id, e3) ->
  let tr4 := Ev UninitInt id :: tr3 in
  env_call _ tr4 (Fclose fp) = (tt, e4) ->
  systemv_read_file name ErrVar p tr
  = (Ok (Some (name, id)), set_errno e4 p, Ev (Fclose fp) tt :: tr4).
Proof.
  intros Hname Hlen Hu tr1 Ho tr2 Hf tr3 Hi tr4 Hc.
  apply (wp_result _ (fun res => res = _)). unfold systemv_read_file, filename_array.
  wp_step. wp_step. wp_step. rewrite Hu in Hcall. injection Hcall as <- <-. wp_step.
  wp_step. apply wp_copy_name; [done|apply length_resize|lia|]. intros f _ Hnul.
  wp_step. eapply wp_cstring; [done|].
  wp_step. wp_step. unfold tr1 in Ho. rewrite Ho in Hcall. injection Hcall as <- <-. cbv beta iota.
  wp_step. wp_step. unfold tr2, tr1 in Hf. rewrite Hf in Hcall. injection Hcall as <- <-.
  wp_step. wp_step. unfold tr3, tr2, tr1 in Hi. rewrite Hi in Hcall. injection Hcall as <- <-.
  cbn. wp_step. wp_step. unfold tr4, tr3, tr2, tr1 in Hc. rewrite Hc in Hcall.
  injection Hcall as <- <-. by wp_step.
Qed.

(** In a name [path:id] the copy of [path] is not terminated: the file an
    owner creates is [path] followed by whatever the stack holds behind it. *)
Theorem systemv_colon_unterminated path c rest p tr junk e tail f id p' tr' :
  str_all (fun d => negb (Ascii.eqb ":" d)) path = true ->
  str_all (fun c => negb (Ascii.eqb c NUL)) path = true ->
  env_call _ tr (Uninit MAXPATHLEN) = (junk, e) -> length junk = Z.to_nat MAXPATHLEN ->
  nul_prefix (drop (String.length path) junk) = Some tail ->
  systemv_create_file (path +:+ String ":" (String c rest)) ErrVar p tr
    = (Ok (Some (f, id)), p', tr') ->
  f = path +:+ tail /\ id = char_to_int c.
Proof.
  intros Hcolon Hnul Hu Hl Htail Hrun.
  refine (wp_run _ (fun o _ _ => match o with
    | Ok (Some (f, id)) => f = path +:+ tail /\ id = char_to_int c | _ => True end) _ _ _ _ _ _ Hrun).
  unfold systemv_create_file, filename_array, overflow_error, set_buffer_overflow_error,
    set_generic_error. rewrite strchr_split_app by done.
  wp_step. wp_step. wp_step. rewrite Hu in Hcall. injection Hcall as <- <-. wp_step.
  wp_step. wp_step; wp_step.
  { apply wp_bind, wp_error_set_any. by intros ? ? ? _ [->|[u ->]]. }
  wp_step. apply wp_cstring with (s := path +:+ tail).
  { rewrite <- Hl, resize_all, overwrite_0, length_chars, nul_prefix_app by done. by rewrite Htail. }
  wp_step. wp_step. wp_step.
  - wp_step. wp_step. wp_step; [|by wp_steps].
    apply wp_bind, wp_system_error_any. by intros ? ? ? _ [->|[u ->]].
  - apply wp_bind, wp_system_error_any. by intros ? ? ? _ [->|[u ->]].
Qed.

(** ** The file creation mask *)

Lemma wp_file_umask name error p tr m :
  umask_of tr = m ->
  wp (systemv_create_file name error) (fun _ _ tr' => umask_of tr' = m) p tr
  /\ wp (systemv_read_file name error) (fun _ _ tr' => umask_of tr' = m) p tr.
Proof.
  intros Hm. unfold systemv_create_file, systemv_read_file, filename_array, copy_name, cstring,
    overflow_error, set_buffer_overflow_error, set_generic_error.
  split; repeat (apply wp_report_umask || apply wp_report_generic_umask || wp_step); done.
Qed.

(** The mask is untouched, or it was set to what [umask(0)] returned. *)
Definition umask_kept (tr tr' : trace) : Prop :=
  umask_of tr' = umask_of tr \/
  exists tr1 old e, env_call _ tr1 (Umask 0) = (old, e) /\ umask_of tr1 = umask_of tr
                    /\ umask_of tr' = Some old.

Lemma wp_attach_umask q error p tr m :
  umask_of tr = m -> wp (systemv_attach q error) (fun _ _ tr' => umask_of tr' = m) p tr.
Proof.
  intros Hm. unfold systemv_attach, set_malloc_error, set_generic_error.
  repeat (apply wp_report_umask || apply wp_report_generic_umask || wp_step); done.
Qed.

(** [queue_open] leaves the file creation mask as it found it, on success and
    on every failure. *)
Theorem systemv_open_umask q name flags error p tr o p' tr' :
  systemv_open q name flags error p tr = (o, p', tr') -> umask_kept tr tr'.
Proof.
  intros Hrun. refine (wp_run _ (fun _ _ tr' => umask_kept tr tr') _ _ _ _ _ _ Hrun).
  unfold systemv_open, set_generic_error. wp_step.
  destruct (wp_file_umask name error p tr _ eq_refl) as [Hc Hr].
  assert (Hfile : wp (if HAS_FLAG flags QUEUE_FL_OWNER then systemv_create_file name error
    else systemv_read_file name error) (fun _ _ tr' => umask_of tr' = umask_of tr) p tr)
    by by destruct (HAS_FLAG flags QUEUE_FL_OWNER).
  revert Hfile. apply wp_mono. intros [[[f id]|]| | |] p1 tr1 Hm; try by left.
  wp_step. wp_step. wp_step.
  { eapply wp_mono; [|by apply wp_report_generic_umask]. intros. by left; congruence. }
  destruct (HAS_FLAG flags QUEUE_FL_OWNER).
  - wp_step. wp_step. wp_step.
    { eapply wp_mono; [|by apply wp_report_generic_umask]. intros. by left; congruence. }
    wp_steps. eapply wp_mono; [|by apply wp_attach_umask]. intros o2 p2 tr2 Hm2. right.
    do 3 eexists. split; [exact Hcall1|]. split; [done|]. done.
  - wp_steps. eapply wp_mono; [|by apply wp_attach_umask]. intros. left; congruence.
Qed.
End Opening.

(** ** Closing *)

(** The calls that remove the queue of an owner: the kernel object, if there is
    one, then the file; latest first. *)
Definition removal (q : systemv_queue_t) (name : string) : trace :=
  Ev (Unlink name) 0 :: if sq_qid q =? -1 then [] else [Ev (Msgctl_rmid (sq_qid q)) 0].

Definition systemv_close_post (q : systemv_queue_t) tr (o : outcome (bool * option systemv_queue_t))
    p' tr' : Prop :=
  match o with
  | Ok (true, None) =>
      tr' = match sq_filename q with Some name => removal q name | None => [] end ++ tr
      /\ p_error p' = None
  | Ok (false, Some q') =>
      is_Some (p_error p') /\ is_Some (sq_filename q) /\ (q' = q \/ q' = set_qid (-1) q)
  | _ => False
  end.

Section Closing.
Context `{EV : !Env}.
Implicit Types (p : proc) (tr : trace).

(** C33: [queue_close] on an existing queue, on every answer of the system: a
    process that does not hold the name of the queue makes no call at all; an
    owner removes the kernel queue and then the file; when a step fails the
    object stays, an error is reported, and what was already removed is not
    removed again by the next call. *)
Theorem systemv_close_correct `{!MallocOk} q p tr o p' tr' :
  p_error p = None ->
  systemv_close (Some q) ErrVar p tr = (o, p', tr') -> systemv_close_post q tr o p' tr'.
Proof.
  intros Hp Hrun. refine (wp_run _ (systemv_close_post q tr) _ _ _ _ _ _ Hrun). clear Hrun.
  unfold systemv_close, systemv_close_post, removal.
  destruct (sq_filename q) as [name|] eqn:Hf; [|by wp_step].
  destruct (sq_qid q =? -1) eqn:Hq; cbn [negb].
  - wp_step. wp_step. wp_step.
    + apply wp_report_system; [done|]. intros. eauto.
    + wp_step. bools. by subst.
  - wp_step. wp_step. wp_step.
    + apply wp_report_system; [done|]. intros. eauto.
    + wp_step. wp_step. wp_step.
      * apply wp_report_system; [done|]. intros. eauto.
      * wp_step. bools. by subst.
Qed.
End Closing.

(** ** The queue of a daemon *)

(** The kernel reports the same size for the queue every time. *)
Class StatIs `{EV : !Env} (n : Z) : Prop :=
  stat_is : forall tr qid m e, env_call _ tr (Msgctl_stat qid) = (Some m, e) -> m = n.

(** The kernel gives no message larger than the text area for queues of size [n],
    and the senders terminate their messages. *)
Class SvMessages `{EV : !Env} (n : Z) : Prop :=
  sv_messages : forall tr qid size mtype text e,
    env_call _ tr (Msgrcv qid size) = (Some (mtype, text), e) ->
    Z.of_nat (length text) <= 8 * (n / 8) /\ is_Some (nul_prefix text).

Section SystemVSource.
Context `{EV : !Env}.

#[export] Program Instance systemv_source `{!MallocOk} n `{!SvMessages n}
  : ReceiveContract systemv_queue :=
  {| ready := fun q buffer _ => 8 * (n / 8) < Z.of_nat (length buffer) /\
       exists t area, sq_buffer q = Some (t, area) /\ Z.of_nat (length area) = 8 * (n / 8) |}.
Next Obligation.
  intros HM n HS q buffer size p tr (Hlen & t & area & Hb & Hl) Hp.
  change (queue_receive q buffer size ErrVar) with (systemv_receive q buffer size ErrVar).
  destruct (env_call _ tr (Msgrcv (sq_qid q) size)) as [[[mtype text]|] e] eqn:Hrcv.
  - destruct (sv_messages _ _ _ _ _ _ Hrcv) as (Htext & s & Hs).
    pose proof (nul_prefix_more text (drop (length text) area) s Hs) as Hpre.
    pose proof (nul_prefix_length text s Hs) as Hsl.
    unfold wp. rewrite (systemv_receive_run q buffer size mtype text s ErrVar p tr e t area) by (done || lia).
    split.
    + rewrite length_overwrite by (rewrite length_app, length_chars; simpl; lia).
      split; [done|]. do 2 eexists. split; [done|]. rewrite length_app, length_drop. lia.
    + rewrite (proj2 (Z.eqb_neq _ _)) by lia. split; [done|]. exists s.
      rewrite overwrite_0, <-app_assoc. apply nul_prefix_chars. by eapply nul_prefix_nul_free.
  - unfold systemv_receive. apply wp_bind, wp_syscall. intros r e' Hr. rewrite Hrcv in Hr.
    injection Hr as <- <-. cbv beta iota. apply wp_report_system; [done|]. intros p' tr' He _.
    split; [|done]. eauto 6.
Qed.

(** Closing without an error pointer always returns. *)
Lemma wp_systemv_close_quiet q p tr :
  wp (systemv_close q ErrNull) (fun o p' _ => exists r, o = Ok r /\ p_error p' = p_error p) p tr.
Proof.
  assert (Hq : forall msg {A} (a : A) p1 tr1, p_error p1 = p_error p ->
    wp (set_system_error ErrNull msg ≫= fun _ => mret a)
      (fun o p' _ => exists r, o = Ok r /\ p_error p' = p_error p) p1 tr1).
  { intros msg A a p1 tr1 Hp1. unfold set_system_error, _error_set. wp_steps. eauto. }
  destruct q as [q|]; [|apply wp_ret; eauto]. unfold systemv_close.
  destruct (sq_filename q) as [name|]; [|apply wp_ret; eauto].
  destruct (negb (sq_qid q =? -1)).
  - wp_step. wp_step. wp_step; [by apply Hq|]. wp_step. wp_step. wp_step; [by apply Hq|wp_step; eauto].
  - wp_step. wp_step. wp_step; [by apply Hq|wp_step; eauto].
Qed.

#[export] Program Instance systemv_owner `{HM : !MallocOk} n `{HS : !SvMessages n}
    `{HN : !StatIs n} (Hn : 0 <= n < 2 ^ 64 - 1)
  : OwnerContract systemv_queue (RC := systemv_source n) :=
  {| name_ok := fun name => str_all (fun c => negb (Ascii.eqb c NUL)) name = true
                            /\ strchr_split ":" name = None;
     unopened := fun q => q = systemv_fresh;
     owned := fun q => opened q /\ sq_buffer_size q = n / 8 |}.
Next Obligation.
  intros HM n HS HN Hn p tr Hp. simpl. unfold systemv_init, set_malloc_error, set_generic_error.
  wp_step. wp_step. wp_step; [by wp_step|]. apply wp_report_generic; [done|]. intros p' tr' -> _. by eexists.
Qed.
Next Obligation. intros HM n HS HN Hn q a v Hq. simpl in *. by subst q. Qed.
Next Obligation.
  intros HM n HS HN Hn q name p tr _ [Hname Hcolon] Hp. simpl in *.
  assert (HO : StatOk) by (intros tr' qid m e Hm; apply stat_is in Hm; lia).
  eapply wp_mono; [|by apply wp_owner_opens].
  intros [[[|] q']|?| |?] p' tr' Ho; try done.
  destruct Ho as (Hp' & Hop & _ & _ & _ & _ & tr1 & m & e & _ & Hm & Hsize).
  apply stat_is in Hm as ->. done.
Qed.
Next Obligation.
  intros HM n HS HN Hn q p tr [(_ & t & area & Hb & Hl) Hsize] Hp. simpl in *.
  unfold systemv_get_attribute. apply wp_bind, wp_syscall. intros [m|] e Hm; cbv beta iota; [|by apply wp_ret].
  apply stat_is in Hm as ->. apply wp_ret. split; [done|]. cbv zeta. intros buffer Hbuf.
  rewrite Z.mod_small in Hbuf by lia. pose proof (Z.mul_div_le n 8 ltac:(lia)).
  split; [lia|]. exists t, area. split; [done|]. lia.
Qed.
Next Obligation. intros HM n HS HN Hn q p tr. apply wp_systemv_close_quiet. Qed.
End SystemVSource.

(** ** Witnesses *)

#[export] Instance env_default_stat : StatOk (EV := env_default).
Proof. intros tr qid n e [= <- <-]. lia. Qed.
#[export] Instance env_kernel_stat : StatOk (EV := env_kernel).
Proof.
  intros tr qid n e. unfold env_call, env_kernel, override, kernel_answer.
  destruct (sv_queue tr qid); intros [= <- _]. lia.
Qed.

(** A queue of eight bytes of capacity per message, as [queue_open] leaves it. *)
Definition small_queue (area : list ascii) : systemv_queue_t :=
  SystemVQueue 5 (Some (1, area)) None 8.

(** A system that delivers the text [text]. *)
Definition env_delivers (text : list ascii) : Env := override (fun A _ c =>
  match c in sys A return option (A * Z) with
  | Msgrcv _ _ => Some (Some (1, text), 0)
  | _ => None
  end).

Lemma small_queue_opened area : length area = 64%nat -> opened (small_queue area).
Proof. intros Hl. split; [done|]. exists 1, area. split; [done|]. simpl. by rewrite Hl. Qed.

Definition marks (c : ascii) : list ascii := replicate 63 c ++ [NUL].

Lemma systemv_delivers_witness :
  let E := env_delivers (sent_text (small_queue (marks "?")) "1.2.3.4") in
  exists buffer' qr' p1 tr1,
    systemv_receive (EV := E) (small_queue (marks "!")) (replicate 65 NUL) 65 ErrVar (Proc 0 None) []
    = (Ok (8, buffer', qr'), p1, tr1)
    /\ nul_prefix buffer' = Some "1.2.3.4" /\ length buffer' = 65%nat /\ opened qr'.
Proof.
  intros E.
  refine (proj2 (systemv_delivers (EV := E) (small_queue (marks "?")) (small_queue (marks "!"))
    "1.2.3.4" (-1) (replicate 65 NUL) 65 ErrVar (Proc 0 None) [] 0 (Proc 0 None) [] 0
    _ _ _ _ _ _ _ _)); try reflexivity; try (apply small_queue_opened; reflexivity);
    vm_compute; lia.
Defined.

Lemma systemv_truncates_witness :
  let E := env_delivers (sent_text (small_queue (marks "?")) "192.168.100.200") in
  exists buffer' qr' p1 tr1,
    systemv_receive (EV := E) (small_queue (replicate 8 "!"%char ++ chars "0.0.0.0" ++ replicate 49 NUL))
      (replicate 65 NUL) 65 ErrVar (Proc 0 None) []
    = (Ok (8, buffer', qr'), p1, tr1)
    /\ nul_prefix buffer' = Some ("192.168." +:+ "0.0.0.0").
Proof.
  intros E.
  refine (proj2 (systemv_truncates (EV := E) (small_queue (marks "?"))
    (small_queue (replicate 8 "!"%char ++ chars "0.0.0.0" ++ replicate 49 NUL))
    "192.168.100.200" (-1) (replicate 65 NUL) 65 ErrVar (Proc 0 None) [] 0 (Proc 0 None) [] 0
    "0.0.0.0" _ _ _ _ _ _ _ _ _)); try reflexivity; try (apply small_queue_opened; reflexivity).
  - split; vm_compute; [congruence|reflexivity].
  - intros t area [= <- <-]. reflexivity.
Defined.

(** Whether a call of [queue_open] succeeded. *)
Definition succeeds (res : outcome (bool * systemv_queue_t) * proc * trace) : bool :=
  match res with (Ok (b, _), _, _) => b | _ => false end.

Lemma succeeds_true res : succeeds res = true -> exists q p tr, res = (Ok (true, q), p, tr).
Proof. destruct res as [[[[[] q]|?| |?] p] tr]; try done. eauto. Qed.

Lemma systemv_rendezvous_witness :
  exists qo qc po tr1 pc tr3,
    systemv_open (EV := env_kernel) systemv_fresh "/tmp/q" QUEUE_FL_OWNER ErrVar (Proc 0 None) []
    = (Ok (true, qo), po, tr1)
    /\ systemv_open (EV := env_kernel) systemv_fresh "/tmp/q" QUEUE_FL_SENDER ErrVar (Proc 0 None) tr1
    = (Ok (true, qc), pc, tr3)
    /\ sq_qid qc = sq_qid qo.
Proof.
  set (own := systemv_open (EV := env_kernel) systemv_fresh "/tmp/q" QUEUE_FL_OWNER ErrVar (Proc 0 None) []).
  destruct (succeeds_true own) as (qo & po & tr1 & Eo); [vm_compute; reflexivity|].
  assert (Htr : tr1 = own.2) by by rewrite Eo.
  destruct (succeeds_true (systemv_open (EV := env_kernel) systemv_fresh "/tmp/q" QUEUE_FL_SENDER ErrVar
    (Proc 0 None) tr1)) as (qc & pc & tr3 & Ec); [rewrite Htr; vm_compute; reflexivity|].
  exists qo, qc, po, tr1, pc, tr3. split; [exact Eo|]. split; [exact Ec|].
  refine (proj2 (proj2 (proj2 (proj2 (systemv_rendezvous (EV := env_kernel) 2048 8192 "/tmp/q"
    QUEUE_FL_SENDER (Proc 0 None) [] (Ok (true, qo)) po tr1 tr1 (Proc 0 None) (Ok (true, qc)) pc tr3
    _ _ _ _ _ Eo (grows_refl _ _) Ec) qo _)))); reflexivity.
Defined.

(** A system whose files cannot be read. *)
Definition env_no_fread : Env := override (fun A _ c =>
  match c in sys A return option (A * Z) with Fread_int _ => Some (None, 5) | _ => None end).

Lemma systemv_fread_unchecked_witness :
  exists p' tr',
    systemv_read_file (EV := env_no_fread) "/tmp/q" ErrVar (Proc 0 None) []
    = (Ok (Some ("/tmp/q", 12345)), p', tr').
Proof.
  do 2 eexists.
  refine (systemv_fread_unchecked (EV := env_no_fread) "/tmp/q" (Proc 0 None) []
    (replicate (Z.to_nat MAXPATHLEN) "?"%char) 4 0 0 5 12345 0 0 _ _ _ _ _ _ _); reflexivity.
Defined.

(** A stack with leftovers of another path. *)
Definition env_stack : Env := override (fun A _ c =>
  match c in sys A return option (A * Z) with
  | Uninit n => Some (resize (Z.to_nat n) NUL (chars "/var/run/x"), 0)
  | _ => None
  end).

Lemma systemv_colon_unterminated_witness :
  exists p' tr',
    systemv_create_file (EV := env_stack) "/tmp/q:a" ErrVar (Proc 0 None) []
    = (Ok (Some ("/tmp/qun/x", 97)), p', tr')
    /\ "/tmp/qun/x" = "/tmp/q" +:+ "un/x" /\ 97 = char_to_int "a".
Proof.
  do 2 eexists. split; [vm_compute; reflexivity|].
  eapply (systemv_colon_unterminated (EV := env_stack) "/tmp/q" "a" "" (Proc 0 None) []
    (resize (Z.to_nat MAXPATHLEN) NUL (chars "/var/run/x")) 0 "un/x" "/tmp/qun/x" 97);
    vm_compute; reflexivity.
Defined.

Lemma systemv_open_umask_witness :
  exists o p' tr',
    systemv_open (EV := env_default) systemv_fresh "/tmp/q" QUEUE_FL_OWNER ErrVar (Proc 0 None) []
    = (o, p', tr') /\ umask_kept (EV := env_default) [] tr'.
Proof.
  destruct (systemv_open (EV := env_default) systemv_fresh "/tmp/q" QUEUE_FL_OWNER ErrVar
    (Proc 0 None) []) as [[o p'] tr'] eqn:E.
  exists o, p', tr'. split; [reflexivity|].
  exact (systemv_open_umask (EV := env_default) _ _ _ _ _ _ _ _ _ E).
Defined.

Lemma systemv_close_correct_witness :
  systemv_close_post (SystemVQueue 5 (Some (1, marks "?")) (Some "/tmp/q") 8) []
    (Ok (true, None)) (Proc 0 None) [Ev (Unlink "/tmp/q") 0; Ev (Msgctl_rmid 5) 0].
Proof.
  refine (systemv_close_correct (EV := env_default)
    (SystemVQueue 5 (Some (1, marks "?")) (Some "/tmp/q") 8) (Proc 0 None) [] _ _ _ _ _); reflexivity.
Defined.
