(* ===== verification/SystemVFifo.v ===== *)
(** * The System V queue as a FIFO

    The refinement of the abstract queue by [systemv.c], for messages shorter than
    an eighth of the capacity of the kernel's queue.  Each message takes an
    eighth of it, whatever its length, so that the queue holds eight. *)
From Stdlib Require Import ZArith Lia Ascii.
From S2P Require Import Prelude Os CError Scenario Strlcpy Queue Posix SystemV Kernel Fifo SystemVSpec.
#[local] Set Default Goal Selector "!".

Definition sv_sendable (n : Z) (m : string) : Prop :=
  str_all (fun c => negb (Ascii.eqb c NUL)) m = true /\ strlen m < n / 8.

(** A message of the kernel carries a string: it is terminated inside its text,
    which has the size all messages have. *)
Definition carries (n : Z) (msg : Z * list ascii) (m : string) : Prop :=
  Z.of_nat (length msg.2) = n / 8 /\ nul_prefix msg.2 = Some m.

Lemma carries_bytes n l q : Forall2 (carries n) l q -> text_bytes l = Z.of_nat (length q) * (n / 8).
Proof.
  unfold text_bytes. induction 1 as [|[t text] m l q [Hl _] _ IH]; [done|]. simpl in *. lia.
Qed.

(** An opened queue object on a kernel queue of [n] bytes. *)
Definition sv_object (n : Z) (q : systemv_queue_t) : Prop :=
  opened q /\ sq_buffer_size q = n / 8.

(** After a history the kernel queue [qid] carries the strings [l]. *)
Definition sv_rep (n qid : Z) (tr : trace) (l : list string) : Prop :=
  exists msgs, sv_queue tr qid = Some msgs /\ Forall2 (carries n) msgs l.

Section Refinement.
Context `{EV : !Env} (n msgmax qid : Z) (Hn : 0 <= n) (Hmax : n / 8 <= msgmax) `{SK : !SvKernel n msgmax}.
Implicit Types (p : proc) (tr : trace).

Lemma sv_send_ok q m l error p tr :
  sq_qid q = qid -> sv_object n q -> 0 < sent_type q -> sv_sendable n m ->
  sv_rep n qid tr l -> (length l < 8)%nat ->
  exists q' e, systemv_send q m (-1) error p tr
    = (Ok (true, q'), set_errno e p, Ev (Msgsnd qid (sent_type q) (sent_text q m)) 0 :: tr)
    /\ sq_qid q' = qid /\ sv_object n q' /\ sent_type q' = sent_type q
    /\ sv_rep n qid (Ev (Msgsnd qid (sent_type q) (sent_text q m)) 0 :: tr) (l ++ [m]).
Proof.
  intros Hqid [Ho Hsz] Ht [Hnul Hlen] (msgs & Hq & Hl) Hroom. pose proof Ho as (Hbs & mt & area & Hb & Hal).
  destruct (sent_text_short q m mt area Hb Hal Hbs) as (rest & Htext & Htl); [lia|].
  assert (Hc : carries n (sent_type q, sent_text q m) m).
  { split; cbn [snd]; [lia|]. rewrite Htext. by apply nul_prefix_chars. }
  pose proof (strlen_nonneg m). pose proof (Z.mul_div_le n 8 ltac:(lia)).
  destruct (msgsnd_ok tr qid msgs (sent_type q) (sent_text q m) Hq Ht) as [e He]; [lia| | |].
  { rewrite (carries_bytes n _ _ Hl), Htl, Hsz. nia. }
  { apply Forall2_length in Hl. lia. }
  rewrite <-Hqid in He.
  destruct (systemv_send_run q m (-1) error p tr e Ho) as (q' & Hrun & Ho' & Hsz' & Ht' & Hq'); [lia|done|].
  rewrite Hqid in *. exists q', e. split; [done|]. split; [done|]. split; [split; [done|lia]|]. split; [done|].
  exists (msgs ++ [(sent_type q, sent_text q m)]). split; [cbn [sv_queue]; by rewrite Z.eqb_refl, Hq|].
  apply Forall2_app; [done|]. by constructor.
Qed.

Lemma sv_receive_ok q buffer size m l error p tr :
  sq_qid q = qid -> sv_object n q -> n / 8 <= size -> n / 8 < Z.of_nat (length buffer) ->
  sv_rep n qid tr (m :: l) ->
  exists q' e msg, systemv_receive q buffer size error p tr
    = (Ok (n / 8, overwrite 0 (chars m ++ [NUL]) buffer, q'), set_errno e p,
       Ev (Msgrcv qid size) (Some msg) :: tr)
    /\ sq_qid q' = qid /\ sv_object n q' /\ (String.length m < length buffer)%nat
    /\ sv_rep n qid (Ev (Msgrcv qid size) (Some msg) :: tr) l.
Proof.
  intros Hqid [(Hbs & t & area & Hb & Hal) Hsz] Hsize Hbuf (msgs & Hq & Hl).
  apply Forall2_cons_inv_r in Hl as ([mtype text] & rest & [Htl Hs] & Hrest & ->). simpl in Htl, Hs.
  destruct (msgrcv_ok tr qid size mtype text rest Hq) as [e He]; [lia|]. rewrite <-Hqid in He.
  pose proof (nul_prefix_length _ _ Hs) as Hml. eexists _, e, (mtype, text). split; [|split_and!].
  - rewrite (systemv_receive_run q buffer size mtype text m error p tr e t area);
      [by rewrite Htl, Hqid|done|lia|by apply nul_prefix_more|lia|done].
  - done.
  - split; [|done]. split; [done|]. do 2 eexists. split; [done|].
    rewrite length_app, length_drop. cbn [sq_buffer_size set_sq_buffer]. lia.
  - lia.
  - exists rest. split; [|done]. cbn [sv_queue]. by rewrite Z.eqb_refl, Hq.
Qed.

#[export] Program Instance systemv_fifo : FifoQueue systemv_queue 8 (sv_sendable n) :=
  {| rep := sv_rep n qid;
     sender := fun q => sq_qid q = qid /\ sv_object n q /\ 0 < sent_type q;
     reader := fun q buffer size => sq_qid q = qid /\ sv_object n q /\ n / 8 <= size
       /\ n / 8 < Z.of_nat (length buffer) |}.
Next Obligation.
  intros tr tr' q Hg (msgs & Hq & Hl). exists msgs. by rewrite (sv_queue_other _ _ _ Hg).
Qed.
Next Obligation.
  intros qs m q error p tr (Hid & Ho & Ht) Hm Hrep Hroom. simpl in *.
  destruct (sv_send_ok qs m q error p tr Hid Ho Ht Hm Hrep Hroom) as (q' & e & Hrun & Hid' & Ho' & Ht' & Hc).
  do 3 eexists. split; [exact Hrun|]. split; [by rewrite Ht'|]. split; [done|]. by repeat constructor.
Qed.
Next Obligation.
  intros qr buffer size m q error p tr (Hid & Ho & Hsize & Hbuf) Hm Hrep. simpl in *.
  destruct (sv_receive_ok qr buffer size m q error p tr Hid Ho Hsize Hbuf Hrep)
    as (q' & e & msg & Hrun & Hid' & Ho' & Hlt & Hrep').
  do 5 eexists. split; [exact Hrun|]. split; [pose proof (Z.div_pos n 8 Hn ltac:(lia)); lia|].
  split; [rewrite overwrite_0, <-app_assoc; apply nul_prefix_chars, Hm|].
  split; [split_and!; [done|done|done|]|].
  - rewrite length_overwrite; [done|]. rewrite length_app, length_chars. simpl. lia.
  - split; [done|]. by repeat constructor.
Qed.
End Refinement.

(** ** From the opening on *)

Section Opened.
Context `{EV : !Env} `{!MallocOk} `{!StatOk} (n msgmax : Z) `{SK : !SvKernel n msgmax} `{!FileKernel}.
Implicit Types (p : proc) (tr : trace).

(** The objects of owner and client after the opening, and the empty queue. *)
Lemma opened_objects name qr qs po po' tr tr1 tr2 pc pc' tr3 :
  str_all (fun c => negb (Ascii.eqb c NUL)) name = true -> strchr_split ":" name = None ->
  p_error po = None -> p_error pc = None ->
  systemv_open systemv_fresh name QUEUE_FL_OWNER ErrVar po tr = (Ok (true, qr), po', tr1) ->
  grows idle tr1 tr2 ->
  systemv_open systemv_fresh name QUEUE_FL_SENDER ErrVar pc tr2 = (Ok (true, qs), pc', tr3) ->
  (sv_object n qr /\ sv_object n qs /\ sq_qid qs = sq_qid qr /\ 0 < sent_type qs)
  /\ sv_rep n (sq_qid qr) tr3 [].
Proof.
  intros Hname Hcolon Hpo Hpc Ho Hg Hc.
  destruct (wp_run _ _ _ _ _ _ _ (wp_owner_opens systemv_fresh name po tr Hname Hcolon Hpo) Ho)
    as (_ & Hor & _ & _ & Hmeet & Hq & tra & na & ea & Hqa & Hna & Hsa).
  pose proof (idle_calm _ _ Hg) as Hg1.
  pose proof (idle_no_queue _ _ Hg) as Hg2.
  apply (meets_calm _ _ _ _ Hg1) in Hmeet. rewrite <-(sv_queue_other _ _ _ Hg2) in Hq.
  destruct (wp_run _ _ _ _ _ _ _ (wp_client_attaches n msgmax systemv_fresh name QUEUE_FL_SENDER _ pc tr2
    Hname eq_refl Hpc Hmeet) Hc)
    as (_ & Hos & Hts & _ & Hid & _ & Hkeep & trb & nb & eb & Hqb & Hnb & Hsb).
  destruct (stat_same tra (sq_qid qr) [] Hqa) as [? Ha]. rewrite Ha in Hna. injection Hna as <- _.
  rewrite Hq in Hqb. destruct (stat_same trb (sq_qid qr) [] Hqb) as [? Hb]. rewrite Hb in Hnb.
  injection Hnb as <- _. split; [split_and!; [by split|by split|done|lia]|].
  exists []. split; [by rewrite Hkeep|constructor].
Qed.

(** C9: the System V queue is a FIFO of strings of capacity 8, whatever the size [n] of
    the kernel's queue, for messages shorter than an eighth of it.  On a kernel whose
    files, keys and queues behave as documented, with [n / 8] at most [MSGMAX]: once
    the owner has opened a name without colon and then a client the same name, with no
    call on queues or files in between, every sequence of sends and receives that the abstract FIFO accepts without blocking
    gives the results of the FIFO and leaves its content in the kernel's queue; what
    the receiver reads is the oldest message although the bytes sent after its
    terminator are those of earlier messages. *)
Theorem systemv_refines_fifo name ops qs qr buffer size rs q' po po' tr tr1 tr2 pc pc' tr3 p :
  0 <= n -> n / 8 <= msgmax ->
  str_all (fun c => negb (Ascii.eqb c NUL)) name = true -> strchr_split ":" name = None ->
  p_error po = None -> p_error pc = None ->
  systemv_open systemv_fresh name QUEUE_FL_OWNER ErrVar po tr = (Ok (true, qr), po', tr1) ->
  grows idle tr1 tr2 ->
  systemv_open systemv_fresh name QUEUE_FL_SENDER ErrVar pc tr2 = (Ok (true, qs), pc', tr3) ->
  Forall (op_ok (msgs := sv_sendable n)) ops ->
  n / 8 <= size -> n / 8 < Z.of_nat (length buffer) ->
  Fifo.run 8 [] ops = Some (rs, q') ->
  exists p' tr', impl_run qs qr buffer size ops p tr3 = (Ok rs, p', tr')
                 /\ sv_rep n (sq_qid qr) tr' q'.
Proof.
  intros Hn Hmax Hname Hcolon Hpo Hpc Ho Hg Hc Hops Hsize Hbuf Hrun.
  destruct (opened_objects _ _ _ _ _ _ _ _ _ _ _ Hname Hcolon Hpo Hpc Ho Hg Hc)
    as ((Hor & Hos & Hid & Ht) & Hrep).
  by apply (impl_run_simulates (FQ := systemv_fifo n msgmax (sq_qid qr) Hn Hmax)
    ops qs qr buffer size [] rs q' p tr3).
Qed.
End Opened.

(** ** Witness *)

Lemma systemv_refines_fifo_witness :
  exists qs qr p' tr3 tr',
    impl_run (EV := env_kernel) (Q := systemv_queue (EV := env_kernel)) qs qr
      (replicate 2049 NUL) 2049
      [Fifo.Send "1.2.3.4"; Fifo.Send "::1"; Fifo.Receive; Fifo.Receive] (Proc 0 None) tr3
    = (Ok [Fifo.Sent true; Fifo.Sent true; Fifo.Received "1.2.3.4"; Fifo.Received "::1"], p', tr')
    /\ sv_rep 2048 (sq_qid qr) tr' [].
Proof.
  set (own := systemv_open (EV := env_kernel) systemv_fresh "/tmp/q" QUEUE_FL_OWNER ErrVar (Proc 0 None) []).
  destruct (succeeds_true own) as (qr & po & tr1 & Eo); [vm_compute; reflexivity|].
  assert (Htr : tr1 = own.2) by by rewrite Eo.
  destruct (succeeds_true (systemv_open (EV := env_kernel) systemv_fresh "/tmp/q" QUEUE_FL_SENDER ErrVar
    (Proc 0 None) tr1)) as (qs & pc & tr3 & Ec); [rewrite Htr; vm_compute; reflexivity|].
  destruct (systemv_refines_fifo (EV := env_kernel) 2048 8192 "/tmp/q"
    [Fifo.Send "1.2.3.4"; Fifo.Send "::1"; Fifo.Receive; Fifo.Receive] qs qr (replicate 2049 NUL) 2049
    [Fifo.Sent true; Fifo.Sent true; Fifo.Received "1.2.3.4"; Fifo.Received "::1"] []
    (Proc 0 None) po [] tr1 tr1 (Proc 0 None) pc tr3 (Proc 0 None)) as (p' & tr' & Hrun & Hq);
    first [exact Eo | exact Ec | lia | reflexivity | apply grows_refl
          | rewrite length_replicate; vm_compute; reflexivity | vm_compute; congruence | idtac].
  - repeat constructor; vm_compute; congruence.
  - do 5 eexists. split; [exact Hrun|exact Hq].
Defined.
