(* ===== verification/Engine.v ===== *)
(** * The engine interface: [engine.h], [err.h] and [engine.c]

    An engine is a record of functions that [banipd] calls through pointers.  The
    functions of [err.h] are macros over [_verr], which each program defines for
    itself: [Program] is what an engine needs of the program it is linked to. *)
From Stdlib Require Import ZArith Lia Ascii.
From S2P Require Import Prelude Os Libc CError Scenario Parse.
#[local] Set Default Goal Selector "!".

(** ** [err.h] *)

(** The program: how it embeds the shared memory, and its [_verr]. *)
Class Program (S : Type) := {
  in_proc : forall A, M proc A -> M S A;
  _verr : bool -> Z -> string -> M S unit
}.
Arguments in_proc {S _ A} m.

Section Err.
Context {S : Type} `{PR : !Program S}.

Definition errx (msg : string) : M S unit := _verr true 0 msg.
Definition errc (msg : string) : M S unit :=
  errno ← in_proc (gets p_errno); _verr true errno msg.
Definition warnc (msg : string) : M S unit :=
  errno ← in_proc (gets p_errno); _verr false errno msg.
Definition warn (msg : string) : M S unit := _verr false 0 msg.
End Err.

(** ** [engine.h] *)

(** The [void *] an engine's [open] returns: the heap object of [pf] or [npf]
    (its descriptor), or an integer cast to a pointer. *)
Inductive ctxt_t := PfData (fd : Z) | NpfData (fd : Z) | CastInt (n : Z).

(** [free(ctxt)]: only a heap object may be freed. *)
Definition free_ctxt {S} (c : ctxt_t) : M S unit :=
  match c with CastInt _ => undef InvalidFree | _ => mret tt end.

(** [engine_t]; the function pointers [open] and [close] may be NULL.  [close]
    gives the object it leaves behind. *)
Record engine_t {S : Type} := EngineT
  { drop_privileges : bool;
    name : string;
    open : option (string -> errp -> M proc (option ctxt_t));
    handle : option ctxt_t -> string -> addr_t -> errp -> M proc bool;
    close : option (ctxt_t -> M S ctxt_t) }.
Arguments engine_t S : clear implicits.

(** ** [engine.c] *)

(** The engines compiled in, and the engine defined outside this development. *)
Record build (S : Type) := Build
  { WITH_PF : option (engine_t S); WITH_NPF : option (engine_t S);
    WITH_NFTABLES : option (engine_t S); WITH_IPSET : option (engine_t S);
    WITH_IPTABLES : option (engine_t S); dummy : engine_t S }.
Arguments Build {S}.
Arguments WITH_PF {S}. Arguments WITH_NPF {S}. Arguments WITH_NFTABLES {S}.
Arguments WITH_IPSET {S}. Arguments WITH_IPTABLES {S}. Arguments dummy {S}.

Section Registry.
Context {S : Type}.
Implicit Types (b : build S) (e : engine_t S).

Definition compiled (o : option (engine_t S)) : list (option (engine_t S)) :=
  match o with Some e => [Some e] | None => [] end.

(** The array, with its NULL sentinel. *)
Definition available_engines b : list (option (engine_t S)) :=
  compiled (WITH_PF b) ++ compiled (WITH_NPF b) ++ compiled (WITH_NFTABLES b)
  ++ compiled (WITH_IPSET b) ++ compiled (WITH_IPTABLES b) ++ [Some (dummy b); None].

Definition get_default_engine b : option (engine_t S) :=
  match available_engines b with e :: _ => e | [] => None end.

(** The [for] loop from one place of the array on. *)
Fixpoint find_engine (l : list (option (engine_t S))) (n : string) : option (engine_t S) :=
  match l with
  | Some e :: l => if String.eqb (name e) n then Some e else find_engine l n
  | _ => None
  end.

Definition get_engine_by_name b (n : string) : option (engine_t S) :=
  find_engine (available_engines b) n.

(** ** Correctness of the registry *)

(** The engines before the sentinel. *)
Definition engines b : list (engine_t S) := omap id (available_engines b).

Lemma available_engines_shape b : available_engines b = (Some <$> engines b) ++ [None].
Proof.
  unfold engines, available_engines.
  by destruct (WITH_PF b), (WITH_NPF b), (WITH_NFTABLES b), (WITH_IPSET b), (WITH_IPTABLES b).
Qed.

Lemma engines_dummy b : exists l, engines b = l ++ [dummy b].
Proof.
  unfold engines, available_engines.
  eexists (omap id (compiled (WITH_PF b) ++ compiled (WITH_NPF b) ++ compiled (WITH_NFTABLES b)
    ++ compiled (WITH_IPSET b) ++ compiled (WITH_IPTABLES b))).
  by destruct (WITH_PF b), (WITH_NPF b), (WITH_NFTABLES b), (WITH_IPSET b), (WITH_IPTABLES b).
Qed.

Lemma find_engine_spec l n :
  match find_engine ((Some <$> l) ++ [None]) n with
  | Some e => exists l1 l2, l = l1 ++ e :: l2 /\ name e = n /\ Forall (fun e' => name e' <> n) l1
  | None => Forall (fun e => name e <> n) l
  end.
Proof.
  induction l as [|e l IH]; simpl; [constructor|].
  destruct (String.eqb_spec (name e) n) as [He|Hne].
  - exists [], l. auto.
  - destruct (find_engine _ n) as [e'|]; [|by constructor].
    destruct IH as (l1 & l2 & -> & Hn & Hl1). exists (e :: l1), l2.
    split; [done|]. split; [done|]. by constructor.
Qed.

(** C27: whatever engines are compiled in, the default engine is never NULL and is
    the first of the array; a name gives the first engine of that name, and NULL
    exactly when no compiled engine has it, so that the name of the engine that
    is always there never gives NULL. *)
Theorem engine_registry b n :
  (exists e l, get_default_engine b = Some e /\ engines b = e :: l)
  /\ (exists e, get_engine_by_name b (name (dummy b)) = Some e /\ name e = name (dummy b))
  /\ match get_engine_by_name b n with
     | Some e => exists l1 l2, engines b = l1 ++ e :: l2 /\ name e = n
                               /\ Forall (fun e' => name e' <> n) l1
     | None => Forall (fun e => name e <> n) (engines b)
     end.
Proof.
  unfold get_default_engine, get_engine_by_name. rewrite available_engines_shape.
  destruct (engines_dummy b) as [l Hl]. split; [|split].
  - destruct (engines b) as [|e l'] eqn:E; [by destruct l|]. by exists e, l'.
  - pose proof (find_engine_spec (engines b) (name (dummy b))) as Hf.
    destruct (find_engine _ (name (dummy b))) as [e|].
    + destruct Hf as (l1 & l2 & _ & Hn & _). by exists e.
    + rewrite Hl in Hf. apply Forall_app in Hf as [_ Hf]. by apply Forall_cons_iff in Hf as [? _].
  - apply find_engine_spec.
Qed.
End Registry.
