(* ===== verification/Command.v ===== *)
(** * Engines that run commands: [command.c], [dummy.c], [ipset.c], [iptables.c]

    [run_command] formats a command and gives it to the shell.  [ipset.c] calls it
    without its declaration and [iptables.c] with the wrong arguments; the model
    keeps the calls as they are. *)
From Stdlib Require Import ZArith Lia Ascii.
From S2P Require Import Prelude Os Libc CError Scenario Strlcpy Parse ParseSpec Engine.
#[local] Set Default Goal Selector "!".

Definition COMMAND_SIZE : Z := 4096.
Definition EXIT_SUCCESS : Z := 0.
Definition EXIT_FAILURE : Z := 1.

Section Command.
Context `{EV : !Env}.

Definition run_command (error : errp) (fmt : string) (args : list fmt_arg) : M proc Z :=
  match format fmt args with
  | FmtBad => undef BadFormat
  | FmtNull => undef NullFormat
  | FmtOk cmd =>
      let l := strlen cmd in
      if COMMAND_SIZE <=? l then mret 0 else syscall (System cmd)
  end.

(** [addr.humanrepr] as an argument for [%s]. *)
Definition human_arg (addr : addr_t) : M proc string :=
  match nul_prefix (humanrepr addr) with None => undef OutOfBounds | Some s => mret s end.

(** ** dummy.c *)

Definition dummy_handle (ctxt : option ctxt_t) (tablename : string) (addr : addr_t) (error : errp)
  : M proc bool :=
  h ← human_arg addr;
  syscall (Stderr ("Received: '" +:+ h +:+ "'"));;
  mret true.

Definition dummy_engine {S} : engine_t S := EngineT S true "dummy" None dummy_handle None.

(** ** ipset.c *)

(** One [if (!(ok &= (EXIT_SUCCESS != run_command(...)))) break;]: the new [ok],
    which is also whether the loop goes on. *)
Definition ipset_try (ok : bool) (error : errp) (fmt tablename : string) : M proc bool :=
  ret ← run_command error fmt [FStr (Some tablename)];
  mret (ok && negb (EXIT_SUCCESS =? ret)).

Definition ipset_open (tablename : string) (error : errp) : M proc (option ctxt_t) :=
  let ok := false in
  ok ← (ok ← ipset_try ok error "ipset -! create %s4 hash:net family inet" tablename;
        if negb ok then mret ok else
        ok ← ipset_try ok error "ipset -! create %s6 hash:net family inet6" tablename;
        if negb ok then mret ok else
        ok ← ipset_try ok error "iptables -I INPUT -m set --match-set %s4 src -j DROP" tablename;
        if negb ok then mret ok else
        ok ← ipset_try ok error "iptables -I INPUT -m set --match-set %s4 src -j DROP" tablename;
        if negb ok then mret ok else
        mret true);
  mret (if negb ok then Some (CastInt 1) else None).

Definition ipset_handle (ctxt : option ctxt_t) (tablename : string) (addr : addr_t) (error : errp)
  : M proc bool :=
  h ← human_arg addr;
  ret ← run_command error "ipset -! -A %s%c %s"
          [FStr (Some tablename); FChr (if decide (fa addr = AF_INET) then "4" else "6"); FStr (Some h)];
  mret (EXIT_SUCCESS =? ret).

Definition ipset_engine {S} : engine_t S :=
  EngineT S false "ipset" (Some ipset_open) ipset_handle None.

(** ** iptables.c *)

(** The [int] result of a function called through a pointer to a function that
    returns [bool]: the caller looks at the low byte. *)
Definition int_as_bool (n : Z) : bool := negb (n mod 256 =? 0).

(** [run_command("iptables ...", tablename, addr.humanrepr)]: the text is passed
    as the error pointer, the name of the table as the format. *)
Definition iptables_handle (ctxt : option ctxt_t) (tablename : string) (addr : addr_t) (error : errp)
  : M proc bool :=
  h ← human_arg addr;
  ret ← run_command ErrNull tablename [FStr (Some h)];
  mret (int_as_bool ret).

Definition iptables_engine {S} : engine_t S :=
  EngineT S false "iptables" None iptables_handle None.
End Command.

(** ** What the engines do *)

(** A format without conversions is printed as it is. *)
Lemma format_plain f args :
  str_all (fun c => negb (Ascii.eqb c "%")) f = true -> format f args = FmtOk f.
Proof.
  induction f as [|c f IH]; intros Hf; [done|]. simpl in Hf. bools.
  assert (Hc : c <> "%"%char) by by apply Ascii.eqb_neq.
  assert (Hstep : format (String c f) args = fmt_cons (String c "") (format f args)).
  { destruct c as [b0 b1 b2 b3 b4 b5 b6 b7]. unfold format at 1; fold format.
    destruct b0, b1, b2, b3, b4, b5, b6, b7; (reflexivity || done). }
  by rewrite Hstep, IH.
Qed.

(** The command [ipset_handle] builds. *)
Definition ipset_command (tablename : string) (f : family) (h : string) : string :=
  "ipset -! -A " +:+ tablename +:+ (if decide (f = AF_INET) then "4" else "6") +:+ " " +:+ h.

(** The characters of the fixed parts of the command. *)
Definition fixed_char (c : ascii) : bool :=
  existsb (Ascii.eqb c) (chars "ipset -!A46").

Section CommandSpec.
Context `{EV : !Env} `{EN : !Endian}.
Implicit Types (p : proc) (tr : trace).

Lemma human_arg_run buffer a p tr :
  nul_prefix (humanrepr a) = Some buffer -> human_arg a p tr = (Ok buffer, p, tr).
Proof. intros Ha. unfold human_arg. by rewrite Ha. Qed.

Lemma ipset_handle_run buffer a ctxt tablename error p tr :
  is_network buffer a ->
  let cmd := ipset_command tablename (fa a) buffer in
  ipset_handle ctxt tablename a error p tr =
  if COMMAND_SIZE <=? strlen cmd then (Ok true, p, tr)
  else let '(ret, e) := env_call _ tr (System cmd) in
       (Ok (0 =? ret), set_errno e p, Ev (System cmd) ret :: tr).
Proof.
  intros Hnet cmd. destruct (network_humanrepr _ _ Hnet) as [Hh _].
  unfold ipset_handle. erewrite bind_Ok by by apply human_arg_run.
  assert (Hcmd : forall A (k : Z -> M proc A) q tr,
    (run_command error "ipset -! -A %s%c %s"
       [FStr (Some tablename); FChr (if decide (fa a = AF_INET) then "4" else "6");
        FStr (Some buffer)] ≫= k) q tr
    = ((if COMMAND_SIZE <=? strlen cmd then mret 0 else syscall (System cmd)) ≫= k) q tr).
  { intros. unfold run_command, cmd, ipset_command. simpl.
    destruct (decide (fa a = AF_INET)); by rewrite append_nil_r. }
  rewrite Hcmd. destruct (COMMAND_SIZE <=? strlen cmd); [done|].
  destruct (env_call Z tr (System cmd)) as [ret e] eqn:E.
  by rewrite (bind_syscall _ _ _ _ _ _ E).
Qed.

(** C13: for a message that [parse_addr] accepts, [ipset_handle] runs exactly one
    command, in which the message only contributes its address part, written
    with hexadecimal digits, dots and colons; whatever the message, the shell
    sees no other character than those of the table name and of the fixed text.
    The result is [true] exactly when the command exits with 0, and no error is
    ever stored; a command of 4096 characters or more is not run and counts as a
    success. *)
Theorem ipset_handle_correct s ctxt tablename a p tr p0 tr0 e0 error :
  parse_addr s e0 p0 tr0 = (Ok (true, a), p, tr) ->
  let cmd := ipset_command tablename (fa a) (host_part s) in
  str_all (fun c => fixed_char c || existsb (Ascii.eqb c) (chars tablename) || addr_char c) cmd = true
  /\ ipset_handle ctxt tablename a error p tr =
     if COMMAND_SIZE <=? strlen cmd then (Ok true, p, tr)
     else let '(ret, e) := env_call _ tr (System cmd) in
          (Ok (0 =? ret), set_errno e p, Ev (System cmd) ret :: tr).
Proof.
  intros Hrun cmd.
  pose proof (wp_run _ _ _ _ _ _ _ (wp_parse_addr_sound s e0 p0 tr0) Hrun) as Hnet.
  split; [|by apply ipset_handle_run].
  destruct (network_humanrepr _ _ Hnet) as (_ & Hc & _).
  assert (Hfix : forall t, str_all fixed_char t = true -> str_all
    (fun c => fixed_char c || existsb (Ascii.eqb c) (chars tablename) || addr_char c) t = true)
    by (intros t; apply str_all_impl; intros c ->; done).
  unfold cmd, ipset_command. rewrite !str_all_app, !andb_true_iff. split_and!.
  - by apply Hfix.
  - assert (Hsub : forall t, (forall c, c ∈ chars t -> c ∈ chars tablename) -> str_all
      (fun c => fixed_char c || existsb (Ascii.eqb c) (chars tablename) || addr_char c) t = true).
    { unfold chars. induction t as [|c t IH]; intros Hin; [done|]. simpl. apply andb_true_iff. split.
      - apply orb_true_iff. left. apply orb_true_iff. right. apply existsb_exists.
        exists c. rewrite Ascii.eqb_refl. split; [|done]. apply list_elem_of_In, Hin. by left.
      - apply IH. intros d Hd. apply Hin. by right. }
    by apply Hsub.
  - apply Hfix. by destruct (decide (fa a = AF_INET)).
  - by apply Hfix.
  - eapply str_all_impl; [|exact Hc]. intros c ->. by rewrite orb_true_r.
Qed.

Lemma ipset_open_run tablename error p tr :
  exists p' tr',
    ipset_open tablename error p tr = (Ok (Some (CastInt 1)), p', tr')
    /\ p_error p' = p_error p
    /\ (tr' = tr \/ exists ret, tr' = Ev (System ("ipset -! create " +:+ tablename
                                          +:+ "4 hash:net family inet")) ret :: tr).
Proof.
  set (cmd := "ipset -! create " +:+ tablename +:+ "4 hash:net family inet").
  assert (Hcmd : run_command error "ipset -! create %s4 hash:net family inet" [FStr (Some tablename)]
    = if COMMAND_SIZE <=? strlen cmd then mret 0 else syscall (System cmd)) by done.
  unfold ipset_open, ipset_try. rewrite bind_assoc, bind_assoc, Hcmd.
  destruct (COMMAND_SIZE <=? strlen cmd).
  - rewrite !bind_ret. exists p, tr. split_and!; auto.
  - destruct (env_call Z tr (System cmd)) as [ret e] eqn:E.
    rewrite (bind_syscall _ _ _ _ _ _ E). do 2 eexists. split; [done|]. split_and!; eauto.
Qed.

(** [ipset_open] never gets further than its first command: whatever that
    command answers, the second set and the two [iptables] rules that drop
    packets are not created; it stores no error and returns the integer 1 as its
    context, which may not be freed. *)
Theorem ipset_open_stops tablename error p tr :
  exists p' tr',
    ipset_open tablename error p tr = (Ok (Some (CastInt 1)), p', tr')
    /\ p_error p' = p_error p
    /\ (tr' = tr \/ exists ret, tr' = Ev (System ("ipset -! create " +:+ tablename
                                          +:+ "4 hash:net family inet")) ret :: tr)
    /\ forall q tr2, free_ctxt (S := proc) (CastInt 1) q tr2 = (Undef InvalidFree, q, tr2).
Proof.
  destruct (ipset_open_run tablename error p tr) as (p' & tr' & Hrun & Hp & Htr).
  exists p', tr'. by split_and!.
Qed.

(** [iptables_handle] does not run [iptables]: it gives the name of the table
    to the shell as the command.  The address plays no part, and when the
    command succeeds the engine reports a failure, without a message. *)
Theorem iptables_runs_table ctxt tablename a h error p tr ret e :
  nul_prefix (humanrepr a) = Some h ->
  str_all (fun c => negb (Ascii.eqb c "%")) tablename = true -> strlen tablename < COMMAND_SIZE ->
  env_call _ tr (System tablename) = (ret, e) ->
  iptables_handle ctxt tablename a error p tr
  = (Ok (int_as_bool ret), set_errno e p, Ev (System tablename) ret :: tr)
  /\ int_as_bool 0 = false.
Proof.
  intros Ha Ht Hl E. split; [|done]. unfold iptables_handle.
  erewrite bind_Ok by by apply human_arg_run. unfold run_command.
  rewrite format_plain by done. cbv zeta. rewrite (proj2 (Z.leb_gt _ _) Hl).
  by rewrite (bind_syscall _ _ _ _ _ _ E).
Qed.
End CommandSpec.

(** ** Witnesses *)

Lemma ipset_handle_correct_witness :
  exists a p tr,
    parse_addr (EV := env_default) (EN := host_le) "10.1.2.3/8" ErrVar proc0 [] = (Ok (true, a), p, tr)
    /\ ipset_handle (EV := env_default) None "blacklist" a ErrVar p tr
       = (Ok true, set_errno 0 p, Ev (System "ipset -! -A blacklist4 10.1.2.3") 0 :: tr).
Proof.
  do 3 eexists. split; [vm_compute; reflexivity|].
  exact (proj2 (ipset_handle_correct (EV := env_default) (EN := host_le) "10.1.2.3/8" None "blacklist"
    (addr_of AF_INET 8 [10; 1; 2; 3] "10.1.2.3") _ _ proc0 [] ErrVar ErrVar eq_refl)).
Defined.

Lemma iptables_runs_table_witness :
  iptables_handle (EV := env_default) None "blacklist" (addr_of AF_INET 32 [1; 2; 3; 4] "1.2.3.4")
    ErrVar proc0 []
  = (Ok (int_as_bool 0), set_errno 0 proc0, [Ev (System "blacklist") 0]).
Proof.
  refine (proj1 (iptables_runs_table (EV := env_default) None "blacklist"
    (addr_of AF_INET 32 [1; 2; 3; 4] "1.2.3.4") "1.2.3.4" ErrVar proc0 [] 0 0 _ _ _ _));
    vm_compute; reflexivity.
Defined.
