(* ===== verification/Pf.v ===== *)
(** * The pf engine: [pf.c]

    An address is added to a table of the packet filter, then the states of its
    connections are killed.  [CAP_RIGHTS_LIMIT] and [CAP_IOCTLS_LIMIT] are the
    constant [true]; the parts under [#if 0] are not compiled. *)
From Stdlib Require Import ZArith Lia Ascii.
From S2P Require Import Prelude Os Libc CError Scenario Strlcpy Parse ParseSpec Engine.
#[local] Set Default Goal Selector "!".

Definition PF_TABLE_NAME_SIZE : nat := 32.
Definition O_RDWR : Z := 2.
Definition SIZEOF_DATA : Z := 4.
(** Sizes and offsets of the socket addresses. *)
Definition SIZEOF_SOCKADDR : nat := 16.
Definition SIN_ADDR : nat := 4.
Definition SIN6_ADDR : nat := 8.

(** The descriptor in the object behind a [void *]. *)
Definition data_fd (ctxt : option ctxt_t) : M proc Z :=
  match ctxt with
  | None => undef NullDeref
  | Some (PfData fd) | Some (NpfData fd) => mret fd
  | Some (CastInt _) => undef OutOfBounds
  end.

Section Pf.
Context `{EV : !Env} `{EN : !Endian}.

Definition pf_open (tablename : string) (error : errp) : M proc (option ctxt_t) :=
  block ← syscall (Malloc SIZEOF_DATA);
  match block with
  | None => set_malloc_error error SIZEOF_DATA;; mret None
  | Some _ =>
      fd ← syscall (Open "/dev/pf" O_RDWR);
      if fd =? -1 then set_system_error error "failed opening /dev/pf";; mret None
      else mret (Some (PfData fd))
  end.

(** [psk.psk_src.addr.v.a.mask], 16 bytes, set to ones and then changed. *)
Definition pf_mask (af : family) (net : Z) : list Z :=
  let mask := replicate 16 255 in
  match af with
  | AF_INET =>
      if net <? 32 then
        overwrite 0 (bytes_of (htonl (Z.shiftl 1099511627775 (32 - net) mod 2 ^ 64 mod 2 ^ 32))) mask
      else mask
  | AF_INET6 =>
      if net <? 128 then
        let q := Z.shiftr net 3 in
        let r := Z.land net 7 in
        let mask := replicate 16 0 in
        let mask := if 0 <? q then overwrite 0 (replicate (Z.to_nat q) 255) mask else mask in
        if 0 <? r then overwrite (Z.to_nat q) [Z.land (Z.shiftr 65280 r) 255] mask else mask
      else mask
  | AF_OTHER _ => mask
  end.

(** [n] bytes at offset [off] of an object. *)
Definition read_bytes (off n : nat) (bs : list Z) : M proc (list Z) :=
  if Nat.leb (off + n) (length bs) then mret (take n (drop off bs)) else undef OutOfBounds.

(** The loop over the results of [getaddrinfo]. *)
Fixpoint pf_kill (fd : Z) (res : list addrinfo) (last_src : list Z) (psk : pfioc_state_kill)
    (error : errp) : M proc bool :=
  match res with
  | [] => mret true
  | resp :: rest =>
      match ai_addr resp with
      | None => pf_kill fd rest last_src psk error
      | Some sock =>
          src ← read_bytes 0 SIZEOF_SOCKADDR sock;
          if bool_decide (last_src = src) then pf_kill fd rest last_src psk error
          else
            let last_src := src in
            let kill addr :=
              let psk := Psk (ai_family resp) (overwrite 0 addr (psk_src_addr psk)) (psk_src_mask psk) in
              ret ← syscall (Ioctl_DIOCKILLSTATES fd psk);
              if ret =? -1 then
                set_system_error error "ioctl(DIOCKILLSTATES) failed";; mret false
              else pf_kill fd rest last_src psk error in
            match ai_family resp with
            | AF_INET => addr ← read_bytes SIN_ADDR 4 sock; kill addr
            | AF_INET6 => addr ← read_bytes SIN6_ADDR 16 sock; kill addr
            | AF_OTHER n =>
                set_generic_error error ("unknown address family " +:+ pretty n);; mret false
            end
      end
  end.

Definition pf_handle (ctxt : option ctxt_t) (tablename : string) (parsed_addr : addr_t) (error : errp)
  : M proc bool :=
  match strlcpy (replicate PF_TABLE_NAME_SIZE NUL) (chars tablename ++ [NUL]) PF_TABLE_NAME_SIZE with
  | None => undef OutOfBounds
  | Some (_, pfrt_name) =>
      table ← match nul_prefix pfrt_name with None => undef OutOfBounds | Some t => mret t end;
      let addr := PfrAddr (sa parsed_addr) (fa parsed_addr) (netmask parsed_addr) in
      let psk := Psk (AF_OTHER 0) (replicate 16 0) (pf_mask (pfra_af addr) (pfra_net addr)) in
      fd ← data_fd ctxt;
      ret ← syscall (Ioctl_DIOCRADDADDRS fd table addr);
      if ret =? -1 then
        set_system_error error "ioctl(DIOCRADDADDRS) failed";; mret false
      else
        match nul_prefix (humanrepr parsed_addr) with
        | None => undef OutOfBounds
        | Some h =>
            res ← syscall (Getaddrinfo h false);
            match res with
            | inl code =>
                text ← syscall (Gai_strerror code);
                set_generic_error error ("getaddrinfo failed: " +:+ text);; mret false
            | inr res => pf_kill fd res (replicate SIZEOF_SOCKADDR 255) psk error
            end
        end
  end.

(** [close] leaves the object without descriptor; the caller frees it. *)
Definition pf_close {S} `{PR : !Program S} (ctxt : ctxt_t) : M S ctxt_t :=
  fd ← in_proc (data_fd (Some ctxt));
  if negb (fd =? -1) then
    ret ← in_proc (syscall (Close fd));
    (if negb (ret =? 0) then warnc "closing /dev/pf failed" else mret tt);;
    mret (PfData (-1))
  else mret ctxt.

Definition pf_engine {S} `{PR : !Program S} : engine_t S :=
  EngineT S true "pf" (Some pf_open) pf_handle (Some pf_close).
End Pf.

(** ** The mask *)

Lemma pf_mask4 `{EN : !Endian} n :
  0 <= n <= 32 -> take 4 (pf_mask AF_INET n) = take 4 (netmask_bytes n).
Proof.
  intros Hn.
  assert (Hall : forallb (fun k => bool_decide (take 4 (pf_mask AF_INET (Z.of_nat k))
                   = take 4 (netmask_bytes (Z.of_nat k)))) (seq 0 33) = true).
  { destruct little_endian eqn:E; unfold little_endian in E; subst; vm_compute; reflexivity. }
  rewrite forallb_forall in Hall. specialize (Hall (Z.to_nat n)).
  rewrite Z2Nat.id in Hall by lia. eapply bool_decide_eq_true_1, Hall, in_seq. lia.
Qed.

Lemma pf_mask6 `{EN : !Endian} n : 0 <= n <= 128 -> pf_mask AF_INET6 n = netmask_bytes n.
Proof.
  intros Hn.
  assert (Hall : forallb (fun k => bool_decide (pf_mask AF_INET6 (Z.of_nat k)
                   = netmask_bytes (Z.of_nat k))) (seq 0 129) = true) by (vm_compute; reflexivity).
  rewrite forallb_forall in Hall. specialize (Hall (Z.to_nat n)).
  rewrite Z2Nat.id in Hall by lia. eapply bool_decide_eq_true_1, Hall, in_seq. lia.
Qed.

(** The mask of the killed states is the mask of the network, on the bytes that
    the family has. *)
Lemma pf_mask_network `{EN : !Endian} buffer a :
  is_network buffer a ->
  take (Z.to_nat (sa_size a)) (pf_mask (fa a) (netmask a))
  = take (Z.to_nat (sa_size a)) (netmask_bytes (netmask a)).
Proof.
  intros [q n Hq Hn|q n Hq Hn]; cbn [fa netmask sa_size addr_of]; rewrite Nat2Z.id.
  - destruct (pton4_ok _ _ Hq) as [_ ->]. by apply pf_mask4.
  - destruct (pton6_ok _ _ Hq) as [_ ->]. by rewrite pf_mask6.
Qed.

(** ** Adding and killing *)

(** A well-formed result of [getaddrinfo]: the socket address is as large as its
    family says. *)
Definition sockaddr_ok (ai : addrinfo) : Prop :=
  match ai_addr ai with
  | None => True
  | Some bs => ((match ai_family ai with AF_INET6 => 28 | _ => 16 end) <= length bs)%nat
  end.

Class GaiSockOk `{EV : !Env} : Prop :=
  gai_sock_ok : forall tr node numeric res e,
    env_call _ tr (Getaddrinfo node numeric) = (inr res, e) -> Forall sockaddr_ok res.

(** The table name given to the kernel: what fits in 31 characters. *)
Definition pf_table (tablename : string) : string :=
  of_chars (take (PF_TABLE_NAME_SIZE - 1) (chars tablename)).

(** The calls [pf_handle] makes after the address was added. *)
Definition killing (fd : Z) (mask : list Z) (A : Set) (c : sys A) : Prop :=
  match c with
  | Ioctl_DIOCKILLSTATES fd' psk => fd' = fd /\ psk_src_mask psk = mask
  | Getaddrinfo _ _ => True
  | c => reporting A c
  end.

Lemma reporting_killing fd mask A c : reporting A c -> killing fd mask A c.
Proof. by destruct c. Qed.

Section PfSpec.
Context `{EV : !Env} `{EN : !Endian}.
Implicit Types (p : proc) (tr : trace).

Definition returns (P : Prop) (o : outcome bool) p' : Prop :=
  P /\ match o with
       | Ok true => p_error p' = None
       | Ok false => is_Some (p_error p')
       | _ => False
       end.

Lemma read_bytes_run off n bs p tr :
  (off + n <= length bs)%nat -> read_bytes off n bs p tr = (Ok (take n (drop off bs)), p, tr).
Proof. intros Hl. unfold read_bytes. destruct (Nat.leb_spec (off + n) (length bs)); [done|lia]. Qed.

Lemma wp_read_bytes off n bs Q p tr :
  (off + n <= length bs)%nat -> Q (Ok (take n (drop off bs))) p tr -> wp (read_bytes off n bs) Q p tr.
Proof. intros Hl HQ. unfold wp. by rewrite read_bytes_run. Qed.

Lemma wp_pf_kill `{!MallocOk} fd res : forall last_src psk p tr0 tr,
  Forall sockaddr_ok res -> p_error p = None -> grows (killing fd (psk_src_mask psk)) tr0 tr ->
  wp (pf_kill fd res last_src psk ErrVar)
    (fun o p' tr' => returns (grows (killing fd (psk_src_mask psk)) tr0 tr') o p') p tr.
Proof.
  induction res as [|[f sock] res IH]; intros last_src psk p tr0 tr Hok Hp Hg; simpl; [by apply wp_ret|].
  apply Forall_cons_iff in Hok as [Hs Hok]. unfold sockaddr_ok in Hs.
  destruct sock as [sock|]; [|by apply IH]. cbn [ai_addr ai_family] in Hs.
  wp_step. apply wp_read_bytes; [destruct f; unfold SIZEOF_SOCKADDR; lia|].
  wp_step; [by apply IH|].
  assert (Hkill : forall addr p1, p_error p1 = None ->
    wp (ret ← syscall (Ioctl_DIOCKILLSTATES fd
          (Psk f (overwrite 0 addr (psk_src_addr psk)) (psk_src_mask psk)));
        if ret =? -1 then set_system_error ErrVar "ioctl(DIOCKILLSTATES) failed";; mret false
        else pf_kill fd res (take SIZEOF_SOCKADDR (drop 0 sock))
               (Psk f (overwrite 0 addr (psk_src_addr psk)) (psk_src_mask psk)) ErrVar)
      (fun o p' tr' => returns (grows (killing fd (psk_src_mask psk)) tr0 tr') o p') p1 tr).
  { intros addr p1 Hp1. wp_step. wp_step. wp_step.
    - apply wp_report_system; [done|]. intros p2 tr2 He Hg2. split; [|done].
      eapply grows_trans; [|eapply grows_impl; [apply reporting_killing|exact Hg2]]. by constructor.
    - apply (IH _ (Psk f (overwrite 0 addr (psk_src_addr psk)) (psk_src_mask psk))); [done..|].
      by constructor. }
  destruct f as [| |m].
  - wp_step. apply wp_read_bytes; [unfold SIN_ADDR; lia|]. by apply Hkill.
  - wp_step. apply wp_read_bytes; [unfold SIN6_ADDR; lia|]. by apply Hkill.
  - apply wp_report_generic; [done|]. intros p2 tr2 He Hg2. split; [|rewrite He; by eexists].
    eapply grows_trans; [done|]. eapply grows_impl; [apply reporting_killing|exact Hg2].
Qed.

(** The table name is copied into the request. *)
Lemma pf_table_run tablename :
  str_all (fun c => negb (Ascii.eqb c NUL)) tablename = true ->
  exists l, strlcpy (replicate PF_TABLE_NAME_SIZE NUL) (chars tablename ++ [NUL]) PF_TABLE_NAME_SIZE
            = Some (strlen tablename, l) /\ nul_prefix l = Some (pf_table tablename).
Proof.
  intros Ht. eexists. split; [by apply strlcpy_correct|].
  apply strlcpy_result_reads; [done|]. rewrite length_replicate. unfold PF_TABLE_NAME_SIZE. lia.
Qed.

(** The request that adds the network [a]. *)
Definition pf_add (fd : Z) (tablename : string) (a : addr_t) : sys Z :=
  Ioctl_DIOCRADDADDRS fd (pf_table tablename) (PfrAddr (sa a) (fa a) (netmask a)).

(** What [pf_handle] guarantees. *)
Definition pf_post (fd : Z) (tablename : string) (a : addr_t) tr (o : outcome bool) p' tr' : Prop :=
  exists ret, let added := Ev (pf_add fd tablename a) ret :: tr in
  if ret =? -1 then o = Ok false /\ is_Some (p_error p') /\ grows reporting added tr'
  else returns (grows (killing fd (pf_mask (fa a) (netmask a))) added tr') o p'.

Lemma wp_pf_handle `{!MallocOk} `{!GaiSockOk} buffer a fd tablename p tr :
  str_all (fun c => negb (Ascii.eqb c NUL)) tablename = true ->
  is_network buffer a -> p_error p = None ->
  wp (pf_handle (Some (PfData fd)) tablename a ErrVar) (pf_post fd tablename a tr) p tr.
Proof.
  intros Ht Hnet Hp. destruct (network_humanrepr _ _ Hnet) as [Hh _].
  destruct (pf_table_run _ Ht) as (l & Hl & Hn). unfold pf_handle. rewrite Hl, Hn.
  wp_step. wp_step. wp_step. wp_step. wp_step. wp_step. unfold pf_post, pf_add. wp_step.
  - apply wp_report_system; [done|]. intros p2 tr2 He Hg. exists r. rewrite Heqb. done.
  - rewrite Hh. wp_step. wp_step. wp_step.
    + wp_step. wp_step. apply wp_report_generic; [done|]. intros p2 tr2 He Hg.
      exists r. rewrite Heqb. split; [|rewrite He; by eexists].
      eapply grows_trans; [|eapply grows_impl; [apply reporting_killing|exact Hg]]. repeat constructor.
    + eapply wp_mono; [|apply (wp_pf_kill fd l0 _ (Psk (AF_OTHER 0) (replicate 16 0) (pf_mask (fa a) (netmask a))))].
      * intros o p2 tr2 Hr. exists r. rewrite Heqb. exact Hr.
      * by eapply gai_sock_ok.
      * done.
      * repeat constructor.
Qed.

(** C12: [pf_handle] on a parsed address, on every answer of the system: it always
    returns; the network is given to the kernel first, and if that fails nothing
    else is done; states are killed only after the address was added, only on
    the engine's descriptor and only with the mask of the prefix; the error
    variable is set exactly when the result is [false]. *)
Theorem pf_handle_correct `{!MallocOk} `{!GaiSockOk} s e0 p0 tr0 a fd tablename p tr o p' tr' :
  str_all (fun c => negb (Ascii.eqb c NUL)) tablename = true ->
  parse_addr s e0 p0 tr0 = (Ok (true, a), p, tr) -> p_error p = None ->
  pf_handle (Some (PfData fd)) tablename a ErrVar p tr = (o, p', tr') ->
  pf_post fd tablename a tr o p' tr'.
Proof.
  intros Ht Hparse Hp Hrun.
  pose proof (wp_run _ _ _ _ _ _ _ (wp_parse_addr_sound s e0 p0 tr0) Hparse) as Hnet.
  exact (wp_run _ _ _ _ _ _ _ (wp_pf_handle (host_part s) a fd tablename p tr Ht Hnet Hp) Hrun).
Qed.

(** The bytes of the address in a socket address of a family. *)
Definition sock_addr (f : family) (sock : list Z) : list Z :=
  match f with
  | AF_INET6 => take 16 (drop SIN6_ADDR sock)
  | _ => take 4 (drop SIN_ADDR sock)
  end.

Definition pf_kill_request (f : family) (n : Z) (q : list Z) : pfioc_state_kill :=
  Psk f (padded q) (pf_mask f n).

Lemma pf_handle_run buffer a q fd tablename sock p tr r1 e1 e2 r2 e3 :
  str_all (fun c => negb (Ascii.eqb c NUL)) tablename = true ->
  is_network buffer a -> (fa a = AF_INET \/ fa a = AF_INET6) ->
  sockaddr_ok (AddrInfo (fa a) (Some sock)) -> sock_addr (fa a) sock = q ->
  take SIZEOF_SOCKADDR sock <> replicate SIZEOF_SOCKADDR 255 ->
  let add := pf_add fd tablename a in
  env_call _ tr add = (r1, e1) -> r1 <> -1 ->
  let gai := inr [AddrInfo (fa a) (Some sock)] in
  env_call _ (Ev add r1 :: tr) (Getaddrinfo buffer false) = (gai, e2) ->
  let tr2 := Ev (Getaddrinfo buffer false) gai :: Ev add r1 :: tr in
  let kill := Ioctl_DIOCKILLSTATES fd (pf_kill_request (fa a) (netmask a) q) in
  env_call _ tr2 kill = (r2, e3) -> r2 <> -1 ->
  pf_handle (Some (PfData fd)) tablename a ErrVar p tr
  = (Ok true, set_errno e3 p, Ev kill r2 :: tr2).
Proof.
  intros Ht Hnet Hf Hs Hq Hfresh add Hadd Hr1 gai Hgai tr2 kill Hkill Hr2.
  destruct (network_humanrepr _ _ Hnet) as [Hh _].
  destruct (pf_table_run _ Ht) as (l & Hl & Hn). unfold pf_handle. rewrite Hl, Hn.
  rewrite bind_ret. cbv zeta. unfold data_fd. rewrite bind_ret. cbn [pfra_af pfra_net].
  rewrite (bind_syscall _ _ _ _ _ _ Hadd), (proj2 (Z.eqb_neq r1 (-1)) Hr1), Hh.
  rewrite (bind_syscall _ _ _ _ _ _ Hgai). unfold gai. cbv beta iota. cbn [pf_kill ai_addr].
  unfold sockaddr_ok in Hs. cbn [ai_addr ai_family] in Hs.
  assert (Hlen : (16 <= length sock)%nat) by (destruct (fa a); lia).
  rewrite (bind_Ok _ _ _ _ _ _ _ (read_bytes_run 0 SIZEOF_SOCKADDR sock _ _ Hlen)).
  rewrite drop_0, bool_decide_eq_false_2 by congruence.
  assert (Hlast : forall k : M proc bool, k = mret true -> (ret ← syscall kill;
      if ret =? -1 then set_system_error ErrVar "ioctl(DIOCKILLSTATES) failed";; mret false else k)
      (set_errno e2 (set_errno e1 p)) tr2 = (Ok true, set_errno e3 p, Ev kill r2 :: tr2)).
  { intros k ->. by rewrite (bind_syscall _ _ _ _ _ _ Hkill), (proj2 (Z.eqb_neq r2 (-1)) Hr2). }
  cbn [ai_family psk_src_addr psk_src_mask]. unfold kill, pf_kill_request, padded in *.
  subst q. destruct a as [bs f sz n h]; cbn [fa netmask] in *.
  destruct Hf as [->| ->]; cbn [sock_addr] in *; (erewrite bind_Ok; [by apply Hlast|]);
    apply read_bytes_run; unfold SIN_ADDR, SIN6_ADDR; lia.
Qed.

Lemma take_zip_with {A B C} (f : A -> B -> C) n l k :
  take n (zip_with f l k) = zip_with f (take n l) (take n k).
Proof. revert l k. induction n; intros [|] [|]; simpl; try done. by f_equal. Qed.

(** C7: on a system that resolves a numeric address to itself and accepts both
    requests, banning a message that [parse_addr] accepted adds its network to
    the table and then kills exactly the states whose source lies in that
    network: the address of the request under its mask is, on the bytes of the
    family, the address put into the table. *)
Theorem pf_bans_network s e0 p0 tr0 a fd tablename sock p tr r1 e1 e2 r2 e3 :
  str_all (fun c => negb (Ascii.eqb c NUL)) tablename = true ->
  parse_addr s e0 p0 tr0 = (Ok (true, a), p, tr) ->
  sockaddr_ok (AddrInfo (fa a) (Some sock)) ->
  (if decide (fa a = AF_INET) then inet_pton4 (host_part s) else inet_pton6 (host_part s))
    = Some (sock_addr (fa a) sock) ->
  take SIZEOF_SOCKADDR sock <> replicate SIZEOF_SOCKADDR 255 ->
  let add := pf_add fd tablename a in
  env_call _ tr add = (r1, e1) -> r1 <> -1 ->
  let gai := inr [AddrInfo (fa a) (Some sock)] in
  env_call _ (Ev add r1 :: tr) (Getaddrinfo (host_part s) false) = (gai, e2) ->
  let tr2 := Ev (Getaddrinfo (host_part s) false) gai :: Ev add r1 :: tr in
  let req := pf_kill_request (fa a) (netmask a) (sock_addr (fa a) sock) in
  env_call _ tr2 (Ioctl_DIOCKILLSTATES fd req) = (r2, e3) -> r2 <> -1 ->
  pf_handle (Some (PfData fd)) tablename a ErrVar p tr
    = (Ok true, set_errno e3 p, Ev (Ioctl_DIOCKILLSTATES fd req) r2 :: tr2)
  /\ take (Z.to_nat (sa_size a)) (zip_with Z.land (psk_src_addr req) (psk_src_mask req))
     = take (Z.to_nat (sa_size a)) (sa a).
Proof.
  intros Ht Hparse Hs Hq Hfresh add Hadd Hr1 gai Hgai tr2 req Hkill Hr2.
  pose proof (wp_run _ _ _ _ _ _ _ (wp_parse_addr_sound s e0 p0 tr0) Hparse) as Hnet.
  split.
  - eapply pf_handle_run; eauto. inversion Hnet; auto.
  - cbn [psk_src_addr psk_src_mask req pf_kill_request].
    rewrite take_zip_with, (pf_mask_network _ _ Hnet), <- take_zip_with. f_equal.
    remember (sock_addr (fa a) sock) as q eqn:Eq. clear Eq.
    inversion Hnet as [q' n Hq' Hn Ea|q' n Hq' Hn Ea]; subst a; cbn [sa fa netmask addr_of] in *;
      simpl in Hq; congruence.
Qed.
End PfSpec.

(** ** Witnesses *)

#[export] Instance env_default_gai_sock : GaiSockOk (EV := env_default).
Proof.
  intros tr node numeric res e [= Hr _]. unfold resolve in Hr.
  destruct (inet_pton4 node) as [q|] eqn:E4; [|destruct (inet_pton6 node) as [q|] eqn:E6];
    simplify_eq; (constructor; [|constructor]); unfold sockaddr_ok; simpl;
    rewrite length_app; [destruct (pton4_ok _ _ E4) as [_ ->]|destruct (pton6_ok _ _ E6) as [_ ->]];
    simpl; lia.
Qed.

Definition banned : addr_t := addr_of AF_INET 8 [10; 1; 2; 3] "10.1.2.3".
Definition after_parse : trace :=
  [Ev (Getaddrinfo "10.1.2.3" true) (resolve "10.1.2.3"); Ev (Strdup "10.1.2.3/8") true].

Lemma pf_handle_correct_witness :
  exists o p' tr',
    pf_handle (EV := env_default) (EN := host_le) (Some (PfData 6)) "blacklist" banned ErrVar
      proc0 after_parse = (o, p', tr')
    /\ pf_post (EN := host_le) 6 "blacklist" banned after_parse o p' tr'.
Proof.
  destruct (pf_handle (EV := env_default) (EN := host_le) (Some (PfData 6)) "blacklist" banned ErrVar
      proc0 after_parse) as [[o p'] tr'] eqn:E.
  exists o, p', tr'. split; [reflexivity|].
  refine (pf_handle_correct (EV := env_default) (EN := host_le) "10.1.2.3/8" ErrVar proc0 [] banned 6
    "blacklist" proc0 after_parse o p' tr' _ _ _ E); vm_compute; reflexivity.
Defined.

Lemma pf_bans_network_witness :
  take 4 (zip_with Z.land (padded [10; 1; 2; 3]) (pf_mask (EN := host_le) AF_INET 8)) = [10; 0; 0; 0].
Proof.
  refine (proj2 (pf_bans_network (EV := env_default) (EN := host_le) "10.1.2.3/8" ErrVar proc0 []
    banned 6 "blacklist" (sockaddr_bytes AF_INET [10; 1; 2; 3]) proc0 after_parse 0 0 0 0 0
    _ _ _ _ _ _ _ _ _ _)); try (vm_compute; reflexivity); try (vm_compute; discriminate).
Defined.
