(* ===== verification/Npf.v ===== *)
(** * The npf engine: [npf.c]

    Two slips of the source that keep it from compiling are read as they are
    meant: the parenthesis missing on line 20 and the first argument missing in
    [set_system_error] on line 27. *)
From Stdlib Require Import ZArith Lia Ascii.
From S2P Require Import Prelude Os Libc CError Scenario Strlcpy Parse ParseSpec Engine Pf.
#[local] Set Default Goal Selector "!".

Definition NPF_NO_NETMASK : Z := 255.
Definition O_WRONLY_NPF : Z := 1.

(** [NPF_ALLOW_NAMED_TABLE]: whether tables have names or numbers. *)
Class NpfNamed := npf_named : bool.

(** [atoi], the [int] of the leading number. *)
Definition atoi (s : string) : Z :=
  let v := su_val (strtoul s) mod 2 ^ 32 in if v <? 2 ^ 31 then v else v - 2 ^ 32.

Section Npf.
Context `{EV : !Env} `{NM : !NpfNamed}.

Definition npf_open (tablename : string) (error : errp) : M proc (option ctxt_t) :=
  block ← syscall (Malloc SIZEOF_DATA);
  match block with
  | None => set_malloc_error error SIZEOF_DATA;; mret None
  | Some _ =>
      fd ← syscall (Open "/dev/npf" O_WRONLY_NPF);
      if fd =? -1 then set_system_error error "failed opening /dev/npf";; mret None
      else mret (Some (NpfData fd))
  end.

Definition npf_handle (ctxt : option ctxt_t) (tablename : string) (addr : addr_t) (error : errp)
  : M proc bool :=
  let table := if npf_named then inl tablename else inr (atoi tablename) in
  let nct := Nct table NPF_NO_NETMASK (sa_size addr) (take (Z.to_nat (sa_size addr)) (sa addr)) in
  fd ← data_fd ctxt;
  ret ← syscall (Ioctl_NPF_TABLE fd nct);
  if ret =? -1 then
    set_system_error error "ioctl(IOC_NPF_TABLE) failed";; mret false
  else mret true.

Definition npf_close {S} `{PR : !Program S} (ctxt : ctxt_t) : M S ctxt_t :=
  fd ← in_proc (data_fd (Some ctxt));
  if negb (fd =? -1) then
    ret ← in_proc (syscall (Close fd));
    (if negb (ret =? 0) then warnc "closing /dev/npf failed" else mret tt);;
    mret (NpfData (-1))
  else mret ctxt.

Definition npf_engine {S} `{PR : !Program S} : engine_t S :=
  EngineT S true "npf" (Some npf_open) npf_handle (Some npf_close).

(** ** What is put into the table *)

(** C32: for a message that [parse_addr] accepts, [npf_handle] makes one request,
    with the bytes of the masked address and their number but always with the
    mask [NPF_NO_NETMASK]: the prefix length of the message is lost, so a
    network message bans only the first address of the network.  The result is
    [true] exactly when the request is accepted; otherwise one error is
    stored. *)
Theorem npf_handle_correct `{!MallocOk} `{EN : !Endian} s e0 p0 tr0 a fd tablename p tr ret e :
  parse_addr s e0 p0 tr0 = (Ok (true, a), p, tr) -> p_error p = None ->
  let table := if npf_named then inl tablename else inr (atoi tablename) in
  let k := if decide (fa a = AF_INET) then 4%nat else 16%nat in
  let nct := Nct table NPF_NO_NETMASK (Z.of_nat k) (take k (sa a)) in
  env_call _ tr (Ioctl_NPF_TABLE fd nct) = (ret, e) ->
  exists p' tr',
    npf_handle (Some (NpfData fd)) tablename a ErrVar p tr = (Ok (negb (ret =? -1)), p', tr')
    /\ grows reporting (Ev (Ioctl_NPF_TABLE fd nct) ret :: tr) tr'
    /\ (ret <> -1 -> p_error p' = None) /\ (ret = -1 -> is_Some (p_error p')).
Proof.
  intros Hparse Hp table k nct Hio.
  pose proof (wp_run _ _ _ _ _ _ _ (wp_parse_addr_sound s e0 p0 tr0) Hparse) as Hnet.
  assert (Hk : sa_size a = Z.of_nat k).
  { unfold k. inversion Hnet as [q n Hq Hn Ea|q n Hq Hn Ea]; subst a; cbn [sa_size addr_of fa];
      [by destruct (pton4_ok _ _ Hq) as [_ ->]|by destruct (pton6_ok _ _ Hq) as [_ ->]]. }
  unfold npf_handle, data_fd. rewrite bind_ret, Hk, Nat2Z.id.
  fold table. fold nct. rewrite (bind_syscall _ _ _ _ _ _ Hio).
  apply (wp_result _ (fun res => exists p' tr', res = (Ok (negb (ret =? -1)), p', tr')
    /\ grows reporting (Ev (Ioctl_NPF_TABLE fd nct) ret :: tr) tr'
    /\ (ret <> -1 -> p_error p' = None) /\ (ret = -1 -> is_Some (p_error p')))).
  destruct (ret =? -1) eqn:E; bools.
  - apply wp_report_system; [done|]. intros p' tr' He Hg. exists p', tr'. by split_and!.
  - apply wp_ret. do 2 eexists. split; [done|]. split_and!; [constructor|done|done].
Qed.
End Npf.

Lemma npf_handle_correct_witness :
  exists p' tr',
    npf_handle (EV := env_default) (NM := true) (Some (NpfData 6)) "1" banned ErrVar proc0 after_parse
    = (Ok true, p', tr')
    /\ grows reporting (Ev (Ioctl_NPF_TABLE 6 (Nct (inl "1") 255 4 [10; 0; 0; 0])) 0 :: after_parse) tr'
    /\ (0 <> -1 -> p_error p' = None) /\ (0 = -1 -> is_Some (p_error p')).
Proof.
  refine (npf_handle_correct (EV := env_default) (NM := true) (EN := host_le) "10.1.2.3/8" ErrVar
    proc0 [] banned 6 "1" proc0 after_parse 0 0 _ _ _); vm_compute; reflexivity.
Defined.
