(* ===== verification/Nftables.v ===== *)
(** * The nftables engine: [nftables.c]

    A ban is a netlink message that adds an element to a set; the engine sends it
    and reads the kernel's answers.  libmnl and libnftnl are called through
    [sys], so nothing is assumed of them beyond the named classes below.

    Slips of the source that keep it from compiling are read as they are meant:
    the parenthesis missing on line 50 and the first argument missing in
    [set_system_error] on lines 57 and 63.  The record [nftables_engine] cannot
    be read that way: its initialiser has no [drop_privileges], which puts each
    function into the field before its own, so the registry keeps the engine as
    a parameter. *)
From Stdlib Require Import ZArith Lia Ascii.
From S2P Require Import Prelude Os Libc CError Scenario Strlcpy Parse ParseSpec Engine.
#[local] Set Default Goal Selector "!".

Definition MNL_SOCKET_BUFFER_SIZE : Z := 8192.
(** The object: four bytes, padding, three pointers and the buffer. *)
Definition SIZEOF_NFTABLES_DATA : Z := 8224.
Definition NETLINK_GENERIC : Z := 16.
Definition MNL_SOCKET_AUTOPID : Z := 0.
Definition NFT_SET_ATTR_TABLE : Z := 0.
Definition NFT_SET_ATTR_NAME : Z := 1.
Definition NFT_SET_ELEM_ATTR_KEY : Z := 1.
Definition NFT_MSG_NEWSETELEM : Z := 12.
Definition NFPROTO_IPV4 : Z := 2.
Definition NFPROTO_IPV6 : Z := 10.
Definition NLM_F_ACK : Z := 4.
Definition NLM_F_EXCL : Z := 512.
Definition NLM_F_CREATE : Z := 1024.

(** The object behind the [void *]: the handles of the two libraries, 0 for NULL.
    [buf] is only scratch space of one call, so it is a value of that call. *)
Record nftables_data_t :=
  NftData { nft_portid : Z; nft_s : Z; nft_nl : Z; nft_e : Z }.

#[export] Instance nftables_data_eq_dec : EqDecision nftables_data_t.
Proof. solve_decision. Defined.

Section Nftables.
Context `{EV : !Env} `{EN : !Endian}.

Definition nftables_open (tablename : string) (error : errp) : M proc (option nftables_data_t) :=
  block ← syscall (Malloc SIZEOF_NFTABLES_DATA);
  match block with
  | None => set_malloc_error error SIZEOF_NFTABLES_DATA;; mret None
  | Some _ =>
      nl ← syscall (Mnl_socket_open NETLINK_GENERIC);
      if nl =? 0 then set_system_error error "mnl_socket_open failed";; mret None
      else
        ret ← syscall (Mnl_socket_bind nl 0 MNL_SOCKET_AUTOPID);
        if ret <? 0 then set_system_error error "mnl_socket_bind failed";; mret None
        else
          portid ← syscall (Mnl_socket_get_portid nl);
          s ← syscall Nft_set_alloc;
          let e := 0 in
          syscall (Nft_set_attr_set s NFT_SET_ATTR_TABLE "filter");;
          mret (Some (NftData (portid mod 2 ^ 32) s nl e))
  end.

(** The loop that reads the answers, with the result of the last
    [mnl_socket_recvfrom] and the bytes it left in [buf]; [None] when the fuel is
    used up while answers still come. *)
Fixpoint nftables_answers (fuel : nat) (data : nftables_data_t) (seq ret : Z) (buf : list ascii)
    (error : errp) : M proc (option bool) :=
  if 0 <? ret then
    match fuel with
    | O => mret None
    | S fuel =>
        ret ← syscall (Mnl_cb_run (take (Z.to_nat ret) buf) seq (nft_portid data));
        if ret <=? 0 then
          set_system_error error "mnl_cb_run failed";; mret (Some false)
        else
          '(ret, buf) ← syscall (Mnl_socket_recvfrom (nft_nl data) MNL_SOCKET_BUFFER_SIZE);
          nftables_answers fuel data seq ret buf error
    end
  else if ret =? -1 then
    set_system_error error "mnl_socket_recvfrom failed";; mret (Some false)
  else mret (Some true).

Definition nftables_handle (fuel : nat) (ctxt : option nftables_data_t) (tablename : string)
    (addr : addr_t) (error : errp) : M proc (option bool) :=
  now ← syscall Time;
  let seq := now mod 2 ^ 32 in
  let xxx := 3 in
  e ← syscall Nft_set_elem_alloc;
  let family := if decide (fa addr = AF_INET) then NFPROTO_IPV4 else NFPROTO_IPV6 in
  match ctxt with
  | None => undef NullDeref
  | Some data =>
      syscall (Nft_set_attr_set (nft_s data) NFT_SET_ATTR_NAME tablename);;
      syscall (Nft_set_elem_attr_set e NFT_SET_ELEM_ATTR_KEY (bytes_of xxx));;
      syscall (Nft_set_elem_add (nft_s data) e);;
      nlh ← syscall (Nft_set_nlmsg_build_hdr NFT_MSG_NEWSETELEM family
                       (Z.lor (Z.lor NLM_F_CREATE NLM_F_EXCL) NLM_F_ACK) seq);
      len ← syscall (Nft_set_elems_nlmsg_build_payload nlh (nft_s data));
      ret ← syscall (Mnl_socket_sendto (nft_nl data) nlh len);
      if ret <? 0 then
        set_system_error error "mnl_socket_sendto failed";; mret (Some false)
      else
        '(ret, buf) ← syscall (Mnl_socket_recvfrom (nft_nl data) MNL_SOCKET_BUFFER_SIZE);
        nftables_answers fuel data seq ret buf error
  end.

(** What is left of the object. *)
Definition nftables_close (data : nftables_data_t) : M proc nftables_data_t :=
  e ← (if negb (nft_e data =? 0) then syscall (Nft_set_elem_free (nft_e data));; mret 0
       else mret (nft_e data));
  s ← (if negb (nft_s data =? 0) then syscall (Nft_set_free (nft_s data));; mret 0
       else mret (nft_s data));
  nl ← (if negb (nft_nl data =? 0) then syscall (Mnl_socket_close (nft_nl data));; mret 0
        else mret (nft_nl data));
  mret (NftData (nft_portid data) s nl e).
End Nftables.

Arguments nftables_answers : simpl never.

(** ** Reading the history *)

(** The key last given to an element. *)
Fixpoint elem_key (e : Z) (tr : trace) : option (list Z) :=
  match tr with
  | [] => None
  | Ev c _ :: tr =>
      match c with
      | Nft_set_elem_attr_set e' attr v =>
          if (e' =? e) && (attr =? NFT_SET_ELEM_ATTR_KEY) then Some v else elem_key e tr
      | _ => elem_key e tr
      end
  end.

(** The keys of the elements put into a set, latest first. *)
Fixpoint set_keys (s : Z) (tr : trace) : list (option (list Z)) :=
  match tr with
  | [] => []
  | Ev c _ :: tr =>
      match c with
      | Nft_set_elem_add s' e =>
          if s' =? s then elem_key e tr :: set_keys s tr else set_keys s tr
      | _ => set_keys s tr
      end
  end.

(** Positive answers of [mnl_cb_run] since the last request. *)
Fixpoint replies (tr : trace) : nat :=
  match tr with
  | [] => 0
  | @Ev A c r :: tr =>
      match c in sys A return A -> nat with
      | Mnl_cb_run _ _ _ => fun r => if 0 <? r then S (replies tr) else replies tr
      | Mnl_socket_sendto _ _ _ => fun _ => O
      | _ => fun _ => replies tr
      end r
  end.

(** Sockets opened and not closed. *)
Fixpoint live_sockets (tr : trace) : Z :=
  match tr with
  | [] => 0
  | @Ev A c r :: tr =>
      match c in sys A return A -> Z with
      | Mnl_socket_open _ => fun r => (if r =? 0 then 0 else 1) + live_sockets tr
      | Mnl_socket_close _ => fun _ => live_sockets tr - 1
      | _ => fun _ => live_sockets tr
      end r
  end.

(** What the engine relies on: a request has at most [n] answers before the one
    that ends it. *)
Class ReplyBound `{EV : !Env} (n : nat) : Prop :=
  reply_bound : forall tr buf seq portid r e,
    (n <= replies tr)%nat -> env_call _ tr (Mnl_cb_run buf seq portid) = (r, e) -> r <= 0.

(** A netlink socket delivers a message, which is not empty, or fails. *)
Class NetlinkRecv `{EV : !Env} : Prop :=
  netlink_recv : forall tr nl size r buf e,
    env_call _ tr (Mnl_socket_recvfrom nl size) = (r, buf, e) -> 0 < r \/ r = -1.

(** ** The answers *)

(** The calls of the loop. *)
Definition answering (A : Set) (c : sys A) : Prop :=
  match c with
  | Mnl_socket_recvfrom _ _ | Mnl_cb_run _ _ _ => True
  | c => reporting A c
  end.

Lemma reporting_answering A c : reporting A c -> answering A c.
Proof. by destruct c. Qed.

Lemma set_keys_answering s tr tr' : grows answering tr tr' -> set_keys s tr' = set_keys s tr.
Proof. induction 1 as [|A c r tr' Hc _ IH]; [done|]. by destruct c. Qed.

Lemma live_sockets_reporting tr tr' : grows reporting tr tr' -> live_sockets tr' = live_sockets tr.
Proof. induction 1 as [|A c r tr' Hc _ IH]; [done|]. by destruct c. Qed.

Section Spec.
Context `{EV : !Env} `{EN : !Endian}.
Implicit Types (p : proc) (tr : trace).

Lemma report_false_some error msg p tr o p' tr' :
  (set_system_error error msg ≫= fun _ => mret (Some false)) p tr = (o, p', tr') -> o <> Ok None.
Proof.
  intros H. refine (wp_run _ (fun o _ _ => o <> Ok None) _ _ _ _ _ _ H).
  apply wp_bind, wp_system_error_any. intros ? ? ? _ [->|[u ->]]; by try apply wp_ret.
Qed.

(** The loop with enough fuel: one result, whatever the fuel. *)
Lemma answers_terminate n `{!ReplyBound n} data seq error k : forall ret buf p tr,
  (n - replies tr <= k)%nat ->
  exists o p' tr', o <> Ok None /\
    forall fuel, (n - replies tr < fuel)%nat ->
      nftables_answers fuel data seq ret buf error p tr = (o, p', tr').
Proof.
  induction k as [k IH] using lt_wf_ind. intros ret buf p tr Hk.
  destruct (0 <? ret) eqn:Eret.
  2: { destruct (nftables_answers 0 data seq ret buf error p tr) as [[o p'] tr'] eqn:E.
       exists o, p', tr'. unfold nftables_answers in *. cbn [nftables_answers] in E.
       rewrite Eret in E. split.
       - destruct (ret =? -1); [by eapply report_false_some|]. by injection E as <- <- <-.
       - intros [|fuel] Hf; [lia|]. by rewrite Eret. }
  destruct (env_call _ tr (Mnl_cb_run (take (Z.to_nat ret) buf) seq (nft_portid data)))
    as [r e] eqn:Ecb.
  destruct (r <=? 0) eqn:Er; bools.
  - destruct ((set_system_error error "mnl_cb_run failed" ≫= fun _ => mret (Some false))
      (set_errno e p) (Ev (Mnl_cb_run (take (Z.to_nat ret) buf) seq (nft_portid data)) r :: tr))
      as [[o p'] tr'] eqn:E.
    exists o, p', tr'. split; [by eapply report_false_some|].
    intros [|fuel] Hf; [lia|]. unfold nftables_answers. rewrite (proj2 (Z.ltb_lt _ _)) by lia.
    rewrite (bind_syscall _ _ _ _ _ _ Ecb). by rewrite (proj2 (Z.leb_le _ _)) by lia.
  - set (tr1 := Ev (Mnl_cb_run (take (Z.to_nat ret) buf) seq (nft_portid data)) r :: tr).
    destruct (env_call _ tr1 (Mnl_socket_recvfrom (nft_nl data) MNL_SOCKET_BUFFER_SIZE))
      as [[ret' buf'] e'] eqn:Ercv.
    set (tr2 := Ev (Mnl_socket_recvfrom (nft_nl data) MNL_SOCKET_BUFFER_SIZE) (ret', buf') :: tr1).
    assert (Hrep : replies tr2 = S (replies tr)).
    { unfold tr2, tr1. cbn [replies]. by rewrite (proj2 (Z.ltb_lt _ _)) by lia. }
    assert (Hlt : (replies tr < n)%nat).
    { destruct (Nat.lt_ge_cases (replies tr) n) as [|Hge]; [done|].
      pose proof (reply_bound _ _ _ _ _ _ Hge Ecb). lia. }
    destruct (IH (n - replies tr2)%nat ltac:(lia) ret' buf' (set_errno e' (set_errno e p)) tr2)
      as (o & p' & tr' & Ho & Hrun); [lia|].
    exists o, p', tr'. split; [done|]. intros [|fuel] Hf; [lia|].
    unfold nftables_answers. rewrite (proj2 (Z.ltb_lt 0 ret)) by lia.
    rewrite (bind_syscall _ _ _ _ _ _ Ecb). rewrite (proj2 (Z.leb_gt _ _)) by lia.
    rewrite (bind_syscall _ _ _ _ _ _ Ercv). apply Hrun. lia.
Qed.

(** How the loop ends, for any fuel. *)
Definition answered tr (o : outcome (option bool)) p' tr' : Prop :=
  grows answering tr tr'
  /\ match o with
  | Ok (Some true) =>
      p_error p' = None /\ exists nl size r buf e tr1,
        env_call _ tr1 (Mnl_socket_recvfrom nl size) = (r, buf, e) /\ r <= 0 /\ r <> -1
  | Ok (Some false) => is_Some (p_error p')
  | Ok None => True
  | _ => False
  end.

Lemma answered_report `{!MallocOk} msg p tr :
  p_error p = None ->
  wp (set_system_error ErrVar msg ≫= fun _ => mret (Some false)) (answered tr) p tr.
Proof.
  intros Hp. apply wp_report_system; [done|]. intros p' tr' He Hg.
  split; [by eapply grows_impl, Hg; apply reporting_answering|done].
Qed.

Lemma answered_after tr tr1 o p' tr' :
  grows answering tr tr1 -> answered tr1 o p' tr' -> answered tr o p' tr'.
Proof. intros Hg [Hg' Ho]. split; [by eapply grows_trans|done]. Qed.

Lemma wp_answers `{!MallocOk} fuel data seq : forall ret buf p tr tr0 e0,
  p_error p = None ->
  env_call _ tr0 (Mnl_socket_recvfrom (nft_nl data) MNL_SOCKET_BUFFER_SIZE) = (ret, buf, e0) ->
  wp (nftables_answers fuel data seq ret buf ErrVar) (answered tr) p tr.
Proof.
  induction fuel as [|fuel IH]; intros ret buf p tr tr0 e0 Hp Hrcv; unfold nftables_answers;
    destruct (0 <? ret) eqn:Eret; bools.
  1, 3: try (apply wp_ret; split; [constructor|done]).
  - apply wp_bind, wp_syscall. intros r e _. cbv beta iota. destruct (r <=? 0).
    + eapply wp_mono; [|by apply answered_report]. intros. eapply answered_after; [|done].
      repeat constructor.
    + apply wp_bind, wp_syscall. intros [ret' buf'] e' Hrcv'. cbv beta iota.
      eapply wp_mono; [|by eapply IH]. intros. eapply answered_after; [|done]. repeat constructor.
  - destruct (ret =? -1) eqn:E1; bools; [by apply answered_report|].
    apply wp_ret. split; [constructor|]. split; [done|]. do 6 eexists. split; [done|lia].
  - destruct (ret =? -1) eqn:E1; bools; [by apply answered_report|].
    apply wp_ret. split; [constructor|]. split; [done|]. do 6 eexists. split; [done|lia].
Qed.

(** The request [nftables_handle] has built and sent. *)
Inductive nft_request (data : nftables_data_t) (tablename : string) (f : family) tr : trace -> Prop :=
| NftRequest now e nlh len ret :
    nft_request data tablename f tr
      (Ev (Mnl_socket_sendto (nft_nl data) nlh len) ret
       :: Ev (Nft_set_elems_nlmsg_build_payload nlh (nft_s data)) len
       :: Ev (Nft_set_nlmsg_build_hdr NFT_MSG_NEWSETELEM
               (if decide (f = AF_INET) then NFPROTO_IPV4 else NFPROTO_IPV6) 1540 (now mod 2 ^ 32)) nlh
       :: Ev (Nft_set_elem_add (nft_s data) e) tt
       :: Ev (Nft_set_elem_attr_set e NFT_SET_ELEM_ATTR_KEY (bytes_of 3)) tt
       :: Ev (Nft_set_attr_set (nft_s data) NFT_SET_ATTR_NAME tablename) tt
       :: Ev Nft_set_elem_alloc e :: Ev Time now :: tr).

Lemma nft_request_keys data tablename f tr tr1 :
  nft_request data tablename f tr tr1 ->
  set_keys (nft_s data) tr1 = Some (bytes_of 3) :: set_keys (nft_s data) tr.
Proof. intros []. cbn [set_keys elem_key]. by rewrite !Z.eqb_refl. Qed.

Lemma wp_nftables_handle `{!MallocOk} fuel data tablename addr p tr :
  p_error p = None ->
  wp (nftables_handle fuel (Some data) tablename addr ErrVar)
     (fun o p' tr' => exists tr1, nft_request data tablename (fa addr) tr tr1 /\ answered tr1 o p' tr')
     p tr.
Proof.
  intros Hp. unfold nftables_handle.
  apply wp_bind, wp_syscall; intros now ? _; cbv beta iota.
  apply wp_bind, wp_syscall; intros elt ? _; cbv beta iota.
  do 3 (apply wp_bind, wp_syscall; intros [] ? _; cbv beta iota).
  apply wp_bind, wp_syscall; intros nlh ? _; cbv beta iota.
  apply wp_bind, wp_syscall; intros len ? _; cbv beta iota.
  apply wp_bind, wp_syscall; intros ret ? _; cbv beta iota.
  destruct (ret <? 0).
  - eapply wp_mono; [|by apply answered_report]. intros o p' tr' Ha.
    eexists. split; [constructor|exact Ha].
  - apply wp_bind, wp_syscall; intros [ret' buf] ? Hrcv; cbv beta iota.
    eapply wp_mono; [|by eapply wp_answers]. intros o p' tr' Ha.
    eexists. split; [constructor|]. eapply answered_after; [|exact Ha]. repeat constructor.
Qed.

(** A program with a fuel argument that has one finished result for every fuel
    above [n]. *)
Definition settles {A} (n : nat) (m : nat -> M proc (option A)) : Prop :=
  forall p tr, exists o p' tr', o <> Ok None
    /\ forall fuel, (n < fuel)%nat -> m fuel p tr = (o, p', tr').

Lemma settles_call {A} {B : Set} n (c : sys B) (k : nat -> B -> M proc (option A)) :
  (forall r, settles n (fun fuel => k fuel r)) -> settles n (fun fuel => syscall c ≫= k fuel).
Proof.
  intros Hk p tr. destruct (env_call B tr c) as [r e] eqn:E.
  destruct (Hk r (set_errno e p) (Ev c r :: tr)) as (o & p' & tr' & Ho & Hrun).
  exists o, p', tr'. split; [done|]. intros fuel Hf.
  rewrite (bind_syscall _ _ _ _ _ _ E). by apply Hrun.
Qed.

(** C19: when a request has at most [n] answers before the one that ends it,
    [nftables_handle] returns: one result is the result for every amount of fuel
    above [n], and it is never the unfinished one. *)
Theorem nftables_handle_terminates n `{!ReplyBound n} data tablename addr error :
  settles n (fun fuel => nftables_handle fuel (Some data) tablename addr error).
Proof.
  unfold nftables_handle. apply settles_call; intros now. do 7 (apply settles_call; intros ?).
  destruct (_ <? 0).
  - intros p tr. destruct ((set_system_error error "mnl_socket_sendto failed"
      ≫= fun _ => mret (Some false)) p tr) as [[o p'] tr'] eqn:E.
    exists o, p', tr'. split; [by eapply report_false_some|done].
  - apply settles_call. intros [ret buf] p tr.
    destruct (answers_terminate n data (now mod 2 ^ 32) error n ret buf p tr)
      as (o & p' & tr' & Ho & Hrun); [lia|].
    exists o, p', tr'. split; [done|]. intros fuel Hf. apply Hrun. lia.
Qed.

(** C20: every call of [nftables_handle], for whatever address, puts one more
    element with the key 3 into the engine's set and sends all elements to the
    table: of the address only the family is used, and earlier elements are never
    taken out.  The call returns [true] only after an empty answer, so on a
    netlink socket, whose messages are not empty, it never returns [true]: even
    an acknowledged request is reported as an error. *)
Theorem nftables_handle_bans `{!MallocOk} fuel data tablename addr p tr o p' tr' :
  p_error p = None ->
  nftables_handle fuel (Some data) tablename addr ErrVar p tr = (o, p', tr') ->
  (exists tr1, nft_request data tablename (fa addr) tr tr1 /\ grows answering tr1 tr')
  /\ set_keys (nft_s data) tr' = Some (bytes_of 3) :: set_keys (nft_s data) tr
  /\ (o = Ok (Some true) -> p_error p' = None)
  /\ (o = Ok (Some false) -> is_Some (p_error p'))
  /\ (NetlinkRecv -> o = Ok None \/ o = Ok (Some false)).
Proof.
  intros Hp Hrun.
  destruct (wp_run _ _ _ _ _ _ _ (wp_nftables_handle fuel data tablename addr p tr Hp) Hrun)
    as (tr1 & Hreq & Hg & Ho).
  split; [by exists tr1|]. split.
  { by rewrite (set_keys_answering _ _ _ Hg), (nft_request_keys _ _ _ _ _ Hreq). }
  split; [intros ->; tauto|]. split; [by intros ->|]. intros Hnl.
  destruct o as [[[]|]| | |]; try done; [|by right|by left].
  destruct Ho as (_ & nl & size & r & buf & e & tr2 & Hcall & Hr & Hr').
  destruct (Hnl _ _ _ _ _ _ Hcall); lia.
Qed.
(** ** Opening and closing *)

Lemma nftables_close_run data p tr :
  exists p' tr',
    nftables_close data p tr = (Ok (NftData (nft_portid data) 0 0 0), p', tr')
    /\ p_error p' = p_error p
    /\ live_sockets tr' = live_sockets tr - (if nft_nl data =? 0 then 0 else 1).
Proof.
  apply (wp_result _ (fun res => exists p' tr', res = (Ok (NftData (nft_portid data) 0 0 0), p', tr')
    /\ p_error p' = p_error p
    /\ live_sockets tr' = live_sockets tr - (if nft_nl data =? 0 then 0 else 1))).
  unfold nftables_close.
  destruct (nft_e data =? 0) eqn:E1, (nft_s data =? 0) eqn:E2, (nft_nl data =? 0) eqn:E3; bools;
    cbn [negb];
    repeat first [ apply wp_bind | apply wp_syscall; intros ? ? _; cbv beta iota
                 | apply wp_ret; cbv beta iota ];
    rewrite ?E1, ?E2, ?E3; do 2 eexists; (split; [done|]); split; first [done | cbn [live_sockets]; lia].
Qed.

Lemma nftables_close_again portid p tr :
  nftables_close (NftData portid 0 0 0) p tr = (Ok (NftData portid 0 0 0), p, tr).
Proof. done. Qed.

(** What [nftables_open] gives.  Without a socket nothing was opened; when the
    socket cannot be bound, the error is reported and no other call made, so that
    the socket stays open with no pointer to it. *)
Definition nft_opened tr (o : outcome (option nftables_data_t)) p' tr' : Prop :=
  match o with
  | Ok (Some data) =>
      p_error p' = None /\ nft_nl data <> 0 /\ nft_e data = 0 /\ 0 <= nft_portid data < 2 ^ 32
      /\ live_sockets tr' = live_sockets tr + 1
  | Ok None =>
      is_Some (p_error p') /\ exists block nl, let tr1 :=
        Ev (Mnl_socket_open NETLINK_GENERIC) nl :: Ev (Malloc SIZEOF_NFTABLES_DATA) (Some block) :: tr in
      if nl =? 0 then grows reporting tr1 tr' /\ live_sockets tr' = live_sockets tr
      else exists r, r < 0
        /\ grows reporting (Ev (Mnl_socket_bind nl 0 MNL_SOCKET_AUTOPID) r :: tr1) tr'
        /\ live_sockets tr' = live_sockets tr + 1
  | _ => False
  end.

Lemma wp_nftables_open `{!MallocOk} tablename p tr :
  p_error p = None -> wp (nftables_open tablename ErrVar) (nft_opened tr) p tr.
Proof.
  intros Hp. unfold nftables_open. apply wp_bind, wp_syscall; intros block ? Hm; cbv beta iota.
  destruct block as [block|]; [|by destruct (malloc_ok tr SIZEOF_NFTABLES_DATA) as (? & ? & ?); congruence].
  apply wp_bind, wp_syscall; intros nl ? _; cbv beta iota. destruct (nl =? 0) eqn:Enl.
  { apply wp_report_system; [done|]. intros p' tr' He Hg. split; [done|]. exists block, nl. cbv zeta.
    rewrite Enl. split; [done|]. rewrite (live_sockets_reporting _ _ Hg). cbn [live_sockets]. by rewrite Enl. }
  apply wp_bind, wp_syscall; intros ret ? Hb; cbv beta iota. destruct (ret <? 0) eqn:Er; bools.
  { apply wp_report_system; [done|]. intros p' tr' He Hg. split; [done|]. exists block, nl. cbv zeta.
    rewrite (proj2 (Z.eqb_neq nl 0) Enl). exists ret. split; [done|]. split; [done|].
    rewrite (live_sockets_reporting _ _ Hg). cbn [live_sockets].
    rewrite (proj2 (Z.eqb_neq nl 0) Enl). lia. }
  do 3 (apply wp_bind, wp_syscall; intros ? ? _; cbv beta iota). apply wp_ret.
  split; [done|]. cbn [nft_nl nft_e nft_portid live_sockets].
  rewrite (proj2 (Z.eqb_neq nl 0) Enl).
  split_and!; [done|done| | |lia]; by apply Z.mod_pos_bound.
Qed.

(** A socket that cannot be bound is lost. *)
Lemma wp_nftables_bind_fails `{!MallocOk} tablename p tr block e nl e1 r e2 :
  let tr1 := Ev (Malloc SIZEOF_NFTABLES_DATA) (Some block) :: tr in
  let tr2 := Ev (Mnl_socket_open NETLINK_GENERIC) nl :: tr1 in
  p_error p = None ->
  env_call _ tr (Malloc SIZEOF_NFTABLES_DATA) = (Some block, e) ->
  env_call _ tr1 (Mnl_socket_open NETLINK_GENERIC) = (nl, e1) -> nl <> 0 ->
  env_call _ tr2 (Mnl_socket_bind nl 0 MNL_SOCKET_AUTOPID) = (r, e2) -> r < 0 ->
  wp (nftables_open tablename ErrVar) (fun o p' tr' =>
    o = Ok None /\ is_Some (p_error p') /\ live_sockets tr' = live_sockets tr + 1) p tr.
Proof.
  intros tr1 tr2 Hp Hm Hopen Hnl Hbind Hr. unfold nftables_open.
  apply wp_bind, wp_syscall. intros b' ? Hm'. rewrite Hm in Hm'. injection Hm' as <- <-. cbv beta iota.
  apply wp_bind, wp_syscall. intros nl' ? Ho'. fold tr1 in Ho' |- *. rewrite Hopen in Ho'.
  injection Ho' as <- <-. cbv beta iota. rewrite (proj2 (Z.eqb_neq nl 0) Hnl).
  apply wp_bind, wp_syscall. intros r' ? Hb'. fold tr2 in Hb' |- *. rewrite Hbind in Hb'.
  injection Hb' as <- <-. cbv beta iota. rewrite (proj2 (Z.ltb_lt r 0) Hr).
  apply wp_report_system; [done|]. intros p' tr' He Hg. split; [done|]. split; [done|].
  rewrite (live_sockets_reporting _ _ Hg). cbn [live_sockets tr2 tr1].
  rewrite (proj2 (Z.eqb_neq nl 0) Hnl). lia.
Qed.

(** C40: [nftables_open] gives an object with an open socket and no element, or an
    error; what it opened is closed by [nftables_close], which leaves no pointer
    behind, so that a second close does nothing.  Whenever the socket cannot be
    bound it returns NULL with an error and without closing the socket: one more
    socket is open than before, for ever. *)
Theorem nftables_lifecycle `{!MallocOk} tablename p tr o p1 tr1 :
  p_error p = None ->
  nftables_open tablename ErrVar p tr = (o, p1, tr1) ->
  nft_opened tr o p1 tr1
  /\ (forall data, o = Ok (Some data) ->
     exists p2 tr2, nftables_close data p1 tr1 = (Ok (NftData (nft_portid data) 0 0 0), p2, tr2)
       /\ live_sockets tr2 = live_sockets tr
       /\ nftables_close (NftData (nft_portid data) 0 0 0) p2 tr2
          = (Ok (NftData (nft_portid data) 0 0 0), p2, tr2))
  /\ (forall block e nl e1 r e2,
     let tr2 := Ev (Malloc SIZEOF_NFTABLES_DATA) (Some block) :: tr in
     let tr3 := Ev (Mnl_socket_open NETLINK_GENERIC) nl :: tr2 in
     env_call _ tr (Malloc SIZEOF_NFTABLES_DATA) = (Some block, e) ->
     env_call _ tr2 (Mnl_socket_open NETLINK_GENERIC) = (nl, e1) -> nl <> 0 ->
     env_call _ tr3 (Mnl_socket_bind nl 0 MNL_SOCKET_AUTOPID) = (r, e2) -> r < 0 ->
     o = Ok None /\ is_Some (p_error p1) /\ live_sockets tr1 = live_sockets tr + 1).
Proof.
  intros Hp Hrun. pose proof (wp_run _ _ _ _ _ _ _ (wp_nftables_open tablename p tr Hp) Hrun) as Ho.
  split; [done|]. split.
  - intros data ->. destruct Ho as (_ & Hnl & _ & _ & Hlive).
    destruct (nftables_close_run data p1 tr1) as (p2 & tr2 & Hclose & _ & Hlive2).
    exists p2, tr2. split; [done|]. split; [|by apply nftables_close_again].
    rewrite Hlive2, Hlive. rewrite (proj2 (Z.eqb_neq _ _) Hnl). lia.
  - intros block e nl e1 r e2 tr2 tr3 Hm Hopen Hnl Hbind Hr.
    exact (wp_run _ _ _ _ _ _ _ (wp_nftables_bind_fails tablename p tr _ _ _ _ _ _
      Hp Hm Hopen Hnl Hbind Hr) Hrun).
Qed.
End Spec.

(** ** Examples *)

(** A kernel that acknowledges: [mnl_cb_run] answers 0 ([MNL_CB_STOP]) to the
    message that carries the acknowledgement. *)
Definition env_nft_ack : Env := override (fun A tr c =>
  match c in sys A return option (A * Z) with
  | Mnl_socket_recvfrom _ _ => Some ((36, replicate 36 NUL), 0)
  | Mnl_cb_run _ _ _ => Some (0, 0)
  | _ => None
  end).

#[local] Instance env_nft_ack_malloc : MallocOk (EV := env_nft_ack).
Proof. intros tr n. by do 2 eexists. Qed.

#[local] Instance env_nft_ack_bound : ReplyBound (EV := env_nft_ack) 0.
Proof. intros tr buf seq portid r e _ [= <- _]. done. Qed.

#[local] Instance env_nft_ack_recv : NetlinkRecv (EV := env_nft_ack).
Proof. intros tr nl size r buf e [= <- _ _]. by left. Qed.

Lemma nftables_handle_terminates_witness :
  settles 0 (fun fuel => nftables_handle (EV := env_nft_ack) (EN := host_le) fuel
    (Some (NftData 4242 21 20 0)) "blacklist" (addr_of AF_INET 32 [1; 2; 3; 4] "1.2.3.4") ErrVar).
Proof.
  apply (nftables_handle_terminates (EV := env_nft_ack) (EN := host_le) 0).
Defined.

(** The acknowledged request is a failure. *)
Lemma nftables_handle_bans_witness :
  exists p' tr',
    nftables_handle (EV := env_nft_ack) (EN := host_le) 1 (Some (NftData 4242 21 20 0)) "blacklist"
      (addr_of AF_INET 32 [1; 2; 3; 4] "1.2.3.4") ErrVar proc0 [] = (Ok (Some false), p', tr')
    /\ set_keys 21 tr' = [Some [3; 0; 0; 0]]
    /\ (NetlinkRecv (EV := env_nft_ack) -> Ok (Some false) = Ok None \/ Ok (Some false) = Ok (Some false)).
Proof.
  eexists _, _. split; [vm_compute; reflexivity|].
  split.
  - eapply (nftables_handle_bans (EV := env_nft_ack) (EN := host_le) 1 (NftData 4242 21 20 0)
      "blacklist" (addr_of AF_INET 32 [1; 2; 3; 4] "1.2.3.4") proc0 []); vm_compute; reflexivity.
  - eapply (nftables_handle_bans (EV := env_nft_ack) (EN := host_le) 1 (NftData 4242 21 20 0)
      "blacklist" (addr_of AF_INET 32 [1; 2; 3; 4] "1.2.3.4") proc0 []); vm_compute; reflexivity.
Defined.

Lemma nftables_lifecycle_witness :
  exists p1 tr1,
    nftables_open (EV := env_default) "blacklist" ErrVar proc0 []
    = (Ok (Some (NftData 4242 21 20 0)), p1, tr1)
    /\ nft_opened [] (Ok (Some (NftData 4242 21 20 0))) p1 tr1.
Proof.
  eexists _, _. split; [vm_compute; reflexivity|].
  eapply (nftables_lifecycle (EV := env_default) "blacklist" proc0 []); vm_compute; reflexivity.
Defined.

(** A system on which the socket cannot be bound. *)
Definition env_no_bind : Env := override (fun A _ c =>
  match c in sys A return option (A * Z) with Mnl_socket_bind _ _ _ => Some (-1, 13) | _ => None end).

Example nftables_bind_leak :
  let '(o, _, tr) := nftables_open (EV := env_no_bind) "blacklist" ErrVar proc0 [] in
  o = Ok None /\ live_sockets tr = 1.
Proof. vm_compute. done. Qed.
