(* ===== verification/Getopt.v ===== *)
(** * [getopt_long]

    The part of the C library that reads the command line of [banipd], as
    documented for the GNU and the BSD libraries: arguments that are no options are
    moved behind the options, unless [POSIXLY_CORRECT] is in the environment, in
    which case the first of them ends the options; [--] always ends them.  A call
    gives one option character after the other; here the whole sequence of calls is
    one list, with the argument of each option ([optarg]), and the arguments that are
    left ([argc] and [argv] after [optind]).  The option string of the daemon starts
    with neither [+] nor [-], which would change the order. *)
From Stdlib Require Import ZArith Lia Ascii.
From S2P Require Import Prelude.
#[local] Set Default Goal Selector "!".

(** [struct option] without the unused [flag]. *)
Record long_option := LongOption { lo_name : string; lo_arg : bool; lo_val : ascii }.

(** What [optstring] says of a character: unknown, or whether it takes an argument. *)
Fixpoint short_option (optstring : string) (c : ascii) : option bool :=
  match optstring with
  | EmptyString => None
  | String d rest =>
      if Ascii.eqb c d && negb (Ascii.eqb c ":") then
        Some (match rest with String ":" _ => true | _ => false end)
      else short_option rest c
  end.

(** A long option is found by its name or by an unambiguous start of it. *)
Definition find_long (longopts : list long_option) (name : string) : option long_option :=
  match filter (fun l => lo_name l = name) longopts with
  | l :: _ => Some l
  | [] =>
      match filter (fun l => String.prefix name (lo_name l) = true) longopts with
      | [l] => Some l
      | _ => None
      end
  end.

Section Getopt.
Context (posixly_correct : bool) (optstring : string) (longopts : list long_option).

(** The characters of one argument after its dash: the options in it, and the one
    that still needs its argument. *)
Fixpoint short_cluster (s : string) : list (ascii * string) * option ascii :=
  match s with
  | EmptyString => ([], None)
  | String c rest =>
      match short_option optstring c with
      | None => let '(res, pend) := short_cluster rest in (("?"%char, "") :: res, pend)
      | Some false => let '(res, pend) := short_cluster rest in ((c, "") :: res, pend)
      | Some true => match rest with EmptyString => ([], Some c) | _ => ([(c, rest)], None) end
      end
  end.

Definition prepend (res : list (ascii * string)) (r : list (ascii * string) * list string) :=
  (res ++ fst r, snd r).

Fixpoint getopt_long (argv : list string) : list (ascii * string) * list string :=
  match argv with
  | [] => ([], [])
  | arg :: rest =>
      match arg with
      | String "-" (String "-" EmptyString) => ([], rest)
      | String "-" (String "-" body) =>
          let '(name, value) :=
            match strchr_split "=" body with Some (n, v) => (n, Some v) | None => (body, None) end in
          match find_long longopts name with
          | None => prepend [("?"%char, "")] (getopt_long rest)
          | Some l =>
              match lo_arg l, value with
              | false, None => prepend [(lo_val l, "")] (getopt_long rest)
              | false, Some _ => prepend [("?"%char, "")] (getopt_long rest)
              | true, Some v => prepend [(lo_val l, v)] (getopt_long rest)
              | true, None =>
                  match rest with
                  | v :: rest => prepend [(lo_val l, v)] (getopt_long rest)
                  | [] => ([("?"%char, "")], [])
                  end
              end
          end
      | String "-" (String c s) =>
          let '(res, pend) := short_cluster (String c s) in
          match pend with
          | None => prepend res (getopt_long rest)
          | Some c =>
              match rest with
              | v :: rest => prepend (res ++ [(c, v)]) (getopt_long rest)
              | [] => (res ++ [("?"%char, "")], [])
              end
          end
      | _ =>
          if posixly_correct then ([], arg :: rest)
          else let '(res, args) := getopt_long rest in (res, arg :: args)
      end
  end.
End Getopt.
