(* ===== verification/Banipd.v ===== *)
(** * The daemon: [banipd.c]

    The state is the static variables of the file, with the [char *error] of
    [main] in the shared memory.  The loop over [getopt_long] works on the list of
    its results, an option character and [optarg] each; [main] is also given the
    number of arguments left after them.  The [CAP_] macros are the constant [true]. *)
From Stdlib Require Import ZArith Lia Ascii.
From S2P Require Import Prelude Os Libc CError Scenario Strlcpy Parse ParseSpec Queue Engine Getopt.
#[local] Set Default Goal Selector "!".

Definition BANIPD_EXIT_FAILURE : Z := 1.
Definition BANIPD_EXIT_USAGE : Z := 2.
Definition GID_NONE : Z := 4294967295.
Definition SIGINT : Z := 2.
Definition SIGTERM : Z := 15.
Definition SIGUSR1 : Z := 30.
Definition progname : string := "banipd".

(** ** The command line *)

Definition optstr : string := "b:e:g:l:p:q:s:t:dhv".

(** The table, up to its terminator. *)
Definition long_options : list long_option :=
  [ LongOption "msgsize" true "b"; LongOption "daemonize" false "d"; LongOption "engine" true "e";
    LongOption "group" true "g"; LongOption "log" true "l"; LongOption "pid" true "p";
    LongOption "queue" true "q"; LongOption "qsize" true "s"; LongOption "table" true "t";
    LongOption "verbose" false "v" ].

(** What follows the last [c] of a string ([strrchr(s, c) + 1]), if there is one. *)
Fixpoint after_last (c : ascii) (s : string) : option string :=
  match s with
  | EmptyString => None
  | String d rest =>
      match after_last c rest with
      | Some t => Some t
      | None => if Ascii.eqb c d then Some rest else None
      end
  end.

(** ** The log *)

(** A [FILE *] other than NULL: the standard stream or one from [fopen]; [fp] is
    its descriptor. *)
Inductive file := Stderr_stream | Opened (fp : Z).

Definition fileno (f : file) : Z := match f with Stderr_stream => 2 | Opened fp => fp end.

(** The part of the state the functions of [err.h] work on. *)
Record prog := Prog { pg_proc : proc; pg_err_file : option file }.

Definition set_pg_proc (p : proc) (g : prog) : prog := Prog p (pg_err_file g).
Definition set_err_file (f : option file) (g : prog) : prog := Prog (pg_proc g) f.

Section Log.
Context `{EV : !Env}.

Definition on_proc {A} (m : M proc A) : M prog A := zoom pg_proc set_pg_proc m.

Definition write_line (f : file) (line : string) : M proc unit :=
  match f with Stderr_stream => syscall (Stderr line) | Opened fp => syscall (Fprintf fp line) end.

Definition banipd_verr (fatal : bool) (errcode : Z) (msg : string) : M prog unit :=
  buf ← on_proc (syscall Now);
  err_file ← gets pg_err_file;
  let f := match err_file with None => Stderr_stream | Some f => f end in
  modify (set_err_file (Some f));;
  tail ← (if negb (errcode =? 0)
          then text ← on_proc (syscall (Strerror errcode)); mret (": " +:+ text)
          else mret "");
  on_proc (write_line f ("[" +:+ buf +:+ "] " +:+ progname +:+ ": " +:+ msg +:+ tail));;
  if fatal then exit_ BANIPD_EXIT_FAILURE else mret tt.

#[export] Instance banipd_program : Program prog :=
  {| in_proc := @on_proc; _verr := banipd_verr |}.

(** [_verr(false, 0, "%s", error); error_free(&error);] *)
Definition report_error : M prog unit :=
  error ← on_proc (gets p_error);
  match error with
  | None => undef NullFormat
  | Some msg => _verr false 0 msg;; on_proc (error_free ErrVar)
  end.
End Log.

(** ** State *)

Section Daemon.
Context `{EV : !Env} `{EN : !Endian} `{Q : !QueueOps}.

Record daemon := MkDaemon
  { dg : prog; d_queue : option queue_t; d_ctxt : option ctxt_t; d_buffer : option (list ascii);
    d_engine : option (engine_t prog); d_pidfile : option string; d_logfile : option string }.

Definition set_dg g d := MkDaemon g (d_queue d) (d_ctxt d) (d_buffer d) (d_engine d) (d_pidfile d) (d_logfile d).
Definition set_queue q d := MkDaemon (dg d) q (d_ctxt d) (d_buffer d) (d_engine d) (d_pidfile d) (d_logfile d).
Definition set_ctxt c d := MkDaemon (dg d) (d_queue d) c (d_buffer d) (d_engine d) (d_pidfile d) (d_logfile d).
Definition set_buffer b d := MkDaemon (dg d) (d_queue d) (d_ctxt d) b (d_engine d) (d_pidfile d) (d_logfile d).
Definition set_engine e d := MkDaemon (dg d) (d_queue d) (d_ctxt d) (d_buffer d) e (d_pidfile d) (d_logfile d).
Definition set_pidfile f d := MkDaemon (dg d) (d_queue d) (d_ctxt d) (d_buffer d) (d_engine d) f (d_logfile d).
Definition set_logfile f d := MkDaemon (dg d) (d_queue d) (d_ctxt d) (d_buffer d) (d_engine d) (d_pidfile d) f.

Definition on_prog {A} (m : M prog A) : M daemon A := zoom dg set_dg m.
Definition on_memory {A} (m : M proc A) : M daemon A := on_prog (on_proc m).

(** The variables of [main] that the options set. *)
Record settings := Settings
  { gid : Z; dFlag : bool; vFlag : bool; tablename : option string; queuename : option string }.

Definition settings0 : settings := Settings GID_NONE false false None None.

(** ** Ending *)

Definition usage {A} : M daemon A :=
  let flags := match after_last ":" optstr with None => optstr | Some s => s end in
  on_memory (syscall (Stderr ("usage: " +:+ progname +:+ " [-" +:+ flags
    +:+ "] [ -q queue_name ] [ -t table_name ]")));;
  exit_ BANIPD_EXIT_USAGE.

(** The first part of [cleanup]: the buffer and the engine. *)
Definition close_engine : M daemon unit :=
  modify (set_buffer None);;
  ctxt ← gets d_ctxt;
  match ctxt with
  | None => mret tt
  | Some c =>
      engine ← gets d_engine;
      match engine with
      | None => undef NullDeref
      | Some e =>
          c ← match close e with Some f => on_prog (f c) | None => mret c end;
          free_ctxt c;;
          modify (set_ctxt None)
      end
  end.

Definition remove_pid : M daemon unit :=
  pidfilename ← gets d_pidfile;
  match pidfilename with
  | None => mret tt
  | Some f =>
      ret ← on_memory (syscall (Unlink f));
      if negb (ret =? 0) then on_prog (warnc "unlink failed") else mret tt
  end.

Definition close_log : M daemon unit :=
  err_file ← gets (fun d => pg_err_file (dg d));
  match err_file with
  | None => mret tt
  | Some f =>
      if 2 <? fileno f then
        on_memory (syscall (Fclose (fileno f)));; on_prog (modify (set_err_file None))
      else mret tt
  end.

Definition cleanup : M daemon unit :=
  close_engine;;
  queue ← gets d_queue;
  '(_, queue) ← on_memory (queue_close queue ErrNull);
  modify (set_queue queue);;
  remove_pid;;
  close_log.

(** A signal whose action is reset is sent to the process itself. *)
Definition die_of (signo : Z) : M daemon unit :=
  on_memory (syscall (Signal_dfl signo));;
  on_memory (syscall (Kill_self signo)).

(** [SIGUSR1]: the log file is opened again, for log rotation. *)
Definition reopen_log : M daemon unit :=
  err_file ← gets (fun d => pg_err_file (dg d));
  logfilename ← gets d_logfile;
  match err_file, logfilename with
  | Some f, Some l =>
      if 2 <? fileno f then
        fp ← on_memory (syscall (Freopen l "a" (fileno f)));
        match fp with
        | Some fp => on_prog (modify (set_err_file (Some (Opened fp))))
        | None =>
            on_prog (modify (set_err_file (Some Stderr_stream)));;
            on_prog (warn "freopen failed, falling back to stderr")
        end
      else mret tt
  | _, _ => mret tt
  end.

Definition on_signal (signo : Z) : M daemon unit :=
  if (signo =? SIGINT) || (signo =? SIGTERM) then cleanup;; die_of signo
  else if signo =? SIGUSR1 then reopen_log
  else die_of signo.

(** ** Options *)

Section Main.
Context (engines : build prog).

(** [parse_ulong(optarg, &val, &error)] for [-b] and [-s], then the attribute. *)
Definition set_attribute_option (attr : queue_attr_t) (what optarg : string) : M daemon unit :=
  r ← on_memory (parse_ulong optarg ErrVar);
  let '(ok, val) := r in
  if ok : bool then
    queue ← gets d_queue;
    match queue with
    | None => undef NullDeref
    | Some q => modify (set_queue (Some (snd (queue_set_attribute q attr val))))
    end
  else
    error ← on_memory (gets p_error);
    match error with
    | None => undef NullFormat
    | Some msg => on_prog (errx ("invalid value for option " +:+ what +:+ ": " +:+ msg))
    end.

(** One round of the [getopt_long] loop. *)
Definition process_option (st : settings) (c : ascii) (optarg : string) : M daemon settings :=
  if Ascii.eqb c "b" then
    set_attribute_option QUEUE_ATTR_MAX_MESSAGE_SIZE "-b/--msgsize" optarg;; mret st
  else if Ascii.eqb c "d" then
    mret (Settings (gid st) true (vFlag st) (tablename st) (queuename st))
  else if Ascii.eqb c "e" then
    let e := get_engine_by_name engines optarg in
    modify (set_engine e);;
    match e with
    | None => on_prog (errx ("unknown engine '" +:+ optarg +:+ "'"));; mret st
    | Some _ => mret st
    end
  else if Ascii.eqb c "g" then
    grp ← on_memory (syscall (Getgrnam optarg));
    match grp with
    | None => on_prog (errc "getgrnam failed");; mret st
    | Some g => mret (Settings g (dFlag st) (vFlag st) (tablename st) (queuename st))
    end
  else if Ascii.eqb c "l" then
    modify (set_logfile (Some optarg));;
    fp ← on_memory (syscall (Fopen optarg "a"));
    on_prog (modify (set_err_file (match fp with Some fp => Some (Opened fp) | None => None end)));;
    match fp with
    | Some _ => mret st
    | None =>
        on_prog (warnc ("fopen '" +:+ optarg +:+ "' failed, falling back to stderr"));; mret st
    end
  else if Ascii.eqb c "p" then modify (set_pidfile (Some optarg));; mret st
  else if Ascii.eqb c "q" then
    mret (Settings (gid st) (dFlag st) (vFlag st) (tablename st) (Some optarg))
  else if Ascii.eqb c "s" then
    set_attribute_option QUEUE_ATTR_MAX_MESSAGE_IN_QUEUE "-s/--qsize" optarg;; mret st
  else if Ascii.eqb c "t" then
    mret (Settings (gid st) (dFlag st) (vFlag st) (Some optarg) (queuename st))
  else if Ascii.eqb c "v" then
    mret (Settings (gid st) (dFlag st) true (tablename st) (queuename st))
  else usage.

Fixpoint process_options (opts : list (ascii * string)) (st : settings) : M daemon settings :=
  match opts with
  | [] => mret st
  | (c, optarg) :: opts => st ← process_option st c optarg; process_options opts st
  end.

(** ** Setup

    The body of the [do { ... } while (false)] before the loop, in pieces: each
    gives [false] where the code breaks out. *)

Definition daemonize (st : settings) : M daemon bool :=
  if dFlag st then
    ret ← on_memory (syscall (Daemon (negb (vFlag st))));
    if negb (ret =? 0) then
      on_memory (set_system_error ErrVar "daemon failed");; mret false
    else mret true
  else mret true.

Definition write_pid : M daemon unit :=
  pidfilename ← gets d_pidfile;
  match pidfilename with
  | None => mret tt
  | Some f =>
      fp ← on_memory (syscall (Fopen f "w"));
      match fp with
      | None => on_prog (warnc ("can't create pid file '" +:+ f +:+ "'"))
      | Some fp =>
          pid ← on_memory (syscall Getpid);
          on_memory (syscall (Fprintf fp (pretty pid +:+ String "010" "")));;
          on_memory (syscall (Fclose fp))
      end
  end.

Definition change_group (st : settings) : M daemon bool :=
  if negb (GID_NONE =? gid st) then
    ret ← on_memory (syscall (Setgid (gid st)));
    if negb (ret =? 0) then
      on_memory (set_system_error ErrVar ("setgid(" +:+ pretty (gid st) +:+ ") failed"));; mret false
    else
      ret ← on_memory (syscall (Setgroups (gid st)));
      if negb (ret =? 0) then
        on_memory (set_system_error ErrVar ("setgroups to {" +:+ pretty (gid st) +:+ "} failed"));;
        mret false
      else mret true
  else mret true.

(** Opening the queue and allocating the buffer: the value of
    [max_message_size] after its increment. *)
Definition open_queue (queuename : string) : M daemon (option Z) :=
  queue ← gets d_queue;
  match queue with
  | None => undef NullDeref
  | Some q =>
      '(ok, q) ← on_memory (queue_open q queuename QUEUE_FL_OWNER ErrVar);
      modify (set_queue (Some q));;
      if negb ok then mret None else
      '(err, value) ← on_memory (queue_get_attribute q QUEUE_ATTR_MAX_MESSAGE_SIZE);
      match err, value with
      | QUEUE_ERR_OK, Some value =>
          let max_message_size := (value + 1) mod 2 ^ 64 in
          ok ← on_memory (syscall (Calloc max_message_size));
          if ok : bool then
            modify (set_buffer (Some (replicate (Z.to_nat max_message_size) NUL)));;
            mret (Some max_message_size)
          else
            on_memory (set_malloc_error ErrVar max_message_size);; mret None
      | _, _ =>
          on_memory (set_generic_error ErrVar "queue_get_attribute failed");; mret None
      end
  end.

Definition open_engine (tablename : string) : M daemon bool :=
  engine ← gets d_engine;
  match engine with
  | None => undef NullDeref
  | Some e =>
      match open e with
      | None => mret true
      | Some f =>
          ctxt ← on_memory (f tablename ErrVar);
          modify (set_ctxt ctxt);;
          mret (match ctxt with None => false | Some _ => true end)
      end
  end.

Definition drop_root : M daemon bool :=
  engine ← gets d_engine;
  match engine with
  | None => undef NullDeref
  | Some e =>
      uid ← on_memory (syscall Getuid);
      if (0 =? uid) && drop_privileges e then
        pwd ← on_memory (syscall (Getpwnam "nobody"));
        pwd ← match pwd with
              | Some u => mret (Some u)
              | None => on_memory (syscall (Getpwnam "daemon"))
              end;
        match pwd with
        | None =>
            on_memory (set_generic_error ErrVar
              "no nobody or daemon user accounts found on this system");; mret false
        | Some uid =>
            ret ← on_memory (syscall (Setuid uid));
            if negb (ret =? 0) then
              on_memory (set_system_error ErrVar ("setuid(" +:+ pretty uid +:+ ") failed"));;
              mret false
            else mret true
        end
      else mret true
  end.

(** The whole setup: the [max_message_size] the loop uses. *)
Definition setup (st : settings) (tablename queuename : string) : M daemon (option Z) :=
  ok ← daemonize st;
  if negb ok then mret None else
  write_pid;;
  ok ← change_group st;
  if negb ok then mret None else
  size ← open_queue queuename;
  match size with
  | None => mret None
  | Some size =>
      ok ← open_engine tablename;
      if negb ok then mret None else
      ok ← drop_root;
      mret (if ok : bool then Some size else None)
  end.

(** ** The loop *)

(** The condition of the [if] in the loop: whether something failed. *)
Definition serve_fails (tablename : string) (size : Z) : M daemon bool :=
  queue ← gets d_queue;
  buffer ← gets d_buffer;
  match queue, buffer with
  | Some q, Some b =>
      '(read, b, q) ← on_memory (queue_receive q b size ErrVar);
      modify (set_queue (Some q));;
      modify (set_buffer (Some b));;
      if read =? -1 then mret true else
      match nul_prefix b with
      | None => undef OutOfBounds
      | Some msg =>
          '(ok, addr) ← on_memory (parse_addr msg ErrVar);
          if negb ok then mret true else
          engine ← gets d_engine;
          ctxt ← gets d_ctxt;
          match engine with
          | None => undef NullDeref
          | Some e => ok ← on_memory (handle e ctxt tablename addr ErrVar); mret (negb ok)
          end
      end
  | _, _ => undef NullDeref
  end.

(** One round of [while (1)]. *)
Definition serve (tablename : string) (size : Z) : M daemon unit :=
  fails ← serve_fails tablename size;
  if fails : bool then on_prog report_error else mret tt.

Fixpoint serve_n (n : nat) (tablename : string) (size : Z) : M daemon unit :=
  match n with O => mret tt | S n => serve tablename size;; serve_n n tablename size end.

(** ** main *)

(** [main] from the signal handlers on, up to the loop: the table and the size the
    loop uses, or the status [main] returns. *)
Definition main_start (opts : list (ascii * string)) (argc : Z) : M daemon (Z + string * Z) :=
  on_memory (syscall (Sigaction SIGINT));;
  on_memory (syscall (Sigaction SIGTERM));;
  on_memory (syscall (Sigaction SIGUSR1));;
  let engine := get_default_engine engines in
  modify (set_engine engine);;
  (match engine with
   | None => on_prog (errx "no engine available for your system")
   | Some _ => mret tt
   end);;
  st ← process_options opts settings0;
  match tablename st, queuename st with
  | Some t, Some q =>
      if negb (argc =? 0) then usage else
      size ← setup st t q;
      match size with
      | Some size => mret (inr (t, size))
      | None =>
          error ← on_memory (gets p_error);
          (match error with None => mret tt | Some _ => on_prog report_error end);;
          mret (inl BANIPD_EXIT_FAILURE)
      end
  | _, _ => usage
  end.

(** [main] with [n] rounds of the loop: its status, or nothing while it serves. *)
Definition main_body (opts : list (ascii * string)) (argc : Z) (n : nat) : M daemon (option Z) :=
  r ← main_start opts argc;
  match r with
  | inl status => mret (Some status)
  | inr (tablename, size) => serve_n n tablename size;; mret None
  end.

(** [atexit(cleanup)]: the handler runs when [main] returns or [exit] is called. *)
Definition at_exit (m : M daemon (option Z)) : M daemon unit := fun d tr =>
  match m d tr with
  | (Ok None, d, tr) => (Ok tt, d, tr)
  | (Ok (Some status), d, tr) | (Exit status, d, tr) => (cleanup;; exit_ status) d tr
  | (Panic, d, tr) => (Panic, d, tr)
  | (Undef u, d, tr) => (Undef u, d, tr)
  end.

Definition main (opts : list (ascii * string)) (argc : Z) (n : nat) : M daemon unit :=
  queue ← on_memory (queue_init ErrVar);
  modify (set_queue queue);;
  match queue with
  | None => on_prog (errx "queue_init failed")
  | Some _ => at_exit (main_body opts argc n)
  end.

(** The program on its arguments, without its own name; [posixly_correct] is whether
    that variable is in the environment. *)
Definition banipd (posixly_correct : bool) (argv : list string) (n : nat) : M daemon unit :=
  let '(opts, rest) := getopt_long posixly_correct optstr long_options argv in
  main opts (Z.of_nat (length rest)) n.
End Main.
End Daemon.

(** The static variables at program start. *)
Definition daemon0 `{EV : !Env} `{Q : !QueueOps} : daemon :=
  MkDaemon (Prog (Proc 0 None) None) None None None None None None.
