(* ===== verification/BanipdSpec.v ===== *)
(** * Correctness of the daemon

    The daemon is proved against three interfaces: what a queue promises to a
    receiver ([ReceiveContract], Queue.v) and to the process that owns it
    ([OwnerContract], Queue.v), and what an engine promises to the daemon
    ([EngineContract], below).  Both the POSIX and the System V queue discharge
    the first two, the engines [dummy], [pf] and [npf] the third; [ipset] does
    not, with the consequences shown below. *)
From Stdlib Require Import ZArith Lia Ascii.
From stdpp Require Import relations.
From S2P Require Import Prelude Os Libc CError Scenario Strlcpy Parse ParseSpec Queue Posix PosixSpec.
From S2P Require Import Engine Command Pf Npf Banipd.
#[local] Set Default Goal Selector "!".

Definition nul_free (s : string) : bool := str_all (fun c => negb (Ascii.eqb c NUL)) s.

(** ** Interfaces *)

(** Error handling of a function that returns a flag. *)
Definition flagged (o : outcome bool) (p' : proc) : Prop :=
  match o with
  | Ok true => p_error p' = None
  | Ok false => is_Some (p_error p')
  | _ => False
  end.

Definition on_heap (c : ctxt_t) : Prop := match c with CastInt _ => False | _ => True end.

(** What an engine promises: its [open] gives a context its [handle] accepts or
    reports an error, [handle] reports an error exactly when it fails, and what
    [close] leaves can be freed. *)
Class EngineContract `{EV : !Env} (e : engine_t prog) := {
  valid_ctxt : option ctxt_t -> Prop;
  open_ok t p tr : nul_free t = true -> p_error p = None ->
    match open e with
    | None => valid_ctxt None
    | Some f =>
        wp (f t ErrVar) (fun o p' _ => match o with
          | Ok (Some c) => valid_ctxt (Some c) /\ p_error p' = None
          | Ok None => is_Some (p_error p')
          | _ => False end) p tr
    end;
  handle_ok ctxt t buffer a p tr :
    valid_ctxt ctxt -> nul_free t = true -> is_network buffer a -> p_error p = None ->
    wp (handle e ctxt t a ErrVar) (fun o p' _ => flagged o p') p tr;
  close_ok c g tr : valid_ctxt (Some c) ->
    wp (match close e with Some f => f c | None => mret c end)
      (fun o _ _ => match o with Ok c' => on_heap c' | _ => False end) g tr
}.

(** ** Running on a part of the state *)

Section Lift.
Context `{EV : !Env} `{EN : !Endian} `{Q : !QueueOps}.
Implicit Types (d : daemon) (g : prog) (tr : trace).

Definition mem d : proc := pg_proc (dg d).
Definition set_mem (p : proc) d : daemon := set_dg (set_pg_proc p (dg d)) d.

Lemma wp_on_memory {A} (m : M proc A) R d tr :
  wp m (fun o p' tr' => R o (set_mem p' d) tr') (mem d) tr -> wp (on_memory m) R d tr.
Proof. intros Hw. by apply wp_zoom, wp_zoom. Qed.

Lemma mem_set_mem p d : mem (set_mem p d) = p.
Proof. done. Qed.

Lemma on_memory_run {A} (m : M proc A) d tr o p' tr' :
  m (mem d) tr = (o, p', tr') -> on_memory m d tr = (o, set_mem p' d, tr').
Proof. intros E. unfold on_memory, on_prog, on_proc, zoom. unfold mem in E. by rewrite E. Qed.

(** [_verr] that is not fatal returns, and leaves the message variable alone. *)
Lemma wp_verr errcode msg (R : outcome unit -> prog -> trace -> Prop) g tr :
  (forall g' tr', p_error (pg_proc g') = p_error (pg_proc g) -> R (Ok tt) g' tr') ->
  wp (banipd_verr false errcode msg) R g tr.
Proof.
  intros HR. unfold banipd_verr, on_proc, write_line. wp_step. wp_step. wp_step. wp_step. wp_step.
  wp_step. wp_step. wp_step. destruct (negb (errcode =? 0)); wp_steps; by apply HR.
Qed.

(** The line of the log for a message, and the call that writes it: to the log, or to
    the standard error when there is none. *)
Definition log_line (now msg : string) : string :=
  "[" +:+ now +:+ "] " +:+ progname +:+ ": " +:+ msg +:+ "".

Definition log_event (f : option file) (line : string) : event :=
  match f with Some (Opened fp) => Ev (Fprintf fp line) tt | _ => Ev (Stderr line) tt end.

(** [report_error] writes the pending error, and only that, and clears it. *)
Lemma wp_report_error_logs msg (R : outcome unit -> prog -> trace -> Prop) g tr :
  p_error (pg_proc g) = Some msg ->
  (forall g' now, p_error (pg_proc g') = None ->
     R (Ok tt) g' (log_event (pg_err_file g) (log_line now msg) :: Ev Now now :: tr)) ->
  wp report_error R g tr.
Proof.
  intros Hg HR. unfold report_error, on_proc. wp_step. wp_step. wp_step. rewrite Hg. simpl.
  unfold banipd_verr, on_proc, write_line, error_free. change (negb (0 =? 0)) with false. cbv iota.
  wp_step. wp_step. wp_step. wp_step. wp_step. wp_step. wp_step. wp_step. wp_step. wp_step.
  destruct (pg_err_file g) as [[|fp]|] eqn:Ef; wp_steps; units; by apply HR.
Qed.

Lemma wp_report_error msg (R : outcome unit -> prog -> trace -> Prop) g tr :
  p_error (pg_proc g) = Some msg ->
  (forall g' tr', p_error (pg_proc g') = None -> R (Ok tt) g' tr') ->
  wp report_error R g tr.
Proof. intros Hg HR. eapply wp_report_error_logs; [done|]. auto. Qed.

Lemma wp_on_prog {A} (m : M prog A) R d tr :
  wp m (fun o g' tr' => R o (set_dg g' d) tr') (dg d) tr -> wp (on_prog m) R d tr.
Proof. apply wp_zoom. Qed.
End Lift.

(** ** Engines that keep the contract *)

Section Engines.
Context `{EV : !Env} `{EN : !Endian} `{NM : !NpfNamed}.
Implicit Types (p : proc) (g : prog) (tr : trace).

#[export] Program Instance dummy_contract : EngineContract dummy_engine :=
  {| valid_ctxt := fun c => c = None |}.
Next Obligation. done. Qed.
Next Obligation.
  intros ctxt t buffer a p tr _ _ Hnet Hp. simpl. unfold dummy_handle, human_arg.
  destruct (network_humanrepr _ _ Hnet) as [-> _]. by wp_steps.
Qed.
Next Obligation. done. Qed.

(** Opening a device, for [pf] and [npf]. *)
Lemma wp_open_device `{!MallocOk} path flags (msg : string) (c : Z -> ctxt_t) (P : option ctxt_t -> Prop) p tr :
  (forall fd, P (Some (c fd))) -> p_error p = None ->
  wp (block ← syscall (Malloc SIZEOF_DATA);
      match block with
      | None => set_malloc_error ErrVar SIZEOF_DATA;; mret None
      | Some _ =>
          fd ← syscall (Open path flags);
          if fd =? -1 then set_system_error ErrVar msg;; mret None else mret (Some (c fd))
      end)
    (fun o p' _ => match o with
       | Ok (Some c) => P (Some c) /\ p_error p' = None
       | Ok None => is_Some (p_error p')
       | _ => False end) p tr.
Proof.
  intros HP Hp. unfold set_malloc_error, set_generic_error. wp_step. wp_step. wp_step.
  - wp_step. wp_step. wp_step; [by apply wp_report_system|by wp_step].
  - apply wp_report_generic; [done|]. intros p' tr' -> _. by eexists.
Qed.

(** Closing one: the descriptor is closed or a warning is written. *)
Lemma wp_close_device fd msg (c c' : ctxt_t) g tr :
  on_heap c -> on_heap c' ->
  wp (if negb (fd =? -1) then
        ret ← in_proc (syscall (Close fd));
        (if negb (ret =? 0) then warnc msg else mret tt);; mret c'
      else mret c)
    (fun o _ _ => match o with Ok c' => on_heap c' | _ => False end) g tr.
Proof.
  intros Hc Hc'. unfold warnc. simpl. unfold on_proc. wp_step; [|by wp_step].
  wp_step. wp_step. wp_step. wp_step. wp_step; [|by wp_steps].
  wp_step. wp_step. wp_step. apply wp_verr. intros. by apply wp_ret.
Qed.

#[export] Program Instance pf_contract `{!MallocOk} `{!GaiSockOk} : EngineContract pf_engine :=
  {| valid_ctxt := fun c => exists fd, c = Some (PfData fd) |}.
Next Obligation.
  intros Hm Hs t p tr _ Hp. simpl. unfold pf_open.
  apply (wp_open_device _ _ _ PfData (fun c => exists fd, c = Some (PfData fd))); [by eexists|done].
Qed.
Next Obligation.
  intros Hm Hs ctxt t buffer a p tr [fd ->] Ht Hnet Hp. simpl.
  eapply wp_mono; [|by eapply wp_pf_handle]. intros o p' tr' (ret & Hpost).
  destruct (ret =? -1).
  - by destruct Hpost as (-> & He & _).
  - by destruct Hpost as [_ Ho].
Qed.
Next Obligation.
  intros Hm Hs c g tr [fd [= ->]]. simpl. unfold pf_close, data_fd. simpl. unfold on_proc.
  wp_step. wp_step. wp_step. by apply (wp_close_device fd _ (PfData fd) (PfData (-1))).
Qed.

#[export] Program Instance npf_contract `{!MallocOk} : EngineContract npf_engine :=
  {| valid_ctxt := fun c => exists fd, c = Some (NpfData fd) |}.
Next Obligation.
  intros Hm t p tr _ Hp. simpl. unfold npf_open.
  apply (wp_open_device _ _ _ NpfData (fun c => exists fd, c = Some (NpfData fd))); [by eexists|done].
Qed.
Next Obligation.
  intros Hm ctxt t buffer a p tr [fd ->] Ht Hnet Hp. simpl. unfold npf_handle, data_fd.
  wp_step. wp_step. wp_step. wp_step. wp_step; [by apply wp_report_system|by wp_step].
Qed.
Next Obligation.
  intros Hm c g tr [fd [= ->]]. simpl. unfold npf_close, data_fd. simpl. unfold on_proc.
  wp_step. wp_step. wp_step. by apply (wp_close_device fd _ (NpfData fd) (NpfData (-1))).
Qed.
End Engines.

(** ** The loop *)

(** A message was received: the state the condition of the loop goes on from. *)
Definition received `{EV : !Env} `{Q : !QueueOps} (s : string) (size : Z) (d : daemon) (tr : trace)
    (p1 : proc) (tr1 : trace) : Prop :=
  exists q buf n buf' q', d_queue d = Some q /\ d_buffer d = Some buf /\
    queue_receive q buf size ErrVar (mem d) tr = (Ok (n, buf', q'), p1, tr1) /\
    n <> -1 /\ nul_prefix buf' = Some s.

Section Loop.
Context `{EV : !Env} `{EN : !Endian} `{Q : !QueueOps}.
Context `{!MallocOk} `{!StrdupOk} `{!GaiOk}.
Context `{RC : !ReceiveContract Q}.
Context (e : engine_t prog) `{EC : !EngineContract e}.
Implicit Types (d : daemon) (tr : trace).

(** The message the next round receives, if it receives one, is clean; or it is not. *)
Definition clean_round (size : Z) d tr : Prop :=
  forall s p1 tr1, received s size d tr p1 tr1 -> clean_message s.

Definition bad_round (size : Z) d tr : Prop :=
  exists s p1 tr1, received s size d tr p1 tr1 /\ ~ clean_message s.

Lemma clean_or_bad size d tr : clean_round size d tr \/ bad_round size d tr.
Proof.
  destruct (d_queue d) as [q|] eqn:Hq; [|left; by intros s p1 tr1 (? & ? & ? & ? & ? & ? & _); congruence].
  destruct (d_buffer d) as [b|] eqn:Hb; [|left; by intros s p1 tr1 (? & ? & ? & ? & ? & _ & ? & _); congruence].
  destruct (queue_receive q b size ErrVar (mem d) tr) as [[o p1] tr1] eqn:Hrun.
  assert (Hsame : forall s p2 tr2, received s size d tr p2 tr2 -> exists n b' q',
    o = Ok (n, b', q') /\ n <> -1 /\ nul_prefix b' = Some s).
  { intros s p2 tr2 (q1 & b1 & n & b' & q' & Hq1 & Hb1 & Hr & Hn & Hs). rewrite Hq in Hq1. rewrite Hb in Hb1.
    injection Hq1 as <-. injection Hb1 as <-. rewrite Hrun in Hr. simplify_eq. eauto 6. }
  destruct o as [[[n b'] q']| | |]; try (left; intros s p2 tr2 Hr; by destruct (Hsame _ _ _ Hr) as (? & ? & ? & ? & _)).
  destruct (decide (n = -1)) as [->|Hn].
  { left. intros s p2 tr2 Hr. by destruct (Hsame _ _ _ Hr) as (? & ? & ? & [= <- <- <-] & ? & _). }
  destruct (nul_prefix b') as [s|] eqn:Hs.
  - destruct (decide (clean_message s)) as [Hc|Hc].
    + left. intros s' p2 tr2 Hr. destruct (Hsame _ _ _ Hr) as (? & ? & ? & [= <- <- <-] & _ & Hs').
      rewrite Hs in Hs'. by injection Hs' as <-.
    + right. exists s, p1, tr1. split; [|done]. by exists q, b, n, b', q'.
  - left. intros s' p2 tr2 Hr. destruct (Hsame _ _ _ Hr) as (? & ? & ? & [= <- <- <-] & _ & Hs'). congruence.
Qed.

(** The daemon in its loop, between two rounds. *)
Record serving (size : Z) d : Prop := Serving
  { srv_engine : d_engine d = Some e;
    srv_ctxt : valid_ctxt (d_ctxt d);
    srv_queue : exists q b, d_queue d = Some q /\ d_buffer d = Some b /\ ready q b size;
    srv_error : p_error (mem d) = None }.

(** After the condition of the loop: everything but the error variable. *)
Lemma wp_serve_fails t size d tr :
  nul_free t = true -> serving size d -> clean_round size d tr ->
  wp (serve_fails t size) (fun o d' tr' => exists fails p', o = Ok fails /\
    serving size (set_mem (set_error None p') d') /\ mem d' = p' /\
    (if fails : bool then is_Some (p_error p') else p_error p' = None)) d tr.
Proof.
  intros Ht [He Hc (q & b & Hq & Hb & Hr) Hp] Hclean. unfold serve_fails.
  wp_step. wp_step. wp_step. wp_step. rewrite Hq, Hb.
  apply wp_bind, wp_on_memory, run_wp. intros o p1 tr1 Hrun.
  pose proof (wp_run _ _ _ _ _ _ _ (receive_ok q b size (mem d) tr Hr Hp) Hrun) as Hpost.
  destruct o as [[[n b'] q']|?| |?]; try done. destruct Hpost as [Hr' Hmsg].
  wp_step. wp_step. wp_step. wp_step. destruct (n =? -1) eqn:En.
  { wp_step. do 2 eexists. split; [done|]. split; [|done]. split; simpl; eauto. }
  destruct Hmsg as [Hp1 [s Hs]]. apply Z.eqb_neq in En. rewrite Hs.
  assert (Hcs : clean_message s) by (apply (Hclean s p1 tr1); by exists q, b, n, b', q').
  apply wp_bind, wp_on_memory. cbn.
  destruct (parse_addr_clean s p1 tr1 Hcs Hp1) as (ok & a & p2 & tr2 & Hrun2 & Hok & _).
  unfold wp at 1. rewrite Hrun2. destruct ok; cbn [negb].
  - destruct Hok as [Hp2 Hnet]. wp_step. wp_step. wp_step. wp_step. rewrite He.
    apply wp_bind, wp_on_memory. cbn.
    eapply wp_mono; [|by eapply handle_ok]. intros [ok|?| |?] p3 tr3 Ho; try done.
    exists (negb ok), p3. split; [done|]. split; [split; simpl; eauto|].
    split; [done|]. by destruct ok.
  - wp_step. exists true, p2. split; [done|]. split; [split; simpl; eauto|]. done.
Qed.

(** A round: the condition is evaluated, and a failure is written to the log and
    cleared. *)
Definition round_logged t size d tr (o : outcome unit) d2 tr2 : Prop :=
  o = Ok tt /\ serving size d2 /\ exists fails d' tr',
    serve_fails t size d tr = (Ok fails, d', tr') /\
    if fails : bool then exists msg now, p_error (mem d') = Some msg
      /\ tr2 = log_event (pg_err_file (dg d')) (log_line now msg) :: Ev Now now :: tr'
    else d2 = d' /\ tr2 = tr'.

Lemma wp_serve t size d tr :
  nul_free t = true -> serving size d -> clean_round size d tr ->
  wp (serve t size) (round_logged t size d tr) d tr.
Proof.
  intros Ht Hd Hclean. unfold serve. apply wp_bind, run_wp. intros o d' tr' Hrun.
  destruct (wp_run _ _ _ _ _ _ _ (wp_serve_fails t size d tr Ht Hd Hclean) Hrun)
    as (fails & p' & -> & Hs & Hm & Hf). cbv beta iota. unfold round_logged.
  destruct fails.
  - apply wp_on_prog. destruct Hf as [msg Hf]. rewrite <-Hm in Hf. eapply wp_report_error_logs; [exact Hf|].
    intros g' now Hg. split; [done|]. split; [destruct Hs as [? ? ? ?]; by split|].
    exists true, d', tr'. split; [done|]. by exists msg, now.
  - wp_step. split; [done|]. split; [|by exists false, d', tr']. destruct Hs as [? ? ? ?].
    split; [done..|]. by rewrite Hm.
Qed.

(** Any number of rounds: all return, or one of them meets a message that is not
    clean, in a state that is still good. *)
Lemma serve_n_safe n t size : forall d tr,
  nul_free t = true -> serving size d ->
  (exists d' tr', serve_n n t size d tr = (Ok tt, d', tr') /\ serving size d')
  \/ exists k d' tr', (k < n)%nat /\ serve_n k t size d tr = (Ok tt, d', tr') /\ serving size d'
       /\ bad_round size d' tr'.
Proof.
  induction n as [|n IH]; intros d tr Ht Hd; [left; by exists d, tr|].
  destruct (clean_or_bad size d tr) as [Hc|Hbad].
  2: { right. exists 0%nat, d, tr. split_and!; [lia|done|done|done]. }
  pose proof (wp_serve t size d tr Ht Hd Hc) as Hw. unfold wp in Hw.
  destruct (serve t size d tr) as [[o d1] tr1] eqn:Hrun. destruct Hw as (-> & Hd1 & _).
  destruct (IH d1 tr1 Ht Hd1) as [(d2 & tr2 & H2 & Hd2)|(k & d2 & tr2 & Hk & H2 & Hd2 & Hbad)].
  - left. exists d2, tr2. split; [|done]. simpl. by rewrite (bind_Ok _ _ _ _ _ _ _ Hrun).
  - right. exists (S k), d2, tr2. split_and!; [lia| |done|done]. simpl. by rewrite (bind_Ok _ _ _ _ _ _ _ Hrun).
Qed.

(** What happens to a daemon in its loop: a round of the loop, or the signal that
    asks for the log to be reopened, in any order. *)
Inductive loop_step (t : string) (size : Z) : daemon * trace -> daemon * trace -> Prop :=
| step_round d tr d' tr' :
    clean_round size d tr -> serve t size d tr = (Ok tt, d', tr') -> loop_step t size (d, tr) (d', tr')
| step_rotate d tr d' tr' :
    on_signal SIGUSR1 d tr = (Ok tt, d', tr') -> loop_step t size (d, tr) (d', tr').

Lemma wp_rotate size d tr :
  serving size d -> wp (on_signal SIGUSR1) (fun o d' _ => o = Ok tt /\ serving size d') d tr.
Proof.
  intros [He Hc Hq Hp]. change (on_signal SIGUSR1) with reopen_log. unfold reopen_log.
  wp_step. wp_step. wp_step. wp_step. wp_step; [|by wp_step]. wp_step; [|by wp_step].
  wp_step; [|by wp_step]. apply wp_bind, wp_on_memory. wp_step. wp_step.
  - apply wp_on_prog. wp_step. split; [done|]. by split.
  - apply wp_bind, wp_on_prog. wp_step. apply wp_on_prog. apply wp_verr. intros g' tr' Hg.
    split; [done|]. split; [done..|]. unfold mem. simpl in *. by rewrite Hg.
Qed.

Lemma loop_serving t size s s' :
  nul_free t = true -> rtc (loop_step t size) s s' -> serving size (fst s) -> serving size (fst s').
Proof.
  intros Ht. induction 1 as [|s1 s2 s3 Hstep _ IH]; [done|]. intros Hs. apply IH.
  destruct Hstep as [d tr d' tr' Hc Hrun|d tr d' tr' Hrun]; simpl in *.
  - by destruct (wp_run _ _ _ _ _ _ _ (wp_serve t size d tr Ht Hs Hc) Hrun) as (_ & ? & _).
  - by destruct (wp_run _ _ _ _ _ _ _ (wp_rotate size d tr Hs) Hrun).
Qed.

(** C3: the loop of the daemon is safe, stays usable and logs its failures.  For any
    queue and any engine that keep their contracts, on a system where [malloc] and
    [strdup] succeed and [getaddrinfo] gives a result when it succeeds: in every
    state that is reached by log rotations and by rounds whose message, if one was
    received, has no slash or a prefix that is a number strictly between 0 and
    [ULONG_MAX], the next rotation returns, and so does the next round on such a
    message.  When the queue, the address or the engine failed in that round, the one
    message of the failure is written to the log and cleared; otherwise nothing is.
    The daemon is then ready for the next round, with no error pending. *)
Theorem banipd_serves t size d tr d1 tr1 :
  nul_free t = true -> serving size d -> rtc (loop_step t size) (d, tr) (d1, tr1) ->
  serving size d1
  /\ (clean_round size d1 tr1 ->
      exists d2 tr2, serve t size d1 tr1 = (Ok tt, d2, tr2) /\ round_logged t size d1 tr1 (Ok tt) d2 tr2)
  /\ (exists d2 tr2, on_signal SIGUSR1 d1 tr1 = (Ok tt, d2, tr2) /\ serving size d2).
Proof.
  intros Ht Hd Hsteps. pose proof (loop_serving t size _ _ Ht Hsteps Hd) as Hd1. simpl in Hd1.
  split; [done|]. split.
  - intros Hc. apply (wp_result _ (fun res => exists d2 tr2, res = (Ok tt, d2, tr2)
      /\ round_logged t size d1 tr1 (Ok tt) d2 tr2)).
    eapply wp_mono; [|by apply wp_serve]. intros o d2 tr2 Hr. pose proof Hr as [-> _]. eauto.
  - apply (wp_result _ (fun res => exists d2 tr2, res = (Ok tt, d2, tr2) /\ serving size d2)).
    eapply wp_mono; [|by apply wp_rotate]. intros o d2 tr2 [-> H2]. eauto.
Qed.
End Loop.

(** ** The whole daemon *)

(** Command line arguments are C strings, and the name of the queue is one the
    linked implementation accepts. *)
Definition args_ok (queue_name : string -> Prop) (opts : list (ascii * string)) : Prop :=
  Forall (fun o => nul_free (snd o) = true /\ (fst o = "q"%char -> queue_name (snd o))) opts.

Section Top.
Context `{EV : !Env} `{EN : !Endian} `{Q : !QueueOps}.
Context `{HM : !MallocOk} `{HS : !StrdupOk} `{HG : !GaiOk}.
Context `{RC : !ReceiveContract Q} `{OC : !OwnerContract Q}.
Context (b : build prog) (HC : forall e, e ∈ engines b -> inhabited (EngineContract e)).
Implicit Types (d : daemon) (tr : trace).

(** States in which [cleanup] is safe: no context, or one the engine made. *)
Definition closable d : Prop :=
  d_ctxt d = None \/
  exists e (EC : EngineContract e), d_engine d = Some e /\ valid_ctxt (d_ctxt d).

(** The state before the queue is opened. *)
Record starting d : Prop := Starting
  { st_queue : exists q, d_queue d = Some q /\ unopened q; st_ctxt : d_ctxt d = None;
    st_error : p_error (mem d) = None; st_engine : exists e, e ∈ engines b /\ d_engine d = Some e }.

(** Ways the start may end: a value, or [exit] with a status other than 0. *)
Definition starts {A} (I : A -> daemon -> Prop) (o : outcome A) d (tr : trace) : Prop :=
  match o with
  | Ok a => I a d
  | Exit n => (n = BANIPD_EXIT_FAILURE \/ n = BANIPD_EXIT_USAGE) /\ closable d
  | _ => False
  end.

Lemma starting_closable d : starting d -> closable d.
Proof. intros [_ Hc _ _]. by left. Qed.

Lemma closable_dg g d : closable d -> closable (set_dg g d).
Proof. done. Qed.

Lemma starting_dg g d : starting d -> p_error (pg_proc g) = None -> starting (set_dg g d).
Proof. by intros [? ? ? ?] Hg; split. Qed.

Lemma wp_verr_fatal errcode msg (R : outcome unit -> prog -> trace -> Prop) g tr :
  (forall g' tr', R (Exit BANIPD_EXIT_FAILURE) g' tr') -> wp (banipd_verr true errcode msg) R g tr.
Proof.
  intros HR. unfold banipd_verr, on_proc, write_line. wp_step. wp_step. wp_step. wp_step. wp_step.
  wp_step. wp_step. wp_step. destruct (negb (errcode =? 0)); wp_steps; by apply HR.
Qed.

(** A fatal message ends the start, whatever follows. *)
Lemma wp_fatal {A} (m : M prog unit) (k : unit -> M daemon A) I d tr :
  (forall R g tr, (forall g' tr', R (Exit BANIPD_EXIT_FAILURE) g' tr') -> wp m R g tr) ->
  closable d -> wp (on_prog m ≫= k) (starts I) d tr.
Proof. intros Hm Hd. apply wp_bind, wp_on_prog, Hm. intros. split; [by left|done]. Qed.

Lemma wp_errx msg (R : outcome unit -> prog -> trace -> Prop) g tr :
  (forall g' tr', R (Exit BANIPD_EXIT_FAILURE) g' tr') -> wp (errx msg) R g tr.
Proof. apply wp_verr_fatal. Qed.

Lemma wp_errc msg (R : outcome unit -> prog -> trace -> Prop) g tr :
  (forall g' tr', R (Exit BANIPD_EXIT_FAILURE) g' tr') -> wp (errc msg) R g tr.
Proof.
  intros HR. unfold errc. simpl. unfold on_proc. wp_step. wp_step. wp_step. by apply wp_verr_fatal.
Qed.

Lemma wp_warnc msg (R : outcome unit -> prog -> trace -> Prop) g tr :
  (forall g' tr', p_error (pg_proc g') = p_error (pg_proc g) -> R (Ok tt) g' tr') ->
  wp (warnc msg) R g tr.
Proof.
  intros HR. unfold warnc. simpl. unfold on_proc. wp_step. wp_step. wp_step. by apply wp_verr.
Qed.

(** Numbers: accepted without effect, or refused with one message. *)
Lemma wp_parse_ulong s p tr :
  p_error p = None ->
  wp (parse_ulong s ErrVar) (fun o p' _ => match o with
    | Ok (true, _) => p_error p' = None
    | Ok (false, _) => is_Some (p_error p')
    | _ => False end) p tr.
Proof.
  intros Hp. unfold parse_ulong, set_generic_error. wp_step.
  assert (Hset : forall p1, p_error p1 = None -> wp (errno ← gets p_errno;
    if (errno =? ERANGE) && (su_val (strtoul s) =? ULONG_MAX)
       || negb (errno =? 0) && (su_val (strtoul s) =? 0) then
      _error_set ErrVar ("overflow or underflow for '" +:+ s +:+ "'");; mret (false, su_val (strtoul s))
    else if negb (su_moved (strtoul s)) then
      _error_set ErrVar "number expected, no digit found";; mret (false, su_val (strtoul s))
    else match su_end (strtoul s) with
    | String c _ =>
        _error_set ErrVar ("number expected, non digit found " +:+ String c (" in " +:+ s));;
        mret (false, su_val (strtoul s))
    | EmptyString =>
        if su_val (strtoul s) <=? 0 then
          _error_set ErrVar ("number should be greater than 0, got " +:+ pretty (su_val (strtoul s)));;
          mret (false, su_val (strtoul s))
        else mret (true, su_val (strtoul s))
    end) (fun o p' _ => match o with
    | Ok (true, _) => p_error p' = None
    | Ok (false, _) => is_Some (p_error p')
    | _ => False end) p1 tr).
  { intros p1 Hp1. wp_step. wp_step.
    repeat (wp_step; [apply wp_report_generic; [done|]; intros p2 tr2 -> _; by eexists|]).
    destruct (su_end (strtoul s)).
    - wp_step; [apply wp_report_generic; [done|]; intros p2 tr2 -> _; by eexists|by wp_step].
    - apply wp_report_generic; [done|]. intros p2 tr2 -> _. by eexists. }
  destruct (su_erange (strtoul s)); wp_step; by apply Hset.
Qed.

Lemma wp_set_attribute_option attr what optarg d tr :
  starting d -> wp (set_attribute_option attr what optarg) (starts (fun _ => starting)) d tr.
Proof.
  intros Hd. pose proof Hd as [(q & Hq & Hu) Hc He Hen]. unfold set_attribute_option.
  apply wp_bind, wp_on_memory. eapply wp_mono; [|by apply wp_parse_ulong].
  intros [[[|] v]|?| |?] p1 tr1 Ho; try done; cbv beta iota.
  - wp_step. wp_step. rewrite Hq. wp_step. split; [|done..]. eauto using owner_set.
  - apply wp_bind, wp_on_memory. wp_step. destruct Ho as [msg Hmsg].
    rewrite mem_set_mem, Hmsg. apply wp_on_prog, wp_verr_fatal. intros. split; [by left|by left].
Qed.

Lemma wp_usage {A} (I : A -> daemon -> Prop) d tr : closable d -> wp usage (starts I) d tr.
Proof.
  intros Hd. unfold usage. apply wp_bind, wp_on_memory. wp_step. wp_step. split; [by right|done].
Qed.

Lemma found_engine n e : get_engine_by_name b n = Some e -> e ∈ engines b.
Proof.
  unfold get_engine_by_name. rewrite available_engines_shape. intros Hf.
  pose proof (find_engine_spec (engines b) n) as Hs. rewrite Hf in Hs.
  destruct Hs as (l1 & l2 & -> & _). apply elem_of_app. right. by left.
Qed.

Definition settings_ok (st : settings) : Prop :=
  (forall t, tablename st = Some t -> nul_free t = true)
  /\ (forall q, queuename st = Some q -> name_ok q).

Lemma wp_process_option st c optarg d tr :
  starting d -> settings_ok st -> nul_free optarg = true -> (c = "q"%char -> name_ok optarg) ->
  wp (process_option b st c optarg) (starts (fun st' d' => settings_ok st' /\ starting d')) d tr.
Proof.
  intros Hd Hst Harg Hname. pose proof Hd as [Hq Hc He (e & Hin & Hen)]. unfold process_option.
  assert (Hattr : forall attr what, wp (set_attribute_option attr what optarg;; mret st)
    (starts (fun st' d' => settings_ok st' /\ starting d')) d tr).
  { intros attr what. apply wp_bind. eapply wp_mono; [|by apply wp_set_attribute_option].
    intros [u|n| |u] d' tr' Ho; [by apply wp_ret|done|done|done]. }
  destruct (Ascii.eqb c "b"); [apply Hattr|].
  destruct (Ascii.eqb c "d"); [by apply wp_ret|].
  destruct (Ascii.eqb c "e").
  { wp_step. apply wp_modify. destruct (get_engine_by_name b optarg) as [e'|] eqn:Hf.
    - wp_step. split; [done|]. split; [done..|]. eauto using found_engine.
    - apply wp_fatal; [apply wp_errx|]. by left. }
  destruct (Ascii.eqb c "g").
  { apply wp_bind, wp_on_memory. wp_step.
    wp_step; [wp_step; split; [done|by apply starting_dg]|].
    apply wp_fatal; [apply wp_errc|]. by left. }
  destruct (Ascii.eqb c "l").
  { wp_step. apply wp_modify. apply wp_bind, wp_on_memory. wp_step.
    apply wp_bind, wp_on_prog. wp_step. destruct r as [fp|].
    - wp_step. split; [done|]. split; [done..|]. eauto.
    - apply wp_bind, wp_on_prog, wp_warnc. intros g' tr' Hg. wp_step. split; [done|].
      split; [done..| |eauto]. unfold mem in *. simpl in *. by rewrite Hg. }
  destruct (Ascii.eqb c "p"); [wp_step; apply wp_modify; wp_step; split; [done|split; eauto]|].
  destruct (Ascii.eqb_spec c "q") as [->|].
  { apply wp_ret. split; [|done]. split; [apply Hst|]. intros q [= <-]. by apply Hname. }
  destruct (Ascii.eqb c "s"); [apply Hattr|].
  destruct (Ascii.eqb c "t").
  { apply wp_ret. split; [|done]. split; [by intros t [= <-]|apply Hst]. }
  destruct (Ascii.eqb c "v"); [by apply wp_ret|].
  apply wp_usage. by left.
Qed.

Lemma wp_process_options opts : forall st d tr,
  starting d -> settings_ok st -> args_ok name_ok opts ->
  wp (process_options b opts st) (starts (fun st' d' => settings_ok st' /\ starting d')) d tr.
Proof.
  induction opts as [|[c a] opts IH]; intros st d tr Hd Hst Ha; simpl; [by apply wp_ret|].
  apply Forall_cons_iff in Ha as [[Ha Hname] Hopts].
  apply wp_bind. eapply wp_mono; [|by apply wp_process_option].
  intros [st'|n| |u] d' tr' Ho; try done. destruct Ho. by apply IH.
Qed.

(** A step of the setup: it goes on from [I], or breaks out closable. *)
Definition goes_on {A} (I : A -> daemon -> Prop) (o : outcome (option A)) d (tr : trace) : Prop :=
  match o with Ok (Some a) => I a d | Ok None => closable d | _ => False end.

Definition if_true (I : daemon -> Prop) (o : outcome bool) d (tr : trace) : Prop :=
  match o with Ok true => I d | Ok false => closable d | _ => False end.

(** The error branches of the setup. *)
Lemma wp_break {A} (m : M proc unit) (a : A) R d tr :
  (forall R p tr, p_error p = None -> (forall p' tr', R (Ok tt) p' tr') -> wp m R p tr) ->
  p_error (mem d) = None -> (forall p' tr', R (Ok a) (set_mem p' d) tr') ->
  wp (on_memory m ≫= fun _ => mret a) R d tr.
Proof. intros Hm Hd HR. apply wp_bind, wp_on_memory, Hm; [done|]. intros. apply wp_ret, HR. Qed.

Lemma wp_error_any msg (R : outcome unit -> proc -> trace -> Prop) p tr :
  p_error p = None -> (forall p' tr', R (Ok tt) p' tr') -> wp (_error_set ErrVar msg) R p tr.
Proof. intros Hp HR. apply wp_error_set; auto. Qed.

Lemma wp_syserror_any msg (R : outcome unit -> proc -> trace -> Prop) p tr :
  p_error p = None -> (forall p' tr', R (Ok tt) p' tr') -> wp (set_system_error ErrVar msg) R p tr.
Proof. intros Hp HR. apply wp_system_error; auto. Qed.

Ltac break_out := apply wp_break; [apply wp_syserror_any||apply wp_error_any|done|intros; by left].

Lemma wp_daemonize st d tr : starting d -> wp (daemonize st) (if_true starting) d tr.
Proof.
  intros Hd. pose proof Hd as [Hq Hc He Hen]. unfold daemonize. destruct (dFlag st); [|by apply wp_ret].
  apply wp_bind, wp_on_memory. wp_step. wp_step; [break_out|]. wp_step. by repeat apply starting_dg.
Qed.

Lemma wp_write_pid d tr :
  starting d -> wp write_pid (fun o d' _ => o = Ok tt /\ starting d') d tr.
Proof.
  intros Hd. pose proof Hd as [Hq Hc He Hen]. unfold write_pid. wp_step. wp_step.
  destruct (d_pidfile d); [|by apply wp_ret]. apply wp_bind, wp_on_memory. wp_step. wp_step.
  - apply wp_bind, wp_on_memory. wp_step. apply wp_bind, wp_on_memory. wp_step.
    apply wp_on_memory. wp_step. split; [by units|].
    by repeat apply starting_dg.
  - apply wp_on_prog, wp_warnc. intros g' tr' Hg. split; [done|].
    apply starting_dg; [by apply starting_dg|by rewrite Hg].
Qed.

Lemma wp_change_group st d tr : starting d -> wp (change_group st) (if_true starting) d tr.
Proof.
  intros Hd. pose proof Hd as [Hq Hc He Hen]. unfold change_group.
  destruct (negb (GID_NONE =? gid st)); [|by apply wp_ret].
  apply wp_bind, wp_on_memory. wp_step. wp_step; [break_out|].
  apply wp_bind, wp_on_memory. wp_step. wp_step; [break_out|]. wp_step. by repeat apply starting_dg.
Qed.

(** The state once the queue is open and the buffer allocated. *)
Record queue_open_state (size : Z) d : Prop := QueueOpen
  { qo_queue : exists q buf, d_queue d = Some q /\ d_buffer d = Some buf /\ ready q buf size;
    qo_ctxt : d_ctxt d = None; qo_error : p_error (mem d) = None;
    qo_engine : exists e, e ∈ engines b /\ d_engine d = Some e }.

Lemma wp_open_queue name d tr :
  name_ok name -> starting d -> wp (open_queue name) (goes_on queue_open_state) d tr.
Proof.
  intros Hname [(q0 & Hq & Hu) Hc He Hen]. unfold open_queue, set_malloc_error, set_generic_error.
  wp_step. wp_step. rewrite Hq.
  apply wp_bind, wp_on_memory. eapply wp_mono; [|by apply owner_open].
  intros [[[|] q]|?| |?] p1 tr1 Ho; try done; cbv beta iota; cbn [negb].
  - destruct Ho as [Ha Hp1]. wp_step. apply wp_modify. apply wp_bind, wp_on_memory.
    eapply wp_mono; [|by apply owner_size].
    intros [[[| | |] [v|]]|?| |?] p2 tr2 Ho; try done; cbv beta iota; try break_out.
    destruct Ho as [Hp2 Hready]. apply wp_bind, wp_on_memory. wp_step. wp_step; [|break_out].
    wp_step. apply wp_modify. wp_step. split; [|done..].
    do 2 eexists. split; [done|]. split; [done|]. apply Hready.
    rewrite length_replicate, Z2Nat.id; [done|]. by apply Z.mod_pos_bound.
  - wp_step. apply wp_modify. wp_step. by left.
Qed.

(** Ready to serve with some engine of the build. *)
Definition serving_some (size : Z) d : Prop :=
  exists e (EC : EngineContract e), serving e size d.

Lemma wp_open_engine size t d tr :
  nul_free t = true -> queue_open_state size d -> wp (open_engine t) (if_true (serving_some size)) d tr.
Proof.
  intros Ht [Hq Hc He (e & Hin & Hen)]. unfold open_engine. wp_step. wp_step. rewrite Hen.
  destruct (HC e Hin) as [EC]. pose proof (open_ok t (mem d) tr Ht He) as Hopen.
  destruct (open e) as [f|]; cbv beta iota.
  - apply wp_bind, wp_on_memory. revert Hopen. apply wp_mono.
    intros [[c|]|?| |?] p1 tr1 Ho; try done; cbv beta iota; wp_step; apply wp_modify; wp_step.
    + destruct Ho as [Hv Hp1]. exists e, EC. by split.
    + by left.
  - apply wp_ret. exists e, EC. split; [done|by rewrite Hc|done|done].
Qed.

Lemma serving_closable size d : serving_some size d -> closable d.
Proof. intros (e & EC & [He Hc _ _]). right. exists e, EC. auto. Qed.

Lemma serving_mem size p d : serving_some size d -> p_error p = None -> serving_some size (set_mem p d).
Proof. intros (e & EC & [? ? ? ?]) Hp. exists e, EC. by split. Qed.

Lemma serving_error size d : serving_some size d -> p_error (mem d) = None.
Proof. by intros (e & EC & [? ? ? ?]). Qed.

Lemma wp_drop_root size d tr : serving_some size d -> wp drop_root (if_true (serving_some size)) d tr.
Proof.
  intros Hd. pose proof (serving_error _ _ Hd) as Hp. pose proof (serving_closable _ _ Hd) as Hcl.
  pose proof Hd as (e & EC & [He _ _ _]). unfold drop_root, set_generic_error. wp_step. wp_step. rewrite He.
  assert (Hmem : forall p, p_error p = None -> serving_some size (set_mem p d))
    by (intros p; by apply serving_mem).
  apply wp_bind, wp_on_memory. wp_step. wp_step; [|wp_step; by apply Hmem].
  apply wp_bind, wp_on_memory. wp_step. wp_step. wp_step.
  - wp_step. apply wp_bind, wp_on_memory. wp_step. wp_step.
    + apply wp_break; [apply wp_syserror_any|done|intros; exact Hcl].
    + wp_step. by apply Hmem.
  - apply wp_on_memory. wp_step. wp_step.
    + apply wp_bind, wp_on_memory. wp_step. wp_step.
      * apply wp_break; [apply wp_syserror_any|done|intros; exact Hcl].
      * wp_step. by apply Hmem.
    + apply wp_break; [apply wp_error_any|done|intros; exact Hcl].
Qed.

Lemma wp_setup st t q d tr :
  nul_free t = true -> name_ok q -> starting d -> wp (setup st t q) (goes_on serving_some) d tr.
Proof.
  intros Ht Hn Hd. unfold setup. apply wp_bind. eapply wp_mono; [|by apply wp_daemonize].
  intros [[|]|?| |?] d1 tr1 H1; try done; cbn [negb].
  apply wp_bind. eapply wp_mono; [|by apply wp_write_pid]. intros o d2 tr2 [-> H2].
  apply wp_bind. eapply wp_mono; [|by apply wp_change_group].
  intros [[|]|?| |?] d3 tr3 H3; try done; cbn [negb].
  apply wp_bind. eapply wp_mono; [|by apply wp_open_queue].
  intros [[size|]|?| |?] d4 tr4 H4; try done.
  apply wp_bind. eapply wp_mono; [|by apply wp_open_engine].
  intros [[|]|?| |?] d5 tr5 H5; try done; cbn [negb].
  apply wp_bind. eapply wp_mono; [|by apply wp_drop_root].
  intros [[|]|?| |?] d6 tr6 H6; done.
Qed.

(** ** Ending *)

Lemma wp_close_engine d tr :
  closable d ->
  wp close_engine (fun o d' _ => o = Ok tt /\ d_ctxt d' = None /\ d_buffer d' = None) d tr.
Proof.
  intros Hd. unfold close_engine. wp_step. apply wp_modify. wp_step. wp_step.
  destruct (d_ctxt d) as [c|] eqn:Hc; [|by apply wp_ret].
  destruct Hd as [Hd|(e & EC & He & Hv)]; [congruence|].
  wp_step. wp_step. rewrite He. rewrite Hc in Hv.
  pose proof (close_ok c (dg d) tr Hv) as Hcl.
  apply wp_bind. destruct (close e) as [f|].
  - apply wp_on_prog. revert Hcl. apply wp_mono. intros [c'|?| |?] g tr' Ho; try done.
    destruct c'; try done; simpl; wp_step; wp_step; by wp_step.
  - apply wp_ret. apply wp_run with (o := Ok c) (s' := dg d) (tr' := tr) in Hcl; [|done].
    destruct c; try done; simpl; wp_step; wp_step; by wp_step.
Qed.

Lemma wp_remove_pid d tr :
  d_ctxt d = None -> d_buffer d = None ->
  wp remove_pid (fun o d' _ => o = Ok tt /\ d_ctxt d' = None /\ d_buffer d' = None) d tr.
Proof.
  intros Hc Hb. unfold remove_pid. wp_step. wp_step. wp_step; [|by wp_step].
  apply wp_bind, wp_on_memory. wp_step. wp_step; [|by wp_step].
  apply wp_on_prog, wp_warnc. by intros.
Qed.

Lemma wp_close_log d tr :
  d_ctxt d = None -> d_buffer d = None ->
  wp close_log (fun o d' _ => o = Ok tt /\ d_ctxt d' = None /\ d_buffer d' = None) d tr.
Proof.
  intros Hc Hb. unfold close_log. wp_step. wp_step. wp_step; [|by wp_step]. wp_step; [|by wp_step].
  apply wp_bind, wp_on_memory. wp_step. apply wp_on_prog. by wp_step.
Qed.

Lemma wp_cleanup d tr :
  closable d ->
  wp cleanup (fun o d' _ => o = Ok tt /\ d_ctxt d' = None /\ d_buffer d' = None) d tr.
Proof.
  intros Hd. unfold cleanup. apply wp_bind. eapply wp_mono; [|by apply wp_close_engine].
  intros o d1 tr1 (-> & Hc1 & Hb1). wp_step. wp_step.
  apply wp_bind, wp_on_memory. eapply wp_mono; [|apply owner_close].
  intros o p2 tr2 ([r q] & -> & _). wp_step. apply wp_modify.
  apply wp_bind. eapply wp_mono; [|by apply wp_remove_pid]. intros o d3 tr3 (-> & Hc3 & Hb3).
  by apply wp_close_log.
Qed.

(** ** The program *)

(** How the daemon may end, or that it is still serving. *)
Definition daemon_ends (o : outcome unit) d (tr : trace) : Prop :=
  match o with
  | Ok _ => exists size, serving_some size d
  | Exit n => (n = BANIPD_EXIT_FAILURE \/ n = BANIPD_EXIT_USAGE) /\ d_ctxt d = None
  | _ => False
  end.

Lemma wp_at_exit (m : M daemon (option Z)) d tr :
  wp m (fun o d' _ => match o with
    | Ok None => exists size, serving_some size d'
    | Ok (Some n) | Exit n => (n = BANIPD_EXIT_FAILURE \/ n = BANIPD_EXIT_USAGE) /\ closable d'
    | _ => False end) d tr ->
  wp (at_exit m) daemon_ends d tr.
Proof.
  intros Hm. unfold wp, at_exit in *.
  destruct (m d tr) as [[[[n|]|n| |u] d1] tr1]; try done; destruct Hm as [Hn Hcl];
    apply (wp_result _ (fun res => let '(o, d', tr') := res in daemon_ends o d' tr'));
    apply wp_bind; (eapply wp_mono; [|by apply wp_cleanup]);
    intros o d2 tr2 (-> & Hc & _); by apply wp_exit.
Qed.

Lemma wp_main_start opts argc d tr :
  args_ok name_ok opts -> starting (set_engine (get_default_engine b) d) ->
  wp (main_start b opts argc) (starts (fun r d' => match r with
    | inl n => n = BANIPD_EXIT_FAILURE /\ closable d'
    | inr (t, size) => nul_free t = true /\ serving_some size d' end)) d tr.
Proof.
  intros Ha Hd. unfold main_start.
  apply wp_bind, wp_on_memory. wp_step. apply wp_bind, wp_on_memory. wp_step.
  apply wp_bind, wp_on_memory. wp_step. wp_step. apply wp_modify.
  pose proof Hd as [_ _ _ (eng & Hin & He)]. simpl in He. rewrite He in *. wp_step. wp_step.
  apply wp_bind. eapply wp_mono; [|apply wp_process_options; [split; [apply Hd..|eauto]|done..]].
  intros [st|n| |u] d1 tr1 Ho; try done. destruct Ho as [Hst H1].
  destruct (tablename st) as [t|] eqn:Ht; [|apply wp_usage; by apply starting_closable].
  destruct (queuename st) as [q|] eqn:Hq; [|apply wp_usage; by apply starting_closable].
  wp_step; [apply wp_usage; by apply starting_closable|].
  apply wp_bind. eapply wp_mono; [|apply wp_setup; [by apply Hst|by apply Hst|done]].
  intros [[size|]|?| |?] d2 tr2 H2; try done; simpl.
  - wp_step. split; [by apply Hst|done].
  - apply wp_bind, wp_on_memory. wp_step. destruct (p_error (mem d2)) as [msg|] eqn:Hm; simpl.
    + apply wp_bind, wp_on_prog. eapply wp_report_error; [exact Hm|]. intros. by wp_step.
    + wp_step. wp_step. by wp_step.
Qed.

(** Until the loop the number of rounds does not matter: the program ends there, or it
    comes to the loop ready to serve. *)
Lemma main_serves opts argc :
  args_ok name_ok opts ->
  (exists o d' tr', daemon_ends o d' tr' /\ forall n, main b opts argc n daemon0 [] = (o, d', tr'))
  \/ exists t size d tr, nul_free t = true /\ serving_some size d /\
     forall n, main b opts argc n daemon0 [] = at_exit (serve_n n t size;; mret None) d tr.
Proof.
  intros Ha. unfold main.
  destruct (queue_init ErrVar (mem daemon0) []) as [[o1 p1] tr1] eqn:Hinit.
  pose proof (wp_run _ _ _ _ _ _ _ (owner_init (mem daemon0) [] eq_refl) Hinit) as Hq.
  apply on_memory_run in Hinit. destruct o1 as [[q|]|?| |?]; try done.
  2: { left. set (d1 := set_queue None (set_mem p1 daemon0)).
       pose proof (wp_on_prog (errx "queue_init failed") (fun o d' tr' => daemon_ends o d' tr') d1 tr1) as Hw.
       destruct (on_prog (errx "queue_init failed") d1 tr1) as [[o d'] tr'] eqn:E.
       exists o, d', tr'. split; [|intros n; by rewrite (bind_Ok _ _ _ _ _ _ _ Hinit), bind_modify].
       unfold wp at 2 in Hw. rewrite E in Hw. apply Hw. apply wp_errx. intros. split; [by left|done]. }
  destruct Hq as [Hu Hp]. set (d1 := set_queue (Some q) (set_mem p1 daemon0)).
  destruct (main_start b opts argc d1 tr1) as [[o2 d2] tr2] eqn:Hstart.
  assert (Hs : starting (set_engine (get_default_engine b) d1)).
  { split; [by exists q|done|done|]. unfold get_default_engine. rewrite available_engines_shape.
    destruct (engines_dummy b) as [pre Hl].
    destruct (engines b) as [|eng l'] eqn:E; [by destruct pre|]. exists eng. split; [by left|done]. }
  pose proof (wp_run _ _ _ _ _ _ _ (wp_main_start opts argc d1 tr1 Ha Hs) Hstart) as Hpost.
  assert (Hrun : forall n, (queue ← on_memory (queue_init ErrVar); modify (set_queue queue);;
    match queue with
    | Some _ => at_exit (main_body b opts argc n)
    | None => on_prog (errx "queue_init failed") end) daemon0 [] = at_exit (main_body b opts argc n) d1 tr1).
  { intros n. by rewrite (bind_Ok _ _ _ _ _ _ _ Hinit), bind_modify. }
  assert (Hend : forall m, (forall n, at_exit (main_body b opts argc n) d1 tr1 = at_exit m d2 tr2) ->
    wp m (fun o d' _ => match o with
      | Ok None => exists size, serving_some size d'
      | Ok (Some n) | Exit n => (n = BANIPD_EXIT_FAILURE \/ n = BANIPD_EXIT_USAGE) /\ closable d'
      | _ => False end) d2 tr2 ->
    exists o d' tr', daemon_ends o d' tr' /\ forall n, at_exit (main_body b opts argc n) d1 tr1 = (o, d', tr')).
  { intros m Hm Hw. apply wp_at_exit in Hw. unfold wp in Hw.
    destruct (at_exit m d2 tr2) as [[o d'] tr'] eqn:E. exists o, d', tr'. split; [done|]. intros n.
    exact (Hm n). }
  destruct o2 as [[st|[t size]]|n2| |?]; try done; simpl in Hpost.
  - left. setoid_rewrite Hrun. destruct Hpost as [-> Hcl]. apply (Hend (mret (Some BANIPD_EXIT_FAILURE))).
    + intros n. unfold at_exit, main_body. by rewrite (bind_Ok _ _ _ _ _ _ _ Hstart).
    + apply wp_ret. auto.
  - right. setoid_rewrite Hrun. destruct Hpost as [Ht Hserv]. exists t, size, d2, tr2.
    split; [done|]. split; [done|]. intros n. unfold at_exit, main_body.
    by rewrite (bind_Ok _ _ _ _ _ _ _ Hstart).
  - left. setoid_rewrite Hrun. apply (Hend (exit_ n2)); [|by apply wp_exit].
    intros n. unfold at_exit, main_body, mbind, M_bind. by rewrite Hstart.
Qed.

(** A run of [n] rounds is safe: it ended or still serves; or some round before the
    last met a message that is not clean, in a daemon that was still good. *)
Definition safe_run (run : nat -> outcome unit * daemon * trace) (n : nat) : Prop :=
  (exists o d' tr', run n = (o, d', tr') /\ daemon_ends o d' tr')
  \/ exists k size d' tr', (k < n)%nat /\ run k = (Ok tt, d', tr') /\ serving_some size d'
       /\ bad_round size d' tr'.

Lemma main_safe opts argc n :
  args_ok name_ok opts -> safe_run (fun n => main b opts argc n daemon0 []) n.
Proof.
  intros Ha. destruct (main_serves opts argc Ha)
    as [(o & d' & tr' & He & Hall)|(t & size & d & tr & Ht & (eng & EC & Hs) & Hall)].
  { left. exists o, d', tr'. by rewrite Hall. }
  assert (Hrun : forall n d' tr', serve_n n t size d tr = (Ok tt, d', tr') ->
    main b opts argc n daemon0 [] = (Ok tt, d', tr')).
  { intros k d' tr' Hk. rewrite Hall. unfold at_exit. by rewrite (bind_Ok _ _ _ _ _ _ _ Hk). }
  destruct (serve_n_safe eng n t size d tr Ht Hs)
    as [(d' & tr' & H1 & H2)|(k & d' & tr' & Hk & H1 & H2 & Hbad)].
  - left. exists (Ok tt), d', tr'. split; [by apply Hrun|]. by exists size, eng, EC.
  - right. exists k, size, d', tr'. split_and!; [done|by apply Hrun|by exists eng, EC|done].
Qed.

End Top.

(** ** Options, privileges *)

Section Start.
Context `{EV : !Env} `{EN : !Endian} `{Q : !QueueOps}.
Implicit Types (d : daemon) (tr : trace).

(** The queue object is not changed by [m]. *)
Definition keeps_queue {A} (q : queue_t) (m : M daemon A) : Prop :=
  forall d tr, d_queue d = Some q ->
    wp m (fun o d' _ => match o with Ok _ => d_queue d' = Some q | _ => True end) d tr.

Lemma keeps_bind {A B} q (m : M daemon A) (k : A -> M daemon B) :
  keeps_queue q m -> (forall a, keeps_queue q (k a)) -> keeps_queue q (m ≫= k).
Proof.
  intros Hm Hk d tr Hd. apply wp_bind. eapply wp_mono; [|by apply Hm].
  intros [a|n| |u] d' tr' Ho; try done. by apply Hk.
Qed.

Lemma keeps_ret {A} q (a : A) : keeps_queue q (mret a).
Proof. intros d tr Hd. by apply wp_ret. Qed.

Lemma keeps_prog {A} q (m : M prog A) : keeps_queue q (on_prog m).
Proof. intros d tr Hd. apply wp_on_prog, run_wp. by intros [a|n| |u] g' tr' _. Qed.

Lemma keeps_memory {A} q (m : M proc A) : keeps_queue q (on_memory m).
Proof. apply keeps_prog. Qed.

Lemma keeps_undef {A} q u : keeps_queue q (undef u : M daemon A).
Proof. by intros d tr _. Qed.

Lemma keeps_exit {A} q n : keeps_queue q (exit_ n : M daemon A).
Proof. by intros d tr _. Qed.

Lemma keeps_modify q f : (forall d, d_queue (f d) = d_queue d) -> keeps_queue q (modify f).
Proof. intros Hf d tr Hd. apply wp_modify. by rewrite Hf. Qed.

#[local] Hint Resolve keeps_bind keeps_ret keeps_prog keeps_memory keeps_undef keeps_exit : banip.

Lemma keeps_attribute `{QC : !QueueContract Q} q attr what optarg :
  fresh q -> keeps_queue q (set_attribute_option attr what optarg).
Proof.
  intros Hq. apply keeps_bind; [apply keeps_memory|]. intros [[|] v].
  - intros d tr Hd. wp_step. wp_step. rewrite Hd. wp_step. by rewrite fresh_refuses.
  - apply keeps_bind; [apply keeps_memory|]. intros [msg|]; auto with banip.
Qed.

Lemma keeps_option `{QC : !QueueContract Q} b q st c optarg :
  fresh q -> keeps_queue q (process_option b st c optarg).
Proof.
  intros Hq. unfold process_option, usage.
  repeat match goal with |- keeps_queue _ (if ?x then _ else _) => destruct x end;
    repeat first [ by apply keeps_attribute | apply keeps_bind; [|intros ?] | apply keeps_ret
                 | apply keeps_memory | apply keeps_prog | apply keeps_exit
                 | by apply keeps_modify | case_match ].
Qed.

(** Whichever queue implementation is linked, the options [-b] and [-s] have no
    effect: after any command line the queue object is the one [queue_init]
    made, with its default sizes. *)
Theorem banipd_sizes_ignored `{QC : !QueueContract Q} b opts q : forall st d tr st' d' tr',
  fresh q -> d_queue d = Some q ->
  process_options b opts st d tr = (Ok st', d', tr') -> d_queue d' = Some q.
Proof.
  intros st d tr st' d' tr' Hq Hd Hrun.
  assert (Hk : forall st, keeps_queue q (process_options b opts st)).
  { clear -Hq QC. induction opts as [|[c a] opts IH]; intros st; simpl; [apply keeps_ret|].
    apply keeps_bind; [by apply keeps_option|auto]. }
  exact (wp_run _ _ _ _ _ _ _ (Hk st d tr Hd) Hrun).
Qed.

(** The latest calls show that superuser rights were not there, or were given up for
    those of [nobody] or, where there is no such account, of [daemon]. *)
Definition unprivileged (tr : trace) : Prop :=
  exists tr0,
    (exists u, u <> 0 /\ tr = Ev Getuid u :: tr0)
    \/ (exists uid, tr = [Ev (Setuid uid) 0; Ev (Getpwnam "nobody") (Some uid); Ev Getuid 0] ++ tr0)
    \/ (exists uid, tr = [Ev (Setuid uid) 0; Ev (Getpwnam "daemon") (Some uid);
                          Ev (Getpwnam "nobody") None; Ev Getuid 0] ++ tr0).

Lemma wp_drop_root_calls d tr :
  wp drop_root (fun o d' tr' => match o with
    | Ok true => d_engine d' = d_engine d /\
        exists e, d_engine d = Some e /\ (drop_privileges e = true -> unprivileged tr')
    | _ => True end) d tr.
Proof.
  unfold drop_root, set_generic_error. wp_step. wp_step. destruct (d_engine d) as [e|] eqn:He; [|done].
  apply wp_bind, wp_on_memory, wp_syscall. intros r e0 _. cbv beta iota.
  change (match r with 0 => true | _ => false end) with (0 =? r).
  destruct (0 =? r) eqn:Hr; cbn [andb].
  - apply Z.eqb_eq in Hr as <-.
    destruct (drop_privileges e) eqn:Hdp; [|wp_step; split; [done|]; exists e; by rewrite Hdp].
    apply wp_bind, wp_on_memory. wp_step.
    assert (Hset : forall d1 tr1 uid, d_engine d1 = d_engine d ->
      unprivileged (Ev (Setuid uid) 0 :: tr1) ->
      wp (ret ← on_memory (syscall (Setuid uid));
          if negb (ret =? 0) then
            on_memory (set_system_error ErrVar ("setuid(" +:+ pretty uid +:+ ") failed"));; mret false
          else mret true) (fun o d' tr' => match o with
        | Ok true => d_engine d' = Some e /\
            exists e', Some e = Some e' /\ (drop_privileges e' = true -> unprivileged tr')
        | _ => True end) d1 tr1).
    { intros d1 tr1 uid Hd1 Hun. apply wp_bind, wp_on_memory. wp_step. wp_step.
      - apply wp_bind, wp_on_memory, run_wp. by intros [u|n| |u] p' tr' _.
      - wp_step. bools. subst. split; [congruence|]. by exists e. }
    apply wp_bind. wp_step.
    + wp_step. apply Hset; [done|]. exists tr. right. left. by eexists.
    + apply wp_on_memory. wp_step. wp_step.
      * apply Hset; [done|]. exists tr. right. right. by eexists.
      * apply wp_bind, wp_on_memory, run_wp. by intros [u|n| |u] p' tr' _.
  - wp_step. split; [done|]. exists e. split; [done|]. intros _. bools. exists tr. left.
    exists r. split; [lia|done].
Qed.

(** C15: the daemon never serves with superuser rights an engine does not need: when
    the setup succeeds and the engine asks for privileges to be dropped, the setup
    ends with a [getuid] that was not 0, or with a successful [setuid] to the user
    that [getpwnam] gave for [nobody], or for [daemon] when there is no [nobody]. *)
Theorem banipd_drops_root st t q d tr size d' tr' :
  setup st t q d tr = (Ok (Some size), d', tr') ->
  exists e, d_engine d' = Some e /\ (drop_privileges e = true -> unprivileged tr').
Proof.
  intros Hrun.
  refine (wp_run _ (fun o d' tr' => match o with
    | Ok (Some _) => exists e, d_engine d' = Some e /\ (drop_privileges e = true -> unprivileged tr')
    | _ => True end) _ _ _ _ _ _ Hrun).
  unfold setup.
  apply wp_bind, run_wp. intros [[|]|?| |?] d1 tr1 _; try done. cbn [negb].
  apply wp_bind, run_wp. intros [u|?| |?] d2 tr2 _; try done.
  apply wp_bind, run_wp. intros [[|]|?| |?] d3 tr3 _; try done. cbn [negb].
  apply wp_bind, run_wp. intros [[sz|]|?| |?] d4 tr4 _; try done.
  apply wp_bind, run_wp. intros [[|]|?| |?] d5 tr5 _; try done. cbn [negb].
  apply wp_bind. eapply wp_mono; [|apply wp_drop_root_calls].
  intros [[|]|?| |?] d6 tr6 Ho; try done. destruct Ho as [<- Ho]. by apply wp_ret.
Qed.
End Start.

(** ** Errors that are not handled *)

Section Errors.
Context `{EV : !Env} `{EN : !Endian} `{Q : !QueueOps}.
Implicit Types (d : daemon) (tr : trace).

(** The rest of the round for a received message. *)
Lemma serve_received s size t d tr p1 tr1 (R : outcome unit -> daemon -> trace -> Prop) :
  received s size d tr p1 tr1 ->
  (forall d1, mem d1 = p1 -> d_engine d1 = d_engine d -> d_ctxt d1 = d_ctxt d ->
     wp (parse_addr s ErrVar) (fun o p' tr' =>
       match o with
       | Ok (true, a) =>
           forall e, d_engine d = Some e ->
           wp (handle e (d_ctxt d) t a ErrVar) (fun o p' tr' =>
             match o with
             | Ok ok => wp (if negb ok then on_prog report_error else mret tt) R (set_mem p' d1) tr'
             | Exit n => R (Exit n) (set_mem p' d1) tr'
             | Panic => R Panic (set_mem p' d1) tr'
             | Undef u => R (Undef u) (set_mem p' d1) tr' end) p' tr'
       | Ok (false, _) => wp (on_prog report_error) R (set_mem p' d1) tr'
       | Exit n => R (Exit n) (set_mem p' d1) tr'
       | Panic => R Panic (set_mem p' d1) tr'
       | Undef u => R (Undef u) (set_mem p' d1) tr' end) p1 tr1) ->
  (exists e, d_engine d = Some e) ->
  wp (serve t size) R d tr.
Proof.
  intros (q & buf & n & buf' & q' & Hq & Hb & Hrcv & Hn & Hs) HR [e He].
  unfold serve, serve_fails. apply wp_bind. wp_step. wp_step. wp_step. wp_step. rewrite Hq, Hb.
  apply wp_bind, wp_on_memory. unfold wp at 1. rewrite Hrcv.
  wp_step. apply wp_modify. wp_step. apply wp_modify. rewrite (proj2 (Z.eqb_neq n (-1)) Hn), Hs.
  set (d1 := set_buffer (Some buf') (set_queue (Some q') (set_mem p1 d))).
  apply wp_bind, wp_on_memory. change (mem d1) with p1.
  eapply wp_mono; [|by apply (HR d1)].
  intros [[[|] a]|?| |?] p2 tr2 Ho; try done; cbn [negb].
  wp_step. wp_step. wp_step. wp_step. rewrite He. apply wp_bind, wp_on_memory.
  eapply wp_mono; [|by apply (Ho e)]. intros [ok|?| |?] p3 tr3 Ho2; by try apply wp_ret.
Qed.

(** C37: an error left over from an earlier message is fatal: when the error
    variable is still set, as it is after a message whose prefix is not a number
    was accepted, the next message that is not an address makes the daemon free
    a pointer that was not allocated. *)
Theorem banipd_pending_error_fatal s size t d tr p1 tr1 old :
  received s size d tr p1 tr1 -> p_error p1 = Some old -> (exists e, d_engine d = Some e) ->
  strchr_split "/" s = None -> inet_pton4 s = None -> inet_pton6 s = None ->
  exists d' tr', serve t size d tr = (Undef InvalidFree, d', tr').
Proof.
  intros Hr Hp He Hs H4 H6.
  apply (wp_result _ (fun res => exists d' tr', res = (Undef InvalidFree, d', tr'))).
  eapply serve_received; [done| |done]. intros d1 _ _ _. unfold parse_addr, set_generic_error.
  rewrite Hs, H4, H6. apply wp_bind. eapply wp_error_set_twice; [done|]. intros e'. eauto.
Qed.

(** When the command of the [ipset] engine fails, the daemon prints an error
    message that does not exist: the engine stores none, and the NULL pointer is
    formatted with [%s]. *)
Theorem banipd_ipset_failure s size t d tr p1 tr1 a p2 tr2 ret e :
  received s size d tr p1 tr1 -> d_engine d = Some ipset_engine ->
  parse_addr s ErrVar p1 tr1 = (Ok (true, a), p2, tr2) -> p_error p2 = None ->
  let cmd := ipset_command t (fa a) (host_part s) in
  strlen cmd < COMMAND_SIZE -> env_call _ tr2 (System cmd) = (ret, e) -> ret <> 0 ->
  exists d', serve t size d tr = (Undef NullFormat, d', Ev (System cmd) ret :: tr2).
Proof.
  intros Hr He Hparse Hp2 cmd Hlen Hsys Hret.
  pose proof (wp_run _ _ _ _ _ _ _ (wp_parse_addr_sound s ErrVar p1 tr1) Hparse) as Hnet.
  apply (wp_result _ (fun res => exists d', res = (Undef NullFormat, d', Ev (System cmd) ret :: tr2))).
  eapply serve_received; [done| |by eexists]. intros d1 _ _ _. unfold wp at 1. rewrite Hparse.
  intros e' He'. rewrite He in He'. injection He' as <-. simpl handle. unfold wp at 1.
  rewrite (ipset_handle_run _ _ _ _ _ _ _ Hnet). fold cmd.
  rewrite (proj2 (Z.leb_gt _ _) Hlen), Hsys. rewrite (proj2 (Z.eqb_neq 0 ret)) by congruence.
  cbn [negb]. apply wp_on_prog. unfold report_error, on_proc. wp_step. wp_step. wp_step.
  unfold set_errno. simpl. rewrite Hp2. wp_step. by eexists.
Qed.

(** A daemon that uses the [ipset] engine cannot end properly: [cleanup] frees
    the context, which is the integer 1, before it closes the queue, so the
    queue and the pid file are left behind. *)
Theorem banipd_ipset_cleanup t d tr d' tr' tr2 :
  d_engine d = Some ipset_engine -> open_engine t d tr = (Ok true, d', tr') ->
  exists d2, cleanup d' tr2 = (Undef InvalidFree, d2, tr2).
Proof.
  intros He Hrun.
  assert (Hd' : d_ctxt d' = Some (CastInt 1) /\ d_engine d' = Some ipset_engine).
  { unfold open_engine in Hrun. rewrite bind_gets, He in Hrun. cbn [open ipset_engine] in Hrun.
    destruct (ipset_open_run t ErrVar (mem d) tr) as (p1 & tr1 & Ho & _).
    rewrite (bind_Ok _ _ _ _ _ _ _ (on_memory_run _ _ _ _ _ _ Ho)), bind_modify in Hrun.
    injection Hrun as <- <-. done. }
  destruct Hd' as [Hc He']. unfold cleanup, close_engine.
  rewrite bind_assoc, bind_modify, bind_assoc, bind_gets. simpl. rewrite Hc, bind_assoc, bind_gets.
  simpl. rewrite He'. by eexists.
Qed.
End Errors.

(** ** Ending on a signal *)

(** The calls that write to the log. *)
Definition logging (A : Set) (c : sys A) : Prop :=
  match c with Now | Strerror _ | Stderr _ | Fprintf _ _ => True | _ => False end.

(** Closing the log: a file, but not the standard streams. *)
Definition log_calls (f : option file) : trace :=
  match f with
  | Some f => if 2 <? fileno f then [Ev (Fclose (fileno f)) tt] else []
  | None => []
  end.

(** The pid file is removed if there is one; a failure is only logged. *)
Definition pid_removed (pidfile : option string) (tr tr' : trace) : Prop :=
  match pidfile with
  | None => tr' = tr
  | Some f => exists u, grows logging (Ev (Unlink f) u :: tr) tr'
                        /\ (u = 0 -> tr' = Ev (Unlink f) u :: tr)
  end.

Section Signal.
Context `{EV : !Env} `{EN : !Endian} `{Q : !QueueOps}.
Context `{RC : !ReceiveContract Q} `{OC : !OwnerContract Q}.
Context (e : engine_t prog) `{EC : !EngineContract e}.
Implicit Types (d : daemon) (tr : trace).

(** The engine is closed, if it has a context, and what it leaves can be freed. *)
Definition engine_closed d tr (g1 : prog) tr1 : Prop :=
  match d_ctxt d with
  | None => g1 = dg d /\ tr1 = tr
  | Some c => exists c',
      (match close e with Some f => f c | None => mret c end) (dg d) tr = (Ok c', g1, tr1) /\ on_heap c'
  end.

Lemma wp_close_engine_calls d tr :
  d_engine d = Some e -> valid_ctxt (d_ctxt d) ->
  wp close_engine (fun o d' tr1 => o = Ok tt /\ exists g1, engine_closed d tr g1 tr1 /\
    d' = set_ctxt None (set_dg g1 (set_buffer None d))) d tr.
Proof.
  intros He Hv. unfold close_engine, engine_closed. wp_step. apply wp_modify. wp_step. wp_step.
  destruct (d_ctxt d) as [c|] eqn:Hc.
  2: { wp_step. split; [done|]. exists (dg d). split; [done|]. destruct d. simpl in *. by subst. }
  wp_step. wp_step. rewrite He. pose proof (close_ok c (dg d) tr Hv) as Hcl. unfold wp in Hcl.
  destruct ((match close e with Some f => f c | None => mret c end) (dg d) tr) as [[o g1] tr1] eqn:Hrun.
  destruct o as [c'|?| |?]; try done.
  apply wp_bind. eapply wp_mono with (Q := fun o d' tr' => o = Ok c' /\ tr' = tr1 /\
    d' = set_dg g1 (set_buffer None d)).
  - intros o d' tr' (-> & -> & ->). cbv beta iota. destruct c'; try done; simpl; wp_step; wp_step;
      wp_step; (split; [done|]); exists g1; (split; [eauto|done]).
  - destruct (close e) as [f|].
    + apply wp_on_prog. unfold wp. simpl. by rewrite Hrun.
    + injection Hrun as <- <- <-. apply wp_ret. split; [done|]. split; [done|]. by destruct d.
Qed.

(** A warning is written to the log; whether the log is a file does not change. *)
Lemma wp_warnc_logs msg g tr :
  wp (warnc msg) (fun o g' tr' => o = Ok tt /\ grows logging tr tr'
    /\ log_calls (pg_err_file g') = log_calls (pg_err_file g)) g tr.
Proof.
  unfold warnc. simpl. unfold banipd_verr, on_proc, write_line.
  destruct (pg_err_file g) as [[|fp]|] eqn:Ef; repeat (wp_step; rewrite ?Ef); units;
    (split; [done|]); (split; [by repeat constructor|]); simpl; by rewrite ?Ef.
Qed.

Lemma wp_remove_pid_logs d tr :
  wp remove_pid (fun o d' tr' => o = Ok tt /\ pid_removed (d_pidfile d) tr tr' /\
    exists g', d' = set_dg g' d /\ log_calls (pg_err_file g') = log_calls (pg_err_file (dg d))) d tr.
Proof.
  unfold remove_pid, pid_removed. wp_step. wp_step. destruct (d_pidfile d) as [f|].
  - apply wp_bind, wp_on_memory, wp_syscall. intros u eu _. cbv beta iota.
    destruct (u =? 0) eqn:Eu; cbn [negb].
    + wp_step. split; [done|]. split; [exists u; split; [constructor|done]|]. by eexists.
    + apply wp_on_prog. eapply wp_mono; [|apply wp_warnc_logs]. intros o g' tr' (-> & Hg & Hl).
      split; [done|]. split; [|by exists g']. exists u. split; [done|]. intros ->. done.
  - wp_step. split; [done|]. split; [done|]. exists (dg d). by destruct d.
Qed.

End Signal.

(** ** Witnesses

    On the system where every call succeeds, with POSIX queues. *)

#[local] Existing Instances env_default linux host_le.
#[local] Instance named_tables : NpfNamed := true.

#[export] Instance env_default_messages : MqMessages 1024 (EV := env_default).
Proof. intros tr d size m e [= <- <-]. simpl. lia. Qed.

#[local] Existing Instance posix_source.

(** A daemon in its loop on a POSIX queue, with the [pf] engine. *)
Definition daemon_pf : daemon :=
  MkDaemon (Prog (Proc 0 None) (Some (Opened 7))) (Some (PosixQueue 3 (Some "/banipd") (MqAttr 10 1024)))
    (Some (PfData 6)) (Some (replicate 1025 NUL)) (Some pf_engine)
    (Some "/var/run/banipd.pid") (Some "/var/log/banipd").

Lemma daemon_pf_serving :
  serving (RC := posix_source 1024) pf_engine 1025 daemon_pf.
Proof.
  split; [done|by exists 6| |done].
  exists (PosixQueue 3 (Some "/banipd") (MqAttr 10 1024)), (replicate 1025 NUL).
  split; [done|]. split; [done|]. split; [|done]. by rewrite length_replicate.
Qed.

(** The system always delivers the same message. *)
Lemma daemon_pf_clean tr : clean_round 1025 daemon_pf tr.
Proof.
  intros s p1 tr1 (q & buf & n & buf' & q' & [= <-] & [= <-] & Hrun & _ & Hs).
  assert (Hb : buf' = overwrite 0 (chars "1.2.3.4" ++ [NUL]) (replicate 1025 NUL))
    by (vm_compute in Hrun; injection Hrun as _ <- _ _ _; vm_compute; reflexivity).
  rewrite Hb in Hs. vm_compute in Hs. injection Hs as <-. exact I.
Qed.

Lemma banipd_serves_witness :
  exists d2 tr2,
    serve "blacklist" 1025 daemon_pf [] = (Ok tt, d2, tr2)
    /\ round_logged (RC := posix_source 1024) pf_engine "blacklist" 1025 daemon_pf [] (Ok tt) d2 tr2.
Proof.
  refine (proj1 (proj2 (banipd_serves (RC := posix_source 1024)
    pf_engine "blacklist" 1025 daemon_pf [] daemon_pf [] _ _ _)) _).
  - reflexivity.
  - apply daemon_pf_serving.
  - apply rtc_refl.
  - apply daemon_pf_clean.
Defined.

(** A build with [pf], [npf] and [dummy]. *)
Definition build_bsd : build prog := Build (Some pf_engine) (Some npf_engine) None None None dummy_engine.

Lemma build_bsd_contract e : e ∈ engines build_bsd -> inhabited (EngineContract e).
Proof.
  change (engines build_bsd) with [pf_engine; npf_engine; dummy_engine (S := prog)].
  rewrite !elem_of_cons. intros [->|[->|[->|H]]]; [| | |by apply not_elem_of_nil in H].
  - exact (inhabits pf_contract).
  - exact (inhabits npf_contract).
  - exact (inhabits dummy_contract).
Qed.


Lemma banipd_sizes_ignored_witness :
  exists st' d' tr',
    process_options build_bsd [("b"%char, "4096"); ("s"%char, "50")] settings0
      (set_queue (Some posix_fresh) daemon0) [] = (Ok st', d', tr')
    /\ d_queue d' = Some posix_fresh.
Proof.
  do 3 eexists. split; [reflexivity|].
  refine (banipd_sizes_ignored (QC := posix_contract) build_bsd
    [("b"%char, "4096"); ("s"%char, "50")] posix_fresh settings0
    (set_queue (Some posix_fresh) daemon0) [] _ _ _ _ _ _); reflexivity.
Defined.

Definition daemon_starting : daemon := set_engine (Some pf_engine) (set_queue (Some posix_fresh) daemon0).

Lemma banipd_drops_root_witness :
  exists size d' tr',
    setup settings0 "blacklist" "/banipd" daemon_starting [] = (Ok (Some size), d', tr')
    /\ exists e, d_engine d' = Some e /\ (drop_privileges e = true -> unprivileged tr').
Proof.
  destruct (setup settings0 "blacklist" "/banipd" daemon_starting []) as [[o d'] tr'] eqn:E.
  pose proof (f_equal (fun r => fst (fst r)) E) as Ho. vm_compute in Ho. simpl in Ho. subst o.
  do 3 eexists. split; [reflexivity|]. exact (banipd_drops_root _ _ _ _ _ _ _ _ E).
Defined.

(** Systems that deliver chosen messages, one after the other, and on which
    commands exit with [status]. *)
Fixpoint receives (tr : trace) : nat :=
  match tr with
  | [] => 0
  | Ev c _ :: tr => match c with Mq_receive _ _ => S (receives tr) | _ => receives tr end
  end.

Definition env_feed (msgs : list string) (status : Z) : Env := override (fun A tr c =>
  match c in sys A return option (A * Z) with
  | Mq_receive _ _ => Some (chars <$> msgs !! receives tr, 0)
  | System _ => Some (status, 0)
  | _ => None
  end).

Definition daemon_on (EV : Env) (e : engine_t prog) (c : option ctxt_t) (p : proc)
  : daemon (EV := EV) (Q := posix_queue (EV := EV)) :=
  MkDaemon (EV := EV) (Q := posix_queue (EV := EV)) (Prog p None)
    (Some (PosixQueue 3 (Some "/banipd") (MqAttr 10 1024))) c (Some (replicate 64 NUL)) (Some e) None None.

Definition pending_error : proc := Proc 0 (Some "number expected, no digit found").

Lemma banipd_pending_error_fatal_witness :
  exists d' tr',
    serve (EV := env_feed ["spam"] 0) (Q := posix_queue (EV := env_feed ["spam"] 0)) "blacklist" 64
      (daemon_on (env_feed ["spam"] 0) (dummy_engine (EV := env_feed ["spam"] 0)) None pending_error) []
    = (Undef InvalidFree, d', tr').
Proof.
  eapply (banipd_pending_error_fatal (EV := env_feed ["spam"] 0) "spam").
  - do 5 eexists. split; [reflexivity|]. split; [reflexivity|]. split; [vm_compute; reflexivity|].
    split; [discriminate|reflexivity].
  - reflexivity.
  - by eexists.
  - reflexivity.
  - reflexivity.
  - reflexivity.
Defined.

(** Two messages end a fresh daemon: the first is accepted with its bad prefix. *)
Example banipd_two_messages :
  let E := env_feed ["1.2.3.4/x"; "spam"] 0 in
  fst (fst (serve_n (EV := E) (Q := posix_queue (EV := E)) 2 "blacklist" 64
    (daemon_on E (dummy_engine (EV := E)) None (Proc 0 None)) [])) = Undef InvalidFree.
Proof. vm_compute. reflexivity. Qed.

Lemma banipd_ipset_failure_witness :
  let E := env_feed ["1.2.3.4"] 256 in
  exists d' tr2,
    serve (EV := E) (Q := posix_queue (EV := E)) "blacklist" 64
      (daemon_on E (ipset_engine (EV := E)) (Some (CastInt 1)) (Proc 0 None)) []
    = (Undef NullFormat, d', Ev (System "ipset -! -A blacklist4 1.2.3.4") 256 :: tr2).
Proof.
  intros E.
  set (rcv := [Ev (Mq_receive 3 64) (Some (chars "1.2.3.4"))]).
  destruct (banipd_ipset_failure (EV := E) (Q := posix_queue (EV := E)) "1.2.3.4" 64 "blacklist"
    (daemon_on E (ipset_engine (EV := E)) (Some (CastInt 1)) (Proc 0 None)) []
    (Proc 0 None) rcv (addr_of AF_INET 32 [1; 2; 3; 4] "1.2.3.4") (Proc 0 None) rcv 256 0) as [d' Hd'].
  - do 5 eexists. split; [reflexivity|]. split; [reflexivity|]. split; [reflexivity|].
    split; [discriminate|reflexivity].
  - reflexivity.
  - vm_compute. reflexivity.
  - reflexivity.
  - vm_compute. reflexivity.
  - reflexivity.
  - discriminate.
  - exists d', rcv. exact Hd'.
Defined.

Lemma banipd_ipset_cleanup_witness :
  exists d2,
    cleanup (daemon_on env_default ipset_engine (Some (CastInt 1)) (Proc 0 None)) []
    = (Undef InvalidFree, d2, []).
Proof.
  eapply (banipd_ipset_cleanup "blacklist" (daemon_on env_default ipset_engine None (Proc 0 None)) []);
    reflexivity.
Defined.


(** The calls, oldest first: the device, the queue, its name, the pid file, the log,
    the signal. *)
Example banipd_teardown :
  rev (on_signal SIGTERM daemon_pf []).2
  = [ Ev (Close 6) 0; Ev (Mq_close 3) 0; Ev (Mq_unlink "/banipd") 0; Ev (Unlink "/var/run/banipd.pid") 0;
      Ev (Fclose 7) tt; Ev (Signal_dfl SIGTERM) tt; Ev (Kill_self SIGTERM) tt ].
Proof. vm_compute. reflexivity. Qed.
