(* ===== verification/Options.v ===== *)
(** * The command line of the daemon

    The two tables of [banipd.c] agree with the options the README documents: every
    option reaches the [switch] from each of the ways of writing it, wherever it
    stands among the other arguments. *)
From Stdlib Require Import ZArith Lia Ascii.
From S2P Require Import Prelude Os Libc CError Scenario Strlcpy Parse ParseSpec Queue Posix PosixSpec.
From S2P Require Import Engine Command Pf Npf Getopt Banipd BanipdSpec.
#[local] Set Default Goal Selector "!".

(** ** Ways of writing an option *)

(** The options of the README: letter, long name, whether an argument follows. *)
Definition readme_options : list (ascii * string * bool) :=
  [ ("v"%char, "verbose", false); ("d"%char, "daemonize", false); ("e"%char, "engine", true);
    ("l"%char, "log", true); ("p"%char, "pid", true); ("q"%char, "queue", true);
    ("g"%char, "group", true); ("b"%char, "msgsize", true); ("s"%char, "qsize", true);
    ("t"%char, "table", true) ].

Inductive form := Short | Attached | Long | LongEquals.

(** What the user writes: an option of the README with its argument, or another
    argument. *)
Inductive item :=
| Opt (f : form) (o : ascii * string * bool) (arg : string)
| Operand (s : string).

Definition write_item (i : item) : list string :=
  match i with
  | Operand s => [s]
  | Opt Short (c, _, true) arg => [String "-" (String c ""); arg]
  | Opt Attached (c, _, true) arg => [String "-" (String c arg)]
  | Opt Long (_, name, true) arg => ["--" +:+ name; arg]
  | Opt LongEquals (_, name, true) arg => ["--" +:+ name +:+ "=" +:+ arg]
  | Opt Short (c, _, false) _ | Opt Attached (c, _, false) _ => [String "-" (String c "")]
  | Opt Long (_, name, false) _ | Opt LongEquals (_, name, false) _ => ["--" +:+ name]
  end.

(** An option of the README has an argument exactly when it takes one, and an attached
    argument is not empty; other arguments do not start with a dash, but for the dash
    alone. *)
Definition writable (i : item) : Prop :=
  match i with
  | Opt f (c, name, takes) arg =>
      (c, name, takes) ∈ readme_options /\ (if takes : bool then f = Attached -> arg <> "" else arg = "")
  | Operand (String "-" (String _ _)) => False
  | Operand _ => True
  end.

Definition write_items (its : list item) : list string := its ≫= write_item.

(** The options may be ended by two dashes, with more arguments after them. *)
Definition write_end (rest : option (list string)) : list string :=
  match rest with None => [] | Some args => "--" :: args end.

(** What the daemon is to read: the options, in order; and the other arguments, in
    order.  With [POSIXLY_CORRECT] everything from the first of these on counts as
    one. *)
Fixpoint options_of (posixly_correct : bool) (its : list item) : list (ascii * string) :=
  match its with
  | [] => []
  | Opt _ (c, _, _) arg :: its => (c, arg) :: options_of posixly_correct its
  | Operand _ :: its => if posixly_correct then [] else options_of posixly_correct its
  end.

Fixpoint operands_of (posixly_correct : bool) (its : list item) (rest : option (list string)) : list string :=
  match its with
  | [] => match rest with None => [] | Some args => args end
  | Opt _ _ _ :: its => operands_of posixly_correct its rest
  | Operand s :: its =>
      s :: if posixly_correct then write_items its ++ write_end rest
           else operands_of posixly_correct its rest
  end.

(** One written option is read back, whatever follows. *)
Lemma getopt_option posix f c name takes arg argv :
  writable (Opt f (c, name, takes) arg) ->
  getopt_long posix optstr long_options (write_item (Opt f (c, name, takes) arg) ++ argv)
  = prepend [(c, arg)] (getopt_long posix optstr long_options argv).
Proof.
  intros [Hin Harg]. unfold readme_options in Hin.
  repeat (apply elem_of_cons in Hin as [[= -> -> ->]|Hin]; [
    destruct f; cbn in Harg; subst; try reflexivity;
    (destruct arg; [by specialize (Harg eq_refl)|reflexivity])|]).
  by apply not_elem_of_nil in Hin.
Qed.

Lemma getopt_operand posix s argv :
  writable (Operand s) ->
  getopt_long posix optstr long_options (s :: argv)
  = if posix then ([], s :: argv)
    else let '(res, args) := getopt_long posix optstr long_options argv in (res, s :: args).
Proof.
  intros Hs. destruct s as [|c s]; [done|].
  destruct c as [[] [] [] [] [] [] [] []]; try done. by destruct s.
Qed.

(** C18: what is written on the command line reaches the options of the daemon.  Any
    sequence of options the README documents, each with its argument, each written
    short, with the argument attached, long, or long with an equals sign, mixed with
    other arguments and possibly ended by two dashes, is read back by [getopt_long]
    with the tables of [banipd.c] as that sequence of options, in order, and the
    other arguments are left, in order; with [POSIXLY_CORRECT] in the environment the
    first of them ends the options. *)
Theorem banipd_options_roundtrip posix its rest :
  Forall writable its ->
  getopt_long posix optstr long_options (write_items its ++ write_end rest)
  = (options_of posix its, operands_of posix its rest).
Proof.
  intros His. induction His as [|i its Hi _ IH]; [by destruct rest|].
  change (write_items (i :: its)) with (write_item i ++ write_items its). rewrite <-app_assoc.
  destruct i as [f [[c name] takes] arg|s].
  - rewrite getopt_option by done. by rewrite IH.
  - cbn [write_item app]. rewrite getopt_operand by done. rewrite IH. by destruct posix.
Qed.

(** ** Arguments are C strings *)

Lemma nul_free_drop c s : nul_free (String c s) = true -> nul_free s = true.
Proof. unfold nul_free. simpl. rewrite andb_true_iff. tauto. Qed.

Lemma nul_free_after s n v : strchr_split "=" s = Some (n, v) -> nul_free s = true -> nul_free v = true.
Proof.
  intros Hs Hn. apply strchr_split_Some in Hs as [-> _]. unfold nul_free in *.
  rewrite str_all_app in Hn. apply andb_true_iff in Hn as [_ Hn]. by apply (nul_free_drop "=").
Qed.

Definition clean_args (res : list (ascii * string)) : Prop := Forall (fun o => nul_free (snd o) = true) res.

Lemma cluster_clean s : nul_free s = true -> clean_args (fst (short_cluster optstr s)).
Proof.
  induction s as [|c s IH]; intros Hs; [constructor|]. pose proof (nul_free_drop _ _ Hs) as Hs'.
  cbn [short_cluster]. destruct (short_option optstr c) as [[]|].
  - destruct s; [constructor|]. by repeat constructor.
  - specialize (IH Hs'). destruct (short_cluster optstr s). by constructor.
  - specialize (IH Hs'). destruct (short_cluster optstr s). by constructor.
Qed.

Lemma prepend_clean res r : clean_args res -> clean_args (fst r) -> clean_args (fst (prepend res r)).
Proof. intros. by apply Forall_app. Qed.

Lemma getopt_clean posix argv :
  Forall (fun a => nul_free a = true) argv -> clean_args (fst (getopt_long posix optstr long_options argv)).
Proof.
  induction argv as [argv IH] using (well_founded_induction (Wf_nat.well_founded_ltof _ length)).
  intros Ha. destruct Ha as [|arg rest Harg Hrest]; [constructor|].
  assert (Hquest : clean_args [("?"%char, "")]) by by repeat constructor.
  assert (Hsub : forall res argv', clean_args res -> Forall (fun a => nul_free a = true) argv' ->
    (length argv' <= length rest)%nat ->
    clean_args (fst (prepend res (getopt_long posix optstr long_options argv')))).
  { intros res argv' Hres Ha' Hl. apply prepend_clean; [done|]. apply IH; [|done].
    unfold Wf_nat.ltof. simpl. lia. }
  assert (Hnext : forall v rest', v :: rest' = rest ->
    nul_free v = true /\ Forall (fun a => nul_free a = true) rest' /\ (length rest' <= length rest)%nat).
  { intros v rest' <-. apply Forall_cons_iff in Hrest as [? ?]. simpl. auto. }
  assert (Hskip : forall s, clean_args (fst (if posix then ([], s :: rest)
    else let '(res, args) := getopt_long posix optstr long_options rest in (res, s :: args)))).
  { intros s. destruct posix; [constructor|]. specialize (IH rest (Nat.lt_succ_diag_r _) Hrest).
    by destruct (getopt_long false optstr long_options rest). }
  cbn [getopt_long]. destruct arg as [|a arg]; [apply Hskip|].
  destruct a as [[] [] [] [] [] [] [] []]; try apply Hskip. destruct arg as [|c s]; [apply Hskip|].
  apply nul_free_drop in Harg. pose proof (nul_free_drop _ _ Harg) as Hs.
  assert (Hshort : forall s', nul_free s' = true -> clean_args (fst (
    let '(res, pend) := short_cluster optstr s' in
    match pend with
    | None => prepend res (getopt_long posix optstr long_options rest)
    | Some c => match rest with
                | v :: rest => prepend (res ++ [(c, v)]) (getopt_long posix optstr long_options rest)
                | [] => (res ++ [("?"%char, "")], [])
                end
    end))).
  { intros s' Hs'. pose proof (cluster_clean s' Hs') as Hc.
    destruct (short_cluster optstr s') as [res [p|]]; cbn [fst] in Hc; [|by apply Hsub].
    destruct rest as [|v rest']; [by apply Forall_app|].
    destruct (Hnext v rest' eq_refl) as (Hv & Hr & Hl). apply Hsub; [|done|done].
    apply Forall_app. split; [done|]. by repeat constructor. }
  destruct c as [[] [] [] [] [] [] [] []]; try (by apply Hshort).
  destruct s as [|d s]; [constructor|]. set (body := String d s) in *.
  destruct (strchr_split "=" body) as [[name v]|] eqn:Hsplit; cbv beta iota;
    destruct (find_long long_options _) as [[ln la lv]|]; try (by apply Hsub); destruct la; try (by apply Hsub).
  - apply Hsub; [|done|done]. repeat constructor. simpl. by eapply nul_free_after.
  - destruct rest as [|v rest']; [done|]. destruct (Hnext v rest' eq_refl) as (Hv & Hr & Hl).
    apply Hsub; [|done|done]. by repeat constructor.
  - apply Hsub; [|done|done]. by repeat constructor.
Qed.

Section Argv.
Context `{EV : !Env} `{EN : !Endian} `{PL : !Platform}.
Context `{HM : !MallocOk} `{HS : !StrdupOk} `{HG : !GaiOk} `{MM : !MqMessages 1024}.

(** The daemon on POSIX queues is safe on every command line. *)
Lemma banipd_argv_safe b posix argv n :
  (forall e, e ∈ engines b -> inhabited (EngineContract e)) ->
  Forall (fun a => nul_free a = true) argv ->
  safe_run (RC := posix_source 1024) (fun n => banipd (Q := posix_queue) b posix argv n daemon0 []) n.
Proof.
  intros HC Ha. pose proof (getopt_clean posix argv Ha) as Hc. unfold banipd.
  destruct (getopt_long posix optstr long_options argv) as [opts rest]. cbn [fst] in Hc.
  apply (main_safe (OC := posix_owner) b HC).
  eapply Forall_impl; [|exact Hc]. intros o Ho. by split.
Qed.
End Argv.

(** ** Witness *)

Lemma banipd_options_roundtrip_witness :
  getopt_long false optstr long_options
    ["-d"; "x"; "--queue=/banipd"; "-tblacklist"; "--engine"; "pf"; "y"; "-l"; "/var/log/banipd"; "--"; "-v"]
  = ([("d"%char, ""); ("q"%char, "/banipd"); ("t"%char, "blacklist"); ("e"%char, "pf");
      ("l"%char, "/var/log/banipd")], ["x"; "y"; "-v"]).
Proof.
  refine (banipd_options_roundtrip false
    [Opt Short ("d"%char, "daemonize", false) ""; Operand "x";
     Opt LongEquals ("q"%char, "queue", true) "/banipd"; Opt Attached ("t"%char, "table", true) "blacklist";
     Opt Long ("e"%char, "engine", true) "pf"; Operand "y";
     Opt Short ("l"%char, "log", true) "/var/log/banipd"] (Some ["-v"]) _).
  repeat (constructor; [first [exact I
    | split; [apply (bool_decide_eq_true_1 _); reflexivity
             |cbn; first [reflexivity|discriminate|intros _; discriminate]]]|]).
  constructor.
Defined.
