(* ===== verification/Capsicum.v ===== *)
(** * Capability mode: [queues/capsicum.c] and [queues/capsicum.h]

    The functions that give up rights on FreeBSD.  They stand under [#if 0], so
    the programs are built with the macros of the other branch, which are the
    constant [true]; this file is about the functions as they would be compiled
    with the condition lifted.  A [va_list] is the list of the arguments not yet
    taken; taking one that is not there is undefined. *)
From Stdlib Require Import ZArith Lia Ascii.
From S2P Require Import Prelude Os Libc CError Scenario Strlcpy Parse ParseSpec Queue Engine.
From S2P Require Import Banipd BanipdSpec.
#[local] Set Default Goal Selector "!".

Definition MAX_IOCTL_COMMANDS : nat := 32.
Definition ENOSYS : Z := 78.

(** A store into an array: [None] outside of it. *)
Definition store (cmds : list Z) (i : nat) (cmd : Z) : option (list Z) :=
  if Nat.ltb i (length cmds) then Some (<[i := cmd]> cmds) else None.

(** [while (ncmds < ARRAY_SIZE(cmds) && 0UL != (cmd = va_arg(ap, cmd_t)))] with the
    body [cmds[ncmds++] = cmd;]: [None] when an argument is taken that is not there
    or a command is stored outside the array. *)
Fixpoint take_cmds (ap : list Z) (ncmds : nat) (cmds : list Z) : option (nat * list Z) :=
  if Nat.ltb ncmds (length cmds) then
    match ap with
    | [] => None
    | cmd :: ap =>
        if cmd =? 0 then Some (ncmds, cmds)
        else match store cmds ncmds cmd with
             | None => None
             | Some cmds => take_cmds ap (S ncmds) cmds
             end
    end
  else Some (ncmds, cmds).

(** [while (0ULL != (cap = va_arg(ap, capability_t))) cap_rights_set(&rights, cap);] *)
Fixpoint take_rights (ap : list Z) (rights : list Z) : option (list Z) :=
  match ap with
  | [] => None
  | cap :: ap => if cap =? 0 then Some rights else take_rights ap (rights ++ [cap])
  end.

Section Capsicum.
Context `{EV : !Env}.

Definition _cap_ioctls_limit (error : errp) (fd : Z) (ap : list Z) : M proc bool :=
  match take_cmds ap 0 (replicate MAX_IOCTL_COMMANDS 0) with
  | None => undef OutOfBounds
  | Some (ncmds, cmds) =>
      if Nat.leb (length cmds) ncmds then
        set_generic_error error ("maximum of " +:+ pretty (Z.of_nat (length cmds))
          +:+ " allowed commands exceeded for fd " +:+ pretty fd);;
        mret false
      else
        ret ← syscall (Cap_ioctls_limit fd (take ncmds cmds));
        if negb (ret =? 0) then
          set_system_error error ("cap_ioctls_limit failed to set limits on " +:+ pretty fd);; mret false
        else mret true
  end.

Definition _cap_rights_limit (error : errp) (fd : Z) (ap : list Z) : M proc bool :=
  match take_rights ap [] with
  | None => undef OutOfBounds
  | Some rights =>
      ret ← syscall (Cap_rights_limit fd rights);
      errno ← gets p_errno;
      if negb (ret =? 0) && negb (errno =? ENOSYS) then
        set_system_error error ("cap_rights_limit failed to set rights on " +:+ pretty fd);; mret false
      else mret true
  end.

(** The macros put the terminating 0 at the end. *)
Definition CAP_RIGHTS_LIMIT (error : errp) (fd : Z) (rights : list Z) : M proc bool :=
  _cap_rights_limit error fd (rights ++ [0]).

Definition CAP_IOCTLS_LIMIT (error : errp) (fd : Z) (cmds : list Z) : M proc bool :=
  _cap_ioctls_limit error fd (cmds ++ [0]).

Definition CAP_ENTER {S} `{PR : !Program S} (error : errp) : M S bool :=
  ret ← in_proc (syscall Cap_enter);
  if negb (ret =? 0) then
    errno ← in_proc (gets p_errno);
    if negb (errno =? ENOSYS) then in_proc (set_system_error error "cap_enter failed");; mret false
    else warnc ("kernel is compiled without " +:+ dquote "options CAPABILITY_MODE");; mret true
  else mret true.
End Capsicum.

(** ** The argument lists *)

Lemma take_rights_all cs rights :
  Forall (fun c => c <> 0) cs -> take_rights (cs ++ [0]) rights = Some (rights ++ cs).
Proof.
  intros H. revert rights. induction H as [|c cs Hc _ IH]; intros rights; simpl.
  - by rewrite app_nil_r.
  - rewrite (proj2 (Z.eqb_neq _ _) Hc), IH. by rewrite <-app_assoc.
Qed.

(** The array after the loop: what was there before, then the arguments. *)
Lemma take_cmds_all cs n cmds :
  Forall (fun c => c <> 0) cs -> (n <= length cmds)%nat ->
  exists cmds', length cmds' = length cmds /\
    take_cmds (cs ++ [0]) n cmds = Some ((n + length cs) `min` length cmds, cmds')%nat
    /\ take (n + length cs) cmds' = take n cmds ++ take (length cmds - n) cs.
Proof.
  intros H. revert n cmds. induction H as [|c cs Hc _ IH]; intros n cmds Hn; cbn [app take_cmds];
    destruct (Nat.ltb_spec n (length cmds)) as [Hlt|Hge].
  - exists cmds. cbn [length]. rewrite Nat.add_0_r, Nat.min_l, take_nil, app_nil_r by lia. done.
  - exists cmds. cbn [length]. rewrite Nat.add_0_r, Nat.min_r, take_nil, app_nil_r by lia.
    by replace n with (length cmds) by lia.
  - rewrite (proj2 (Z.eqb_neq _ _) Hc). unfold store. rewrite (proj2 (Nat.ltb_lt _ _) Hlt).
    destruct (IH (S n) (<[n := c]> cmds)) as (cmds' & Hl & Hrun & Htake); [rewrite length_insert; lia|].
    rewrite length_insert in *. exists cmds'. split; [done|]. cbn [length].
    replace (n + S (length cs))%nat with (S n + length cs)%nat by lia. split; [done|].
    rewrite Htake. erewrite take_S_r by (apply list_lookup_insert_eq; lia).
    rewrite take_insert_ge by lia. replace (length cmds - n)%nat with (S (length cmds - S n)) by lia.
    cbn [take]. by rewrite <-app_assoc.
  - exists cmds. split; [done|]. rewrite Nat.min_r by lia. cbn [length].
    split; [by replace n with (length cmds) by lia|].
    replace (length cmds - n)%nat with 0%nat by lia. rewrite take_0, app_nil_r.
    by rewrite !take_ge by lia.
Qed.

(** ** What is limited *)

Section CapSpec.
Context `{EV : !Env}.
Implicit Types (p : proc) (tr : trace).

(** A call that may fail, with the [false] and the message of the failure. *)
Definition limited {A : Set} (c : sys A) (r : A) (ok : bool) tr (o : outcome bool) p' tr' : Prop :=
  o = Ok ok /\ grows reporting (Ev c r :: tr) tr'
  /\ (if ok then p_error p' = None else is_Some (p_error p')).

(** C30: the function always returns, so no command is stored past the array of 32
    (which is undefined): at most 31 commands reach the kernel, all of them and in
    order, in one call that decides the result; with 32 or more the descriptor is
    left as it was and an error is stored. *)
Theorem cap_ioctls_limit_exact `{!MallocOk} fd cs p tr r e :
  p_error p = None -> Forall (fun c => c <> 0) cs ->
  env_call _ tr (Cap_ioctls_limit fd cs) = (r, e) ->
  exists o p' tr', CAP_IOCTLS_LIMIT ErrVar fd cs p tr = (o, p', tr')
    /\ if Nat.ltb (length cs) MAX_IOCTL_COMMANDS
       then limited (Cap_ioctls_limit fd cs) r (r =? 0) tr o p' tr'
       else o = Ok false /\ grows reporting tr tr' /\ is_Some (p_error p').
Proof.
  intros Hp Hcs Hcall. unfold CAP_IOCTLS_LIMIT, _cap_ioctls_limit.
  destruct (take_cmds_all cs 0 (replicate MAX_IOCTL_COMMANDS 0) Hcs) as (cmds & Hl & -> & Htake); [lia|].
  rewrite length_replicate in *. rewrite Hl, take_0, Nat.sub_0_r in *. cbn [app Nat.add] in *.
  destruct (Nat.ltb_spec (length cs) MAX_IOCTL_COMMANDS) as [Hlt|Hge].
  - rewrite Nat.min_l by lia. rewrite (proj2 (Nat.leb_gt _ _)) by lia.
    rewrite Htake, take_ge by lia. rewrite (bind_syscall _ _ _ _ _ _ Hcall).
    destruct (r =? 0) eqn:Er; cbn [negb].
    + do 3 eexists. split; [done|]. split; [done|]. by split; [constructor|].
    + apply (wp_result _ (fun res => exists o p' tr', res = (o, p', tr')
        /\ limited (Cap_ioctls_limit fd cs) r false tr o p' tr')).
      apply wp_report_system; [done|]. intros p' tr' He Hg. by exists (Ok false), p', tr'.
  - rewrite Nat.min_r by lia. rewrite (proj2 (Nat.leb_le _ _)) by lia.
    apply (wp_result _ (fun res => exists o p' tr', res = (o, p', tr')
      /\ o = Ok false /\ grows reporting tr tr' /\ is_Some (p_error p'))).
    apply wp_report_generic; [done|]. intros p' tr' He Hg. exists (Ok false), p', tr'.
    split_and!; [done|done|done|by eexists].
Qed.

(** All rights are asked for in one call; a kernel without the call counts as
    success. *)
Lemma cap_rights_limit_exact `{!MallocOk} fd cs p tr r e :
  p_error p = None -> Forall (fun c => c <> 0) cs ->
  env_call _ tr (Cap_rights_limit fd cs) = (r, e) ->
  exists o p' tr', CAP_RIGHTS_LIMIT ErrVar fd cs p tr = (o, p', tr')
    /\ limited (Cap_rights_limit fd cs) r ((r =? 0) || (e =? ENOSYS)) tr o p' tr'.
Proof.
  intros Hp Hcs Hcall. unfold CAP_RIGHTS_LIMIT, _cap_rights_limit.
  rewrite (take_rights_all cs [] Hcs). cbn [app].
  rewrite (bind_syscall _ _ _ _ _ _ Hcall), bind_gets. cbn [p_errno set_errno].
  apply (wp_result _ (fun res => exists o p' tr', res = (o, p', tr')
    /\ limited (Cap_rights_limit fd cs) r ((r =? 0) || (e =? ENOSYS)) tr o p' tr')).
  destruct (r =? 0), (e =? ENOSYS); cbn [negb andb orb].
  1-3: apply wp_ret; do 3 eexists; split; [done|]; split; [done|]; by split; [constructor|].
  apply wp_report_system; [done|]. intros p' tr' He Hg. by exists (Ok false), p', tr'.
Qed.

(** Entering capability mode fails only when the kernel has it and refuses. *)
Lemma cap_enter_result `{!MallocOk} g tr r e :
  p_error (pg_proc g) = None -> env_call _ tr Cap_enter = (r, e) ->
  wp (CAP_ENTER (S := prog) ErrVar) (fun o g' _ =>
    o = Ok ((r =? 0) || (e =? ENOSYS))
    /\ (if (r =? 0) || (e =? ENOSYS) then p_error (pg_proc g') = None
        else is_Some (p_error (pg_proc g')))) g tr.
Proof.
  intros Hg Hcall. unfold CAP_ENTER. cbn [in_proc banipd_program].
  apply wp_bind, wp_zoom. apply wp_syscall. intros r' e' Hcall'. rewrite Hcall in Hcall'.
  injection Hcall' as <- <-. cbv beta iota. destruct (r =? 0); cbn [negb orb]; [by apply wp_ret|].
  apply wp_bind, wp_zoom, wp_gets. cbv beta iota. cbn [pg_proc set_pg_proc p_errno set_errno].
  destruct (e =? ENOSYS); cbn [negb].
  - apply wp_bind. unfold warnc. apply wp_bind, wp_zoom, wp_gets. cbv beta iota.
    apply wp_verr. intros g' tr' Hg'. apply wp_ret. split; [done|]. by rewrite Hg'.
  - apply wp_bind, wp_zoom, wp_system_error; [done|]. intros. cbv beta iota. apply wp_ret.
    split; [done|]. by eexists.
Qed.
End CapSpec.

Lemma cap_ioctls_limit_exact_witness :
  exists o p' tr', CAP_IOCTLS_LIMIT (EV := env_default) ErrVar 6 [17; 41] proc0 [] = (o, p', tr')
    /\ limited (Cap_ioctls_limit 6 [17; 41]) 0 true [] o p' tr'.
Proof.
  refine (cap_ioctls_limit_exact (EV := env_default) 6 [17; 41] proc0 [] 0 0 eq_refl _ eq_refl).
  repeat constructor; lia.
Defined.
