(* ===== verification/Service.v ===== *)
(** * The service as a whole

    A client that sends through a queue and the daemon that reads it, on one
    history of calls: what a client sends is what the packet filter is given, in
    order.  The theorems hold for every queue that implements the FIFO
    ([FifoQueue]), so for POSIX and for System V queues. *)
From Stdlib Require Import ZArith Lia Ascii.
From S2P Require Import Prelude Os Libc CError Scenario Strlcpy Parse ParseSpec Queue Posix SystemV Kernel Fifo PosixSpec.
From S2P Require Import SystemVSpec SystemVFifo Engine Command Pf Npf Banipd BanipdSpec.
#[local] Set Default Goal Selector "!".

(** ** What the packet filter is given *)

(** The requests to add an address, oldest first: descriptor, table, entry. *)
Fixpoint adds (tr : trace) : list (Z * string * pfr_addr) :=
  match tr with
  | [] => []
  | Ev c _ :: tr =>
      match c with
      | Ioctl_DIOCRADDADDRS fd table a => adds tr ++ [(fd, table, a)]
      | _ => adds tr
      end
  end.

Definition no_add (A : Set) (c : sys A) : Prop :=
  match c with Ioctl_DIOCRADDADDRS _ _ _ => False | _ => True end.

(** Calls that neither add an address nor concern a queue. *)
Definition inert (A : Set) (c : sys A) : Prop := no_add A c /\ no_queue_call A c.

Lemma adds_no_add tr tr' : grows no_add tr tr' -> adds tr' = adds tr.
Proof. induction 1 as [|A c r tr' Hc _ IH]; [done|]. by destruct c. Qed.

Lemma messaging_no_add A c : messaging A c -> no_add A c.
Proof. by destruct c. Qed.

Lemma parsing_inert A c : parsing A c -> inert A c.
Proof. unfold inert, no_queue_call. destruct c; simpl; tauto. Qed.

Lemma killing_inert fd mask A c : killing fd mask A c -> inert A c.
Proof. unfold inert, no_queue_call. destruct c; simpl; tauto. Qed.

Lemma reporting_inert A c : reporting A c -> inert A c.
Proof. intros H. by apply parsing_inert, reporting_parsing. Qed.

Lemma inert_adds tr tr' : grows inert tr tr' -> adds tr' = adds tr.
Proof. intros Hg. apply adds_no_add. eapply grows_impl; [|exact Hg]. by intros A c [? ?]. Qed.

Lemma inert_no_queue tr tr' : grows inert tr tr' -> grows no_queue_call tr tr'.
Proof. apply grows_impl. by intros A c [? ?]. Qed.

(** The request for a network. *)
Definition pf_request (fd : Z) (t : string) (a : addr_t) : Z * string * pfr_addr :=
  (fd, pf_table t, PfrAddr (sa a) (fa a) (netmask a)).

(** ** The daemon with the [pf] engine *)

Section Round.
Context `{EV : !Env} `{EN : !Endian} `{Q : !QueueOps} `{FQ : !FifoQueue Q cap msgs}.
Context `{!MallocOk} `{!StrdupOk} `{!GaiOk} `{!GaiNumeric} `{!GaiSockOk}.
Context (fd : Z) (t : string) (size : Z) (Ht : nul_free t = true).
Implicit Types (d : daemon) (tr : trace).

Record pf_daemon d : Prop := PfDaemon
  { pd_engine : d_engine d = Some pf_engine;
    pd_ctxt : d_ctxt d = Some (PfData fd);
    pd_queue : exists q b, d_queue d = Some q /\ d_buffer d = Some b /\ reader q b size;
    pd_error : p_error (mem d) = None }.

(** Logging an error leaves queue and filter alone. *)
Lemma wp_report_inert msg (R : outcome unit -> prog -> trace -> Prop) g tr :
  p_error (pg_proc g) = Some msg ->
  (forall g' tr', p_error (pg_proc g') = None -> grows inert tr tr' -> R (Ok tt) g' tr') ->
  wp report_error R g tr.
Proof.
  intros Hg HR. unfold report_error, on_proc. wp_step. wp_step. wp_step. rewrite Hg. simpl.
  unfold banipd_verr, on_proc, write_line, error_free. change (negb (0 =? 0)) with false. cbv iota.
  repeat wp_step; apply HR; [done| |done|]; repeat (constructor; [by split; [|intros []]|]); constructor.
Qed.

(** [parse_addr] on a clean message. *)
Lemma parse_inert m p tr :
  clean_message m -> p_error p = None ->
  exists ok a p' tr', parse_addr m ErrVar p tr = (Ok (ok, a), p', tr') /\ grows inert tr tr'
    /\ network_of m = (if ok then Some a else None)
    /\ (if ok then p_error p' = None /\ is_network (host_part m) a else is_Some (p_error p')).
Proof.
  intros Hm Hp. destruct (parse_addr_network m p tr Hm Hp) as (ok & a & p' & tr' & Hrun & Hnet & Hok & Hg).
  exists ok, a, p', tr'. split; [done|]. split; [eapply grows_impl; [apply parsing_inert|done]|].
  split; [done|]. destruct ok; [|done]. split; [done|].
  apply (wp_run _ _ _ _ _ _ _ (wp_parse_addr_sound m ErrVar p tr) Hrun).
Qed.

(** [pf_handle] makes one request. *)
Lemma wp_pf_request buffer a p tr :
  is_network buffer a -> p_error p = None ->
  wp (pf_handle (Some (PfData fd)) t a ErrVar) (fun o p' tr' => exists ok r, o = Ok ok
    /\ grows inert (Ev (pf_add fd t a) r :: tr) tr'
    /\ (if ok : bool then p_error p' = None else is_Some (p_error p'))) p tr.
Proof.
  intros Hnet Hp. eapply wp_mono; [|by eapply wp_pf_handle].
  intros o p' tr' [r Hpost]. cbv zeta in Hpost. destruct (r =? -1).
  - destruct Hpost as (-> & He & Hg). exists false, r. split; [done|]. split; [|done].
    eapply grows_impl; [apply reporting_inert|done].
  - destruct Hpost as [Hg Ho]. destruct o as [ok|?| |?]; try done. exists ok, r. split; [done|].
    split; [eapply grows_impl; [apply killing_inert|done]|done].
Qed.

(** The end of a round: a failure is logged. *)
Lemma wp_finish (fails : bool) d tr :
  pf_daemon (set_mem (set_error None (mem d)) d) ->
  (if fails then is_Some (p_error (mem d)) else p_error (mem d) = None) ->
  wp (if fails then on_prog report_error else mret tt)
    (fun o d' tr' => o = Ok tt /\ pf_daemon d' /\ grows inert tr tr') d tr.
Proof.
  intros [He Hc Hq _] Hf. destruct fails.
  - destruct Hf as [msg Hf]. apply wp_on_prog. eapply wp_report_inert; [exact Hf|].
    intros g' tr' Hg Hgr. split; [done|]. split; [by split|done].
  - apply wp_ret. split; [done|]. split; [by split|constructor].
Qed.

(** What a round for the message [m] does. *)
Definition round_done (m : string) tr (w : list string) (o : outcome unit) d' tr' : Prop :=
  o = Ok tt /\ pf_daemon d' /\ rep tr' w
  /\ adds tr' = adds tr ++ (pf_request fd t <$> option_list (network_of m)).

Lemma wp_round m w d tr :
  pf_daemon d -> msgs m -> clean_message m -> rep tr (m :: w) ->
  wp (serve t size) (round_done m tr w) d tr.
Proof.
  intros [He Hc (q & b & Hq & Hb & Hr) Hp] Hm Hclean Hrep. unfold serve, serve_fails.
  apply wp_bind. wp_step. wp_step. wp_step. wp_step. rewrite Hq, Hb.
  destruct (fifo_receive q b size m w ErrVar (mem d) tr Hr Hm Hrep)
    as (n & b' & q' & e & tr1 & Hrun & Hn & Hb' & Hr' & Hrep1 & Hg1).
  apply wp_bind, wp_on_memory. unfold wp at 1. rewrite Hrun.
  wp_step. apply wp_modify. wp_step. apply wp_modify. rewrite (proj2 (Z.eqb_neq n (-1)) Hn), Hb'.
  assert (Hadds1 : adds tr1 = adds tr)
    by (eapply adds_no_add, grows_impl, Hg1; apply messaging_no_add).
  apply wp_bind, wp_on_memory. cbn.
  destruct (parse_inert m (set_errno e (mem d)) tr1 Hclean Hp)
    as (ok & a & p2 & tr2 & Hparse & Hg2 & Hh & Hok).
  pose proof (rep_other _ _ _ (inert_no_queue _ _ Hg2) Hrep1) as Hrep2.
  unfold wp at 1. rewrite Hparse. destruct ok; cbn [negb].
  - destruct Hok as [Hp2 Hnet]. wp_step. wp_step. wp_step. wp_step. rewrite He, Hc.
    apply wp_bind, wp_on_memory. cbn. eapply wp_mono; [|by eapply wp_pf_request].
    intros o p3 tr3 (ok & r & -> & Hg3 & Hp3). cbn.
    eapply wp_mono; [|apply (wp_finish (negb ok)); [split; simpl; eauto|by destruct ok]].
    intros o d' tr4 (-> & Hd' & Hg4). split; [done|]. split; [done|]. split.
    + apply (rep_other _ _ _ (inert_no_queue _ _ Hg4)), (rep_other _ _ _ (inert_no_queue _ _ Hg3)).
      apply (rep_other tr2); [|done]. constructor; [by intros []|constructor].
    + rewrite Hh. rewrite (inert_adds _ _ Hg4), (inert_adds _ _ Hg3). simpl.
      by rewrite (inert_adds _ _ Hg2), Hadds1.
  - wp_step. eapply wp_mono; [|apply (wp_finish true); [split; simpl; eauto|done]].
    intros o d' tr4 (-> & Hd' & Hg4). split; [done|]. split; [done|].
    split; [by apply (rep_other _ _ _ (inert_no_queue _ _ Hg4))|].
    rewrite Hh. simpl. by rewrite app_nil_r, (inert_adds _ _ Hg4), (inert_adds _ _ Hg2).
Qed.
End Round.

(** ** Client and daemon *)

(** The abstract service: messages wait in order and are taken in order. *)
Module Ledger.
Inductive op := Ask (m : string) | Round.

Record t := Ledger { waiting : list string; taken : list string }.

Definition step (cap : nat) (l : t) (o : op) : option t :=
  match o with
  | Ask m =>
      if Nat.ltb (length (waiting l)) cap then Some (Ledger (waiting l ++ [m]) (taken l)) else None
  | Round =>
      match waiting l with
      | m :: w => Some (Ledger w (taken l ++ [m]))
      | [] => None
      end
  end.

Fixpoint run (cap : nat) (l : t) (ops : list op) : option t :=
  match ops with
  | [] => Some l
  | o :: ops => match step cap l o with Some l => run cap l ops | None => None end
  end.
End Ledger.

Section Service.
Context `{EV : !Env} `{EN : !Endian} `{Q : !QueueOps} `{FQ : !FifoQueue Q cap msgs}.
Context `{!MallocOk} `{!StrdupOk} `{!GaiOk} `{!GaiNumeric} `{!GaiSockOk}.
Context (fd : Z) (t : string) (size : Z) (Ht : nul_free t = true).

(** The client process, with its queue object and memory, and the daemon. *)
Record service := Service { sv_client : queue_t; sv_memory : proc; sv_daemon : daemon }.

Definition set_client (q : queue_t) (s : service) := Service q (sv_memory s) (sv_daemon s).
Definition set_memory (p : proc) (s : service) := Service (sv_client s) p (sv_daemon s).
Definition set_daemon (d : daemon) (s : service) := Service (sv_client s) (sv_memory s) d.

(** A client asks for a ban, or the daemon goes through its loop once. *)
Definition service_step (o : Ledger.op) : M service unit :=
  match o with
  | Ledger.Ask m =>
      q ← gets sv_client;
      '(_, q) ← zoom sv_memory set_memory (queue_send q m (-1) ErrVar);
      modify (set_client q)
  | Ledger.Round => zoom sv_daemon set_daemon (serve t size)
  end.

Fixpoint service_run (ops : list Ledger.op) : M service unit :=
  match ops with
  | [] => mret tt
  | o :: ops => service_step o;; service_run ops
  end.

Definition ban_message (m : string) : Prop := msgs m /\ clean_message m.

Definition ask_ok (o : Ledger.op) : Prop :=
  match o with Ledger.Ask m => ban_message m | Ledger.Round => True end.

(** The service stands where the ledger says; [before] are earlier requests. *)
Record follows (before : list (Z * string * pfr_addr)) (l : Ledger.t) (s : service) (tr : trace)
  : Prop := Follows
  { fo_client : sender (sv_client s);
    fo_daemon : pf_daemon fd size (sv_daemon s);
    fo_waiting : rep tr (Ledger.waiting l) /\ Forall ban_message (Ledger.waiting l);
    fo_taken : adds tr = before ++ (pf_request fd t <$> omap network_of (Ledger.taken l)) }.

Lemma wp_service_step before l l' o s tr :
  follows before l s tr -> ask_ok o -> Ledger.step cap l o = Some l' ->
  wp (service_step o) (fun r s' tr' => r = Ok tt /\ follows before l' s' tr') s tr.
Proof.
  intros [Hc Hd [Hrep Hw] Hadds] Ho Hstep. destruct o as [m|]; simpl in Hstep.
  - destruct (Nat.ltb_spec (length (Ledger.waiting l)) cap) as [Hroom|]; simplify_eq.
    destruct Ho as [Hm Hclean].
    destruct (fifo_send (sv_client s) m _ ErrVar (sv_memory s) tr Hc Hm Hrep Hroom)
      as (q' & e & tr' & Hrun & Hc' & Hrep' & Hg).
    unfold service_step. apply wp_bind, wp_gets. cbv beta iota. apply wp_bind, wp_zoom.
    unfold wp at 1. rewrite Hrun. cbv beta iota. apply wp_modify. split; [done|].
    split; [done|done| |].
    + split; [done|]. apply Forall_app. split; [done|]. by repeat constructor.
    + cbn [Ledger.taken]. rewrite <-Hadds.
      eapply adds_no_add, grows_impl, Hg. apply messaging_no_add.
  - destruct (Ledger.waiting l) as [|m w] eqn:El; simplify_eq.
    apply Forall_cons_iff in Hw as [[Hm Hclean] Hw]. unfold service_step. apply wp_zoom.
    eapply wp_mono; [|by apply (wp_round fd t size Ht m w)].
    intros r d' tr' (-> & Hd' & Hrep' & Hadds'). split; [done|].
    split; [done|done|done|]. cbn [Ledger.taken].
    rewrite Hadds', Hadds, omap_app, fmap_app, app_assoc. simpl. by destruct (network_of m).
Qed.

Lemma wp_service_run before ops : forall l l' s tr,
  follows before l s tr -> Forall ask_ok ops -> Ledger.run cap l ops = Some l' ->
  wp (service_run ops) (fun r s' tr' => r = Ok tt /\ follows before l' s' tr') s tr.
Proof.
  induction ops as [|o ops IH]; intros l l' s tr Hf Hops Hrun; simpl in *.
  - simplify_eq. by apply wp_ret.
  - apply Forall_cons_iff in Hops as [Ho Hops].
    destruct (Ledger.step cap l o) as [l1|] eqn:Es; [|done]. apply wp_bind.
    eapply wp_mono; [|by eapply wp_service_step]. intros r s1 tr1 [-> Hf1]. by apply (IH l1).
Qed.

(** C2: the service implements the ledger, with the [pf] engine and any queue that
    implements the FIFO, on a system where [malloc] and [strdup] succeed and
    [getaddrinfo] accepts the numeric addresses that [inet_pton] accepts, and gives
    with a success results whose socket addresses have the size of their family.
    Clients ask
    for bans with messages the queue can carry that have no slash or a prefix that is
    a number strictly between 0 and [ULONG_MAX].  For every interleaving of such
    requests and rounds of the daemon in which nobody has to wait, all operations
    return; the queue holds the messages not yet taken; and the packet filter was
    asked for exactly the networks of the messages taken, address and prefix, one
    request each, in the order in which the clients asked; messages that are no
    network are left out. *)
Theorem service_refines before ops l l' s tr :
  follows before l s tr -> Forall ask_ok ops -> Ledger.run cap l ops = Some l' ->
  exists s' tr', service_run ops s tr = (Ok tt, s', tr') /\ follows before l' s' tr'.
Proof.
  intros Hf Hops Hrun.
  apply (wp_result _ (fun res => exists s' tr', res = (Ok tt, s', tr') /\ follows before l' s' tr')).
  eapply wp_mono; [|by eapply wp_service_run]. intros r s' tr' [-> Hf']. eauto.
Qed.

Lemma ledger_rounds w1 : forall w2 tk,
  Ledger.run cap (Ledger.Ledger (w1 ++ w2) tk) (replicate (length w1) Ledger.Round)
  = Some (Ledger.Ledger w2 (tk ++ w1)).
Proof.
  induction w1 as [|m w1 IH]; intros w2 tk; simpl; [by rewrite app_nil_r|].
  by rewrite IH, <-app_assoc.
Qed.

(** C4: no ban is lost and none waits forever.  While all messages in the queue have no
    slash or a prefix that is a number strictly between 0 and [ULONG_MAX], under the
    assumptions of the refinement: a message in the queue that denotes a network is
    given to the packet filter, as that network, within as many rounds as there are
    messages before it and one, and these rounds return; whether or not the messages
    before it are addresses, and however the packet filter answers. *)
Theorem service_progress before w1 m w2 tk s tr a n :
  follows before (Ledger.Ledger (w1 ++ m :: w2) tk) s tr -> network_of m = Some a ->
  (length w1 < n <= length (w1 ++ m :: w2))%nat ->
  exists s' tr', service_run (replicate n Ledger.Round) s tr = (Ok tt, s', tr')
    /\ pf_request fd t a ∈ adds tr'.
Proof.
  intros Hf Ha Hn.
  apply (wp_result _ (fun res => exists s' tr', res = (Ok tt, s', tr') /\ pf_request fd t a ∈ adds tr')).
  set (w := w1 ++ m :: w2) in *. rewrite <-(take_drop n w) in Hf.
  replace n with (length (take n w)) by (rewrite length_take; lia).
  eapply wp_mono; [|eapply wp_service_run; [exact Hf| |apply ledger_rounds]].
  - intros r s' tr' [-> [_ _ _ Hadds]]. do 2 eexists. split; [done|].
    rewrite Hadds. apply elem_of_app. right. apply list_elem_of_fmap. exists a. split; [done|].
    apply list_elem_of_omap. exists m. split; [|done]. cbn [Ledger.taken].
    apply elem_of_app. right. unfold w. rewrite take_app_ge by lia. apply elem_of_app. right.
    destruct (n - length w1)%nat eqn:E; [lia|]. by left.
  - apply Forall_replicate. done.
Qed.
End Service.

(** ** From the start of the daemon *)

Section Started.
Context `{EV : !Env} `{EN : !Endian} `{PL : !Platform}.
Context `{HM : !MallocOk} `{HG : !GaiSockOk} `{MM : !MqMessages 1024} `{MK : !MqKernel}.

(** A daemon that serves a POSIX queue with the [pf] engine, as [main] leaves it, and a
    client of that queue follow the ledger of the messages that wait. *)
Lemma serving_follows name size (q qr : posix_queue_t) p (d : daemon (Q := posix_queue)) tr w t :
  serving (RC := posix_source 1024) pf_engine size d -> d_queue d = Some qr ->
  mq_rep name (MqAttr 10 1024) (pq_mq q) (pq_mq qr) tr w ->
  Forall (fun m => sendable (MqAttr 10 1024) m /\ clean_message m) w ->
  exists fd, follows (FQ := posix_fifo name (MqAttr 10 1024) (pq_mq q) (pq_mq qr)) fd t size (adds tr)
    (Ledger.Ledger w []) (Service (Q := posix_queue) q p d) tr.
Proof.
  intros [He [fd Hc] (qr' & b & Hq & Hb & Hlen & ->) Hp] Hqr Hw Hok. exists fd.
  rewrite Hq in Hqr. injection Hqr as ->.
  split; [done| |done|by rewrite app_nil_r].
  split; [done|done| |done]. exists qr, b. split; [done|]. split; [done|]. split; [done|]. split; simpl; lia.
Qed.
End Started.

(** ** The daemon on System V queues *)

Section SystemVDaemon.
Context `{EV : !Env} `{EN : !Endian} `{HM : !MallocOk} `{HS : !StrdupOk} `{HG : !GaiOk}.

(** The daemon linked with [systemv.c] is as safe as with [posix.c]: for names
    without a colon, on a kernel that reports one size for the queue and gives
    out messages that fit the text area and hold a C string. *)
Lemma banipd_systemv_safe b qbytes `{SM : !SvMessages qbytes} `{SI : !StatIs qbytes}
    (Hn : 0 <= qbytes < 2 ^ 64 - 1) opts argc n :
  (forall e, e ∈ engines b -> inhabited (EngineContract e)) ->
  args_ok (fun q => nul_free q = true /\ strchr_split ":" q = None) opts ->
  safe_run (RC := systemv_source qbytes)
    (fun n => main (Q := systemv_queue) b opts argc n daemon0 []) n.
Proof.
  intros HC Ha.
  exact (main_safe (RC := systemv_source qbytes) (OC := systemv_owner qbytes Hn) b HC opts argc n Ha).
Qed.
End SystemVDaemon.

(** ** Witnesses *)

#[local] Instance env_kernel_gai_numeric : GaiNumeric (EV := env_kernel).
Proof.
  split; intros tr node q.
  - exact (gai_numeric4 (EV := env_default) tr node q).
  - exact (gai_numeric6 (EV := env_default) tr node q).
Qed.
#[local] Instance env_kernel_gai_sock : GaiSockOk (EV := env_kernel).
Proof. intros tr node numeric res e H. exact (gai_sock_ok (EV := env_default) tr node numeric res e H). Qed.

#[local] Existing Instances env_kernel linux posix_queue.
#[local] Instance service_le : Endian := host_le.

(** The daemon has created the queue and reads it through 3, a client writes to it
    through 4. *)
Definition both_open : trace :=
  [ Ev (Mq_open "/banipd" O_WRONLY MODE_0660 (MqAttr 10 1024)) 4;
    Ev (Mq_open "/banipd" (owner_oflag QUEUE_FL_OWNER) MODE_0660 (MqAttr 10 1024)) 3 ].

Abbreviation pf_fifo := (posix_fifo "/banipd" (MqAttr 10 1024) 4 3).

(** A client and a daemon with the [pf] engine on a POSIX queue. *)
Definition reading_queue : posix_queue_t := PosixQueue 3 (Some "/banipd") (MqAttr 10 1024).
Definition service_pf : service (Q := posix_queue) :=
  Service (Q := posix_queue) (PosixQueue 4 None (MqAttr 10 1024)) proc0
    (MkDaemon (Q := posix_queue) (Prog proc0 (Some (Opened 7))) (Some reading_queue) (Some (PfData 6))
      (Some (replicate 1025 NUL)) (Some pf_engine) None None).

Lemma service_pf_follows w tr :
  mq_rep "/banipd" (MqAttr 10 1024) 4 3 tr w ->
  Forall (ban_message (msgs := sendable (MqAttr 10 1024))) w -> adds tr = [] ->
  follows (FQ := pf_fifo) 6 "blacklist" 1025 [] (Ledger.Ledger w []) service_pf tr.
Proof.
  intros Hrep Hw Ha. split; [done| |by split|done].
  split; [done|done| |done]. exists reading_queue, (replicate 1025 NUL). split; [done|]. split; [done|].
  split; [done|]. split; [|rewrite length_replicate]; simpl; lia.
Qed.

Lemma ban_message_clean m :
  str_all (fun c => negb (Ascii.eqb c NUL)) m = true -> strlen m <= 1024 ->
  bool_decide (clean_message m) = true -> ban_message (msgs := sendable (MqAttr 10 1024)) m.
Proof. intros Hn Hl Hc. apply bool_decide_eq_true in Hc. by split. Qed.

Definition service_ops : list Ledger.op :=
  [Ledger.Ask "10.1.2.3/8"; Ledger.Ask "x"; Ledger.Round; Ledger.Ask "::1"; Ledger.Round].

Lemma service_refines_witness :
  exists s' tr',
    service_run "blacklist" 1025 service_ops service_pf both_open = (Ok tt, s', tr')
    /\ follows (FQ := pf_fifo) 6 "blacklist" 1025 [] (Ledger.Ledger ["::1"] ["10.1.2.3/8"; "x"]) s' tr'.
Proof.
  refine (service_refines (FQ := pf_fifo) 6 "blacklist" 1025 eq_refl [] service_ops
    (Ledger.Ledger [] []) (Ledger.Ledger ["::1"] ["10.1.2.3/8"; "x"]) service_pf both_open _ _ eq_refl).
  - apply service_pf_follows; [|constructor|reflexivity].
    split; [reflexivity|]. split; by eexists.
  - repeat constructor; apply ban_message_clean; vm_compute; congruence.
Defined.

(** The packet filter was asked for 10.0.0.0/8 and nothing else. *)
Example service_bans :
  adds (service_run "blacklist" 1025 service_ops service_pf both_open).2
  = [(6, "blacklist", PfrAddr (10 :: replicate 15 0) AF_INET 8)].
Proof. vm_compute. reflexivity. Qed.

(** Two messages wait, the second an address. *)
Definition two_waiting : trace :=
  Ev (Mq_send 4 (chars "1.2.3.4")) 0 :: Ev (Mq_send 4 (chars "x")) 0 :: both_open.

Lemma service_progress_witness :
  exists s' tr',
    service_run "blacklist" 1025 (replicate 2 Ledger.Round) service_pf two_waiting = (Ok tt, s', tr')
    /\ pf_request 6 "blacklist" (addr_of AF_INET 32 [1; 2; 3; 4] "1.2.3.4") ∈ adds tr'.
Proof.
  refine (service_progress (FQ := pf_fifo) 6 "blacklist" 1025 eq_refl []
    ["x"] "1.2.3.4" [] [] service_pf two_waiting (addr_of AF_INET 32 [1; 2; 3; 4] "1.2.3.4") 2 _ _ _).
  - apply (service_pf_follows ["x"; "1.2.3.4"]); [| |reflexivity].
    + split; [reflexivity|]. split; by eexists.
    + repeat constructor; apply ban_message_clean; vm_compute; congruence.
  - vm_compute. reflexivity.
  - simpl. lia.
Defined.
