(* ===== verification/Cli.v ===== *)
(** * Command line programs: [banip-cli.c] and [pftest.c]

    Both are one [main] over the shared memory; the queue and the context are
    local variables.  [argv] is given without the program name. *)
From Stdlib Require Import ZArith Lia Ascii.
From S2P Require Import Prelude Os Libc CError Scenario Parse ParseSpec Queue Posix Engine Command.
#[local] Set Default Goal Selector "!".

(** ** banip-cli.c *)

Section Cli.
Context `{EV : !Env} `{Q : !QueueOps}.

(** The program's [_verr], which nothing it is linked with calls. *)
Definition cli_verr (fatal : bool) (errcode : Z) (msg : string) : M proc unit :=
  tail ← (if negb (errcode =? 0)
          then text ← syscall (Strerror errcode); mret (": " +:+ text) else mret "");
  syscall (Stderr (msg +:+ tail));;
  if fatal then exit_ EXIT_FAILURE else mret tt.

(** The end of both programs: an error is shown and freed. *)
Definition show_error : M proc unit :=
  error ← gets p_error;
  match error with
  | None => mret tt
  | Some msg => syscall (Stderr msg);; error_free ErrVar
  end.

(** The body of the [do { ... } while (false)]: the status and the queue. *)
Definition cli_body (argv : list string) : M proc (Z * option queue_t) :=
  match argv with
  | [name; msg] =>
      queue ← queue_init ErrVar;
      match queue with
      | None => mret (EXIT_FAILURE, None)
      | Some q =>
          '(ok, q) ← queue_open q name QUEUE_FL_SENDER ErrVar;
          if negb ok then mret (EXIT_FAILURE, Some q) else
          '(ok, q) ← queue_send q msg (-1) ErrVar;
          (if ok : bool then syscall (Stdout "OK") else mret tt);;
          mret (EXIT_SUCCESS, Some q)
      end
  | _ =>
      syscall (Stderr "expected arguments are: 1) queue path/name ; 2) message to send");;
      mret (EXIT_FAILURE, None)
  end.

(** What follows it. *)
Definition cli_end (status : Z) (queue : option queue_t) : M proc Z :=
  match queue with
  | None => mret tt
  | Some _ => queue_close queue ErrVar;; mret tt
  end;;
  show_error;;
  mret status.

Definition cli_main (argv : list string) : M proc Z :=
  '(status, queue) ← cli_body argv;
  cli_end status queue.
End Cli.

(** ** pftest.c *)

Section Pftest.
Context `{EV : !Env} `{EN : !Endian}.

Definition pftest_verr (fatal : bool) (errcode : Z) (msg : string) : M proc unit :=
  tail ← (if negb (errcode =? 0)
          then text ← syscall (Strerror errcode); mret (": " +:+ text) else mret "");
  syscall (Stderr (msg +:+ tail));;
  if fatal then exit_ EXIT_FAILURE else mret tt.

#[export] Instance pftest_program : Program proc :=
  {| in_proc := fun A m => m; _verr := pftest_verr |}.

Definition TABLENAME : string := "blacklist".

(** The status, and the context and engine to close. *)
Definition pftest_body (engines : build proc) (argv : list string)
  : M proc (Z * option ctxt_t * option (engine_t proc)) :=
  let engine := match argv with
                | n :: _ => get_engine_by_name engines n
                | [] => get_default_engine engines
                end in
  match engine with
  | None =>
      set_generic_error ErrVar (match argv with
        | n :: _ => "unknown engine '" +:+ n +:+ "'"
        | [] => "no engine available for your system" end);;
      mret (EXIT_FAILURE, None, None)
  | Some e =>
      r ← match open e with
          | None => mret (true, None)
          | Some f => ctxt ← f TABLENAME ErrVar;
                      mret (match ctxt with None => false | Some _ => true end, ctxt)
          end;
      let '(ok, ctxt) := r in
      if negb ok then mret (EXIT_FAILURE, ctxt, Some e) else
      '(ok, addr) ← parse_addr "1.2.3.4" ErrVar;
      if negb ok then mret (EXIT_FAILURE, ctxt, Some e) else
      ok ← handle e ctxt TABLENAME addr ErrVar;
      mret (if ok : bool then EXIT_SUCCESS else EXIT_FAILURE, ctxt, Some e)
  end.

Definition pftest_main (engines : build proc) (argv : list string) : M proc Z :=
  r ← pftest_body engines argv;
  let '(status, ctxt, engine) := r in
  show_error;;
  match ctxt with
  | None => mret tt
  | Some c =>
      match engine with
      | None => undef NullDeref
      | Some e =>
          c ← match close e with Some f => f c | None => mret c end;
          free_ctxt c
      end
  end;;
  mret status.
End Pftest.

(** ** banip-cli on POSIX queues *)

Section CliSpec.
Context `{EV : !Env} `{PL : !Platform}.
Implicit Types (p : proc) (tr : trace).

(** What a send does when the queue opens: the calls, latest first. *)
Definition cli_opening (name : string) (d : Z) (a : mq_attr) (block : list ascii) tr : trace :=
  Ev (Mq_getattr d) (Some a) :: Ev (Mq_open name O_WRONLY MODE_0660 (pq_attr posix_fresh)) d
  :: Ev (Malloc SIZEOF_POSIX_QUEUE) (Some block) :: tr.

Lemma wp_cli_open name msg p tr block e1 d e2 a e3 R :
  env_call _ tr (Malloc SIZEOF_POSIX_QUEUE) = (Some block, e1) ->
  let tr1 := Ev (Malloc SIZEOF_POSIX_QUEUE) (Some block) :: tr in
  let opening := Mq_open name O_WRONLY MODE_0660 (pq_attr posix_fresh) in
  env_call _ tr1 opening = (d, e2) -> d <> NOT_MQD_T ->
  env_call _ (Ev opening d :: tr1) (Mq_getattr d) = (Some a, e3) ->
  wp (r ← posix_send (PosixQueue d None a) msg (-1) ErrVar;
      let '(ok, q) := r in
      (if ok : bool then syscall (Stdout "OK") else mret tt);;
      mret (EXIT_SUCCESS, Some q)) R (set_errno e3 p) (cli_opening name d a block tr) ->
  wp (cli_body [name; msg]) R p tr.
Proof.
  intros Hm tr1 opening Ho Hd Ha Hw. unfold wp, cli_body. cbn [queue_init posix_queue]. unfold posix_init.
  rewrite bind_assoc, (bind_syscall _ _ _ _ _ _ Hm), bind_ret.
  cbn [queue_open posix_queue]. unfold posix_open.
  change (HAS_FLAG QUEUE_FL_SENDER QUEUE_FL_OWNER) with false.
  change (HAS_FLAG QUEUE_FL_SENDER QUEUE_FL_SENDER) with true. cbv iota zeta.
  unfold posix_open_mq. change (HAS_FLAG QUEUE_FL_SENDER QUEUE_FL_OWNER) with false.
  rewrite bind_assoc, (bind_syscall _ _ _ _ _ _ Ho), (proj2 (Z.eqb_neq d NOT_MQD_T) Hd).
  cbv zeta. rewrite bind_assoc, (bind_syscall _ _ _ _ _ _ Ha). exact Hw.
Qed.

(** The end of the program on an open queue that is not its own. *)
Lemma wp_cli_end d a status e5 (R : outcome Z -> proc -> trace -> Prop) p tr :
  d <> NOT_MQD_T -> (forall tr', env_call _ tr' (Mq_close d) = (0, e5)) ->
  (forall p' , p_error p' = None ->
     R (Ok status) p' (match p_error p with Some text => [Ev (Stderr text) tt] | None => [] end
                       ++ Ev (Mq_close d) 0 :: tr)) ->
  wp (cli_end status (Some (PosixQueue d None a))) R p tr.
Proof.
  intros Hd Hc HR. unfold cli_end. cbn [queue_close posix_queue]. unfold posix_close, show_error.
  cbn [pq_mq pq_filename set_mq]. rewrite (proj2 (Z.eqb_neq d NOT_MQD_T) Hd). cbn [negb].
  wp_step. wp_step. wp_step. wp_step. rewrite Hc in Hcall. injection Hcall as <- <-. cbn [Z.eqb negb].
  wp_step. wp_step. wp_step. wp_step. wp_step. destruct (p_error p) as [text|] eqn:Ep; simpl.
  - wp_step. wp_step. destruct r. unfold error_free. wp_step. wp_step. by apply HR.
  - wp_step. wp_step. by apply HR.
Qed.

(** C31: [banip-cli] on a queue it could open: it sends the message, whole and
    without terminator, and closes the queue without removing it.  When the send
    succeeds it prints OK and the status is 0; when the send fails it shows the
    reason, and the status is 0 all the same. *)
Theorem cli_sends `{!MallocOk} name msg p tr block e1 d e2 a e3 ret e4 e5 :
  p_error p = None ->
  env_call _ tr (Malloc SIZEOF_POSIX_QUEUE) = (Some block, e1) ->
  let tr1 := Ev (Malloc SIZEOF_POSIX_QUEUE) (Some block) :: tr in
  let opening := Mq_open name O_WRONLY MODE_0660 (pq_attr posix_fresh) in
  env_call _ tr1 opening = (d, e2) -> d <> NOT_MQD_T ->
  env_call _ (Ev opening d :: tr1) (Mq_getattr d) = (Some a, e3) ->
  env_call _ (cli_opening name d a block tr) (Mq_send d (chars msg)) = (ret, e4) ->
  let tr4 := Ev (Mq_send d (chars msg)) ret :: cli_opening name d a block tr in
  (forall tr', env_call _ tr' (Mq_close d) = (0, e5)) ->
  exists p' tr', cli_main [name; msg] p tr = (Ok EXIT_SUCCESS, p', tr') /\ p_error p' = None /\
    if ret =? 0 then tr' = Ev (Mq_close d) 0 :: Ev (Stdout "OK") tt :: tr4
    else exists tr5 text, grows reporting tr4 tr5 /\ tr' = Ev (Stderr text) tt :: Ev (Mq_close d) 0 :: tr5.
Proof.
  intros Hp Hm tr1 opening Ho Hd Ha Hs tr4 Hc.
  match goal with |- exists p' tr', _ = (_, p', tr') /\ ?P =>
    apply (wp_result _ (fun res => exists p' tr', res = (Ok EXIT_SUCCESS, p', tr') /\ P)) end.
  unfold cli_main. apply wp_bind, (wp_cli_open name msg p tr block e1 d e2 a e3); [done..|].
  unfold posix_send. cbn [Z.ltb Z.compare]. rewrite message_bytes_all.
  apply wp_bind, wp_bind. apply wp_syscall. intros r e Hr. cbn [pq_mq] in Hr. rewrite Hs in Hr.
  injection Hr as <- <-. fold tr4. destruct (ret =? 0) eqn:Er; cbn [negb].
  - wp_step. apply wp_bind, wp_syscall. intros [] e6 _. wp_step.
    apply (wp_cli_end d a _ e5); [done..|]. simpl. rewrite Hp. intros p' Hp'. eauto.
  - apply wp_report_system; [done|]. intros p1 tr5 [text He] Hg. wp_step. wp_step. wp_step.
    apply (wp_cli_end d a _ e5); [done..|]. rewrite He. intros p' Hp'. eauto 8.
Qed.
End CliSpec.

Lemma cli_sends_witness :
  exists p' tr',
    cli_main (EV := env_default) (Q := posix_queue (EV := env_default) (PL := false))
      ["/banipd"; "1.2.3.4"] (Proc 0 None) [] = (Ok EXIT_SUCCESS, p', tr')
    /\ p_error p' = None
    /\ tr' = Ev (Mq_close 3) 0 :: Ev (Stdout "OK") tt :: Ev (Mq_send 3 (chars "1.2.3.4")) 0
             :: cli_opening "/banipd" 3 (MqAttr 10 1024) (replicate 80 "?"%char) [].
Proof.
  refine (cli_sends (EV := env_default) (PL := false) "/banipd" "1.2.3.4" (Proc 0 None) []
    (replicate 80 "?"%char) 0 3 0 (MqAttr 10 1024) 0 0 0 0 _ _ _ _ _ _ _);
    [reflexivity..|discriminate|reflexivity|reflexivity|reflexivity].
Defined.
