(* ===== verification/Vmod.v ===== *)
(** * The Varnish module: [clients/varnish4/vmod_msgsend.c]

    Varnish's assertion macros ([AN], [XXXAN], [ALLOC_OBJ]) are the outcome
    [Panic]; [VSLb] is a log call.  [error] is a local variable of each function:
    it starts as NULL.  A context without log ([ctx->vsl] NULL) is [vsl = false]. *)
From Stdlib Require Import ZArith Lia Ascii.
From S2P Require Import Prelude Os CError Scenario Queue Posix PosixSpec.
#[local] Set Default Goal Selector "!".

Section Vmod.
Context `{EV : !Env} `{Q : !QueueOps}.

Record vmod_msgsend_mqueue := Mqueue { mqueue : option queue_t; queue_name : string }.

(** [VSLb(..., "%s", error); error_free(&error);] *)
Definition log_error (text : string) : M proc unit :=
  error ← gets p_error;
  match error with
  | None => undef NullFormat
  | Some msg => syscall (Log (text +:+ msg));; error_free ErrVar
  end.

(** The queue did not open: what is left in [queue]. *)
Definition init_give_up (vsl : bool) (name : string) (q : queue_t) : M proc (option queue_t) :=
  (if vsl then log_error ("Can't open queue '" +:+ name +:+ "': ") else mret tt);;
  r ← queue_close (Some q) ErrNull;
  mret (snd r).

(** [XXXAN(queue)] and the allocation of the object. *)
Definition init_object (name : string) (queue : option queue_t) : M proc vmod_msgsend_mqueue :=
  match queue with
  | None => panic
  | Some q =>
      obj ← syscall (Calloc 24);
      if obj : bool then mret (Mqueue (Some q) name) else panic
  end.

Definition vmod_mqueue__init (vsl : bool) (name : string) : M proc vmod_msgsend_mqueue :=
  modify (set_error None);;
  queue ← queue_init ErrVar;
  (match queue with
   | None => if vsl then log_error "Can't init queue: " else mret tt
   | Some _ => mret tt
   end);;
  match queue with
  | None => undef NullDeref
  | Some q =>
      '(ok, q) ← queue_open q name QUEUE_FL_SENDER ErrVar;
      queue ← (if negb ok then init_give_up vsl name q else mret (Some q));
      init_object name queue
  end.

Definition vmod_mqueue__fini (qp : vmod_msgsend_mqueue) : M proc unit :=
  queue_close (mqueue qp) ErrNull;; mret tt.

Definition vmod_mqueue_sendmsg (q : vmod_msgsend_mqueue) (message : string)
  : M proc vmod_msgsend_mqueue :=
  modify (set_error None);;
  match mqueue q with
  | None => undef NullDeref
  | Some h =>
      '(ok, h) ← queue_send h message (-1) ErrVar;
      (if negb ok then
         log_error ("Failed sending message '" +:+ message +:+ "' on '" +:+ queue_name q +:+ "': ")
       else mret tt);;
      mret (Mqueue (Some h) (queue_name q))
  end.
End Vmod.

(** ** On POSIX queues *)

Section VmodSpec.
Context `{EV : !Env} `{PL : !Platform}.
Implicit Types (p : proc) (tr : trace).

Lemma wp_log_error text msg R p tr :
  p_error p = Some msg ->
  (forall p', p_error p' = None -> R (Ok tt) p' (Ev (Log (text +:+ msg)) tt :: tr)) ->
  wp (log_error text) R p tr.
Proof.
  intros Hp HR. unfold log_error. wp_step. wp_step. rewrite Hp. wp_step. wp_step. destruct r.
  unfold error_free. wp_step. by apply HR.
Qed.

(** Sending from VCL on an object with a queue: the message goes to the
    queue as it is, and if the queue refuses it one line is logged with the
    message and the reason; the object stays usable and nothing is left in the
    error variable. *)
Theorem vmod_sends `{!MallocOk} q name message p tr ret e :
  env_call _ tr (Mq_send (pq_mq q) (chars message)) = (ret, e) ->
  let tr1 := Ev (Mq_send (pq_mq q) (chars message)) ret :: tr in
  exists p' tr',
    vmod_mqueue_sendmsg (Mqueue (Some q) name) message p tr = (Ok (Mqueue (Some q) name), p', tr')
    /\ p_error p' = None
    /\ if ret =? 0 then tr' = tr1
       else exists text tr2, grows reporting tr1 tr2 /\ tr' = Ev (Log text) tt :: tr2.
Proof.
  intros Hs tr1.
  match goal with |- exists p' tr', _ = (Ok ?r, p', tr') /\ ?P =>
    apply (wp_result _ (fun res => exists p' tr', res = (Ok r, p', tr') /\ P)) end.
  unfold vmod_mqueue_sendmsg. wp_step. apply wp_modify. cbn [mqueue]. cbn [queue_send posix_queue].
  unfold posix_send. cbn [Z.ltb Z.compare]. rewrite message_bytes_all.
  apply wp_bind, wp_bind, wp_syscall. intros r e' Hr. rewrite Hs in Hr. injection Hr as <- <-.
  fold tr1. destruct (ret =? 0); cbn [negb].
  - wp_step. wp_step. wp_step. wp_step. eauto.
  - apply wp_report_system; [done|]. intros p1 tr2 [msg Hm] Hg. cbn [negb].
    apply wp_bind. eapply wp_log_error; [exact Hm|]. intros p2 Hp2. wp_step. eauto 10.
Qed.

(** When the queue object cannot be allocated, the constructor goes on after
    logging the reason and uses the NULL pointer. *)
Theorem vmod_init_null vsl name p tr e :
  env_call _ tr (Malloc SIZEOF_POSIX_QUEUE) = (None, e) ->
  exists p' tr', vmod_mqueue__init vsl name p tr = (Undef NullDeref, p', tr').
Proof.
  intros Hm. apply (wp_result _ (fun res => exists p' tr', res = (Undef NullDeref, p', tr'))).
  unfold vmod_mqueue__init. wp_step. apply wp_modify. cbn [queue_init posix_queue].
  unfold posix_init, set_malloc_error, set_generic_error, _error_set. apply wp_bind, wp_bind, wp_syscall.
  intros r e' Hr. rewrite Hm in Hr. injection Hr as <- <-. cbv beta iota.
  wp_step. wp_step. wp_step. simpl. wp_step. wp_step. wp_step; [|wp_step; eauto].
  wp_step. wp_step. destruct vsl.
  - apply wp_bind. eapply wp_log_error; [done|]. intros. wp_step. eauto.
  - wp_step. wp_step. wp_step. eauto.
Qed.

(** NULL, or a queue with a descriptor. *)
Definition usable (queue : option posix_queue_t) : Prop :=
  match queue with None => True | Some q => pq_mq q <> NOT_MQD_T end.

Lemma wp_give_up vsl name q p tr :
  is_Some (p_error p) -> pq_filename q = None ->
  wp (init_give_up vsl name q) (fun o _ _ => match o with Ok r => usable r | _ => False end) p tr.
Proof.
  intros [msg Hp] Hf. unfold init_give_up. apply wp_bind.
  assert (Hc : forall p2 tr2, wp (r ← queue_close (Some q) ErrNull; mret (snd r))
    (fun o _ _ => match o with Ok r => usable r | _ => False end) p2 tr2).
  { intros p2 tr2. apply wp_bind. cbn [queue_close posix_queue]. unfold posix_close, set_system_error, _error_set.
    cbn [pq_filename set_mq]. rewrite Hf.
    destruct (pq_mq q =? NOT_MQD_T) eqn:Ed; cbn [negb]; bools; wp_steps; done. }
  destruct vsl; [eapply wp_log_error; [done|]; intros; apply Hc|wp_step; apply Hc].
Qed.

(** Opening as a client: the queue has a descriptor, or one error is stored. *)
Lemma wp_client_opens `{!MallocOk} name p tr :
  p_error p = None ->
  wp (posix_open posix_fresh name QUEUE_FL_SENDER ErrVar) (fun o p' _ => match o with
    | Ok (true, q) => pq_mq q <> NOT_MQD_T
    | Ok (false, q) => is_Some (p_error p') /\ pq_filename q = None
    | _ => False end) p tr.
Proof.
  intros Hp. unfold posix_open, posix_open_mq.
  change (HAS_FLAG QUEUE_FL_SENDER QUEUE_FL_OWNER) with false. cbv iota zeta.
  apply wp_bind, wp_syscall. intros d e _. cbv beta iota zeta.
  destruct (d =? NOT_MQD_T) eqn:Ed; bools; [by apply wp_report_system|].
  wp_step. wp_step. wp_step; [by wp_step|by apply wp_report_system].
Qed.

(** C34: with memory available, the constructor either gives an object whose queue
    has a descriptor or stops Varnish with a failed assertion: it never gives an
    object without a queue and never runs into undefined behaviour. *)
Theorem vmod_init_safe `{!MallocOk} vsl name p tr o p' tr' :
  vmod_mqueue__init vsl name p tr = (o, p', tr') ->
  o = Panic \/ exists q, o = Ok (Mqueue (Some q) name) /\ pq_mq q <> NOT_MQD_T.
Proof.
  intros Hrun. refine (wp_run _ (fun o _ _ => o = Panic \/
    exists q, o = Ok (Mqueue (Some q) name) /\ pq_mq q <> NOT_MQD_T) _ _ _ _ _ _ Hrun). clear Hrun.
  unfold vmod_mqueue__init. wp_step. apply wp_modify. cbn [queue_init posix_queue].
  unfold posix_init. apply wp_bind, wp_bind, wp_syscall. intros r e Hr.
  destruct (malloc_ok tr SIZEOF_POSIX_QUEUE) as (blk & e' & Hok).
  rewrite Hok in Hr. injection Hr as <- <-. wp_step. wp_step. wp_step.
  assert (Hend : forall q p1 tr1, usable q -> wp (init_object name q) (fun o _ _ => o = Panic \/
    exists q, o = Ok (Mqueue (Some q) name) /\ pq_mq q <> NOT_MQD_T) p1 tr1).
  { intros [q|] p1 tr1 Hq; [|by left]. unfold init_object. wp_step. wp_step. wp_step; wp_step; eauto. }
  apply wp_bind. eapply wp_mono; [|by apply wp_client_opens].
  intros [[[|] q]|?| |?] p1 tr1 Ho; try done; cbn [negb].
  - wp_step. wp_step. by apply (Hend (Some q)).
  - destruct Ho as [He Hf]. apply wp_bind. eapply wp_mono; [|by apply wp_give_up].
    intros [r|?| |?] p2 tr2 Hu; try done. by apply Hend.
Qed.
End VmodSpec.

(** ** Witnesses *)

Lemma vmod_sends_witness :
  exists p' tr',
    vmod_mqueue_sendmsg (EV := env_default) (Q := posix_queue (EV := env_default) (PL := linux))
      (Mqueue (EV := env_default) (Q := posix_queue (EV := env_default) (PL := linux))
         (Some (PosixQueue 3 None (MqAttr 10 1024))) "/banipd") "1.2.3.4" (Proc 0 None) []
    = (Ok (Mqueue (EV := env_default) (Q := posix_queue (EV := env_default) (PL := linux))
         (Some (PosixQueue 3 None (MqAttr 10 1024))) "/banipd"), p', tr')
    /\ p_error p' = None /\ tr' = [Ev (Mq_send 3 (chars "1.2.3.4")) 0].
Proof.
  refine (vmod_sends (EV := env_default) (PL := linux) (PosixQueue 3 None (MqAttr 10 1024)) "/banipd"
    "1.2.3.4" (Proc 0 None) [] 0 0 _). reflexivity.
Defined.

(** A system on which [queue_init] finds no memory. *)
Definition env_no_queue : Env := override (fun A _ c =>
  match c in sys A return option (A * Z) with
  | Malloc n => if n =? SIZEOF_POSIX_QUEUE then Some (None, 12) else None
  | _ => None
  end).

Lemma vmod_init_null_witness :
  exists p' tr',
    vmod_mqueue__init (EV := env_no_queue) (Q := posix_queue (EV := env_no_queue) (PL := linux))
      true "/banipd" (Proc 0 None) [] = (Undef NullDeref, p', tr').
Proof. apply (vmod_init_null (EV := env_no_queue) (PL := linux)) with (e := 12). reflexivity. Defined.

Lemma vmod_init_safe_witness :
  exists o p' tr',
    vmod_mqueue__init (EV := env_default) (Q := posix_queue (EV := env_default) (PL := linux))
      true "/banipd" (Proc 0 None) [] = (o, p', tr')
    /\ (o = Panic \/ exists q, o = Ok (Mqueue (Q := posix_queue (PL := linux)) (Some q) "/banipd")
                               /\ pq_mq q <> NOT_MQD_T).
Proof.
  destruct (vmod_mqueue__init (EV := env_default) (Q := posix_queue (EV := env_default) (PL := linux))
      true "/banipd" (Proc 0 None) []) as [[o p'] tr'] eqn:E.
  exists o, p', tr'. split; [reflexivity|].
  exact (vmod_init_safe (EV := env_default) (PL := linux) true "/banipd" (Proc 0 None) [] o p' tr' E).
Defined.
