(* ===== verification/Apache.v ===== *)
(** * The Apache module: [clients/apache24/mod_banip.c]

    The Apache Portable Runtime is a parameter: tables, regular expressions and
    the parsing of the query string.  The calls of the queue functions lack their
    last argument; they are read as passing NULL.  The results of [queue_send]
    and [queue_open], which are booleans, are compared with [QUEUE_ERR_OK] as in
    the source. *)
From Stdlib Require Import ZArith Lia Ascii.
From S2P Require Import Prelude Os CError Scenario Queue Posix PosixSpec.
#[local] Set Default Goal Selector "!".

Definition OK : Z := 0.
Definition DECLINED : Z := -1.
Definition HTTP_FORBIDDEN : Z := 403.
Definition HTTP_INTERNAL_SERVER_ERROR : Z := 500.
Definition BANIP_HEADER : string := "X-BanIP".

(** What the module uses of APR and of httpd. *)
Class Apr := {
  regex : Type;
  ap_pregcomp : string -> option regex;
  ap_regexec : regex -> string -> bool;             (* whether it matches *)
  table : Type;
  apr_table_get : table -> string -> option string;
  apr_table_unset : table -> string -> table;
  getenv : string -> option string
}.

Section Apache.
Context `{EV : !Env} `{Q : !QueueOps} `{AP : !Apr}.

(** ** Data *)

(** A pointer to an entry of [pattern_compilers]. *)
Inductive pattern_compiler := Regex_compiler | String_compiler.

Record banip_rule := Rule
  { what : option string; pattern : string; regexp : option regex; compiler : pattern_compiler }.

Record banip_server_conf := ServerConf
  { squeue : option string; enabled : bool; srules : list banip_rule }.

Record banip_perdir_conf := PerdirConf { get_table : option table; drules : list banip_rule }.

(** The fields of [request_rec] that are used; [args] is what
    [ap_args_to_table] makes of the query string. *)
Record request_rec := Request
  { uri : string; subprocess_env : table; notes : table; headers_in : table; args : table;
    useragent_ip : string; headers_out : table; err_headers_out : table }.

(** The static [queue] and the configurations of one server and one directory. *)
Record apache := MkApache
  { a_proc : proc; a_queue : option queue_t; sconf : banip_server_conf; dconf : banip_perdir_conf }.

Definition set_a_proc p a := MkApache p (a_queue a) (sconf a) (dconf a).
Definition set_a_queue q a := MkApache (a_proc a) q (sconf a) (dconf a).
Definition set_sconf c a := MkApache (a_proc a) (a_queue a) c (dconf a).
Definition set_dconf c a := MkApache (a_proc a) (a_queue a) (sconf a) c.

Definition in_memory {A} (m : M proc A) : M apache A := zoom a_proc set_a_proc m.

(** ** Rules *)

(** The error message, if any, and the rule. *)
Definition regex_compile (pat : string) : option string * banip_rule :=
  let re := ap_pregcomp pat in
  (match re with
   | None => Some ("BanIPRule: cannot compile regular expression '" +:+ pat +:+ "'")
   | Some _ => None
   end, Rule None pat re Regex_compiler).

Definition string_compile (pat : string) : option string * banip_rule :=
  (None, Rule None (match pat with String _ p => p | EmptyString => pat end) None String_compiler).

(** The comparisons, as whether they give 0. *)
Definition regex_compare (rule : banip_rule) (string : string) : M apache bool :=
  match regexp rule with None => undef NullDeref | Some re => mret (ap_regexec re string) end.

Definition string_compare (rule : banip_rule) (string : string) : M apache bool :=
  mret (String.eqb (pattern rule) string).

(** The table: indicator, [compile] and [compare] of each entry. *)
Record compiler_entry := CompilerEntry
  { indicator : ascii; compile : string -> option string * banip_rule;
    compare : banip_rule -> string -> M apache bool }.

Definition pattern_compilers (c : pattern_compiler) : compiler_entry :=
  match c with
  | Regex_compiler => CompilerEntry NUL regex_compile regex_compare
  | String_compiler => CompilerEntry "=" string_compile string_compare
  end.

Definition compile_rule (pat : string) : option string * banip_rule :=
  let c := match pat with
           | String c _ => if Ascii.eqb "=" c then String_compiler else Regex_compiler
           | EmptyString => Regex_compiler
           end in
  compile (pattern_compilers c) pat.

(** ** Lookups *)

Definition lookup_default (name : string) (r : request_rec) : M apache (option string) :=
  mret (Some (uri r)).

Definition lookup_env (name : string) (r : request_rec) : M apache (option string) :=
  mret match apr_table_get (subprocess_env r) name with
       | Some v => Some v
       | None =>
           match apr_table_get (notes r) name with Some v => Some v | None => getenv name end
       end.

Definition lookup_http (name : string) (r : request_rec) : M apache (option string) :=
  mret (apr_table_get (headers_in r) name).

(** The table of the query string is kept in the configuration of the directory. *)
Definition lookup_get (name : string) (r : request_rec) : M apache (option string) :=
  d ← gets dconf;
  let t := match get_table d with Some t => t | None => args r end in
  modify (set_dconf (PerdirConf (Some t) (drules d)));;
  mret (apr_table_get t name).

Definition lookup_post (name : string) (r : request_rec) : M apache (option string) := mret None.

Definition variables : list (option string * nat * (string -> request_rec -> M apache (option string))) :=
  [ (None, 0%nat, lookup_default);
    (Some "ENV:", 4%nat, lookup_env);
    (Some "GET:", 4%nat, lookup_get);
    (Some "HTTP:", 5%nat, lookup_http);
    (Some "POST:", 5%nat, lookup_post) ].

(** [0 == strncmp(a, b, n)] *)
Definition strncmp_eq (a b : string) (n : nat) : bool :=
  bool_decide (take n (chars a) = take n (chars b)).

Definition drop_prefix (n : nat) (s : string) : string := of_chars (drop n (chars s)).

(** The loop over [variables], from one entry on.  A prefix and a [what] are equal
    as pointers only when both are NULL; then the name is NULL too, which
    [lookup_default] does not read. *)
Fixpoint lookup_in (vars : list (option string * nat * (string -> request_rec -> M apache (option string))))
    (w : option string) (r : request_rec) : M apache (option string) :=
  match vars with
  | [] => mret None
  | (prefix, prefix_len, lookup) :: vars =>
      match prefix, w with
      | None, None => lookup "" r
      | Some p, Some w' =>
          if strncmp_eq p w' prefix_len then lookup (drop_prefix prefix_len w') r
          else lookup_in vars w r
      | Some p, None => undef NullDeref
      | None, Some _ => lookup_in vars w r
      end
  end.

Definition lookup_variable (w : option string) (r : request_rec) : M apache (option string) :=
  lookup_in variables w r.

(** ** The queue *)

Definition banip_queue_send_message (r : request_rec) : M apache unit :=
  s ← gets sconf;
  queue ← gets a_queue;
  match queue with
  | None => undef NullDeref
  | Some q =>
      '(ok, q) ← in_memory (queue_send q (useragent_ip r) (-1) ErrNull);
      modify (set_a_queue (Some q));;
      let name := match squeue s with Some n => n | None => "(null)" end in
      in_memory (syscall (Log (if ok : bool
        then "Failed sending message '" +:+ useragent_ip r +:+ "' on '" +:+ name +:+ "'"
        else "Message '" +:+ useragent_ip r +:+ "' sent on mqueue '" +:+ name +:+ "'")))
  end.

Definition banip_queue_close : M apache Z :=
  queue ← gets a_queue;
  match queue with
  | None => mret OK
  | Some _ =>
      '(_, queue) ← in_memory (queue_close queue ErrNull);
      modify (set_a_queue queue);;
      mret OK
  end.

(** [pre] is the first pass over the configuration. *)
Definition banip_post_config (pre : bool) : M apache Z :=
  if pre then mret OK else
  s ← gets sconf;
  if negb (enabled s) then mret OK else
  match squeue s with
  | None =>
      in_memory (syscall (Log "A 'BanIPQueue' directive is missing to set queue name"));;
      mret HTTP_INTERNAL_SERVER_ERROR
  | Some name =>
      queue ← in_memory (queue_init ErrNull);
      modify (set_a_queue queue);;
      match queue with
      | None =>
          in_memory (syscall (Log "Failed to initialize a queue"));;
          mret HTTP_INTERNAL_SERVER_ERROR
      | Some q =>
          '(ok, q) ← in_memory (queue_open q name QUEUE_FL_SENDER ErrNull);
          modify (set_a_queue (Some q));;
          (* [QUEUE_ERR_OK != queue_open(...)] *)
          if ok : bool then
            in_memory (syscall (Log ("Failed to open queue '" +:+ name +:+ "'")));;
            banip_queue_close;;
            mret HTTP_INTERNAL_SERVER_ERROR
          else mret OK
      end
  end.

(** ** Requests *)

Fixpoint run_rules (rules : list banip_rule) (r : request_rec) : M apache Z :=
  match rules with
  | [] => mret DECLINED
  | rule :: rules =>
      string ← lookup_variable (what rule) r;
      match string with
      | None => run_rules rules r
      | Some string =>
          matched ← compare (pattern_compilers (compiler rule)) rule string;
          in_memory (syscall (Log (string +:+ (if matched : bool then " matches " else " doesn't match ")
                                   +:+ pattern rule)));;
          if matched : bool then banip_queue_send_message r;; mret HTTP_FORBIDDEN
          else run_rules rules r
      end
  end.

Definition banip_fixup (r : request_rec) : M apache Z :=
  s ← gets sconf;
  if negb (enabled s) then mret DECLINED else run_rules (srules s) r.

(** The filter: what it returns to httpd, [None] for passing the response on, and
    the headers afterwards. *)
Definition banip_output_filter (r : request_rec) : M apache (option Z * request_rec) :=
  match apr_table_get (headers_out r) BANIP_HEADER, apr_table_get (err_headers_out r) BANIP_HEADER with
  | None, None => mret (None, r)
  | _, _ =>
      banip_queue_send_message r;;
      mret (Some HTTP_FORBIDDEN,
            Request (uri r) (subprocess_env r) (notes r) (headers_in r) (args r) (useragent_ip r)
              (apr_table_unset (headers_out r) BANIP_HEADER)
              (apr_table_unset (err_headers_out r) BANIP_HEADER))
  end.

(** ** Configuration *)

Definition config_server_create : banip_server_conf := ServerConf None false [].
Definition config_perdir_create : banip_perdir_conf := PerdirConf None [].

(** The merge functions read [base->rules] through a pointer that was never set. *)
Definition config_server_merge (base overrides : banip_server_conf) : M apache banip_server_conf :=
  undef OutOfBounds.
Definition config_perdir_merge (base overrides : banip_perdir_conf) : M apache banip_perdir_conf :=
  undef OutOfBounds.

(** Whether the output filter is added to a request. *)
Definition banip_insert_output_filter : M apache bool :=
  s ← gets sconf; mret (enabled s).

(** The commands; [path] tells whether they appear inside a directory. *)
Definition cmd_banip_enable (path : bool) (flag : bool) : M apache (option string) :=
  if path then mret None else
  s ← gets sconf;
  modify (set_sconf (ServerConf (squeue s) flag (srules s)));; mret None.

Definition cmd_banip_queue (arg : string) : M apache (option string) :=
  s ← gets sconf;
  modify (set_sconf (ServerConf (Some arg) (enabled s) (srules s)));; mret None.

Definition cmd_banip_rule (path : bool) (argv : list string) : M apache (option string) :=
  match (match argv with
         | [p] => Some (None, p)
         | [w; p] => Some (Some w, p)
         | _ => None
         end) with
  | None => mret (Some "BanIPRule: too many arguments")
  | Some (w, p) =>
      let '(ret, rule) := compile_rule p in
      let rule := Rule w (pattern rule) (regexp rule) (compiler rule) in
      (if path then
         d ← gets dconf; modify (set_dconf (PerdirConf (get_table d) (drules d ++ [rule])))
       else
         s ← gets sconf; modify (set_sconf (ServerConf (squeue s) (enabled s) (srules s ++ [rule]))));;
      mret ret
  end.

(** ** Declarations *)

(** A command, by the arguments it takes; the first is whether it appears inside a
    directory. *)
Inductive command :=
| AP_INIT_FLAG (f : bool -> bool -> M apache (option string))
| AP_INIT_TAKE1 (f : bool -> string -> M apache (option string))
| AP_INIT_TAKE_ARGV (f : bool -> list string -> M apache (option string)).

Definition command_table : list (string * command) :=
  [ ("BanIPEnable", AP_INIT_FLAG cmd_banip_enable);
    ("BanIPQueue", AP_INIT_TAKE1 (fun _ => cmd_banip_queue));
    ("BanIPRule", AP_INIT_TAKE_ARGV cmd_banip_rule) ].

(** The functions httpd is given for its hooks. *)
Record hooks := Hooks
  { hook_fixups : request_rec -> M apache Z;
    hook_post_config : bool -> M apache Z;
    output_filter : request_rec -> M apache (option Z * request_rec);
    hook_insert_filter : M apache bool }.

Definition register_hooks : hooks :=
  Hooks banip_fixup banip_post_config banip_output_filter banip_insert_output_filter.

Record module := Module_
  { create_perdir : banip_perdir_conf;
    merge_perdir : banip_perdir_conf -> banip_perdir_conf -> M apache banip_perdir_conf;
    create_server : banip_server_conf;
    merge_server : banip_server_conf -> banip_server_conf -> M apache banip_server_conf;
    commands : list (string * command);
    hooks_of : hooks }.

Definition banip_module : module :=
  Module_ config_perdir_create config_perdir_merge config_server_create config_server_merge
    command_table register_hooks.
End Apache.

(** ** Correctness on POSIX queues *)

(** The calls of [mq_send], latest first: descriptor and message. *)
Fixpoint sends (tr : trace) : list (Z * list ascii) :=
  match tr with
  | [] => []
  | Ev c _ :: tr => match c with Mq_send d m => (d, m) :: sends tr | _ => sends tr end
  end.

Section ApacheSpec.
Context `{EV : !Env} `{PL : !Platform} `{AP : !Apr}.
Implicit Types (a : apache) (tr : trace).

Definition has_prefix (p w : string) : bool := bool_decide (chars p = take (String.length p) (chars w)).

(** The value of a variable, with the table of the query string given. *)
Definition variable_value (r : request_rec) (t : table) (w : option string) : option string :=
  match w with
  | None => Some (uri r)
  | Some w =>
      if has_prefix "ENV:" w then
        match apr_table_get (subprocess_env r) (drop_prefix 4 w),
              apr_table_get (notes r) (drop_prefix 4 w) with
        | Some v, _ | None, Some v => Some v
        | None, None => getenv (drop_prefix 4 w)
        end
      else if has_prefix "GET:" w then apr_table_get t (drop_prefix 4 w)
      else if has_prefix "HTTP:" w then apr_table_get (headers_in r) (drop_prefix 5 w)
      else None
  end.

(** Whether a rule applies to a request: its variable exists and the pattern
    matches it. *)
Definition applies (r : request_rec) (t : table) (rule : banip_rule) : bool :=
  match variable_value r t (what rule) with
  | None => false
  | Some v =>
      match compiler rule, regexp rule with
      | String_compiler, _ => String.eqb (pattern rule) v
      | Regex_compiler, Some re => ap_regexec re v
      | Regex_compiler, None => false
      end
  end.

Definition compiled_rule (rule : banip_rule) : Prop :=
  compiler rule = Regex_compiler -> is_Some (regexp rule).

(** The table lookups in a directory use. *)
Definition get_of (r : request_rec) a : table :=
  match get_table (dconf a) with Some t => t | None => args r end.

Lemma wp_lookup_variable w r a tr :
  wp (lookup_variable w r) (fun o a' tr' => o = Ok (variable_value r (get_of r a) w) /\ tr' = tr /\
    get_of r a' = get_of r a /\ a_queue a' = a_queue a /\ sconf a' = sconf a) a tr.
Proof.
  unfold lookup_variable, variable_value. destruct w as [w|]; [|by apply wp_ret].
  cbn [lookup_in variables]. unfold strncmp_eq.
  change (bool_decide (take 4 (chars "ENV:") = take 4 (chars w))) with (has_prefix "ENV:" w).
  change (bool_decide (take 4 (chars "GET:") = take 4 (chars w))) with (has_prefix "GET:" w).
  change (bool_decide (take 5 (chars "HTTP:") = take 5 (chars w))) with (has_prefix "HTTP:" w).
  destruct (has_prefix "ENV:" w).
  { unfold lookup_env. apply wp_ret. by repeat case_match. }
  destruct (has_prefix "GET:" w); [by unfold lookup_get; wp_steps|].
  destruct (has_prefix "HTTP:" w); [by apply wp_ret|]. by case_match; apply wp_ret.
Qed.

Lemma wp_compare rule v a tr (R : outcome bool -> apache -> trace -> Prop) :
  compiled_rule rule ->
  R (Ok (match compiler rule, regexp rule with
         | String_compiler, _ => String.eqb (pattern rule) v
         | Regex_compiler, Some re => ap_regexec re v
         | Regex_compiler, None => false end)) a tr ->
  wp (compare (pattern_compilers (compiler rule)) rule v) R a tr.
Proof.
  intros Hc HR. unfold compiled_rule in Hc.
  destruct (compiler rule); cbn [compare pattern_compilers]; [|by apply wp_ret].
  unfold regex_compare. destruct (Hc eq_refl) as [re Hre]. rewrite Hre in *.
  by apply wp_ret.
Qed.

(** One message is given to [mq_send], whatever the answer. *)
Lemma wp_send_message q r a tr :
  a_queue a = Some q ->
  wp (banip_queue_send_message r) (fun o a' tr' => o = Ok tt /\
    sends tr' = (pq_mq q, chars (useragent_ip r)) :: sends tr) a tr.
Proof.
  intros Hq. unfold banip_queue_send_message, in_memory. wp_step. wp_step. wp_step. wp_step. rewrite Hq.
  wp_step. wp_step. cbn [queue_send posix_queue].
  unfold posix_send. cbn [Z.ltb Z.compare]. rewrite message_bytes_all.
  wp_step. apply wp_syscall. intros ret e _. cbv beta iota.
  destruct (negb (ret =? 0)); unfold set_system_error, _error_set; wp_steps; by units.
Qed.

Lemma wp_run_rules rules r q t : forall a tr,
  a_queue a = Some q -> get_of r a = t -> Forall compiled_rule rules ->
  wp (run_rules rules r) (fun o a' tr' =>
    if existsb (applies r t) rules
    then o = Ok HTTP_FORBIDDEN /\ sends tr' = (pq_mq q, chars (useragent_ip r)) :: sends tr
    else o = Ok DECLINED /\ sends tr' = sends tr) a tr.
Proof.
  induction rules as [|rule rules IH]; intros a tr Hq Ht Hr; [by apply wp_ret|].
  apply Forall_cons_iff in Hr as [Hrule Hrules]. cbn [run_rules existsb].
  apply wp_bind. eapply wp_mono; [|apply wp_lookup_variable].
  intros o a1 tr1 (-> & -> & Hg1 & Hq1 & _). rewrite Ht in Hg1.
  assert (Hnext : forall a2, a_queue a2 = a_queue a1 -> dconf a2 = dconf a1 -> forall tr2,
    sends tr2 = sends tr -> wp (run_rules rules r) (fun o a' tr' =>
      if existsb (applies r t) rules
      then o = Ok HTTP_FORBIDDEN /\ sends tr' = (pq_mq q, chars (useragent_ip r)) :: sends tr
      else o = Ok DECLINED /\ sends tr' = sends tr) a2 tr2).
  { intros a2 Hq2 Hd2 tr2 <-. apply IH; [by rewrite Hq2, Hq1| |done]. unfold get_of in *. by rewrite Hd2. }
  unfold applies at 1. rewrite Ht. destruct (variable_value r t (what rule)) as [v|]; [|by apply Hnext].
  apply wp_bind, wp_compare; [done|].
  match goal with |- context [match compiler rule with _ => _ end] =>
    destruct (match compiler rule with
              | Regex_compiler => match regexp rule with Some re => ap_regexec re v | None => false end
              | String_compiler => (pattern rule =? v)%string end) end.
  - unfold in_memory. wp_step. wp_step. wp_step. apply wp_bind.
    eapply wp_mono; [|apply (wp_send_message q); exact (eq_trans Hq1 Hq)].
    intros o a3 tr3 [-> Hs3]. wp_step. done.
  - unfold in_memory. wp_step. wp_step. wp_step. by apply Hnext.
Qed.

(** With the module enabled and its rules compiled, a request is refused
    exactly when some rule of the server applies to it, and then exactly one
    message is sent, the address of the client; any other request is left alone
    and nothing is sent. *)
Theorem apache_fixup_correct r a q tr :
  enabled (sconf a) = true -> a_queue a = Some q -> Forall compiled_rule (srules (sconf a)) ->
  exists code a' tr', banip_fixup r a tr = (Ok code, a', tr') /\
    if existsb (applies r (get_of r a)) (srules (sconf a))
    then code = HTTP_FORBIDDEN /\ sends tr' = (pq_mq q, chars (useragent_ip r)) :: sends tr
    else code = DECLINED /\ sends tr' = sends tr.
Proof.
  intros He Hq Hr.
  match goal with |- exists code a' tr', _ = _ /\ ?P =>
    apply (wp_result _ (fun res => exists code a' tr', res = (Ok code, a', tr') /\ P)) end.
  unfold banip_fixup. wp_step. apply wp_gets. rewrite He. cbn [negb].
  eapply wp_mono; [|by eapply wp_run_rules].
  intros o a' tr'. destruct (existsb _ _); intros [-> Hs]; do 3 eexists; (split; [done|]); done.
Qed.

(** *** Configuration and requests together *)

(** A directive of the configuration file: its name, whether it stands inside a
    directory, and its arguments. *)
Inductive cmd_args := Flag (b : bool) | Take1 (s : string) | Argv (l : list string).
Record directive := Directive { dname : string; dpath : bool; dargs : cmd_args }.

Definition call_command (c : command) (path : bool) (args : cmd_args)
  : option (M apache (option string)) :=
  match c, args with
  | AP_INIT_FLAG f, Flag b => Some (f path b)
  | AP_INIT_TAKE1 f, Take1 s => Some (f path s)
  | AP_INIT_TAKE_ARGV f, Argv l => Some (f path l)
  | _, _ => None
  end.

(** httpd calls the commands of the module in the order of the file; the first
    error message ends the start.  Only directives at server level: for those of a
    directory, and for virtual hosts with directives of their own, httpd makes
    further configurations and calls the merge functions on them. *)
Inductive configured : list directive -> apache -> apache -> Prop :=
| configured_nil a : configured [] a a
| configured_cons d ds c m a tr a1 tr1 a2 :
    dpath d = false -> (dname d, c) ∈ commands banip_module -> call_command c (dpath d) (dargs d) = Some m ->
    m a tr = (Ok None, a1, tr1) -> configured ds a1 a2 -> configured (d :: ds) a a2.

(** The rule of a directive at server level. *)
Definition rule_of (wp : option string * string) : banip_rule :=
  let rule := snd (compile_rule (snd wp)) in Rule (fst wp) (pattern rule) (regexp rule) (compiler rule).

Definition server_rule (d : directive) : option (option string * string) :=
  match dpath d, dargs d with
  | false, Argv [p] => Some (None, p)
  | false, Argv [w; p] => Some (Some w, p)
  | _, _ => None
  end.

(** The last flag given at server level, or [b]. *)
Fixpoint last_flag (ds : list directive) (b : bool) : bool :=
  match ds with
  | [] => b
  | d :: ds => last_flag ds (match dpath d, dargs d with false, Flag b' => b' | _, _ => b end)
  end.

Lemma compile_rule_ok p : fst (compile_rule p) = None -> compiled_rule (snd (compile_rule p)).
Proof.
  unfold compile_rule, compiled_rule. destruct p as [|c p]; [|destruct (Ascii.eqb "=" c); [done|]];
    cbn [compile pattern_compilers]; unfold regex_compile; cbn [fst snd compiler regexp];
    match goal with |- context [ap_pregcomp ?x] => destruct (ap_pregcomp x) end; done.
Qed.

(** What one accepted directive changes. *)
Lemma directive_effect d c m a tr a1 tr1 :
  (dname d, c) ∈ command_table -> call_command c (dpath d) (dargs d) = Some m ->
  m a tr = (Ok None, a1, tr1) ->
  get_table (dconf a1) = get_table (dconf a) /\ a_queue a1 = a_queue a
  /\ srules (sconf a1) = srules (sconf a) ++ (rule_of <$> option_list (server_rule d))
  /\ enabled (sconf a1) = last_flag [d] (enabled (sconf a))
  /\ Forall compiled_rule (rule_of <$> option_list (server_rule d)).
Proof.
  destruct d as [n path args]. cbn [dname dpath dargs]. intros Hin Hc Hm.
  unfold command_table in Hin. rewrite !elem_of_cons in Hin. unfold server_rule, last_flag. cbn [dpath dargs].
  destruct Hin as [[= _ ->]|[[= _ ->]|[[= _ ->]|Hin]]]; [..|by apply not_elem_of_nil in Hin];
    destruct args as [b|arg|argv]; try discriminate Hc; injection Hc as <-.
  - destruct path; injection Hm as <- _; cbn; rewrite ?app_nil_r; by split_and!.
  - injection Hm as <- _. destruct path; cbn; rewrite ?app_nil_r; by split_and!.
  - unfold cmd_banip_rule in Hm. destruct argv as [|x [|y [|z argv]]]; try discriminate Hm;
      [pose proof (compile_rule_ok x) as Hok|pose proof (compile_rule_ok y) as Hok];
      [destruct (compile_rule x) as [ret rule] eqn:Er|destruct (compile_rule y) as [ret rule] eqn:Er];
      destruct path; injection Hm as -> <- _; cbn; rewrite ?app_nil_r; unfold rule_of; cbn; rewrite ?Er;
      split_and!; try done; repeat constructor; by apply Hok.
Qed.

Lemma last_flag_cons d ds b : last_flag (d :: ds) b = last_flag ds (last_flag [d] b).
Proof. done. Qed.

Lemma configured_effect ds a a' :
  configured ds a a' ->
  get_table (dconf a') = get_table (dconf a) /\ a_queue a' = a_queue a
  /\ srules (sconf a') = srules (sconf a) ++ (rule_of <$> omap server_rule ds)
  /\ enabled (sconf a') = last_flag ds (enabled (sconf a))
  /\ Forall compiled_rule (rule_of <$> omap server_rule ds).
Proof.
  induction 1 as [a|d ds c m a tr a1 tr1 a2 _ Hin Hc Hm _ (IHg & IHq & IHr & IHe & IHc)].
  { cbn. rewrite app_nil_r. by split_and!. }
  destruct (directive_effect d c m a tr a1 tr1 Hin Hc Hm) as (Hg & Hq & Hr & He & Hok).
  split_and!; [congruence|congruence| |by rewrite IHe, He|].
  - rewrite IHr, Hr, <-app_assoc, <-fmap_app. cbn [omap list_omap]. by destruct (server_rule d).
  - cbn [omap list_omap]. destruct (server_rule d); [|done]. cbn in Hok |- *. by inversion Hok; constructor.
Qed.

(** A server as httpd starts it: the configurations the module creates. *)
Definition apache0 : apache :=
  MkApache (Proc 0 None) None (create_server banip_module) (create_perdir banip_module).

(** What a failed [queue_open] of a sender leaves: no descriptor, unless the queue was
    opened and then could not be asked for its attributes. *)
Definition not_opened (q : posix_queue_t) tr : Prop :=
  pq_mq q = NOT_MQD_T \/ Ev (Mq_getattr (pq_mq q)) None ∈ tr.

Lemma wp_sender_fails q name p tr :
  wp (posix_open q name QUEUE_FL_SENDER ErrNull) (fun o _ tr' => match o with
    | Ok (false, q') => not_opened q' tr'
    | Ok (true, _) => True
    | _ => False end) p tr.
Proof.
  unfold posix_open, posix_open_mq, set_system_error, _error_set.
  change (HAS_FLAG QUEUE_FL_SENDER QUEUE_FL_OWNER) with false. cbv iota zeta. unfold not_opened.
  wp_step. wp_step. wp_step.
  - wp_steps. bools. by left.
  - wp_step. wp_step. wp_step; [by wp_steps|]. wp_steps. right. right. by left.
Qed.

(** [post_config] lets the start go on only with a queue whose [queue_open] failed. *)
Lemma wp_post_config_ok a tr :
  enabled (sconf a) = true ->
  wp (banip_post_config false) (fun o a' tr' => o = Ok OK ->
    sconf a' = sconf a /\ dconf a' = dconf a /\ exists q, a_queue a' = Some q /\ not_opened q tr') a tr.
Proof.
  intros He. unfold banip_post_config, in_memory. wp_step. apply wp_gets. rewrite He. cbn [negb].
  destruct (squeue (sconf a)) as [name|]; [|by wp_steps].
  apply wp_bind, wp_zoom, run_wp. intros [[q|]|?| |?] p1 tr1 _; try done; apply wp_bind, wp_modify;
    [|by wp_steps].
  apply wp_bind, wp_zoom. eapply wp_mono; [|apply wp_sender_fails].
  intros [[[|] q']|?| |?] p2 tr2 Ho; try done; apply wp_bind, wp_modify.
  - apply wp_bind, wp_zoom. wp_step. apply wp_bind, run_wp. by intros [c|?| |?] a' tr' _.
  - wp_step. intros _. split; [done|]. split; [done|]. by exists q'.
Qed.


(** A response that carries the header [X-BanIP] in either table is turned into
    a refusal, with one message sent and the header removed from both tables;
    any other response is passed on untouched and nothing is sent. *)
Theorem apache_filter_correct r a q tr :
  a_queue a = Some q ->
  exists res a' tr', banip_output_filter r a tr = (Ok res, a', tr') /\
    if decide (apr_table_get (headers_out r) BANIP_HEADER = None
               /\ apr_table_get (err_headers_out r) BANIP_HEADER = None)
    then res = (None, r) /\ tr' = tr
    else fst res = Some HTTP_FORBIDDEN /\ sends tr' = (pq_mq q, chars (useragent_ip r)) :: sends tr
         /\ headers_out (snd res) = apr_table_unset (headers_out r) BANIP_HEADER
         /\ err_headers_out (snd res) = apr_table_unset (err_headers_out r) BANIP_HEADER.
Proof.
  intros Hq.
  match goal with |- exists res a' tr', _ = _ /\ ?P =>
    apply (wp_result _ (fun x => exists res a' tr', x = (Ok res, a', tr') /\ P)) end.
  unfold banip_output_filter.
  destruct (apr_table_get (headers_out r) BANIP_HEADER), (apr_table_get (err_headers_out r) BANIP_HEADER);
    destruct (decide _) as [[? ?]|Hn]; try done;
    try (apply wp_bind; eapply wp_mono; [|by eapply wp_send_message];
         intros o a' tr' [-> Hs]; wp_step; do 3 eexists; by split_and!).
  - wp_step. do 3 eexists. by split_and!.
  - by destruct Hn.
Qed.

(** C39: [post_config] takes the result of [queue_open] the wrong way round: when the
    queue opens, the queue is closed again and the server refuses to start; when
    it does not open, the start goes on with a queue that has no descriptor. *)
Theorem apache_post_config_inverted a tr name block e p1 ok q p2 tr2 :
  enabled (sconf a) = true -> squeue (sconf a) = Some name ->
  env_call _ tr (Malloc SIZEOF_POSIX_QUEUE) = (Some block, e) ->
  p1 = set_errno e (a_proc a) ->
  posix_open posix_fresh name QUEUE_FL_SENDER ErrNull p1
    (Ev (Malloc SIZEOF_POSIX_QUEUE) (Some block) :: tr) = (Ok (ok, q), p2, tr2) ->
  exists a' tr', banip_post_config false a tr
                 = (Ok (if ok then HTTP_INTERNAL_SERVER_ERROR else OK), a', tr')
                 /\ (ok = false -> a_queue a' = Some q /\ tr' = tr2).
Proof.
  intros He Hs Hm -> Hopen.
  match goal with |- exists a' tr', _ = (Ok ?c, a', tr') /\ ?P =>
    apply (wp_result _ (fun x => exists a' tr', x = (Ok c, a', tr') /\ P)) end.
  unfold banip_post_config, in_memory. wp_step. apply wp_gets. rewrite He, Hs. cbn [negb].
  apply wp_bind, wp_zoom. cbn [queue_init posix_queue]. unfold posix_init.
  apply wp_bind, wp_syscall. intros r e' Hr. rewrite Hm in Hr. injection Hr as <- <-.
  apply wp_ret. apply wp_bind, wp_modify. apply wp_bind, wp_zoom.
  cbn [queue_open posix_queue]. unfold wp at 1. cbn [a_proc set_a_queue set_a_proc]. rewrite Hopen.
  apply wp_bind, wp_modify. destruct ok; [|wp_step; eauto 6].
  apply wp_bind, wp_zoom. wp_step. apply wp_bind. unfold banip_queue_close, in_memory.
  wp_step. wp_step. apply wp_bind, wp_zoom. cbn [queue_close posix_queue].
  eapply wp_mono with (Q := fun o _ _ => exists x, o = Ok x).
  - intros o p3 tr3 [[r' q'] ->]. wp_step. wp_step. wp_step. wp_step. by do 2 eexists.
  - unfold posix_close, set_system_error, _error_set. cbn [set_mq pq_filename].
    destruct (pq_filename q); wp_steps; eauto.
Qed.

(** The query string of the first request that asks for a parameter is kept for
    the directory: a later request is judged by the parameters of the first. *)
Theorem apache_get_stale n1 n2 r1 r2 a tr :
  get_table (dconf a) = None ->
  exists a1, lookup_get n1 r1 a tr = (Ok (apr_table_get (args r1) n1), a1, tr)
             /\ fst (fst (lookup_get n2 r2 a1 tr)) = Ok (apr_table_get (args r1) n2).
Proof.
  intros Hg. unfold lookup_get. rewrite bind_gets, Hg. cbv zeta. eexists. split; [reflexivity|]. done.
Qed.
End ApacheSpec.

(** ** Witnesses *)

(** A runtime with association lists for tables and literal patterns. *)
#[local] Instance apr_lists : Apr := {|
  regex := string;
  ap_pregcomp := Some;
  ap_regexec := fun re s => String.prefix re s;
  table := list (string * string);
  apr_table_get := fun t k =>
    match filter (fun p => fst p = k) t with (_, v) :: _ => Some v | [] => None end;
  apr_table_unset := fun t k => filter (fun p => fst p <> k) t;
  getenv := fun _ => None
|}.

#[local] Existing Instances env_default linux.

Definition request (u : string) (hdr : list (string * string)) : request_rec :=
  Request u [] [] [] [("x", "1")] "1.2.3.4" hdr [].

Definition apache_on : apache :=
  MkApache (Proc 0 None) (Some (PosixQueue 3 None (MqAttr 10 1024)))
    (ServerConf (Some "/banipd") true [snd (compile_rule "=/admin"); snd (compile_rule "/wp-")])
    config_perdir_create.

Lemma apache_fixup_correct_witness :
  exists code a' tr', banip_fixup (request "/wp-login.php" []) apache_on [] = (Ok code, a', tr') /\
    (code = HTTP_FORBIDDEN /\ sends tr' = (3, chars "1.2.3.4") :: sends []).
Proof.
  apply (apache_fixup_correct (request "/wp-login.php" []) apache_on
    (PosixQueue 3 None (MqAttr 10 1024)) []); [reflexivity|reflexivity|].
  apply Forall_cons_iff. split; [discriminate|].
  apply Forall_cons_iff. split; [intros _; by eexists|constructor].
Defined.

Lemma apache_filter_correct_witness :
  exists res a' tr',
    banip_output_filter (request "/" [("X-BanIP", "yes")]) apache_on [] = (Ok res, a', tr')
    /\ fst res = Some HTTP_FORBIDDEN /\ sends tr' = (3, chars "1.2.3.4") :: sends []
    /\ headers_out (snd res) = [] /\ err_headers_out (snd res) = [].
Proof.
  exact (apache_filter_correct (request "/" [("X-BanIP", "yes")]) apache_on
    (PosixQueue 3 None (MqAttr 10 1024)) [] eq_refl).
Defined.

Lemma apache_post_config_inverted_witness :
  exists a' tr', banip_post_config false apache_on [] = (Ok HTTP_INTERNAL_SERVER_ERROR, a', tr')
    /\ (true = false -> a_queue a' = Some (PosixQueue 3 None (MqAttr 10 1024)) /\ tr' = []).
Proof.
  edestruct (apache_post_config_inverted apache_on [] "/banipd" (replicate 80 "?"%char) 0 (Proc 0 None)
    true (PosixQueue 3 None (MqAttr 10 1024))) as (a' & tr' & Hrun & _);
    [reflexivity|reflexivity|reflexivity|reflexivity|vm_compute; reflexivity|].
  exists a', tr'. split; [exact Hrun|discriminate].
Defined.

Lemma apache_get_stale_witness :
  exists a1, lookup_get "x" (request "/" []) apache_on [] = (Ok (Some "1"), a1, [])
    /\ fst (fst (lookup_get "x" (Request "/" [] [] [] [("x", "2")] "5.6.7.8" [] []) a1 [])) = Ok (Some "1").
Proof.
  exact (apache_get_stale "x" "x" (request "/" []) (Request "/" [] [] [] [("x", "2")] "5.6.7.8" [] [])
    apache_on [] eq_refl).
Defined.

Definition directives : list directive :=
  [ Directive "BanIPQueue" false (Take1 "/banipd"); Directive "BanIPEnable" false (Flag true);
    Directive "BanIPRule" false (Argv ["=/admin"]); Directive "BanIPRule" false (Argv ["HTTP:User-Agent"; "=bot"]);
    Directive "BanIPRule" false (Argv ["/wp-"]) ].

(** A system without the queue. *)
Definition env_no_queue : Env := override (fun A _ c =>
  match c in sys A return option (A * Z) with Mq_open _ _ _ _ => Some (-1, 2) | _ => None end).
#[local] Remove Hints env_default : typeclass_instances.
#[local] Existing Instance env_no_queue.

(** The server after [directives]. *)
Definition apache_admin : apache :=
  set_sconf (ServerConf (Some "/banipd") true
    [ Rule None "/admin" None String_compiler; Rule (Some "HTTP:User-Agent") "bot" None String_compiler;
      Rule None "/wp-" (Some "/wp-") Regex_compiler ]) apache0.

Lemma rule_added argv w p rule ds a a' :
  argv = match w with None => [p] | Some w => [w; p] end -> compile_rule p = (None, rule) ->
  configured ds (set_sconf (ServerConf (squeue (sconf a)) (enabled (sconf a))
    (srules (sconf a) ++ [Rule w (pattern rule) (regexp rule) (compiler rule)])) a) a' ->
  configured (Directive "BanIPRule" false (Argv argv) :: ds) a a'.
Proof.
  intros -> Hp Hds.
  eapply (configured_cons (Directive _ _ _) _ (AP_INIT_TAKE_ARGV cmd_banip_rule) _ _ [] _ []);
    [reflexivity|right; right; left|reflexivity| |exact Hds].
  unfold cmd_banip_rule. destruct w; rewrite Hp; reflexivity.
Qed.

Lemma directives_configured : configured directives apache0 apache_admin.
Proof.
  unfold directives.
  eapply (configured_cons _ _ _ _ _ []); [reflexivity|right; left|reflexivity|reflexivity|].
  eapply (configured_cons _ _ _ _ _ []); [reflexivity|left|reflexivity|reflexivity|].
  eapply (rule_added _ None); [reflexivity|reflexivity|].
  eapply (rule_added _ (Some _)); [reflexivity|reflexivity|].
  eapply (rule_added _ None); [reflexivity|reflexivity|].
  constructor.
Qed.

Lemma admin_started :
  let '(o, a1, tr1) := banip_post_config false apache_admin [] in
  o = Ok OK /\ pq_mq <$> a_queue a1 = Some (-1) /\ sends tr1 = [].
Proof. vm_compute. auto. Qed.

